(* ===== verification/_CoqProject ===== *)
-Q . S2P
Prelude.v
Stdio.v
Types.v
Json.v
Keys.v
InputMapper.v
InputMapperFacts.v
InputSafety.v
ComboFacts.v
ComboRuns.v
Database.v
Terminal.v
TerminalFacts.v
MacroJson.v
Settings.v
Ports.v
Registry.v
Dispatch.v
Server.v
Peers.v
PeerFacts.v
Apps.v
AppFacts.v
PortLink.v
Frames.v
WireGuard.v
KeySim.v
Daemon.v
DaemonFacts.v
MapperLife.v
Startup.v
System.v
Client.v
Remote.v
Gitignore.v
GitignoreFacts.v
CleanBetween.v
TermBuffer.v
TermControl.v
TermControlFacts.v
SendKeys.v
Utils.v
MySQL.v
Portal.v
VirtualKeyboard.v
Main.v
