(* ===== verification/Prelude.v ===== *)
(** * A verification library for automateLinux

    The program is the daemon of src/daemon/: a C++ process that filters and rewrites
    the input of the keyboard and mouse, keeps the directory history of the user's
    terminals, the settings, the applications and the port registry in a MySQL database
    it runs itself, forms a network with the daemons of other machines, and answers
    commands that local clients, peers and a leader send as lines of JSON over sockets.
    Beside it stand the client of that daemon and the tools of src/utilities/.  This
    library models their own logic, one definition per function, method or handler, and
    proves what each part is there to guarantee.

    ** How the parts fit together

    A user's command line is turned into a line of JSON by ClientSender.cpp.  A line
    received by DaemonServer.cpp is parsed and given to mainCommand, which validates it
    against COMMAND_REGISTRY and runs the handler of COMMAND_HANDLERS.  The handlers act
    on the globals: the InputMapper, the database tables, the list of terminals, the
    sockets of the extensions, the peer manager and the application manager.  Beside
    that, the input thread runs InputMapper::processEvent on every event of the grabbed
    devices, and a heartbeat thread keeps the connection to the leader.

    ** Files and sources

    - Prelude (this file): exceptions and the state-and-exception monad of the
      handlers, std::string, std::map and std::set, std::stoi and std::to_string,
      machine integers, the exception-like outcome [IntOverflow] of a sum that leaves
      the ints, the shared tactics and hints.  Stdio: C strings, fgets, reading
      a pipe to its end, atoi, the interface [Qsort].
    - Types (include/Types.h, Constants.h, Utils.cpp): results, signatures, AppType,
      log masks.  Json: JSON values and the nlohmann accessors the handlers use.
    - Keys (InputMapper.h, MacroConfig.cpp): key codes, triggers, actions and the
      built-in macros.
    - InputMapper (InputMapper.h, InputMapper.cpp): the state of the class as the
      record [IM], with the module [SuppressionRegistry], the combo engine, the
      pipeline stageContext, stageGKey, stageMacros, emitFinal of processEvent, grabbing,
      the emergency exits, start and stop.  InputMapperFacts and InputSafety prove
      theorems about single events, ComboFacts the invariant of the combos under every
      step of the mapper, ComboRuns what a run of matching events and a break do.
    - Database (DatabaseTableManagers.cpp): the seven tables as the record [DB], a
      module per table class.  Settings: the interface [SettingsStore] of the settings
      table, with its laws, and the table as an instance.
    - Terminal (terminal.cpp, cmdTerminal.cpp), with TerminalFacts.
    - MacroJson (InputMapper.cpp): macros and event filters as JSON and their
      persistence.
    - Ports (cmdPort.cpp, the allocators of cmdApp.cpp), over [SettingsStore].
    - Registry and Dispatch (mainCommand.cpp): the command registry, the dispatch
      table, validateCommand, mainCommand, the thread of a slow command.
    - Server (DaemonServer.cpp): the clients, peers and leader of the select loop, on
      the interface [DaemonWorld], which the dispatcher implements.
    - Peers (PeerManager.cpp, cmdPeer.cpp): roles, the leader link and its heartbeat,
      connections to peers and the peer commands, on a record of system calls;
      PeerFacts.  PortLink puts the port commands on the same connection.
    - Apps (cmdApp.cpp): applications, their services, ports, builds and deployment;
      AppFacts.
    - WireGuard (cmdWireGuard.cpp): the WireGuard and RDP commands and the parser of the
      listing.
    - KeySim (cmdInput.cpp, KeyNames.h): typing, named keys, the rate limit.
    - Daemon (AutomationManager.cpp, KeyboardManager.cpp, cmdWindow.cpp,
      cmdBrowser.cpp, cmdInput.cpp, cmdLogging.cpp, cmdDatabase.cpp, cmdSystem.cpp):
      the whole daemon as one state and the handlers on it; [run_handler] dispatches
      every handler of every file.  Frames says which tables a computation writes,
      MapperLife what the commands do to the mapper and every state it reaches,
      macros replaced and restored included; DaemonFacts proves theorems about
      the whole.
    - Startup (main.cpp, initialize_daemon) and System (the daemon's threads and
      restarts as one step relation).  Main (main.cpp): the modes of the program, and
      what mode "daemon" starts and stops, with the database server.
    - MySQL (MySQLManager.cpp): starting, waiting for, setting up and stopping the
      server.  Utils (Utils.cpp, system.cpp): the log, the tab of a window title, text
      helpers, the output of a command.
    - Client (ClientSender.cpp, mode "send" of main.cpp), aborted when dump() refuses the
      text of an argument.  Remote: two daemons, one of which runs a command on the
      other.
    - The tools: Gitignore and GitignoreFacts (fileSize, lastChanged), CleanBetween,
      TermBuffer, TermControl and TermControlFacts (termcontrol), SendKeys,
      VirtualKeyboard (sendKeysUInput), Portal (portal-handler).

    ** What the theorems show

    - Input: processEvent terminates; the bookkeeping of combos stays in bounds and
      consistent in every reachable state; a context switch leaves no key down and no
      combo in progress (events withheld while the macros are replaced are the exception
      in both: nothing gives them back); the events of a macro write nothing until the
      last one fires it, once; breaking a combo gives its events back; nothing is written in
      monitoring mode; Pause, three ScrollLocks and NumLock release the devices, and
      NumLock off does not grab them again; the G-key recogniser; start and stop.
    - Terminals: the history is numbered without gaps, bounded, and every session
      points into it, for the terminal handlers and through the whole dispatcher;
      updateDirHistory, cd backward and forward, pruning.
    - JSON: what loading macros does on every branch, what survives an export and an
      import, what survives a restart.
    - Ports: the registry is a map; a worker forwards; allocations are lowest, in
      range and disjoint.
    - Commands: every command is answered by one message, that of the refusal or of its
      handler, and closed, kept or handed over by its name; validation; a slow command runs twice; the two tables agree but
      for four names; which tables each handler may write.
    - Server: the way bytes are cut into reads does not matter; a round of the select
      loop ends.
    - Peers: the leader link refines a machine of three states, also where a closed
      descriptor is reused; what a command on another peer sends and answers; the
      registry of the leader is a map; how a worker finds an address.  Two daemons
      together: a command sent to a peer runs there twice, its second answer is taken
      for the answer to the next command, and the loop of the peer ends up selecting on
      a closed descriptor, serving nobody until another of its threads happens to open a
      descriptor with that number.
    - The lifetime of the program: through every command, thread, event and restart the
      registry of applications, the link to the leader and the combos of the mapper stay
      in order.
    - Applications: adding and removing an application are inverse, the waiting for ports ends, the
      order of starting, stopping and deploying.
    - Client: a typed command reaches its handler and its answer comes back; the client
      refuses what the server would, its own reserved options apart; what cannot be
      typed.
    - Start-up: a restarted process restores what the tables hold.
    - MySQL and main: the start does its work in one order with at most fifty waits,
      or nothing after a copy that fails; a stop is final; a daemon that ends gives back what it took; a second daemon ends
      the database of the first.
    - Simulated input: a typed text is what a US keyboard shows; the named keys; the
      rate limit of a burst of events.
    - Tools: fileSize lists what scoped .gitignore files would let it list, as long as
      its arrays have room; cleanBetween
      removes exactly the blank lines inside braces; termcontrol shows a text cell by
      cell and leaves the terminal as it found it; sendKeys leaves no key held; the
      virtual keyboard is either up or gone; a portal session starts over at most once,
      is reported only when granted, and its token is offered to the next run.
    Theorems and examples that record a behaviour the comments or names of the code deny
    say so in their own comments.

    ** Modelling decisions

    - A handler is a function of the state-and-exception monad [M]: a thrown exception
      keeps the state reached.  A computation that may run out of fuel returns an
      option or an outcome with a case for it, and a theorem says which fuel is enough:
      processEvent has fuel 2, because a G key causes one nested call and its virtual
      code never another ([process_total]); the line loops of the server have one more
      than the length of the buffer ([daemon_round_total]); the walk over a tree has its
      depth ([file_size_is_scoped]); the set-up of a portal session has 2
      ([setup_starts_over_once]); reading a pipe and substituting a variable have the
      length of the text.  Loops with a counter in the code (the allocators, the waits
      for ports and for MySQL) recurse on what is left of it.
    - Mutexes make the operations atomic.  Where the code waits with its locks released
      (grabDevices) the calls that other threads make meanwhile are part of the
      environment.  Threads of slow commands run whole, in any order.
    - The k-th system call of a peer manager may answer otherwise than an earlier call
      with the same arguments, the run of a shell command included.
    - Clocks, the results of system calls, the file system, the shell and the sockets
      are arguments ([Env], [OpenOutcome], [Link], [HandlerEnv], [NetEnv], [AppEnv],
      [MySQLEnv], ...).  nlohmann's parse, dump and what(), fnmatch and qsort are
      parameters or interfaces; a law about them is a named hypothesis or a field of the
      interface.
    - Integers are [Z]; the conversions of the code to 16, 32 and 64 bits are written
      out ([to_uint16], [to_int32], [to_uint32]), and termcontrol, whose positions come
      from its command line, adds and counts with ints that overflow ([IntOverflow],
      which no handler of the model catches).  A std::map is the list of its
      entries in key order, which is the order the code iterates in.
    - A statement on an open database connection succeeds; [connected] says whether
      there is one.  Keys are compared exactly; the collation of the columns and the
      lengths of their values are not modelled.  Log lines of the daemon are not part of its state.

    ** Not modelled

    What only calls a library or the system: httpGet (libcurl), the bodies of the D-Bus
    and database calls, ioctl on the devices.  The name tables of Constants.h and
    KeyNames.h that nothing else of the model uses, the copy of gitignore.c in
    lastChanged (its text is that of fileSize), the example programs of termcontrol, the
    first version of the portal's response callback (never registered), and the parts in
    other languages: shell scripts, browser extensions, desktop tools. *)

From Stdlib Require Export ZArith Lia Ascii String.
From stdpp Require Export base tactics list gmap strings pretty numbers option sorting.

#[global] Open Scope Z_scope.
#[global] Arguments String.append : simpl nomatch.

(** ** Automation shared by the files of the development *)

(** The rewrite and resolution lemmas of the C++ containers and strings. *)
Create HintDb daemon.
Create Rewrite HintDb daemon.

(** [simp_cases] splits every [if], [match] and [decide] that blocks the goal
    and closes the contradictory branches. *)
Ltac simp_cases :=
  repeat (case_match || case_decide); simplify_eq/=; try done.

(** [bool_prop] turns boolean connectives and comparisons into propositions. *)
Ltac bool_prop :=
  repeat match goal with
  | H : (_ && _)%bool = true |- _ => apply andb_true_iff in H as [? ?]
  | H : (_ || _)%bool = false |- _ => apply orb_false_iff in H as [? ?]
  | H : negb _ = true |- _ => apply negb_true_iff in H
  | H : negb _ = false |- _ => apply negb_false_iff in H
  | H : Z.eqb _ _ = true |- _ => apply Z.eqb_eq in H
  | H : Z.eqb _ _ = false |- _ => apply Z.eqb_neq in H
  | H : Z.leb _ _ = true |- _ => apply Z.leb_le in H
  | H : Z.leb _ _ = false |- _ => apply Z.leb_gt in H
  | H : Z.ltb _ _ = true |- _ => apply Z.ltb_lt in H
  | H : Z.ltb _ _ = false |- _ => apply Z.ltb_ge in H
  end.

(** ** C++ exceptions and the state-and-exception monad of the handlers

    A handler reads and changes the daemon's state and may throw.  The state
    it had reached when it threw is kept, as in C++. *)
Inductive exn :=
  | JsonTypeError       (* nlohmann::json::type_error *)
  | JsonOutOfRange      (* nlohmann::json::out_of_range *)
  | JsonParseError      (* nlohmann::json::parse_error *)
  | JsonInvalidIterator (* nlohmann::json::invalid_iterator *)
  | InvalidArgument     (* std::invalid_argument, from stoi and friends *)
  | OutOfRange          (* std::out_of_range, from stoi and friends *)
  | IntOverflow.        (* no exception: an int overflowed, the run is undefined *)

#[export] Instance exn_eq_dec : EqDecision exn.
Proof. solve_decision. Defined.

Inductive outcome (A : Type) :=
  | Ok (a : A)
  | Throw (e : exn).
Arguments Ok {A} a.
Arguments Throw {A} e.

#[export] Instance outcome_eq_dec {A} `{EqDecision A} : EqDecision (outcome A).
Proof. solve_decision. Defined.

#[export] Instance outcome_ret : MRet outcome := fun A a => Ok a.
#[export] Instance outcome_bind : MBind outcome := fun A B f m =>
  match m with Ok a => f a | Throw e => Throw e end.

#[export] Instance outcome_fmap : FMap outcome := fun A B f m =>
  match m with Ok a => Ok (f a) | Throw e => Throw e end.

Definition M (W A : Type) : Type := W -> W * outcome A.

#[export] Instance M_ret W : MRet (M W) := fun A a w => (w, Ok a).
#[export] Instance M_bind W : MBind (M W) := fun A B f m w =>
  match m w with
  | (w', Ok a) => f a w'
  | (w', Throw e) => (w', Throw e)
  end.

Definition bindM {W A B} (m : M W A) (k : A -> M W B) : M W B := M_bind W A B k m.

Declare Scope handler_scope.
Delimit Scope handler_scope with handler.
Notation "'let!' x := m 'in' k" := (bindM m (fun x => k))
  (at level 10, x pattern, m at level 99, k at level 200) : handler_scope.
#[global] Open Scope handler_scope.

(** Lift a computation that only may throw, a read and an update. *)
Definition lift {W A} (o : outcome A) : M W A := fun w => (w, o).
Definition gets {W A} (f : W -> A) : M W A := fun w => (w, Ok (f w)).
Definition modify {W} (f : W -> W) : M W unit := fun w => (f w, Ok tt).

(** [try { m } catch (...) { h }] *)
Definition try_catch {W A} (m : M W A) (h : exn -> M W A) : M W A := fun w =>
  match m w with
  | (w', Ok a) => (w', Ok a)
  | (w', Throw e) => h e w'
  end.

(** The first statement of a sequence. *)
Lemma bindM_ok {W A B} (m : M W A) (k : A -> M W B) (w w' : W) (a : A) :
  m w = (w', Ok a) -> bindM m k w = k a w'.
Proof. intros E. unfold bindM, M_bind. by rewrite E. Qed.
Lemma bindM_throw {W A B} (m : M W A) (k : A -> M W B) (w w' : W) (e : exn) :
  m w = (w', Throw e) -> bindM m k w = (w', Throw e).
Proof. intros E. unfold bindM, M_bind. by rewrite E. Qed.
Lemma bindM_gets {W A B} (f : W -> A) (k : A -> M W B) (w : W) : bindM (gets f) k w = k (f w) w.
Proof. done. Qed.
Lemma bindM_modify {W B} (f : W -> W) (k : unit -> M W B) (w : W) :
  bindM (modify f) k w = k tt (f w).
Proof. done. Qed.
Lemma bindM_ret {W A B} (a : A) (k : A -> M W B) (w : W) : bindM (mret a) k w = k a w.
Proof. done. Qed.
Lemma bindM_lift_ok {W A B} (a : A) (k : A -> M W B) (w : W) : bindM (lift (Ok a)) k w = k a w.
Proof. done. Qed.
Lemma bindM_assoc {W A B C} (m : M W A) (k : A -> M W B) (h : B -> M W C) (w : W) :
  bindM (bindM m k) h w = bindM m (fun a => bindM (k a) h) w.
Proof. unfold bindM, M_bind. by destruct (m w) as [? []]. Qed.

#[export] Hint Rewrite @bindM_gets @bindM_modify @bindM_ret @bindM_lift_ok : handler.

(** ** std::string *)
Module Str.
(** [s.find(p) == 0] *)
Definition starts_with (p s : string) : bool := String.prefix p s.

(** [s.find(p) != npos] *)
Definition contains (p s : string) : bool :=
  match String.index 0 p s with Some _ => true | None => false end.

(** [s.empty()] *)
Definition empty (s : string) : bool := match s with EmptyString => true | _ => false end.

(** [s.back()], defined on a non-empty string. *)
Fixpoint back (s : string) : option ascii :=
  match s with
  | EmptyString => None
  | String c EmptyString => Some c
  | String _ s' => back s'
  end.

(** [s.pop_back()] *)
Fixpoint pop_back (s : string) : string :=
  match s with
  | EmptyString => EmptyString
  | String c EmptyString => EmptyString
  | String c s' => String c (pop_back s')
  end.

Definition ends_with_char (c : ascii) (s : string) : bool :=
  match back s with Some d => bool_decide (d = c) | None => false end.

(** [s.substr(k)] for [k <= s.size()] *)
Fixpoint drop (k : nat) (s : string) : string :=
  match k, s with
  | O, _ => s
  | S k', String _ s' => drop k' s'
  | S _, EmptyString => EmptyString
  end.

(** [s.substr(0, k)] *)
Fixpoint take (k : nat) (s : string) : string :=
  match k, s with
  | S k', String c s' => String c (take k' s')
  | _, _ => EmptyString
  end.

(** [s.size() > n && s.substr(s.size() - n) == p], for a [p] of length n *)
Definition has_suffix (p s : string) : bool :=
  (Nat.ltb (String.length p) (String.length s)) &&
  bool_decide (drop (String.length s - String.length p) s = p).

(** The lines getline gives. *)
Fixpoint split_lines (s : string) : list string :=
  match s with
  | EmptyString => []
  | String c s' =>
      if decide (c = "010"%char) then EmptyString :: split_lines s'
      else match split_lines s' with
           | [] => [String c EmptyString]
           | l :: rest => String c l :: rest
           end
  end.

(** [std::transform(..., ::tolower)] in the C locale *)
Definition tolower_char (c : ascii) : ascii :=
  let n := nat_of_ascii c in
  if (Nat.leb 65 n && Nat.leb n 90)%bool then ascii_of_nat (n + 32) else c.
Fixpoint tolower (s : string) : string :=
  match s with
  | EmptyString => EmptyString
  | String c s' => String (tolower_char c) (tolower s')
  end.

Lemma append_nil_r (s : string) : (s +:+ "")%string = s.
Proof. induction s as [|c s IH]; simpl; [done|]. by rewrite IH. Qed.

Lemma append_assoc (a b c : string) :
  ((a +:+ b) +:+ c = a +:+ (b +:+ c))%string.
Proof. induction a as [|x a IH]; simpl; [done|]. by rewrite IH. Qed.

Lemma back_snoc (s : string) (c : ascii) : back (s +:+ String c "") = Some c.
Proof.
  induction s as [|d s IH]; [done|]. simpl.
  destruct s as [|e s]; [done|]. exact IH.
Qed.

Lemma append_empty (a b : string) : (a +:+ b)%string = "" -> a = "" /\ b = "".
Proof. destruct a; simpl; [done|discriminate]. Qed.

Lemma prefix_append (a b : string) : String.prefix a (a +:+ b) = true.
Proof. induction a as [|c a IH]; simpl; [by destruct b|]. by destruct (ascii_dec c c). Qed.

Lemma starts_with_drop (p s : string) :
  starts_with p s = true -> s = (p +:+ drop (String.length p) s)%string.
Proof.
  unfold starts_with. revert s. induction p as [|c p IH]; intros [|d s]; simpl; try done.
  destruct (ascii_dec c d) as [<-|]; [|done]. intros H. f_equal. by apply IH.
Qed.

Lemma drop_append (a b : string) : drop (String.length a) (a +:+ b) = b.
Proof. induction a as [|c a IH]; [by destruct b|]. exact IH. Qed.
End Str.

#[export] Hint Rewrite Str.append_nil_r Str.back_snoc Str.drop_append : daemon.

(** ** Machine integers *)
Definition INT_MIN : Z := -2147483648.
Definition INT_MAX : Z := 2147483647.
Definition is_int32 (z : Z) : bool := (INT_MIN <=? z) && (z <=? INT_MAX).

(** [static_cast<uint16_t>] and [static_cast<int32_t>] of an integer *)
Definition to_uint16 (z : Z) : Z := z mod 65536.
Definition to_int32 (z : Z) : Z := (z + 2147483648) mod 4294967296 - 2147483648.
Definition to_uint32 (z : Z) : Z := z mod 4294967296.

(** ** std::to_string and std::stoi *)
Module Num.
Definition to_string (z : Z) : string := pretty z.

Definition digit (c : ascii) : option Z :=
  let n := Z.of_nat (nat_of_ascii c) in
  if (48 <=? n) && (n <=? 57) then Some (n - 48) else None.

(** isspace in the C locale *)
Definition is_space (c : ascii) : bool :=
  let n := nat_of_ascii c in (Nat.eqb n 32 || (Nat.leb 9 n && Nat.leb n 13))%bool.

Fixpoint skip_space (s : string) : string :=
  match s with
  | String c s' => if is_space c then skip_space s' else s
  | EmptyString => EmptyString
  end.

(** The longest run of digits, added to [acc]: the value and the rest. *)
Fixpoint digits (acc : Z) (s : string) : Z * string :=
  match s with
  | String c s' =>
      match digit c with
      | Some d => digits (acc * 10 + d) s'
      | None => (acc, s)
      end
  | EmptyString => (acc, EmptyString)
  end.

(** strtol in base 10: the value (unbounded) and the unread rest, or [None]
    when no digit is read *)
Definition strtol (s : string) : option (Z * string) :=
  let unsigned (sgn : Z) (t : string) :=
    match t with
    | String c _ =>
        match digit c with
        | Some _ => let '(v, rest) := digits 0 t in Some (sgn * v, rest)
        | None => None
        end
    | EmptyString => None
    end in
  match skip_space s with
  | String c t =>
      if decide (c = "-"%char) then unsigned (-1) t
      else if decide (c = "+"%char) then unsigned 1 t
      else unsigned 1 (String c t)
  | EmptyString => None
  end.

(** std::stoi: [invalid_argument] without digits, [out_of_range] outside int *)
Definition stoi (s : string) : outcome Z :=
  match strtol s with
  | None => Throw InvalidArgument
  | Some (v, _) => if is_int32 v then Ok v else Throw OutOfRange
  end.

(** Printing and reading back. *)
Lemma digit_pretty (d : N) : (d < 10)%N -> digit (pretty_N_char d) = Some (Z.of_N d).
Proof.
  intros H.
  assert (d = 0 \/ d = 1 \/ d = 2 \/ d = 3 \/ d = 4 \/ d = 5 \/ d = 6 \/ d = 7
          \/ d = 8 \/ d = 9)%N as Hd by lia.
  by repeat (destruct Hd as [->|Hd] || subst d).
Qed.

Lemma digits_go (x : N) (acc : Z) (s : string) :
  exists k : Z, 0 <= k /\
    digits acc (pretty_N_go x s) = digits (acc * k + Z.of_N x) s.
Proof.
  revert acc s. induction (N.lt_wf_0 x) as [x _ IH]; intros acc s.
  destruct (decide (x = 0)%N) as [->|Hx].
  { exists 1. rewrite pretty_N_go_0. split; [lia|]. f_equal. lia. }
  rewrite pretty_N_go_step by lia.
  destruct (IH (x `div` 10)%N ltac:(apply N.div_lt; lia) acc
              (String (pretty_N_char (x `mod` 10)) s)) as (k & Hk & ->).
  exists (k * 10). split; [lia|]. simpl.
  rewrite digit_pretty by (apply N.mod_lt; lia). f_equal.
  assert (Z.of_N x = 10 * Z.of_N (x `div` 10) + Z.of_N (x `mod` 10)) as E.
  { rewrite <- (N2Z.inj_mul 10), <- N2Z.inj_add. f_equal. apply N.div_mod. lia. }
  rewrite E. ring.
Qed.

Lemma pretty_head (x : N) (s : string) :
  (0 < x)%N -> exists c t d, pretty_N_go x s = String c t /\ digit c = Some d.
Proof.
  revert s. induction (N.lt_wf_0 x) as [x _ IH]; intros s Hx.
  rewrite pretty_N_go_step by lia.
  destruct (decide (x `div` 10 = 0)%N) as [E|E].
  - rewrite E, pretty_N_go_0. eexists _, _, _. split; [done|].
    apply digit_pretty. apply N.mod_lt; lia.
  - apply IH; [apply N.div_lt; lia | by apply N.neq_0_lt_0].
Qed.

Lemma digit_not_sign (c : ascii) (d : Z) :
  digit c = Some d -> is_space c = false /\ c <> "-"%char /\ c <> "+"%char.
Proof.
  unfold digit, is_space. intros H. case_match; [|done]. bool_prop.
  repeat split; [|intros ->; vm_compute in *; congruence..].
  apply orb_false_iff; split; [apply Nat.eqb_neq; lia|].
  apply andb_false_iff. right. apply Nat.leb_gt. lia.
Qed.

Lemma digits_pretty (n : N) :
  exists c t d, pretty n = String c t /\ digit c = Some d /\
    digits 0 (String c t) = (Z.of_N n, "").
Proof.
  destruct (decide (n = 0)%N) as [->|Hn]; [by exists "0"%char, "", 0|].
  unfold pretty, pretty_N. rewrite decide_False by done.
  destruct (pretty_head n "" ltac:(lia)) as (c & t & d & E & Hd).
  exists c, t, d. rewrite <- E. repeat split; [done..|].
  by destruct (digits_go n 0 "") as (k & _ & ->).
Qed.

Lemma strtol_to_string (z : Z) : strtol (to_string z) = Some (z, "").
Proof.
  destruct z as [|p|p]; [done|..];
    destruct (digits_pretty (Npos p)) as (c & t & d & Ep & Hd & E);
    destruct (digit_not_sign c d Hd) as (Hs & Hm & Hp).
  - change (to_string (Z.pos p)) with (pretty (Npos p)). rewrite Ep. unfold strtol.
    cbn [skip_space]. rewrite Hs, !decide_False by done. rewrite Hd, E.
    repeat f_equal; lia.
  - change (to_string (Z.neg p)) with ("-" +:+ pretty (Npos p))%string. rewrite Ep.
    unfold strtol. cbn [skip_space String.append is_space].
    change (is_space "-"%char) with false. cbn iota. rewrite decide_True by done.
    rewrite Hd, E. repeat f_equal; lia.
Qed.

(** [stoi(to_string(z)) = z] for every int. *)
Lemma stoi_to_string (z : Z) : is_int32 z = true -> stoi (to_string z) = Ok z.
Proof. intros H. unfold stoi. by rewrite strtol_to_string, H. Qed.

Lemma to_string_nonempty (z : Z) : Str.empty (to_string z) = false.
Proof.
  destruct (to_string z) eqn:E; [|done].
  pose proof (strtol_to_string z) as H. by rewrite E in H.
Qed.
End Num.

#[export] Hint Resolve Num.stoi_to_string Num.to_string_nonempty : daemon.

(** ** std::map and std::set

    A [std::map] is the list of its entries in ascending key order, which is
    the order in which the code iterates over it.  The lookup laws hold for
    every list; only statements about the iteration order need [sorted]. *)
Class OrdKey (K : Type) `{EqDecision K} := {
  key_ltb : K -> K -> bool;
  key_irrefl k : key_ltb k k = false;
  key_trans k1 k2 k3 : key_ltb k1 k2 = true -> key_ltb k2 k3 = true -> key_ltb k1 k3 = true;
  key_total k1 k2 : k1 <> k2 -> key_ltb k1 k2 = false -> key_ltb k2 k1 = true;
}.

#[export] Program Instance ord_Z : OrdKey Z := {| key_ltb := Z.ltb |}.
Next Obligation. intros; lia. Qed.
Next Obligation. intros; lia. Qed.
Next Obligation. intros; lia. Qed.

#[export] Program Instance ord_nat : OrdKey nat := {| key_ltb := Nat.ltb |}.
Next Obligation. intros; apply Nat.ltb_irrefl. Qed.
Next Obligation. intros ???; rewrite !Nat.ltb_lt; lia. Qed.
Next Obligation. intros ??; rewrite Nat.ltb_lt, Nat.ltb_ge; lia. Qed.

Module StdMap.
Section ops.
Context {K V : Type} `{OrdKey K}.
Implicit Types (m : list (K * V)) (k : K) (v : V).

(** [m.find(k)] *)
Fixpoint find k m : option V :=
  match m with
  | [] => None
  | (k', v) :: m' => if decide (k = k') then Some v else find k m'
  end.

(** [m[k] = v] *)
Fixpoint insert k v m : list (K * V) :=
  match m with
  | [] => [(k, v)]
  | (k', v') :: m' =>
    if decide (k = k') then (k, v) :: m'
    else if key_ltb k k' then (k, v) :: m
    else (k', v') :: insert k v m'
  end.

(** [m.erase(k)] *)
Definition erase k m : list (K * V) := base.filter (fun p => p.1 <> k) m.

(** [m[k]] as an rvalue: the reference to an absent key inserts the
    default value. *)
Definition at_default k (d : V) m : V * list (K * V) :=
  match find k m with
  | Some v => (v, m)
  | None => (d, insert k d m)
  end.

(** Ascending keys. *)
Fixpoint sorted m : Prop :=
  match m with
  | [] => True
  | (k, _) :: m' => Forall (fun p => key_ltb k p.1 = true) m' /\ sorted m'
  end.

Lemma find_insert k v m : find k (insert k v m) = Some v.
Proof.
  induction m as [|[k' v'] m IH]; simpl; [by rewrite decide_True|].
  destruct (decide (k = k')) as [->|Hne]; simpl; [by rewrite decide_True|].
  destruct (key_ltb k k'); simpl; [by rewrite decide_True|].
  by rewrite decide_False.
Qed.

Lemma find_insert_ne k k' v m : k <> k' -> find k' (insert k v m) = find k' m.
Proof.
  intros Hne. induction m as [|[k0 v0] m IH]; simpl; [by rewrite decide_False|].
  destruct (decide (k = k0)) as [<-|]; simpl; [by rewrite !decide_False|].
  destruct (key_ltb k k0); simpl; [by rewrite (decide_False (P := k' = k))|].
  by rewrite IH.
Qed.

Lemma find_erase k m : find k (erase k m) = None.
Proof.
  induction m as [|[k' v'] m IH]; [done|]. unfold erase in *.
  rewrite filter_cons. simpl. case_decide; [|done]. simpl.
  by rewrite decide_False by congruence.
Qed.

Lemma find_erase_ne k k' m : k <> k' -> find k' (erase k m) = find k' m.
Proof.
  intros Hne. induction m as [|[k0 v0] m IH]; [done|]. unfold erase in *.
  rewrite filter_cons. simpl.
  destruct (decide (k0 <> k)) as [?|E]; simpl; [by rewrite IH|].
  apply dec_stable in E as ->. by rewrite decide_False by congruence.
Qed.

Lemma Forall_insert (P : K * V -> Prop) k v m :
  P (k, v) -> Forall P m -> Forall P (insert k v m).
Proof.
  intros Hk Hm. induction Hm as [|[k' v'] m Hp Hm IH]; simpl; [by repeat constructor|].
  by repeat (case_decide || case_match); repeat constructor.
Qed.

Lemma sorted_insert k v m : sorted m -> sorted (insert k v m).
Proof.
  induction m as [|[k' v'] m IH]; simpl; [by repeat constructor|]. intros [Hf Hs].
  destruct (decide (k = k')) as [->|Hne]; [done|].
  destruct (key_ltb k k') eqn:E; simpl.
  - split; [|done]. constructor; [done|].
  eapply Forall_impl; [exact Hf|]. intros p. by apply key_trans.
  - split; [|by apply IH]. apply Forall_insert; [by apply key_total|done].
Qed.

Lemma sorted_erase k m : sorted m -> sorted (erase k m).
Proof.
  induction m as [|[k' v'] m IH]; simpl; [done|]. intros [Hf Hs]. unfold erase in *.
  rewrite filter_cons. case_decide; simpl; [|by apply IH].
  split; [|by apply IH]. rewrite Forall_forall in Hf |- *.
  intros p [_ Hp]%list_elem_of_filter. by apply Hf.
Qed.

Lemma find_Some_elem k v m : find k m = Some v -> (k, v) ∈ m.
Proof.
  induction m as [|[k' v'] m IH]; simpl; [done|]. case_decide; intros; simplify_eq.
  - by constructor.
  - constructor. by apply IH.
Qed.

Lemma at_default_find k d m v m' :
  at_default k d m = (v, m') -> find k m' = Some v /\ v = default d (find k m).
Proof.
  unfold at_default. destruct (find k m) eqn:E; intros; simplify_eq/=; [done|].
  by rewrite find_insert.
Qed.

Lemma at_default_ne k k' d m :
  k <> k' -> find k' (at_default k d m).2 = find k' m.
Proof.
  intros Hne. unfold at_default. destruct (find k m); simpl; [done|].
  by apply find_insert_ne.
Qed.
End ops.
End StdMap.

(** A second insertion replaces the first. *)
Lemma insert_insert_same {K V} `{OrdKey K} (k : K) (v v' : V) (m : list (K * V)) :
  StdMap.insert k v (StdMap.insert k v' m) = StdMap.insert k v m.
Proof.
  induction m as [|[k0 v0] m IH]; simpl; [by rewrite decide_True|].
  destruct (decide (k = k0)); simpl; [by rewrite decide_True|].
  destruct (key_ltb k k0) eqn:E; simpl; [by rewrite decide_True|].
  rewrite decide_False by done. by rewrite E, IH.
Qed.

(** Erasing a key that was just inserted. *)
Lemma erase_insert {K V} `{OrdKey K} (k : K) (v : V) (m : list (K * V)) :
  StdMap.erase k (StdMap.insert k v m) = StdMap.erase k m.
Proof.
  unfold StdMap.erase. induction m as [|[k0 v0] m IH]; simpl.
  - by rewrite filter_cons_False by (intros Hn; by apply Hn).
  - destruct (decide (k = k0)) as [<-|]; [by rewrite !filter_cons_False by (intros Hn; by apply Hn)|].
    destruct (key_ltb k k0); [by rewrite filter_cons_False by (intros Hn; by apply Hn)|].
    by rewrite !filter_cons, IH.
Qed.

(** Mapping the values of a map. *)
Lemma find_fmap_snd {K V V'} `{OrdKey K} (f : V -> V') (k : K) (m : list (K * V)) :
  StdMap.find k ((fun p => (p.1, f p.2)) <$> m) = f <$> StdMap.find k m.
Proof. induction m as [|[k' v] m IH]; simpl; [done|]. by case_decide. Qed.

#[export] Hint Rewrite @StdMap.find_insert @StdMap.find_erase : daemon.
#[export] Hint Resolve StdMap.sorted_insert StdMap.sorted_erase : daemon.

(** [std::set<uint16_t>]: the ascending list of its elements. *)
Module StdSet.
Fixpoint insert (x : Z) (s : list Z) : list Z :=
  match s with
  | [] => [x]
  | y :: s' => if x =? y then s else if x <? y then x :: s else y :: insert x s'
  end.

Definition erase (x : Z) (s : list Z) : list Z := base.filter (fun y => y <> x) s.

Lemma elem_of_insert x y s : y ∈ insert x s <-> y = x \/ y ∈ s.
Proof.
  induction s as [|z s IH]; simpl; [by rewrite list_elem_of_singleton, elem_of_nil; tauto|].
  destruct (Z.eqb_spec x z) as [->|]; [rewrite !elem_of_cons; tauto|].
  destruct (x <? z); rewrite ?elem_of_cons, ?IH; tauto.
Qed.

Lemma elem_of_erase x y s : y ∈ erase x s <-> y <> x /\ y ∈ s.
Proof. unfold erase. by rewrite list_elem_of_filter. Qed.
End StdSet.
