(* ===== verification/Stdio.v ===== *)
(** C strings and C input: what a buffer that read() or fgets() filled holds as a
    string, and reading to the end of a stream through fgets. *)

From S2P Require Import Prelude.

(** ** Strings with a terminator *)

Definition lf : ascii := "010"%char.
Definition eol : string := String lf "".

(** buffer[bytesRead] = 0; state.buffer += buffer: a NUL ends the chunk. *)
Fixpoint c_string (s : string) : string :=
  match s with
  | EmptyString => EmptyString
  | String c s' => if decide (c = "000"%char) then EmptyString else String c (c_string s')
  end.

Fixpoint no_nul (s : string) : bool :=
  match s with
  | EmptyString => true
  | String c s' => bool_decide (c <> "000"%char) && no_nul s'
  end.

Lemma c_string_no_nul s : no_nul s = true -> c_string s = s.
Proof.
  induction s as [|c s IH]; simpl; [done|]. intros [Hc%bool_decide_eq_true Hs]%andb_true_iff.
  by rewrite decide_False, IH.
Qed.

Lemma no_nul_append a b : no_nul (a +:+ b) = no_nul a && no_nul b.
Proof. induction a as [|c a IH]; simpl; [done|]. by rewrite IH, andb_assoc. Qed.

Lemma no_nul_concat l : forallb no_nul l = true -> no_nul (foldr String.append "" l) = true.
Proof.
  induction l as [|p l IH]; [done|]. cbn [foldr forallb]. intros [Hp Hl]%andb_true_iff.
  by rewrite no_nul_append, Hp, IH.
Qed.

(** No character of the string is [c]. *)
Fixpoint free_of (c : ascii) (s : string) : bool :=
  match s with
  | EmptyString => true
  | String d s' => bool_decide (d <> c) && free_of c s'
  end.

Lemma free_of_append c a b : free_of c (a +:+ b) = free_of c a && free_of c b.
Proof. induction a as [|d a IH]; [done|]. cbn. by rewrite IH, andb_assoc. Qed.

Lemma split_lines_line l rest :
  free_of lf l = true -> Str.split_lines (l +:+ eol +:+ rest)%string = l :: Str.split_lines rest.
Proof.
  induction l as [|c l IH]; [by destruct rest|]. cbn [free_of].
  intros [Hc%bool_decide_eq_true Hl]%andb_true_iff. cbn [String.app Str.split_lines].
  rewrite IH by done. by rewrite decide_False.
Qed.

Lemma split_lines_single l :
  l <> "" -> free_of lf l = true -> Str.split_lines l = [l].
Proof.
  induction l as [|c l IH]; [done|]. cbn [free_of].
  intros _ [Hc%bool_decide_eq_true Hl]%andb_true_iff. cbn [Str.split_lines]. rewrite decide_False by done.
  destruct l as [|d l]; [done|]. by rewrite IH.
Qed.

(** atoi: strtol, which stops at the ends of long, cut to an int; 0 when no digit is read. *)
Definition atoi (s : string) : Z :=
  match Num.strtol s with
  | Some (z, _) => to_int32 (Z.max (- 2 ^ 63) (Z.min (2 ^ 63 - 1) z))
  | None => 0
  end.

(** ** fgets *)

(** fgets into a buffer of [n + 1] bytes: up to [n] bytes and at most one line, and
    what is left to read. *)
Fixpoint fgets (n : nat) (s : string) : string * string :=
  match n, s with
  | S n', String c s' =>
      if decide (c = lf) then (String c EmptyString, s')
      else let '(chunk, rest) := fgets n' s' in (String c chunk, rest)
  | _, _ => (EmptyString, s)
  end.

(** while (fgets(buffer, size, pipe)) output += buffer, for a buffer of [n + 1] bytes;
    each turn reads a byte at least. *)
Fixpoint read_turns (fuel n : nat) (s : string) : string :=
  match fuel, s with
  | S fuel', String _ _ =>
      let '(chunk, rest) := fgets n s in (c_string chunk +:+ read_turns fuel' n rest)%string
  | _, _ => EmptyString
  end.
Definition read_pipe (n : nat) (s : string) : string := read_turns (String.length s) n s.

(** Reading through fgets loses nothing but what follows a NUL in a chunk. *)
Lemma fgets_split n s : let '(chunk, rest) := fgets n s in (chunk +:+ rest)%string = s.
Proof.
  revert n. induction s as [|c s IH]; intros [|n]; [done..|]. cbn [fgets].
  destruct (decide (c = lf)); [done|]. specialize (IH n). destruct (fgets n s) as [a b].
  cbn. by rewrite IH.
Qed.

Lemma fgets_progress n c s :
  (String.length (fgets (S n) (String c s)).2 <= String.length s)%nat.
Proof.
  cbn [fgets]. destruct (decide (c = lf)); [done|].
  pose proof (fgets_split n s) as H. destruct (fgets n s) as [a b]. subst s. cbn [snd].
  clear. induction a as [|d a IH]; cbn; lia.
Qed.

Lemma read_turns_id n fuel s :
  (String.length s <= fuel)%nat -> no_nul s = true -> read_turns fuel (S n) s = s.
Proof.
  revert s. induction fuel as [|fuel IH]; intros [|c s] Hf Hn; [done|cbn in Hf; lia|done|].
  cbn [read_turns]. pose proof (fgets_split (S n) (String c s)) as Hs.
  pose proof (fgets_progress n c s) as Hp. destruct (fgets (S n) (String c s)) as [chunk rest].
  cbn in Hf, Hp. rewrite <- Hs in Hn. rewrite no_nul_append in Hn.
  apply andb_true_iff in Hn as [Hc Hr].
  rewrite c_string_no_nul, IH by (done || lia). done.
Qed.

Lemma read_pipe_id n s : no_nul s = true -> read_pipe (S n) s = s.
Proof. by apply read_turns_id. Qed.

(** ** string.h *)

(** strchr and strrchr: what is before the first or the last [c], and after it. *)
Fixpoint strchr (c : ascii) (s : string) : option (string * string) :=
  match s with
  | EmptyString => None
  | String d s' =>
      if decide (d = c) then Some (EmptyString, s')
      else match strchr c s' with Some (a, b) => Some (String d a, b) | None => None end
  end.
Fixpoint strrchr (c : ascii) (s : string) : option (string * string) :=
  match s with
  | EmptyString => None
  | String d s' =>
      match strrchr c s' with
      | Some (a, b) => Some (String d a, b)
      | None => if decide (d = c) then Some (EmptyString, s') else None
      end
  end.

(** strcspn(s, "\r\n"): the text before the first end of line *)
Fixpoint before_eol (s : string) : string :=
  match s with
  | EmptyString => EmptyString
  | String c s' => if decide (c = lf \/ c = "013"%char) then EmptyString else String c (before_eol s')
  end.

(** while ( *p == ' ' || *p == '\t') p++ *)
Fixpoint skip_blanks (s : string) : string :=
  match s with
  | EmptyString => EmptyString
  | String c s' => if decide (c = " "%char \/ c = "009"%char) then skip_blanks s' else s
  end.

(** qsort: a permutation of the array in the order of the comparison, when that is a
    total preorder; elements that compare equal come in any order. *)
Class Qsort := {
  qsort : forall {A : Type}, (A -> A -> Z) -> list A -> list A;
  qsort_permutation : forall {A} (cmp : A -> A -> Z) l, qsort cmp l ≡ₚ l;
  qsort_sorted : forall {A} (cmp : A -> A -> Z) l,
    (forall a b, cmp a b <= 0 \/ cmp b a <= 0) ->
    (forall a b c, cmp a b <= 0 -> cmp b c <= 0 -> cmp a c <= 0) ->
    StronglySorted (fun a b => cmp a b <= 0) (qsort cmp l)
}.
