(* ===== verification/Types.v ===== *)
(** The data types shared by the daemon's components (include/Types.h and the
    application types of Utils.cpp): command results, command signatures,
    application types and the log categories of include/Constants.h. *)

From S2P Require Import Prelude.

(** Types.h: what a command handler returns. *)
Record CmdResult := mkCmdResult { status : Z; message : string }.

(** Types.h: one entry of the command registry. *)
Record CommandSignature := mkSig {
  sig_name : string;
  requiredArgs : list string;
  description : string;
  optionalArgs : string
}.

#[export] Instance CmdResult_eq_dec : EqDecision CmdResult.
Proof. solve_decision. Defined.

(** Types.h: the application the active window belongs to.  The constructors
    carry the order of the enumerators, which is the key order of the maps
    indexed by it. *)
Inductive AppType := OTHER | TERMINAL | CHROME | CODE.

#[export] Instance AppType_eq_dec : EqDecision AppType.
Proof. solve_decision. Defined.

Definition app_index (a : AppType) : Z :=
  match a with OTHER => 0 | TERMINAL => 1 | CHROME => 2 | CODE => 3 end.

#[export] Program Instance ord_AppType : OrdKey AppType :=
  {| key_ltb a b := app_index a <? app_index b |}.
Next Obligation. intros []; reflexivity. Qed.
Next Obligation. intros [] [] []; simpl; lia. Qed.
Next Obligation. intros [] []; simpl; (congruence || lia). Qed.

(** Constants.h: the window classes. *)
Definition wmClassTerminal : string := "gnome-terminal-server".
Definition wmClassCode : string := "code".
Definition wmClassChrome : string := "google-chrome".
Definition wmClassAntigravity : string := "Antigravity".

(** Utils.cpp, stringToAppType *)
Definition stringToAppType (appName : string) : AppType :=
  if decide (appName = wmClassTerminal) then TERMINAL
  else if decide (appName = wmClassChrome \/ appName = "google-chrome") then CHROME
  else if decide (appName = wmClassCode \/ appName = "code") then CODE
  else
    let lower := Str.tolower appName in
    if (Str.contains "antigravity" lower || Str.contains "chatgpt" lower)%bool
    then CHROME
    else OTHER.

(** Utils.cpp, appTypeToString *)
Definition appTypeToString (type : AppType) : string :=
  match type with
  | TERMINAL => "TERMINAL"
  | CHROME => "CHROME"
  | CODE => "CODE"
  | OTHER => "OTHER"
  end.

(** Constants.h: the log categories. *)
Definition LOG_NONE : Z := 0.
Definition LOG_INPUT : Z := Z.shiftl 1 0.
Definition LOG_WINDOW : Z := Z.shiftl 1 1.
Definition LOG_AUTOMATION : Z := Z.shiftl 1 2.
Definition LOG_CORE : Z := Z.shiftl 1 3.
Definition LOG_MACROS : Z := Z.shiftl 1 4.
Definition LOG_NETWORK : Z := Z.shiftl 1 5.
Definition LOG_CHROME : Z := Z.shiftl 1 6.
Definition LOG_TERMINAL : Z := Z.shiftl 1 7.
Definition LOG_INPUT_DEBUG : Z := Z.shiftl 1 8.
Definition LOG_ALL : Z :=
  Z.lor LOG_INPUT (Z.lor LOG_WINDOW (Z.lor LOG_AUTOMATION (Z.lor LOG_CORE
    (Z.lor LOG_MACROS (Z.lor LOG_NETWORK (Z.lor LOG_CHROME
      (Z.lor LOG_TERMINAL LOG_INPUT_DEBUG))))))).
