(* ===== verification/Json.v ===== *)
(** JSON values and the nlohmann::json accessors the handlers use.

    The library is not part of the sources: [parse] and [dump] are parameters
    of the definitions that need them.  The accessors below are the documented
    behaviour of [contains], [operator[]], [value] and [get] on a JSON value;
    a member that is absent or has the wrong type throws the exception the
    library documents. *)

From S2P Require Import Prelude.

(** [JFloat m e] is the binary floating point number m * 2^e. *)
Inductive json :=
  | JNull
  | JBool (b : bool)
  | JInt (z : Z)
  | JFloat (m e : Z)
  | JString (s : string)
  | JArray (l : list json)
  | JObject (members : list (string * json)).

Module Json.
(** Conversion of a floating point number to an integer: towards zero. *)
Definition trunc (m e : Z) : Z :=
  if 0 <=? e then m * 2 ^ e else Z.quot m (2 ^ (- e)).

Definition is_string (j : json) : bool := match j with JString _ => true | _ => false end.
Definition is_number (j : json) : bool :=
  match j with JInt _ | JFloat _ _ => true | _ => false end.
Definition is_array (j : json) : bool := match j with JArray _ => true | _ => false end.
Definition is_object (j : json) : bool := match j with JObject _ => true | _ => false end.

(** The member [k] of an object. *)
Fixpoint assoc (k : string) (l : list (string * json)) : option json :=
  match l with
  | [] => None
  | (k', v) :: l' => if decide (k = k') then Some v else assoc k l'
  end.

Definition member (k : string) (j : json) : option json :=
  match j with JObject l => assoc k l | _ => None end.

(** [j[k] = v] on the members of an ordered_json object: in place, or at the end. *)
Fixpoint set_ordered (k : string) (v : json) (l : list (string * json)) : list (string * json) :=
  match l with
  | [] => [(k, v)]
  | (k', v') :: l' => if decide (k = k') then (k, v) :: l' else (k', v') :: set_ordered k v l'
  end.

(** [j.contains(k)]: false on a value that is not an object. *)
Definition contains (k : string) (j : json) : bool :=
  match member k j with Some _ => true | None => false end.

(** [j[k]] on a const object; an absent key is undefined behaviour in the
    library and is an exception here, so that no result depends on it.  The
    handlers only reach it when a required argument was not validated. *)
Definition at_key (k : string) (j : json) : outcome json :=
  match member k j with Some v => Ok v | None => Throw JsonTypeError end.

(** [j.get<string>()] *)
Definition get_string (j : json) : outcome string :=
  match j with JString s => Ok s | _ => Throw JsonTypeError end.

(** [j.get<T>()] for an integral T other than int64_t and uint64_t, before
    the conversion to T: numbers and booleans convert. *)
Definition get_number (j : json) : outcome Z :=
  match j with
  | JInt z => Ok z
  | JFloat m e => Ok (trunc m e)
  | JBool b => Ok (if b then 1 else 0)
  | _ => Throw JsonTypeError
  end.

Definition get_uint16 (j : json) : outcome Z := to_uint16 <$> get_number j.
Definition get_int32 (j : json) : outcome Z := to_int32 <$> get_number j.

(** [j.get<bool>()] *)
Definition get_bool (j : json) : outcome bool :=
  match j with JBool b => Ok b | _ => Throw JsonTypeError end.

(** [j[k].get<string>()] *)
Definition string_at (k : string) (j : json) : outcome string :=
  v ← at_key k j; get_string v.

(** [j.value(k, d)]: the default when the key is absent, an exception when
    [j] is not an object or the member does not convert. *)
Definition value {A} (get : json -> outcome A) (k : string) (d : A) (j : json) : outcome A :=
  match j with
  | JObject l => match assoc k l with Some v => get v | None => Ok d end
  | _ => Throw JsonTypeError
  end.

Lemma contains_member (k : string) (j : json) :
  contains k j = true <-> exists v, member k j = Some v.
Proof. unfold contains. destruct (member k j); naive_solver. Qed.

Lemma string_at_member (k : string) (j : json) (s : string) :
  string_at k j = Ok s <-> member k j = Some (JString s).
Proof.
  unfold string_at, at_key. destruct (member k j) as [v|]; simpl; [|naive_solver].
  destruct v; simpl; naive_solver.
Qed.

Lemma assoc_set_ordered (k k' : string) (v : json) (l : list (string * json)) :
  assoc k' (set_ordered k v l) = if decide (k' = k) then Some v else assoc k' l.
Proof.
  induction l as [|[k1 v1] l IH]; simpl; [done|].
  destruct (decide (k = k1)) as [->|Hk]; simpl; [by repeat case_decide|].
  rewrite IH. by repeat case_decide; subst.
Qed.
End Json.
