(* ===== verification/Keys.v ===== *)
(** Key codes, macro triggers and actions, and the built-in macros of the
    input mapper (include/InputMapper.h, src/MacroConfig.cpp).

    The numeric values are those of the Linux input subsystem
    (linux/input-event-codes.h), which the sources include. *)

From S2P Require Import Prelude Types.

Definition EV_SYN : Z := 0.
Definition EV_KEY : Z := 1.
Definition EV_REL : Z := 2.
Definition EV_ABS : Z := 3.
Definition EV_MSC : Z := 4.
Definition SYN_REPORT : Z := 0.
Definition MSC_SCAN : Z := 4.
Definition KEY_MAX : Z := 767.
Definition KEY_CNT : Z := 768.
Definition KEY_A : Z := 30.
Definition KEY_B : Z := 48.
Definition KEY_C : Z := 46.
Definition KEY_D : Z := 32.
Definition KEY_E : Z := 18.
Definition KEY_F : Z := 33.
Definition KEY_G : Z := 34.
Definition KEY_H : Z := 35.
Definition KEY_I : Z := 23.
Definition KEY_J : Z := 36.
Definition KEY_K : Z := 37.
Definition KEY_L : Z := 38.
Definition KEY_M : Z := 50.
Definition KEY_N : Z := 49.
Definition KEY_O : Z := 24.
Definition KEY_P : Z := 25.
Definition KEY_Q : Z := 16.
Definition KEY_R : Z := 19.
Definition KEY_S : Z := 31.
Definition KEY_T : Z := 20.
Definition KEY_U : Z := 22.
Definition KEY_V : Z := 47.
Definition KEY_W : Z := 17.
Definition KEY_X : Z := 45.
Definition KEY_Y : Z := 21.
Definition KEY_Z : Z := 44.
Definition KEY_0 : Z := 11.
Definition KEY_1 : Z := 2.
Definition KEY_2 : Z := 3.
Definition KEY_3 : Z := 4.
Definition KEY_4 : Z := 5.
Definition KEY_5 : Z := 6.
Definition KEY_6 : Z := 7.
Definition KEY_7 : Z := 8.
Definition KEY_8 : Z := 9.
Definition KEY_9 : Z := 10.
Definition KEY_ESC : Z := 1.
Definition KEY_ENTER : Z := 28.
Definition KEY_SPACE : Z := 57.
Definition KEY_TAB : Z := 15.
Definition KEY_BACKSPACE : Z := 14.
Definition KEY_MINUS : Z := 12.
Definition KEY_EQUAL : Z := 13.
Definition KEY_LEFTBRACE : Z := 26.
Definition KEY_RIGHTBRACE : Z := 27.
Definition KEY_BACKSLASH : Z := 43.
Definition KEY_SEMICOLON : Z := 39.
Definition KEY_APOSTROPHE : Z := 40.
Definition KEY_COMMA : Z := 51.
Definition KEY_DOT : Z := 52.
Definition KEY_SLASH : Z := 53.
Definition KEY_GRAVE : Z := 41.
Definition KEY_LEFTSHIFT : Z := 42.
Definition KEY_LEFTCTRL : Z := 29.
Definition KEY_RIGHTCTRL : Z := 97.
Definition KEY_LEFTALT : Z := 56.
Definition KEY_LEFTMETA : Z := 125.
Definition KEY_CAPSLOCK : Z := 58.
Definition KEY_NUMLOCK : Z := 69.
Definition KEY_SCROLLLOCK : Z := 70.
Definition KEY_PAUSE : Z := 119.
Definition KEY_END : Z := 107.
Definition KEY_HOME : Z := 102.
Definition KEY_UP : Z := 103.
Definition KEY_DOWN : Z := 108.
Definition KEY_LEFT : Z := 105.
Definition KEY_RIGHT : Z := 106.
Definition KEY_PAGEUP : Z := 104.
Definition KEY_PAGEDOWN : Z := 109.
Definition KEY_INSERT : Z := 110.
Definition KEY_DELETE : Z := 111.
Definition KEY_OK : Z := 352.
Definition BTN_MISC : Z := 256.
Definition BTN_MOUSE : Z := 272.
Definition BTN_LEFT : Z := 272.
Definition BTN_FORWARD : Z := 277.
Definition BTN_JOYSTICK : Z := 288.
Definition KEY_F1 : Z := 59.
Definition KEY_F2 : Z := 60.
Definition KEY_F3 : Z := 61.
Definition KEY_F4 : Z := 62.
Definition KEY_F5 : Z := 63.
Definition KEY_F6 : Z := 64.
Definition KEY_F7 : Z := 65.
Definition KEY_F8 : Z := 66.
Definition KEY_F9 : Z := 67.
Definition KEY_F10 : Z := 68.
Definition KEY_F11 : Z := 87.
Definition KEY_F12 : Z := 88.

(** Constants.h *)
Definition KEY_PRESS : Z := 1.
Definition KEY_RELEASE : Z := 0.
Definition KEY_REPEAT : Z := 2.
Definition WITHHOLD_YES : bool := true.
Definition WITHHOLD_NO : bool := false.
Definition KEY_REPEAT_BREAKS_YES : bool := true.
Definition KEY_REPEAT_BREAKS_NO : bool := false.
Definition NOISE_BREAKS_NO : bool := false.

(** InputMapper.h: the virtual codes of the G keys. *)
Definition G1_VIRTUAL : Z := 1001.
Definition G2_VIRTUAL : Z := 1002.
Definition G3_VIRTUAL : Z := 1003.
Definition G4_VIRTUAL : Z := 1004.
Definition G5_VIRTUAL : Z := 1005.
Definition G6_VIRTUAL : Z := 1006.

(** struct input_event without its timestamp *)
Record input_event := mkEv { ev_type : Z; ev_code : Z; ev_value : Z }.

#[export] Instance input_event_eq_dec : EqDecision input_event.
Proof. solve_decision. Defined.

(** One step (type, code, value, suppress, ignoreRepeat) of a trigger. *)
Record TriggerStep := mkStep {
  ts_type : Z; ts_code : Z; ts_value : Z; ts_suppress : bool; ts_ignoreRepeat : bool
}.

#[export] Instance TriggerStep_eq_dec : EqDecision TriggerStep.
Proof. solve_decision. Defined.

(** InputMapper.h, struct KeyTrigger *)
Record KeyTrigger := mkTrigger {
  events : list TriggerStep;
  hasSuppressedKeys : bool;
  noiseBreaks : bool
}.

(** KeyTrigger::operator== compares the three members. *)
#[export] Instance KeyTrigger_eq_dec : EqDecision KeyTrigger.
Proof. solve_decision. Defined.

(** The only handler the sources bind to a macro. *)
Inductive Handler := TriggerChromeChatGPT.

#[export] Instance Handler_eq_dec : EqDecision Handler.
Proof. solve_decision. Defined.

(** InputMapper.h, struct KeyAction *)
Record KeyAction := mkAction {
  trigger : KeyTrigger;
  keySequence : list (Z * Z);
  logMessage : string;
  customHandler : option Handler
}.

#[export] Instance KeyAction_eq_dec : EqDecision KeyAction.
Proof. solve_decision. Defined.

(** The members [KeyTrigger{events}] leaves to their initialisers. *)
Definition trigger_of (steps : list TriggerStep) : KeyTrigger := mkTrigger steps false true.

(** A trigger of one withheld-free key press. *)
Definition press_step (code : Z) : TriggerStep :=
  mkStep EV_KEY code KEY_PRESS WITHHOLD_NO KEY_REPEAT_BREAKS_NO.

Module MacroConfig.
Definition defaultMacros : list KeyAction := [
  (* Mouse: Forward Button (press) -> Enter *)
  mkAction (trigger_of [press_step BTN_FORWARD])
    [(KEY_ENTER, 1); (KEY_ENTER, 0)]
    "Triggering mouse forward button (press) → Enter" None;
  (* G6 (press) -> Ctrl+C *)
  mkAction (trigger_of [press_step G6_VIRTUAL])
    [(KEY_LEFTCTRL, 1); (KEY_C, 1); (KEY_C, 0); (KEY_LEFTCTRL, 0)]
    "Triggering G6 (press) Ctrl+C macro" None
].

(** The lambda applyOverrides, one macro: overwrite the first macro with the
    same trigger, or append. *)
Fixpoint applyOverride (finalMacros : list KeyAction) (appMacro : KeyAction)
    : list KeyAction :=
  match finalMacros with
  | [] => [appMacro]
  | finalMacro :: rest =>
      if decide (trigger finalMacro = trigger appMacro) then appMacro :: rest
      else finalMacro :: applyOverride rest appMacro
  end.

Definition applyOverrides (appSpecificMacros : list KeyAction) : list KeyAction :=
  foldl applyOverride defaultMacros appSpecificMacros.

Definition terminalSpecificMacros : list KeyAction := [
  mkAction (trigger_of [press_step G1_VIRTUAL])
    [(KEY_LEFTCTRL, 1); (KEY_LEFTALT, 1); (KEY_C, 1);
     (KEY_C, 0); (KEY_LEFTALT, 0); (KEY_LEFTCTRL, 0)]
    "Triggering G1 (press) SIGINT macro (Ctrl+Alt+C) for Gnome Terminal" None;
  mkAction (trigger_of [press_step G2_VIRTUAL])
    [(KEY_G, 1); (KEY_G, 0); (KEY_I, 1); (KEY_I, 0); (KEY_T, 1); (KEY_T, 0);
     (KEY_SPACE, 1); (KEY_SPACE, 0); (KEY_S, 1); (KEY_S, 0);
     (KEY_ENTER, 1); (KEY_ENTER, 0)]
    "Triggering G2 (press) GITS macro (G+I+T+S+Enter) for Gnome Terminal" None;
  mkAction
    (mkTrigger
       [press_step KEY_LEFTCTRL;
        mkStep EV_KEY BTN_LEFT KEY_PRESS WITHHOLD_YES KEY_REPEAT_BREAKS_NO]
       true NOISE_BREAKS_NO)
    [(KEY_LEFTCTRL, KEY_RELEASE); (KEY_7, KEY_PRESS); (KEY_7, KEY_RELEASE);
     (KEY_LEFTCTRL, KEY_PRESS)]
    "Triggering Terminal Ctrl+Left Click macro (map to '7')" None
].

Definition codeSpecificMacros : list KeyAction := [
  mkAction (trigger_of [press_step G2_VIRTUAL])
    [(KEY_END, KEY_PRESS); (KEY_END, KEY_RELEASE)]
    "Triggering G2 (press) End macro for VS Code" None;
  mkAction (trigger_of [press_step BTN_FORWARD])
    [(KEY_A, 1); (KEY_A, 0)]
    "Triggering mouse forward button (press) -> A in Code app (override default)" None
].

Definition chromeSpecificMacros : list KeyAction := [
  mkAction
    (trigger_of
       [mkStep EV_KEY KEY_LEFTCTRL KEY_PRESS WITHHOLD_NO KEY_REPEAT_BREAKS_YES;
        mkStep EV_KEY KEY_V KEY_PRESS WITHHOLD_YES KEY_REPEAT_BREAKS_NO])
    [] "Triggering ChatGPT Ctrl+V macro (Focus + Paste)" (Some TriggerChromeChatGPT)
].

(** InputMapper::initializeAppMacros, on the map appMacros_ it updates *)
Definition initializeAppMacros (appMacros : list (AppType * list KeyAction))
    : list (AppType * list KeyAction) :=
  StdMap.insert OTHER defaultMacros
    (StdMap.insert CHROME (applyOverrides chromeSpecificMacros)
      (StdMap.insert CODE (applyOverrides codeSpecificMacros)
        (StdMap.insert TERMINAL (applyOverrides terminalSpecificMacros) appMacros))).

(** *** applyOverrides as a function of triggers *)

(** The macro that wins for a trigger: the last app-specific one. *)
Definition macro_for (t : KeyTrigger) (ms : list KeyAction) : option KeyAction :=
  snd <$> list_find (fun a => trigger a = t) ms.

Lemma macro_for_cons t a ms :
  macro_for t (a :: ms) = if decide (trigger a = t) then Some a else macro_for t ms.
Proof.
  unfold macro_for; simpl. case_decide; [done|].
  by destruct (list_find _ ms) as [[]|].
Qed.

Lemma macro_for_override t ms a :
  macro_for t (applyOverride ms a) =
  if decide (trigger a = t) then Some a else macro_for t ms.
Proof.
  induction ms as [|b ms IH]; simpl; [by rewrite macro_for_cons|].
  destruct (decide (trigger b = trigger a)) as [E|E];
    rewrite !macro_for_cons; [rewrite E; by case_decide|].
  rewrite IH. destruct (decide (trigger a = t)), (decide (trigger b = t)); congruence.
Qed.

(** The triggers stay pairwise distinct. *)
Lemma applyOverride_triggers ms a :
  NoDup (trigger <$> ms) -> NoDup (trigger <$> applyOverride ms a) /\
  (forall t, t ∈ trigger <$> applyOverride ms a <-> t = trigger a \/ t ∈ trigger <$> ms).
Proof.
  induction ms as [|b ms IH]; simpl.
  { intros _. split; [apply NoDup_singleton|]. intros t. rewrite list_elem_of_singleton, elem_of_nil; tauto. }
  intros [Hb Hms]%NoDup_cons. destruct (decide (trigger b = trigger a)) as [E|E]; csimpl.
  - split; [by rewrite <- E; constructor|]. intros t. rewrite !elem_of_cons, E. tauto.
  - destruct (IH Hms) as [Hnd Hin]. split.
    + constructor; [|done]. rewrite Hin. naive_solver.
    + intros t. rewrite !elem_of_cons, Hin. tauto.
Qed.
End MacroConfig.
