(* ===== verification/InputMapper.v ===== *)
(** The input mapper (include/InputMapper.h, src/InputMapper.cpp): the state of
    class InputMapper and its operations, one definition per method.

    What the environment decides is an argument: the clock reading of the event
    ([now], in nanoseconds), the samples the grab loop takes, the results of
    libevdev_grab and of opening the devices.  Writes to the uinput device are
    the trace [written].  Mutexes make the operations atomic, so an operation
    is one function; where the code waits with its locks released (grabDevices)
    the calls of other threads are explicit.  Log lines are not modelled. *)

From S2P Require Import Prelude Types Keys.

(** struct ComboState *)
Record ComboState := mkCombo {
  nextKeyIndex : nat;
  suppressedEvents : list (Z * Z * Z);
  lastMatchTime : Z
}.
Definition initialCombo : ComboState := mkCombo 0 [] 0.

(** struct WithheldKey *)
Record WithheldKey := mkWK {
  wk_type : Z; wk_code : Z; wk_value : Z; owningComboIdx : nat
}.

#[export] Instance WithheldKey_eq_dec : EqDecision WithheldKey.
Proof. solve_decision. Defined.

(** struct SuppressionRegistry: key code -> withheld events, in arrival order *)
Module SuppressionRegistry.
Abbreviation registry := (list (Z * list WithheldKey)).

Definition owned (comboIdx : nat) (wk : WithheldKey) : Prop := owningComboIdx wk = comboIdx.
#[export] Instance owned_dec comboIdx wk : Decision (owned comboIdx wk).
Proof. unfold owned. apply _. Defined.

(** withheld[code].push_back(...) *)
Definition add (type code value : Z) (comboIdx : nat) (r : registry) : registry :=
  let '(vec, r') := StdMap.at_default code [] r in
  StdMap.insert code (vec ++ [mkWK type code value comboIdx]) r'.

(** What std::remove_if keeps at the front of the vector. *)
Definition kept (comboIdx : nat) (vec : list WithheldKey) : list WithheldKey :=
  base.filter (fun wk => ~ owned comboIdx wk) vec.

(** The range [it, end) after std::remove_if: WithheldKey is trivially
    copyable, so the elements there are those the vector held before. *)
Definition tail_after_remove (comboIdx : nat) (vec : list WithheldKey) : list WithheldKey :=
  drop (length (kept comboIdx vec)) vec.

(** The events copied to [claimed], and the registry left. *)
Definition claim (comboIdx : nat) (r : registry) : list WithheldKey * registry :=
  (mjoin ((fun p => tail_after_remove comboIdx p.2) <$> r),
   (fun p => (p.1, kept comboIdx p.2)) <$> r).

(** withheld[code] inserts an empty vector for an absent code. *)
Definition isBlocked (code : Z) (r : registry) : bool * registry :=
  let '(vec, r') := StdMap.at_default code [] r in
  (match vec with [] => false | _ => true end, r').

(** The vector of a code, empty when absent. *)
Definition withheld (code : Z) (r : registry) : list WithheldKey :=
  default [] (StdMap.find code r).
End SuppressionRegistry.
Import SuppressionRegistry(registry).

(** The device handles: descriptors and libevdev devices that are open, what
    libevdev_grab last did to each, and the two flags of the mapper. *)
Record Devices := mkDevices {
  keyboardFd : bool; mouseFd : bool;
  keyboardDev : bool; mouseDev : bool; uinputDev : bool;
  keyboardGrabbed : bool; mouseGrabbed : bool;
  monitoringMode : bool; running : bool
}.

Record Tracking := mkTracking {
  pressedKeys : list Z;
  ctrlDown : bool;
  numLockActive : bool;
  gToggleState : Z;
  emergencyScrollCount : Z;
  emergencyFirstPress : Z
}.

Record Context_ := mkContext { activeApp : AppType; activeUrl : string; activeTitle : string }.

Record Combos := mkCombos {
  comboProgress : list (AppType * list (nat * ComboState));
  suppressionRegistry : registry
}.

(** Effects: events written to uinput, focus requests sent to the browser
    extension, detached paste threads still to run, the focus-ack flag. *)
Record Effects := mkEffects {
  written : list input_event;
  focusRequests : nat;
  pasteThreads : nat;
  focusAckReceived : bool
}.

Record IM := mkIM {
  dev : Devices;
  trk : Tracking;
  ctx : Context_;
  combos : Combos;
  fx : Effects;
  appMacros : list (AppType * list KeyAction);
  logFilterPatterns : list string
}.

(** Update of one part of the state. *)
Definition upd_dev (f : Devices -> Devices) (s : IM) : IM :=
  mkIM (f (dev s)) (trk s) (ctx s) (combos s) (fx s) (appMacros s) (logFilterPatterns s).
Definition upd_trk (f : Tracking -> Tracking) (s : IM) : IM :=
  mkIM (dev s) (f (trk s)) (ctx s) (combos s) (fx s) (appMacros s) (logFilterPatterns s).
Definition set_ctx (c : Context_) (s : IM) : IM :=
  mkIM (dev s) (trk s) c (combos s) (fx s) (appMacros s) (logFilterPatterns s).
Definition upd_combos (f : Combos -> Combos) (s : IM) : IM :=
  mkIM (dev s) (trk s) (ctx s) (f (combos s)) (fx s) (appMacros s) (logFilterPatterns s).
Definition upd_fx (f : Effects -> Effects) (s : IM) : IM :=
  mkIM (dev s) (trk s) (ctx s) (combos s) (f (fx s)) (appMacros s) (logFilterPatterns s).
Definition set_macros (m : list (AppType * list KeyAction)) (s : IM) : IM :=
  mkIM (dev s) (trk s) (ctx s) (combos s) (fx s) m (logFilterPatterns s).
Definition set_filters (l : list string) (s : IM) : IM :=
  mkIM (dev s) (trk s) (ctx s) (combos s) (fx s) (appMacros s) l.

Definition set_monitoring (b : bool) (d : Devices) : Devices :=
  mkDevices (keyboardFd d) (mouseFd d) (keyboardDev d) (mouseDev d) (uinputDev d)
    (keyboardGrabbed d) (mouseGrabbed d) b (running d).
Definition set_grabbed (k m : bool) (d : Devices) : Devices :=
  mkDevices (keyboardFd d) (mouseFd d) (keyboardDev d) (mouseDev d) (uinputDev d)
    k m (monitoringMode d) (running d).
Definition set_pressed (l : list Z) (t : Tracking) : Tracking :=
  mkTracking l (ctrlDown t) (numLockActive t) (gToggleState t)
    (emergencyScrollCount t) (emergencyFirstPress t).
Definition set_ctrl (b : bool) (t : Tracking) : Tracking :=
  mkTracking (pressedKeys t) b (numLockActive t) (gToggleState t)
    (emergencyScrollCount t) (emergencyFirstPress t).
Definition set_numlock (b : bool) (t : Tracking) : Tracking :=
  mkTracking (pressedKeys t) (ctrlDown t) b (gToggleState t)
    (emergencyScrollCount t) (emergencyFirstPress t).
Definition set_gToggle (z : Z) (t : Tracking) : Tracking :=
  mkTracking (pressedKeys t) (ctrlDown t) (numLockActive t) z
    (emergencyScrollCount t) (emergencyFirstPress t).
Definition set_emergency (count first : Z) (t : Tracking) : Tracking :=
  mkTracking (pressedKeys t) (ctrlDown t) (numLockActive t) (gToggleState t) count first.
Definition set_progress (p : list (AppType * list (nat * ComboState))) (c : Combos) : Combos :=
  mkCombos p (suppressionRegistry c).
Definition set_registry (r : registry) (c : Combos) : Combos :=
  mkCombos (comboProgress c) r.

(** The state the constructor of InputMapper builds. *)
Definition initialIM : IM :=
  mkIM (mkDevices false false false false false false false false false)
    (mkTracking [] false false 1 0 0) (mkContext OTHER "" "") (mkCombos [] [])
    (mkEffects [] 0 0 false) (MacroConfig.initializeAppMacros []) [].

(** What the environment answers while one event is processed.  A sample of the
    grab loop says whether the hardware reports a pressed key, and which
    setContext call of the main thread (if any) ran before it was taken; the
    list ends where the two-second deadline passes. *)
Record GrabPoll := mkPoll {
  hw_pressed : bool;
  context_switch : option (AppType * string * string)
}.
Record Env := mkEnv {
  now : Z;
  polls : list GrabPoll;
  grabKeyboardOk : bool;
  grabMouseOk : bool
}.

Definition seconds (n : Z) : Z := n * 1000000000.

(** ** Writing to the virtual device *)

Definition SYN : input_event := mkEv EV_SYN SYN_REPORT 0.

(** libevdev_uinput_write_event, when the device exists *)
Definition write_events (l : list input_event) (s : IM) : IM :=
  if uinputDev (dev s) then
    upd_fx (fun f => mkEffects (written f ++ l) (focusRequests f) (pasteThreads f)
                       (focusAckReceived f)) s
  else s.

Definition emit (type code value : Z) (s : IM) : IM :=
  write_events [mkEv type code value; SYN] s.
Definition emitNoSync (type code value : Z) (s : IM) : IM :=
  write_events [mkEv type code value] s.
Definition sync (s : IM) : IM := write_events [SYN] s.

(** The events emitSequence writes. *)
Definition sequence_events (seq : list (Z * Z)) : list input_event :=
  mjoin ((fun p => [mkEv EV_KEY p.1 p.2; SYN]) <$> seq).
Definition emitSequence (seq : list (Z * Z)) (s : IM) : IM :=
  write_events (sequence_events seq) s.

Definition emitFinal (ev : input_event) (s : IM) : IM :=
  if decide (ev_type ev = EV_REL \/ ev_type ev = EV_ABS)
  then write_events [ev] s
  else emit (ev_type ev) (ev_code ev) (ev_value ev) s.

(** ** Combo bookkeeping *)

Definition combo_state (app : AppType) (comboIdx : nat) (s : IM) : ComboState :=
  default initialCombo
    (StdMap.find app (comboProgress (combos s)) ≫= StdMap.find comboIdx).

(** comboProgress_[app][comboIdx] = st *)
Definition set_combo (app : AppType) (comboIdx : nat) (st : ComboState) (s : IM) : IM :=
  let '(comboMap, p) := StdMap.at_default app [] (comboProgress (combos s)) in
  upd_combos (set_progress (StdMap.insert app (StdMap.insert comboIdx st comboMap) p)) s.

(** state.suppressedEvents.clear(); state.nextKeyIndex = 0; *)
Definition reset_combo (app : AppType) (comboIdx : nat) (s : IM) : IM :=
  set_combo app comboIdx (mkCombo 0 [] (lastMatchTime (combo_state app comboIdx s))) s.

(** if (!suppressionRegistry_.isBlocked(wk.code)) emit(wk...) *)
Definition emit_unblocked (s : IM) (wk : WithheldKey) : IM :=
  let '(blocked, r) := SuppressionRegistry.isBlocked (wk_code wk)
                         (suppressionRegistry (combos s)) in
  let s := upd_combos (set_registry r) s in
  if blocked then s else emit (wk_type wk) (wk_code wk) (wk_value wk) s.

(** The block that breaks a combo: give the withheld keys back and restart. *)
Definition break_combo (app : AppType) (comboIdx : nat) (s : IM) : IM :=
  let '(claimed, r) := SuppressionRegistry.claim comboIdx (suppressionRegistry (combos s)) in
  reset_combo app comboIdx
    (sync (foldl emit_unblocked (upd_combos (set_registry r) s) claimed)).

(** Every combo with an entry in comboProgress_, in iteration order. *)
Definition all_combos (s : IM) : list (AppType * nat) :=
  mjoin ((fun p => (fun q : nat * ComboState => (p.1, q.1)) <$> p.2)
           <$> comboProgress (combos s)).

Definition claim_only (comboIdx : nat) (s : IM) : IM :=
  upd_combos
    (set_registry (SuppressionRegistry.claim comboIdx (suppressionRegistry (combos s))).2) s.

(** ** Keys and grabbing *)

Definition releaseAllPressedKeys (s : IM) : IM :=
  let s := foldl (fun s p => reset_combo p.1 p.2 (claim_only p.2 s)) s (all_combos s) in
  let s := foldl (fun s code => emit EV_KEY code 0 s) s (pressedKeys (trk s)) in
  upd_trk (set_pressed []) (sync s).

Definition setContext (appType : AppType) (url title : string) (s : IM) : IM :=
  if decide (activeApp (ctx s) = appType /\ activeUrl (ctx s) = url
             /\ activeTitle (ctx s) = title)
  then s
  else releaseAllPressedKeys (set_ctx (mkContext appType url title) s).

Definition ungrabDevices (s : IM) : IM :=
  upd_dev (fun d =>
    set_monitoring true
      (set_grabbed (if keyboardDev d then false else keyboardGrabbed d)
                   (if mouseDev d then false else mouseGrabbed d) d)) s.

(** The waiting loop of grabDevices: [true] when no key is down, [false] when
    the deadline passes first. *)
Fixpoint grab_wait (ps : list GrabPoll) (s : IM) : bool * IM :=
  match ps with
  | [] => (false, s)
  | p :: ps' =>
      let s := match context_switch p with
               | Some (app, url, title) => setContext app url title s
               | None => s
               end in
      if negb (hw_pressed p) && bool_decide (pressedKeys (trk s) = [])
      then (true, s)
      else grab_wait ps' s
  end.

Definition grabDevices (env : Env) (s : IM) : IM :=
  let '(released, s) := grab_wait (polls env) s in
  if released then
    upd_dev (fun d =>
      set_monitoring false
        (set_grabbed
           (if keyboardDev d then grabKeyboardOk env || keyboardGrabbed d else keyboardGrabbed d)
           (if mouseDev d then grabMouseOk env || mouseGrabbed d else mouseGrabbed d) d)) s
  else s.

Definition setNumLockState (env : Env) (active : bool) (s : IM) : IM :=
  if bool_decide (numLockActive (trk s) = active) then s
  else
    let s := upd_trk (set_numlock active) s in
    let s := if active then ungrabDevices s else grabDevices env s in
    releaseAllPressedKeys s.

(** ** The pipeline *)

Inductive PipelineResult := CONTINUE | CONSUMED | DROP.

#[export] Instance PipelineResult_eq_dec : EqDecision PipelineResult.
Proof. solve_decision. Defined.

Definition is_key (ev : input_event) (code value : Z) : bool :=
  (ev_type ev =? EV_KEY) && (ev_code ev =? code) && (ev_value ev =? value).

(** The Pause/Break escape. *)
Definition emergency_pause (ev : input_event) (s : IM) : IM :=
  if is_key ev KEY_PAUSE 1 then ungrabDevices s else s.

(** The ScrollLock triple press within one second. *)
Definition emergency_scroll (env : Env) (ev : input_event) (s : IM) : IM :=
  if is_key ev KEY_SCROLLLOCK 1 then
    if (emergencyScrollCount (trk s) =? 0)
       || (seconds 1 <? now env - emergencyFirstPress (trk s))
    then upd_trk (set_emergency 1 (now env)) s
    else
      let count := emergencyScrollCount (trk s) + 1 in
      if 3 <=? count
      then ungrabDevices (upd_trk (set_emergency 0 (emergencyFirstPress (trk s))) s)
      else upd_trk (set_emergency count (emergencyFirstPress (trk s))) s
  else s.

(** The tracking of pressed keys, Ctrl and NumLock. *)
Definition track_key (env : Env) (ev : input_event) (s : IM) : IM :=
  if ev_type ev =? EV_KEY then
    let s :=
      if ev_value ev =? 1 then
        upd_trk (fun t => set_pressed (StdSet.insert (ev_code ev) (pressedKeys t)) t) s
      else if ev_value ev =? 0 then
        upd_trk (fun t => set_pressed (StdSet.erase (ev_code ev) (pressedKeys t)) t) s
      else s in
    let s :=
      if (ev_code ev =? KEY_LEFTCTRL) || (ev_code ev =? KEY_RIGHTCTRL)
      then upd_trk (set_ctrl (negb (ev_value ev =? 0))) s else s in
    if (ev_code ev =? KEY_NUMLOCK) && (ev_value ev =? 1)
    then setNumLockState env (negb (numLockActive (trk s))) s
    else s
  else s.

(** stageContext always answers CONTINUE. *)
Definition stageContext (env : Env) (ev : input_event) (s : IM) : PipelineResult * IM :=
  (CONTINUE, track_key env ev (emergency_scroll env ev (emergency_pause ev s))).

(** The G-key recogniser, on gToggleState_: the G key found and the new state. *)
Definition detectGKey (ev : input_event) (g : Z) : option Z * Z :=
  if negb (ev_type ev =? EV_KEY) then (None, g)
  else if ev_code ev =? KEY_LEFTCTRL then
    (None, if ev_value ev =? 1 then
             if g =? 1 then 2 else if g =? 3 then 4 else 1
           else g)
  else if ev_code ev =? KEY_LEFTSHIFT then
    (None, if ev_value ev =? 1 then
             if g =? 2 then 3 else if g =? 4 then 5 else 1
           else g)
  else if g =? 5 then
    (if (KEY_1 <=? ev_code ev) && (ev_code ev <=? KEY_6)
     then Some (ev_code ev - KEY_1 + 1) else None, 1)
  else (None, 1).

Definition isKeyboardCode (code : Z) : bool :=
  negb ((BTN_MISC <=? code) && (code <? KEY_OK)) && negb (1000 <=? code).

Definition isKeyboardOnlyMacro (action : KeyAction) : bool :=
  forallb (fun e => (ts_type e =? EV_KEY) && isKeyboardCode (ts_code e)) (events (trigger action))
  && forallb (fun sq => isKeyboardCode sq.1) (keySequence action).

(** triggerChromeChatGPTMacro: request the focus and start the paste thread. *)
Definition triggerChromeChatGPTMacro (s : IM) : IM :=
  upd_fx (fun f => mkEffects (written f) (S (focusRequests f)) (S (pasteThreads f)) false) s.

(** The body of a detached paste thread, once its waits are over. *)
Definition paste_sequence : list (Z * Z) :=
  [(KEY_LEFTCTRL, 1); (KEY_V, 1); (KEY_V, 0); (KEY_LEFTCTRL, 0)].
Definition pasteThreadBody (s : IM) : IM :=
  let s := sync (emitSequence paste_sequence s) in
  upd_fx (fun f => mkEffects (written f) (focusRequests f) (pred (pasteThreads f))
                     (focusAckReceived f)) s.

Definition onFocusAck (s : IM) : IM :=
  upd_fx (fun f => mkEffects (written f) (focusRequests f) (pasteThreads f) true) s.

Definition executeKeyAction (action : KeyAction) (s : IM) : IM :=
  match customHandler action with
  | Some TriggerChromeChatGPT => triggerChromeChatGPTMacro s
  | None => emitSequence (keySequence action) s
  end.

(** Does the event match the step the combo waits for? *)
Definition step_matches (step : TriggerStep) (ev : input_event) : bool :=
  (ts_type step =? ev_type ev) && (ts_code step =? ev_code ev) &&
  (if ev_type ev =? EV_KEY then
     ((ts_value step =? 1) && ((ev_value ev =? 1) || (ev_value ev =? 2)))
     || ((ts_value step =? 0) && (ev_value ev =? 0))
   else ts_value step =? ev_value ev).

(** A matched step: advance the combo and withhold the event when asked to. *)
Definition record_step (env : Env) (ev : input_event) (app : AppType) (comboIdx : nat)
    (step : TriggerStep) (s : IM) : IM :=
  let st := combo_state app comboIdx s in
  if ts_suppress step then
    upd_combos (fun c => set_registry
      (SuppressionRegistry.add (ev_type ev) (ev_code ev) (ev_value ev) comboIdx
         (suppressionRegistry c)) c)
      (set_combo app comboIdx
         (mkCombo (S (nextKeyIndex st))
            (suppressedEvents st ++ [(ev_type ev, ev_code ev, ev_value ev)]) (now env)) s)
  else set_combo app comboIdx (mkCombo (S (nextKeyIndex st)) (suppressedEvents st) (now env)) s.

(** A completed combo: forget what it withheld and run its action. *)
Definition complete_combo (app : AppType) (comboIdx : nat) (action : KeyAction) (s : IM) : IM :=
  reset_combo app comboIdx (executeKeyAction action (claim_only comboIdx s)).

(** The matching branch of the loop. *)
Definition advance_combo (env : Env) (ev : input_event) (app : AppType) (comboIdx : nat)
    (action : KeyAction) (step : TriggerStep) (s : IM) : bool * IM :=
  let next := S (nextKeyIndex (combo_state app comboIdx s)) in
  let s := record_step env ev app comboIdx step s in
  (ts_suppress step,
   if bool_decide (next = length (events (trigger action)))
   then complete_combo app comboIdx action s else s).

(** Does an event that does not match break a combo in progress? *)
Definition should_break (action : KeyAction) (progress : nat) (ignoreRepeat : bool)
    (ev : input_event) : bool :=
  if ev_type ev =? EV_KEY then
    let isKeyInActiveCombo :=
      existsb (fun e => ts_code e =? ev_code ev) (take progress (events (trigger action))) in
    if (ev_value ev =? 1) && noiseBreaks (trigger action) then true
    else if (ev_value ev =? 0) && isKeyInActiveCombo then true
    else (ev_value ev =? 2) && negb isKeyInActiveCombo && negb ignoreRepeat
  else false.

(** The timeout check: two seconds without a match restart a combo. *)
Definition timeout_combo (env : Env) (app : AppType) (comboIdx : nat) (s : IM) : IM :=
  let st := combo_state app comboIdx s in
  if (0 <? Z.of_nat (nextKeyIndex st)) && (seconds 2 <? now env - lastMatchTime st)
  then break_combo app comboIdx s else s.

(** One iteration of the loop of stageMacros over the application's macros. *)
Definition stageCombo (env : Env) (ev : input_event) (app : AppType) (comboIdx : nat)
    (action : KeyAction) (s : IM) : bool * IM :=
  if bool_decide (events (trigger action) = []) then (false, s)
  else
    let s := set_combo app comboIdx (combo_state app comboIdx s) s in
    let s := timeout_combo env app comboIdx s in
    let progress := nextKeyIndex (combo_state app comboIdx s) in
    if numLockActive (trk s) && negb (isKeyboardOnlyMacro action) then
      (false, if 0 <? Z.of_nat progress then break_combo app comboIdx s else s)
    else
      match events (trigger action) !! progress with
      | None => (false, s)
      | Some step =>
          if step_matches step ev then advance_combo env ev app comboIdx action step s
          else if (0 <? Z.of_nat progress)
                  && should_break action progress (ts_ignoreRepeat step) ev
          then (false, break_combo app comboIdx s)
          else (false, s)
      end.

Fixpoint stageCombos (env : Env) (ev : input_event) (app : AppType) (comboIdx : nat)
    (actions : list KeyAction) (suppressed : bool) (s : IM) : bool * IM :=
  match actions with
  | [] => (suppressed, s)
  | action :: rest =>
      let '(b, s) := stageCombo env ev app comboIdx action s in
      stageCombos env ev app (S comboIdx) rest (suppressed || b) s
  end.

Definition stageMacros (env : Env) (ev : input_event) (skipMacros : bool) (s : IM)
    : PipelineResult * IM :=
  if skipMacros then (CONTINUE, s)
  else
    let currentApp := activeApp (ctx s) in
    match StdMap.find currentApp (appMacros s) with
    | None => (CONTINUE, s)
    | Some actions =>
        let '(_, p) := StdMap.at_default currentApp [] (comboProgress (combos s)) in
        let s := upd_combos (set_progress p) s in
        let '(suppressed, s) := stageCombos env ev currentApp 0 actions false s in
        if suppressed then (DROP, s)
        else if ev_type ev =? EV_KEY then
          let '(blocked, r) := SuppressionRegistry.isBlocked (ev_code ev)
                                 (suppressionRegistry (combos s)) in
          (if blocked then DROP else CONTINUE, upd_combos (set_registry r) s)
        else (CONTINUE, s)
    end.

(** stageGKey, given the recursive call of processEvent; [None] when that call
    ran out of fuel. *)
Definition stageGKey (process : input_event -> IM -> option IM) (ev : input_event) (s : IM)
    : option (PipelineResult * IM) :=
  let '(g, state) := detectGKey ev (gToggleState (trk s)) in
  let s := upd_trk (set_gToggle state) s in
  match g with
  | Some n =>
      s' ← process (mkEv (ev_type ev) (to_uint16 (1000 + n)) (ev_value ev)) s;
      Some (CONSUMED, s')
  | None => Some (CONTINUE, s)
  end.

Fixpoint processEvent (fuel : nat) (env : Env) (ev : input_event) (isMouse : bool) (s : IM)
    : option IM :=
  match fuel with
  | O => None
  | S fuel' =>
      let '(r, s) := stageContext env ev s in
      if decide (r = DROP) then Some s
      else if monitoringMode (dev s) then Some s
      else
        '(r, s) ← (if isMouse then Some (CONTINUE, s)
                   else stageGKey (fun ev' => processEvent fuel' env ev' false) ev s);
        if decide (r = CONSUMED) then Some s
        else
          let '(r, s) := stageMacros env ev isMouse s in
          if decide (r = DROP) then Some s
          else Some (emitFinal ev s)
  end.

(** One call of processEvent; two levels are enough (see [process_total]). *)
Definition process (env : Env) (ev : input_event) (isMouse : bool) (s : IM) : IM :=
  default s (processEvent 2 env ev isMouse s).

(** ** Recovery and the device loop *)

(** flushAndResetState: hand every withheld event back and reset. *)
Definition flush_combo (s : IM) (p : AppType * nat) : IM :=
  let '(claimed, r) := SuppressionRegistry.claim p.2 (suppressionRegistry (combos s)) in
  reset_combo p.1 p.2
    (foldl (fun s wk => emit (wk_type wk) (wk_code wk) (wk_value wk) s)
       (upd_combos (set_registry r) s) claimed).

Definition flushAndResetState (s : IM) : IM :=
  upd_trk (set_gToggle 1) (foldl flush_combo s (all_combos s)).

(** What libevdev_next_event gives: an event, or a SYNC status followed by the
    events read with the SYNC flag. *)
Inductive DeviceRead :=
  | ReadSuccess (env : Env) (ev : input_event)
  | ReadSync (env : Env) (evs : list input_event).

(** The inner loop of loop() over one readable device.  Synthesised sync events
    skip the G keys and the macros. *)
Definition handle_read (s : IM) (r : DeviceRead) : IM :=
  match r with
  | ReadSuccess env ev => process env ev false s
  | ReadSync env evs =>
      foldl (fun s ev => process env ev true s) (flushAndResetState s) evs
  end.

(** One round of loop(): the keyboard, then the mouse when it is open. *)
Definition loop_iteration (keyboard mouse : list DeviceRead) (s : IM) : IM :=
  let s := foldl handle_read s keyboard in
  if mouseFd (dev s) then foldl handle_read s mouse else s.

(** ** Starting and stopping *)

(** What opening the devices gives. *)
Record OpenOutcome := mkOpen {
  kbdOpens : bool; kbdInit : bool; kbdDown : list Z;
  mouseOpens : bool; mouseInit : bool; mouseDown : list Z;
  uinputCreates : bool
}.

Definition insert_pressed (lo hi : Z) (codes : list Z) (s : IM) : IM :=
  foldl (fun s code =>
    if (lo <=? code) && (code <? hi)
    then upd_trk (fun t => set_pressed (StdSet.insert code (pressedKeys t)) t) s
    else s) s codes.

Definition set_handles (kf mf kd md ud : bool) (d : Devices) : Devices :=
  mkDevices kf mf kd md ud (keyboardGrabbed d) (mouseGrabbed d) (monitoringMode d) (running d).

Definition setupDevices (o : OpenOutcome) (mousePath : string) (s : IM) : bool * IM :=
  if negb (kbdOpens o) then
    (false, upd_dev (fun d => set_handles false (mouseFd d) (keyboardDev d) (mouseDev d) (uinputDev d) d) s)
  else
    let s := upd_dev (fun d => set_handles true (mouseFd d) (keyboardDev d) (mouseDev d) (uinputDev d) d) s in
    if negb (kbdInit o) then (false, s)
    else
      let s := upd_dev (fun d => set_handles (keyboardFd d) (mouseFd d) true (mouseDev d) (uinputDev d) d) s in
      let s := insert_pressed 0 KEY_CNT (kbdDown o) s in
      let s :=
        if Str.empty mousePath then s
        else
          let s := upd_dev (fun d => set_handles (keyboardFd d) (mouseOpens o) (keyboardDev d) (mouseDev d) (uinputDev d) d) s in
          if mouseOpens o && mouseInit o then
            insert_pressed BTN_MOUSE BTN_JOYSTICK (mouseDown o)
              (upd_dev (fun d => set_handles (keyboardFd d) (mouseFd d) (keyboardDev d) true (uinputDev d) d) s)
          else s in
      (true, upd_dev (set_monitoring true) s).

Definition setupUinput (o : OpenOutcome) (s : IM) : bool * IM :=
  (uinputCreates o,
   upd_dev (fun d => set_handles (keyboardFd d) (mouseFd d) (keyboardDev d) (mouseDev d)
                       (uinputCreates o || uinputDev d) d) s).

Definition set_running (b : bool) (d : Devices) : Devices :=
  mkDevices (keyboardFd d) (mouseFd d) (keyboardDev d) (mouseDev d) (uinputDev d)
    (keyboardGrabbed d) (mouseGrabbed d) (monitoringMode d) b.

Definition stop (s : IM) : IM :=
  let s := upd_dev (set_running false) s in
  let s := if monitoringMode (dev s) then s else ungrabDevices s in
  upd_dev (fun d =>
    mkDevices false false false false false
      (if keyboardDev d then false else keyboardGrabbed d)
      (if mouseDev d then false else mouseGrabbed d)
      (monitoringMode d) (running d)) s.

Definition start (env : Env) (o : OpenOutcome) (mousePath : string) (grabImmediately : bool)
    (s : IM) : bool * IM :=
  let '(ok, s) := setupDevices o mousePath s in
  if negb ok then (false, stop s)
  else
    let '(ok, s) := setupUinput o s in
    if negb ok then (false, stop s)
    else
      let s := if grabImmediately then grabDevices env s else s in
      (true, upd_dev (set_running true) s).

(** ** Formatting and filtering of input events *)
Section Format.
(** libevdev_event_code_get_name(type, code) *)
Context (code_name : Z -> Z -> option string).

Definition strip_prefix (p s : string) : string :=
  if Str.starts_with p s then Str.drop (String.length p) s else s.

Definition named (prefix : string) (ev : input_event) : string :=
  match code_name (ev_type ev) (ev_code ev) with
  | Some n => Str.tolower (strip_prefix prefix n)
  | None => Num.to_string (ev_code ev)
  end.

Definition formatEvent (ev : input_event) (devicePath : string) : string :=
  let line (typeStr codeStr : string) :=
    (typeStr +:+ ":" +:+ codeStr +:+ ":" +:+ Num.to_string (ev_value ev) +:+ "@" +:+ devicePath)%string in
  if ev_type ev =? EV_KEY then
    match code_name (ev_type ev) (ev_code ev) with
    | Some n =>
        if Str.starts_with "BTN_" n
        then line "btn" (Str.tolower (Str.drop 4 n))
        else line "key" (Str.tolower (strip_prefix "KEY_" n))
    | None => line "key" (Num.to_string (ev_code ev))
    end
  else if ev_type ev =? EV_REL then line "rel" (named "REL_" ev)
  else if ev_type ev =? EV_ABS then line "abs" (named "ABS_" ev)
  else if ev_type ev =? EV_MSC then line "msc" (named "MSC_" ev)
  else "".

(** InputMapper::shouldLog, with the global log mask *)
Definition shouldLog (mask : Z) (patterns : list string) (eventStr : string) (category : Z)
    : bool :=
  if Z.land mask category =? 0 then false
  else match patterns with
       | [] => true
       | _ => existsb (fun p => Str.contains p eventStr) patterns
       end.
End Format.
