(* ===== verification/InputMapperFacts.v ===== *)
(** What the operations of the input mapper leave unchanged, and the induction over
    the nested calls of processEvent that the theorem files share. *)

From S2P Require Import Prelude Types Keys InputMapper.

(** ** Framing

    The combo engine changes only the combos and the effects of the state. *)
Record frame (s s' : IM) : Prop := mkFrame {
  fr_dev : dev s' = dev s;
  fr_trk : trk s' = trk s;
  fr_ctx : ctx s' = ctx s;
  fr_macros : appMacros s' = appMacros s;
  fr_filters : logFilterPatterns s' = logFilterPatterns s
}.

#[export] Instance frame_preorder : PreOrder frame.
Proof.
  split; [by intros s|].
  intros s1 s2 s3 [] []; split; congruence.
Qed.

#[export] Hint Extern 1 (frame _ _) => reflexivity : daemon.

Lemma foldl_ind {A B} (P : B -> Prop) (f : B -> A -> B) (l : list A) (b : B) :
  (forall b a, a ∈ l -> P b -> P (f b a)) -> P b -> P (foldl f b l).
Proof.
  revert b. induction l as [|a l IH]; intros b Hf Hb; simpl; [done|].
  apply IH; [|apply Hf; [by constructor|done]].
  intros b' a' Ha'. apply Hf. by constructor.
Qed.

Lemma foldl_frame {A} (f : IM -> A -> IM) (l : list A) (s : IM) :
  (forall s a, frame s (f s a)) -> frame s (foldl f s l).
Proof.
  intros Hf. apply (foldl_ind (frame s)); [|done].
  intros b a _ Hb. by etrans; [exact Hb|].
Qed.

Lemma write_events_frame l s : frame s (write_events l s).
Proof. unfold write_events. by destruct (uinputDev (dev s)). Qed.

Lemma emit_frame t c v s : frame s (emit t c v s).
Proof. apply write_events_frame. Qed.

Lemma sync_frame s : frame s (sync s).
Proof. apply write_events_frame. Qed.

Lemma set_combo_frame app i st s : frame s (set_combo app i st s).
Proof. unfold set_combo. by destruct (StdMap.at_default _ _ _). Qed.

Lemma reset_combo_frame app i s : frame s (reset_combo app i s).
Proof. apply set_combo_frame. Qed.

Lemma upd_combos_frame f s : frame s (upd_combos f s).
Proof. done. Qed.

Lemma upd_fx_frame f s : frame s (upd_fx f s).
Proof. done. Qed.

Lemma emit_unblocked_frame s wk : frame s (emit_unblocked s wk).
Proof.
  unfold emit_unblocked. destruct (SuppressionRegistry.isBlocked _ _) as [[] r]; [done|].
  by etrans; [apply upd_combos_frame|apply emit_frame].
Qed.

Lemma break_combo_frame app i s : frame s (break_combo app i s).
Proof.
  unfold break_combo. destruct (SuppressionRegistry.claim _ _) as [claimed r].
  etrans; [apply upd_combos_frame|].
  etrans; [apply (foldl_frame emit_unblocked claimed), emit_unblocked_frame|].
  by etrans; [apply sync_frame|apply reset_combo_frame].
Qed.

Lemma executeKeyAction_frame a s : frame s (executeKeyAction a s).
Proof.
  unfold executeKeyAction. destruct (customHandler a) as [[]|]; [done|].
  apply write_events_frame.
Qed.

Lemma record_step_frame env ev app i step s : frame s (record_step env ev app i step s).
Proof.
  unfold record_step. destruct (ts_suppress step); [|apply set_combo_frame].
  by etrans; [apply set_combo_frame|apply upd_combos_frame].
Qed.

Lemma complete_combo_frame app i a s : frame s (complete_combo app i a s).
Proof.
  unfold complete_combo, claim_only. etrans; [apply upd_combos_frame|].
  by etrans; [apply executeKeyAction_frame|apply reset_combo_frame].
Qed.

Lemma advance_combo_frame env ev app i a step s :
  frame s (advance_combo env ev app i a step s).2.
Proof.
  unfold advance_combo. simpl. destruct (bool_decide _); [|apply record_step_frame].
  by etrans; [apply record_step_frame|apply complete_combo_frame].
Qed.

Lemma timeout_combo_frame env app i s : frame s (timeout_combo env app i s).
Proof. unfold timeout_combo. cbv zeta. destruct (_ && _); [apply break_combo_frame|done]. Qed.

Lemma stageCombo_frame env ev app i a s : frame s (stageCombo env ev app i a s).2.
Proof.
  unfold stageCombo. destruct (bool_decide _); [done|]. cbv zeta.
  set (s1 := timeout_combo env app i _).
  assert (frame s s1) as H1 by (etrans; [apply set_combo_frame|apply timeout_combo_frame]).
  assert (forall s', frame s1 s' -> frame s s') as Hk by (intros; by etrans).
  clearbody s1. destruct (_ && _); simpl.
  { apply Hk. destruct (_ <? _); [apply break_combo_frame|done]. }
  destruct (_ !! _); simpl; [|done].
  destruct (step_matches _ _); [apply Hk, advance_combo_frame|].
  destruct (_ && _); simpl; [apply Hk, break_combo_frame|done].
Qed.

Lemma stageCombos_frame env ev app i actions b s :
  frame s (stageCombos env ev app i actions b s).2.
Proof.
  revert i b s. induction actions as [|a rest IH]; intros i b s; simpl; [done|].
  pose proof (stageCombo_frame env ev app i a s) as H.
  destruct (stageCombo env ev app i a s) as [b' s']. simpl in *.
  by etrans; [exact H|apply IH].
Qed.

Lemma stageMacros_frame env ev skip s : frame s (stageMacros env ev skip s).2.
Proof.
  unfold stageMacros. destruct skip; [done|].
  destruct (StdMap.find _ _) as [actions|]; [|done].
  destruct (StdMap.at_default _ _ _) as [x p].
  match goal with |- context [stageCombos ?e ?v ?a ?i ?l ?b ?s0] =>
    pose proof (stageCombos_frame e v a i l b s0) as H;
    destruct (stageCombos e v a i l b s0) as [sup s'] end.
  simpl in H.
  assert (frame s s') as H' by (etrans; [apply upd_combos_frame|exact H]).
  destruct sup; [done|]. destruct (ev_type ev =? EV_KEY); [|done].
  destruct (SuppressionRegistry.isBlocked _ _) as [bl r]. simpl.
  by etrans; [exact H'|apply upd_combos_frame].
Qed.

Lemma flush_combo_frame s p : frame s (flush_combo s p).
Proof.
  unfold flush_combo. destruct (SuppressionRegistry.claim _ _) as [claimed r].
  etrans; [|apply reset_combo_frame].
  etrans; [|apply foldl_frame; intros; apply emit_frame]. apply upd_combos_frame.
Qed.

Lemma reset_claim_frame s p : frame s (reset_combo p.1 p.2 (claim_only p.2 s)).
Proof. by etrans; [apply upd_combos_frame|apply reset_combo_frame]. Qed.

(** What releaseAllPressedKeys leaves unchanged. *)
Lemma releaseAll_trk s :
  dev (releaseAllPressedKeys s) = dev s /\ ctx (releaseAllPressedKeys s) = ctx s /\
  appMacros (releaseAllPressedKeys s) = appMacros s /\
  trk (releaseAllPressedKeys s) = set_pressed [] (trk s).
Proof.
  unfold releaseAllPressedKeys. cbv zeta.
  set (s1 := foldl _ s (all_combos s)).
  set (s2 := foldl _ s1 (pressedKeys (trk s1))).
  assert (frame s (sync s2)) as [].
  { etrans; [|apply sync_frame]. etrans; [|apply foldl_frame; intros; apply emit_frame].
    apply foldl_frame, reset_claim_frame. }
  simpl. repeat split; congruence.
Qed.

#[export] Hint Resolve write_events_frame emit_frame sync_frame set_combo_frame
  reset_combo_frame break_combo_frame stageMacros_frame flush_combo_frame : daemon.

(** ** A relational principle for processEvent

    A preorder on states that every stage respects is respected by the whole
    pipeline.  [E] is the set of events considered, closed under the virtual
    G-key events. *)
Section ProcessRel.
Context (R : IM -> IM -> Prop) `{!PreOrder R} (env : Env) (E : input_event -> Prop).
Hypothesis E_virtual : forall ev n, E ev -> 1 <= n <= 6 ->
E (mkEv (ev_type ev) (to_uint16 (1000 + n)) (ev_value ev)).
Hypothesis R_context : forall ev s, E ev -> R s (stageContext env ev s).2.
Hypothesis R_gkey : forall g s, R s (upd_trk (set_gToggle g) s).
Hypothesis R_macros : forall ev skip s, E ev -> R s (stageMacros env ev skip s).2.
Hypothesis R_final : forall ev s, E ev -> R s (emitFinal ev s).

Lemma processEvent_rel fuel ev m s s' :
  E ev -> processEvent fuel env ev m s = Some s' -> R s s'.
Proof using All.
  revert ev m s s'. induction fuel as [|fuel IH]; intros ev m s s' HE; [done|].
  cbn [processEvent]. pose proof (R_context ev s HE) as Hc.
  destruct (stageContext env ev s) as [r s1]. cbn [snd] in Hc.
  destruct (decide (r = DROP)) as [Hr|Hr]; [intros; by simplify_eq|].
  destruct (monitoringMode (dev s1)); [intros; by simplify_eq|].
  assert (forall r2 s2, (if m then Some (CONTINUE, s1)
            else stageGKey (fun ev' => processEvent fuel env ev' false) ev s1) = Some (r2, s2) ->
          R s1 s2) as Hg.
  { intros r2 s2. destruct m; [by intros [= <- <-]|]. unfold stageGKey.
    destruct (detectGKey ev (gToggleState (trk s1))) as [[n|] g] eqn:D.
    - destruct (processEvent fuel env _ false _) as [s3|] eqn:P; simpl; [|done].
      intros [= <- <-]. etrans; [apply R_gkey|].
      refine (IH _ _ _ _ _ P). apply E_virtual; [done|].
      clear -D. unfold detectGKey in D. repeat case_match; simplify_eq.
      bool_prop. unfold KEY_1, KEY_6 in *. lia.
    - intros [= <- <-]. apply R_gkey. }
  destruct (if m then _ else _) as [[r2 s2]|]; simpl; [|done].
  specialize (Hg r2 s2 eq_refl). destruct (decide (r2 = CONSUMED)) as [Hr2|Hr2].
  { intros [= <-]. by etrans. }
  pose proof (R_macros ev m s2 HE) as Hm.
  destruct (stageMacros env ev m s2) as [r3 s3]. cbn [snd] in Hm.
  destruct (decide (r3 = DROP)); intros [= <-].
  - etrans; [exact Hc|]. by etrans.
  - etrans; [exact Hc|]. etrans; [exact Hg|]. etrans; [exact Hm|]. by apply R_final.
Qed.

Lemma process_rel ev m s : E ev -> R s (process env ev m s).
Proof using All.
  intros HE. unfold process.
  destruct (processEvent 2 env ev m s) as [s'|] eqn:P; simpl; [|done].
  by eapply processEvent_rel.
Qed.
End ProcessRel.

(** Two preorders to use it with: an observation that does not change, and an
    invariant that is preserved. *)
#[export] Instance unchanged_preorder {A} (f : IM -> A) : PreOrder (fun s s' => f s' = f s).
Proof. split; [by intros s|]. intros s1 s2 s3; congruence. Qed.

#[export] Instance preserved_preorder (P : IM -> Prop) : PreOrder (fun s s' => P s -> P s').
Proof. split; [by intros s|]. intros s1 s2 s3; tauto. Qed.

Lemma emitFinal_frame ev s : frame s (emitFinal ev s).
Proof. unfold emitFinal. case_decide; auto with daemon. Qed.

#[export] Hint Resolve emitFinal_frame : daemon.
