(* ===== verification/InputSafety.v ===== *)
(** Safety of the input mapper: termination of the pipeline, monitoring mode,
    the emergency exits, NumLock grabbing, and the G-key recogniser. *)

From S2P Require Import Prelude Types Keys InputMapper InputMapperFacts.

#[local] Arguments stageMacros : simpl never.
#[local] Arguments stageGKey : simpl never.

(** ** The tracking part of an event *)

(** Equality of the tracking state up to the set of pressed keys. *)
Definition tracking_eq (s s' : IM) : Prop :=
  set_pressed [] (trk s') = set_pressed [] (trk s).

(** What a context switch, and a wait for the grab, leave unchanged. *)
Record wait_frame (s s' : IM) : Prop := mkWaitFrame {
  wf_dev : dev s' = dev s;
  wf_trk : tracking_eq s s';
  wf_macros : appMacros s' = appMacros s
}.

#[export] Instance wait_frame_preorder : PreOrder wait_frame.
Proof.
  unfold tracking_eq. split; [by intros s; split|].
  intros s1 s2 s3 [? H1 ?] [? H2 ?]; split; unfold tracking_eq in *; congruence.
Qed.

Lemma frame_wait s s' : frame s s' -> wait_frame s s'.
Proof. intros []. split; unfold tracking_eq; congruence. Qed.

Lemma releaseAll_wait s : wait_frame s (releaseAllPressedKeys s).
Proof.
  destruct (releaseAll_trk s) as (? & ? & ? & E). split; [done| |done].
  unfold tracking_eq. by rewrite E.
Qed.

Lemma setContext_wait app url title s : wait_frame s (setContext app url title s).
Proof.
  unfold setContext. case_decide; [done|].
  etrans; [|apply releaseAll_wait]. by split.
Qed.

Lemma grab_wait_wait ps s : wait_frame s (grab_wait ps s).2.
Proof.
  revert s. induction ps as [|p ps IH]; intros s; simpl; [done|].
  set (s1 := match context_switch p with Some _ => _ | None => s end).
  assert (wait_frame s s1) as H1.
  { subst s1. destruct (context_switch p) as [[[]]|]; [apply setContext_wait|done]. }
  clearbody s1. destruct (_ && _); [done|]. by etrans; [|apply IH].
Qed.

Lemma gToggle_tracking s s' : tracking_eq s s' -> gToggleState (trk s') = gToggleState (trk s).
Proof. intros H. by apply (f_equal gToggleState) in H. Qed.

Lemma numLock_tracking s s' : tracking_eq s s' -> numLockActive (trk s') = numLockActive (trk s).
Proof. intros H. by apply (f_equal numLockActive) in H. Qed.

Lemma emergency_tracking s s' :
  tracking_eq s s' -> emergencyScrollCount (trk s') = emergencyScrollCount (trk s).
Proof. intros H. by apply (f_equal emergencyScrollCount) in H. Qed.

Lemma grabDevices_gToggle env s : gToggleState (trk (grabDevices env s)) = gToggleState (trk s).
Proof.
  unfold grabDevices. pose proof (wf_trk _ _ (grab_wait_wait (polls env) s)) as H.
  destruct (grab_wait (polls env) s) as [[] s']; by apply gToggle_tracking in H.
Qed.

Lemma setNumLockState_gToggle env b s :
  gToggleState (trk (setNumLockState env b s)) = gToggleState (trk s).
Proof.
  unfold setNumLockState. destruct (bool_decide _); [done|]. cbv zeta.
  rewrite (gToggle_tracking _ _ (wf_trk _ _ (releaseAll_wait _))).
  destruct b; [done|]. by rewrite grabDevices_gToggle.
Qed.

Lemma emergency_scroll_gToggle env ev s :
  gToggleState (trk (emergency_scroll env ev s)) = gToggleState (trk s).
Proof. unfold emergency_scroll. by repeat case_match. Qed.

Lemma emergency_pause_gToggle ev s :
  gToggleState (trk (emergency_pause ev s)) = gToggleState (trk s).
Proof. unfold emergency_pause. by case_match. Qed.

Lemma track_key_gToggle env ev s :
  gToggleState (trk (track_key env ev s)) = gToggleState (trk s).
Proof.
  unfold track_key. destruct (ev_type ev =? EV_KEY); [|done]. cbv zeta.
  destruct (_ && _); [rewrite setNumLockState_gToggle|]; by repeat case_match.
Qed.

Lemma stageContext_gToggle env ev s :
  gToggleState (trk (stageContext env ev s).2) = gToggleState (trk s).
Proof.
  unfold stageContext. simpl.
  by rewrite track_key_gToggle, emergency_scroll_gToggle, emergency_pause_gToggle.
Qed.

(** ** The G-key recogniser *)

Lemma detectGKey_Some ev g n g' :
  detectGKey ev g = (Some n, g') ->
  g = 5 /\ g' = 1 /\ 1 <= n <= 6 /\ ev_type ev = EV_KEY /\ ev_code ev = KEY_1 + n - 1.
Proof.
  unfold detectGKey. intros H. repeat case_match; simplify_eq; bool_prop.
  unfold KEY_1, KEY_6 in *. lia.
Qed.

Lemma detectGKey_range ev g : 1 <= g <= 5 -> 1 <= (detectGKey ev g).2 <= 5.
Proof. intros H. unfold detectGKey. repeat case_match; simpl; lia. Qed.

Lemma detectGKey_not5 ev g : g <> 5 -> (detectGKey ev g).1 = None.
Proof.
  intros H. destruct (detectGKey ev g) as [[n|] g'] eqn:E; [|done].
  by apply detectGKey_Some in E as [? _].
Qed.

Lemma stageGKey_idle process ev s :
  gToggleState (trk s) <> 5 ->
  stageGKey process ev s =
    Some (CONTINUE, upd_trk (set_gToggle (detectGKey ev (gToggleState (trk s))).2) s).
Proof.
  intros H. unfold stageGKey. apply (detectGKey_not5 ev) in H.
  destruct (detectGKey _ _) as [g st]. simpl in H. by rewrite H.
Qed.

(** One level of the pipeline. *)
Lemma processEvent_unfold fuel env ev m s :
  processEvent (S fuel) env ev m s =
    let '(r, s) := stageContext env ev s in
    if decide (r = DROP) then Some s
    else if monitoringMode (dev s) then Some s
    else
      '(r, s) ← (if m then Some (CONTINUE, s)
                 else stageGKey (fun ev' => processEvent fuel env ev' false) ev s);
      if decide (r = CONSUMED) then Some s
      else
        let '(r, s) := stageMacros env ev m s in
        if decide (r = DROP) then Some s else Some (emitFinal ev s).
Proof. done. Qed.

(** More fuel gives the same result. *)
Lemma processEvent_mono fuel env ev m s s' :
  processEvent fuel env ev m s = Some s' -> processEvent (S fuel) env ev m s = Some s'.
Proof.
  revert ev m s s'. induction fuel as [|fuel IH]; intros ev m s s'; [done|].
  rewrite !(processEvent_unfold _ env ev m s).
  destruct (stageContext env ev s) as [r s1].
  destruct (decide (r = DROP)); [done|]. destruct (monitoringMode (dev s1)); [done|].
  destruct m; [done|]. unfold stageGKey.
  destruct (detectGKey ev (gToggleState (trk s1))) as [[k|] g]; [|done].
  destruct (processEvent fuel env _ false _) as [s2|] eqn:E; [|done].
  apply IH in E. by rewrite E.
Qed.

(** Outside the ready state the pipeline needs one level. *)
Lemma processEvent_idle env ev isMouse s fuel :
  gToggleState (trk s) <> 5 ->
  exists s', processEvent (S fuel) env ev isMouse s = Some s'.
Proof.
  intros H. simpl. pose proof (stageContext_gToggle env ev s) as Hg.
  unfold stageContext in *. cbn [fst snd] in Hg.
  set (s1 := track_key _ _ _) in *. clearbody s1.
  destruct (monitoringMode (dev s1)); [eauto|].
  destruct isMouse.
  - simpl. eauto.
  - rewrite stageGKey_idle by congruence. simpl.
    destruct (stageMacros _ _ _ _) as [r s2]. case_decide; eauto.
Qed.

Lemma process_ends env ev isMouse s : exists s', processEvent 2 env ev isMouse s = Some s'.
Proof.
  rewrite processEvent_unfold.
  destruct (stageContext env ev s) as [r s1]. case_decide; [eauto|].
  destruct (monitoringMode (dev s1)); [eauto|].
  assert (exists r2 s2, (if isMouse then Some (CONTINUE, s1)
            else stageGKey (fun ev' => processEvent 1 env ev' false) ev s1) = Some (r2, s2))
    as (r2 & s2 & E).
  { destruct isMouse; [eauto|]. unfold stageGKey.
    destruct (detectGKey ev (gToggleState (trk s1))) as [[n|] g] eqn:E; [|eauto].
    apply detectGKey_Some in E as (_ & -> & _).
    edestruct (processEvent_idle env (mkEv (ev_type ev) (to_uint16 (1000 + n)) (ev_value ev))
      false (upd_trk (set_gToggle 1) s1) 0) as [s2 E]; [done|].
    rewrite E. simpl. eauto. }
  rewrite E. simpl. case_decide; [eauto|].
  destruct (stageMacros _ _ _ _) as [r3 s3]. case_decide; eauto.
Qed.

(** C19: processing an event always terminates: two levels of processEvent are
    enough for every event and every state, because the virtual G-key event that
    stageGKey feeds back finds the recogniser reset. *)
Theorem process_total (env : Env) (ev : input_event) (isMouse : bool) (s : IM) :
  exists s', processEvent 2 env ev isMouse s = Some s' /\ process env ev isMouse s = s'.
Proof.
  destruct (process_ends env ev isMouse s) as [s' E]. exists s'. unfold process. by rewrite E.
Qed.

(** ** Monitoring mode and the emergency exits *)

Lemma process_monitoring env ev m s :
  monitoringMode (dev (stageContext env ev s).2) = true ->
  process env ev m s = (stageContext env ev s).2.
Proof.
  intros H. unfold process. simpl. unfold stageContext in *. cbn [fst snd] in *.
  by rewrite H.
Qed.

Lemma track_key_other env ev s :
  is_key ev KEY_NUMLOCK 1 = false ->
  dev (track_key env ev s) = dev s /\ fx (track_key env ev s) = fx s /\
  combos (track_key env ev s) = combos s /\ ctx (track_key env ev s) = ctx s /\
  appMacros (track_key env ev s) = appMacros s.
Proof.
  intros H. unfold is_key in H. unfold track_key.
  destruct (ev_type ev =? EV_KEY); [|done]. cbv zeta. cbn [andb] in H. rewrite H.
  by repeat case_match.
Qed.

Lemma emergency_scroll_other env ev s :
  is_key ev KEY_SCROLLLOCK 1 = false -> emergency_scroll env ev s = s.
Proof. intros H. unfold emergency_scroll. by rewrite H. Qed.

Lemma emergency_scroll_fx env ev s :
  fx (emergency_scroll env ev s) = fx s /\ combos (emergency_scroll env ev s) = combos s /\
  ctx (emergency_scroll env ev s) = ctx s /\
  appMacros (emergency_scroll env ev s) = appMacros s.
Proof. unfold emergency_scroll. by repeat case_match. Qed.

Lemma emergency_pause_fx ev s :
  fx (emergency_pause ev s) = fx s /\ combos (emergency_pause ev s) = combos s /\
  ctx (emergency_pause ev s) = ctx s /\ appMacros (emergency_pause ev s) = appMacros s.
Proof. unfold emergency_pause. by case_match. Qed.

(** The escapes only ever turn monitoring on. *)
Lemma emergencies_monitoring env ev s :
  monitoringMode (dev s) = true ->
  monitoringMode (dev (emergency_scroll env ev (emergency_pause ev s))) = true.
Proof.
  intros H. unfold emergency_scroll, emergency_pause. by repeat case_match.
Qed.

Lemma monitoring_quiet env ev m s :
  monitoringMode (dev s) = true -> is_key ev KEY_NUMLOCK 1 = false ->
  process env ev m s = (stageContext env ev s).2 /\
  monitoringMode (dev (process env ev m s)) = true.
Proof.
  intros Hm Hn.
  assert (monitoringMode (dev (stageContext env ev s).2) = true) as H.
  { unfold stageContext. cbn [snd]. rewrite (proj1 (track_key_other _ _ _ Hn)).
    by apply emergencies_monitoring. }
  split; [by apply process_monitoring|]. by rewrite process_monitoring.
Qed.

(** While the devices are only monitored, an event other than a NumLock
    press writes nothing to the virtual device and touches neither the combos
    nor the G-key recogniser, so no input is ever doubled. *)
Theorem monitoring_silent (env : Env) (ev : input_event) (m : bool) (s : IM) :
  monitoringMode (dev s) = true -> is_key ev KEY_NUMLOCK 1 = false ->
  let s' := process env ev m s in
  fx s' = fx s /\ combos s' = combos s /\
  gToggleState (trk s') = gToggleState (trk s) /\ monitoringMode (dev s') = true.
Proof.
  intros Hm Hn s'. destruct (monitoring_quiet env ev m s Hm Hn) as [E Hm'].
  subst s'. rewrite E in *. rewrite stageContext_gToggle.
  unfold stageContext in *. cbn [snd] in *.
  destruct (track_key_other env ev (emergency_scroll env ev (emergency_pause ev s)) Hn)
    as (_ & -> & -> & _).
  destruct (emergency_scroll_fx env ev (emergency_pause ev s)) as (-> & -> & _).
  destruct (emergency_pause_fx ev s) as (-> & -> & _). done.
Qed.

Lemma monitoring_silent_witness :
  let s := upd_dev (fun d => set_monitoring true (set_handles true true true true true d))
             initialIM in
  fx (process (mkEnv 0 [] true true) (mkEv EV_KEY KEY_A 1) false s) = fx s.
Proof. by apply monitoring_silent. Defined.

(** The Pause key ungrabs both devices and switches to monitoring, from any
    state, whatever the macros hold back.  The press itself is not written to
    the virtual device. *)
Theorem pause_ungrabs (env : Env) (m : bool) (s : IM) :
  let s' := process env (mkEv EV_KEY KEY_PAUSE 1) m s in
  monitoringMode (dev s') = true /\
  (keyboardDev (dev s) = true -> keyboardGrabbed (dev s') = false) /\
  (mouseDev (dev s) = true -> mouseGrabbed (dev s') = false) /\
  fx s' = fx s /\ combos s' = combos s.
Proof.
  intros s'.
  assert (s' = (stageContext env (mkEv EV_KEY KEY_PAUSE 1) s).2) as ->
    by (apply process_monitoring; done).
  simpl. repeat split; intros H; by rewrite ?H.
Qed.

Lemma pause_ungrabs_witness :
  let s := upd_dev (fun d => set_grabbed true true (set_handles true true true true true d))
             initialIM in
  keyboardGrabbed (dev (process (mkEnv 0 [] true true) (mkEv EV_KEY KEY_PAUSE 1) false s)) = false.
Proof.
  intros s. apply (pause_ungrabs (mkEnv 0 [] true true) false s). reflexivity.
Defined.

(** *** ScrollLock three times *)

Definition emergency_state (s : IM) : Z * Z :=
  (emergencyScrollCount (trk s), emergencyFirstPress (trk s)).

Lemma emergency_state_tracking s s' : tracking_eq s s' -> emergency_state s' = emergency_state s.
Proof.
  intros H. unfold emergency_state.
  by pose proof (f_equal emergencyScrollCount H); pose proof (f_equal emergencyFirstPress H);
    simpl in *; f_equal.
Qed.

Lemma track_key_emergency env ev s : emergency_state (track_key env ev s) = emergency_state s.
Proof.
  unfold track_key. destruct (ev_type ev =? EV_KEY); [|done]. cbv zeta.
  match goal with |- context [if (_ && _)%bool then setNumLockState env ?b ?s0 else _] =>
    assert (emergency_state s0 = emergency_state s) as H0 by (by repeat case_match);
    destruct (_ && _); [|exact H0]; rewrite <- H0; generalize b; generalize s0
  end.
  intros s0 b. unfold setNumLockState. destruct (bool_decide _); [done|]. cbv zeta.
  rewrite (emergency_state_tracking _ _ (wf_trk _ _ (releaseAll_wait _))).
  destruct b; [done|]. unfold grabDevices.
  pose proof (wf_trk _ _ (grab_wait_wait (polls env) (upd_trk (set_numlock false) s0))) as H.
  destruct (grab_wait _ _) as [[] s']; simpl in *;
    by apply (emergency_state_tracking _ _ H).
Qed.

Lemma emergency_pause_state ev s : emergency_state (emergency_pause ev s) = emergency_state s.
Proof. unfold emergency_pause. by case_match. Qed.

Lemma frame_emergency s s' : frame s s' -> emergency_state s' = emergency_state s.
Proof. intros []. unfold emergency_state. by rewrite fr_trk. Qed.

(** Only a ScrollLock press moves the emergency counter. *)
Lemma process_emergency env ev m s :
  is_key ev KEY_SCROLLLOCK 1 = false ->
  emergency_state (process env ev m s) = emergency_state s.
Proof.
  intros Hev.
  apply (process_rel (fun s s' => emergency_state s' = emergency_state s) env
           (fun e => is_key e KEY_SCROLLLOCK 1 = false)); try done.
  - intros e n _ Hn. unfold is_key, to_uint16. simpl.
    rewrite (proj2 (Z.eqb_neq _ KEY_SCROLLLOCK)); [by rewrite andb_false_r|].
    rewrite Z.mod_small by lia. unfold KEY_SCROLLLOCK. lia.
  - intros e s0 He. unfold stageContext. cbn [snd].
    by rewrite track_key_emergency, emergency_scroll_other, emergency_pause_state.
  - intros e sk s0 _. apply frame_emergency, stageMacros_frame.
  - intros e s0 _. apply frame_emergency, emitFinal_frame.
Qed.

Definition not_scroll (x : Env * input_event * bool) : Prop :=
  is_key x.1.2 KEY_SCROLLLOCK 1 = false.

Definition process_all (s : IM) (l : list (Env * input_event * bool)) : IM :=
  foldl (fun s x => process x.1.1 x.1.2 x.2 s) s l.

Lemma process_all_emergency l s :
  Forall not_scroll l -> emergency_state (process_all s l) = emergency_state s.
Proof.
  unfold process_all. revert s. induction l as [|x l IH]; intros s; simpl; [done|].
  intros [Hx Hl]%Forall_cons. rewrite IH by done. by apply process_emergency.
Qed.

Definition scroll_press : input_event := mkEv EV_KEY KEY_SCROLLLOCK 1.

(** The counter after a ScrollLock press. *)
Lemma process_scroll_count env m s :
  emergency_state (process env scroll_press m s) =
  emergency_state (emergency_scroll env scroll_press s).
Proof.
  set (c := emergency_state (emergency_scroll env scroll_press s)).
  assert (emergency_state (stageContext env scroll_press s).2 = c) as Hc
    by (unfold stageContext; cbn [snd]; by rewrite track_key_emergency).
  unfold process. destruct (processEvent 2 env scroll_press m s) as [s'|] eqn:P.
  2: { destruct (process_ends env scroll_press m s) as [s' P']. congruence. }
  cbn [default]. revert P. cbn [processEvent].
  destruct (stageContext env scroll_press s) as [r s1].
  cbn [snd] in Hc. destruct (decide (r = DROP)) as [Hr|Hr]; [by intros [= <-]|].
  destruct (monitoringMode (dev s1)); [by intros [= <-]|].
  assert (forall s2, frame s1 s2 \/ (exists g, s2 = upd_trk (set_gToggle g) s1) ->
     emergency_state (stageMacros env scroll_press m s2).2 = c /\
     emergency_state (emitFinal scroll_press (stageMacros env scroll_press m s2).2) = c) as Hs.
  { intros s2 H2.
    assert (emergency_state s2 = c) as H2' by (destruct H2 as [H|[g ->]];
      [rewrite <- Hc; by apply frame_emergency|done]).
    rewrite (frame_emergency _ _ (emitFinal_frame _ _)).
    by rewrite (frame_emergency _ _ (stageMacros_frame _ _ _ _)). }
  destruct m; simpl.
  - intros [= <-]. apply (Hs s1). by left.
  - unfold stageGKey. cbn [detectGKey]. change (detectGKey scroll_press (gToggleState (trk s1)))
      with (if gToggleState (trk s1) =? 5 then (@None Z, 1) else (@None Z, 1)).
    destruct (_ =? 5); simpl;
      (destruct (Hs (upd_trk (set_gToggle 1) s1) (or_intror (ex_intro _ 1 eq_refl))) as [H1 H2];
       destruct (stageMacros _ _ _ _) as [r3 s3]; case_decide; intros [= <-]; done).
Qed.

(** Three ScrollLock presses within one second of the first ungrab the
    devices, whatever other events come in between and whatever the macros do. *)
Theorem scroll_triple_ungrabs (e1 e2 e3 : Env) (m1 m2 m3 : bool)
    (l1 l2 : list (Env * input_event * bool)) (s : IM) :
  emergencyScrollCount (trk s) = 0 ->
  Forall not_scroll l1 -> Forall not_scroll l2 ->
  now e2 - now e1 <= seconds 1 -> now e3 - now e1 <= seconds 1 ->
  let s1 := process_all (process e1 scroll_press m1 s) l1 in
  let s2 := process_all (process e2 scroll_press m2 s1) l2 in
  let s3 := process e3 scroll_press m3 s2 in
  monitoringMode (dev s3) = true /\ emergencyScrollCount (trk s3) = 0 /\
  (keyboardDev (dev s2) = true -> keyboardGrabbed (dev s3) = false).
Proof.
  intros H0 Hl1 Hl2 Ht2 Ht3 s1 s2 s3.
  assert (emergency_state s1 = (1, now e1)) as E1.
  { subst s1. rewrite process_all_emergency, process_scroll_count by done.
    unfold emergency_scroll. by rewrite H0. }
  assert (emergency_state s2 = (2, now e1)) as E2.
  { subst s2. rewrite process_all_emergency, process_scroll_count by done.
    unfold emergency_scroll. injection E1 as H1 H2.
    rewrite H1, H2. simpl. by rewrite (proj2 (Z.ltb_ge _ _)) by done. }
  assert (stageContext e3 scroll_press s2 =
          (CONTINUE, track_key e3 scroll_press
             (ungrabDevices (upd_trk (set_emergency 0 (now e1)) s2)))) as E3.
  { injection E2 as H1 H2. unfold stageContext, emergency_scroll.
    change (emergency_pause scroll_press s2) with s2. rewrite H1, H2. simpl.
    by rewrite (proj2 (Z.ltb_ge _ _)) by done. }
  assert (s3 = (stageContext e3 scroll_press s2).2) as ->
    by (apply process_monitoring; by rewrite E3).
  rewrite E3. repeat split. simpl. intros H. by rewrite H.
Qed.

Lemma scroll_triple_ungrabs_witness :
  let e t := mkEnv (t * 1000000) [] true true in
  let s := upd_dev (set_grabbed true true) initialIM in
  monitoringMode (dev (process (e 900) scroll_press false
    (process_all (process (e 500) scroll_press false
      (process_all (process (e 0) scroll_press false s) []))
      [(e 600, mkEv EV_KEY KEY_A 1, false)]))) = true.
Proof.
  intros e s.
  apply (scroll_triple_ungrabs (e 0) (e 500) (e 900) false false false []
           [(e 600, mkEv EV_KEY KEY_A 1, false)] s);
    [reflexivity|constructor|repeat constructor|vm_compute; discriminate..].
Defined.

(** ** NumLock *)

Definition numlock_press : input_event := mkEv EV_KEY KEY_NUMLOCK 1.

Definition no_switch (p : GrabPoll) : Prop := context_switch p = None.

(** With a key down and no context switch the grab loop times out. *)
Lemma grab_wait_timeout ps s :
  pressedKeys (trk s) <> [] -> Forall no_switch ps -> grab_wait ps s = (false, s).
Proof.
  intros Hk. induction 1 as [|p ps Hp Hps IH]; simpl; [done|].
  unfold no_switch in Hp. rewrite Hp, bool_decide_eq_false_2, andb_false_r by done. exact IH.
Qed.

Lemma set_insert_nonempty x l : StdSet.insert x l <> [].
Proof. destruct l; simpl; [done|]. by repeat case_match. Qed.

(** The state in which a NumLock press asks for the grab. *)
Definition numlock_tracked (s : IM) : IM :=
  upd_trk (fun t => set_pressed (StdSet.insert KEY_NUMLOCK (pressedKeys t)) t) s.

Lemma stageContext_numlock env s :
  (stageContext env numlock_press s).2 =
  setNumLockState env (negb (numLockActive (trk s))) (numlock_tracked s).
Proof. done. Qed.

Lemma releaseAll_dev s : dev (releaseAllPressedKeys s) = dev s.
Proof. by destruct (releaseAll_trk s) as (-> & _). Qed.

Lemma releaseAll_tracking s : trk (releaseAllPressedKeys s) = set_pressed [] (trk s).
Proof. by destruct (releaseAll_trk s) as (_ & _ & _ & ->). Qed.

(** A NumLock press that turns NumLock on ungrabs the devices, and the
    press is not written to the virtual device; keys held at that moment are
    released there, so none stays stuck. *)
Theorem numlock_on_ungrabs (env : Env) (m : bool) (s : IM) :
  numLockActive (trk s) = false ->
  let s' := process env numlock_press m s in
  monitoringMode (dev s') = true /\ numLockActive (trk s') = true /\
  pressedKeys (trk s') = [] /\
  (keyboardDev (dev s) = true -> keyboardGrabbed (dev s') = false).
Proof.
  intros Hn s'.
  set (t := ungrabDevices (upd_trk (set_numlock true) (numlock_tracked s))).
  assert ((stageContext env numlock_press s).2 = releaseAllPressedKeys t) as E.
  { rewrite stageContext_numlock, Hn. unfold setNumLockState. simpl. by rewrite Hn. }
  assert (s' = releaseAllPressedKeys t) as ->.
  { subst s'. rewrite process_monitoring; [done|]. by rewrite E, releaseAll_dev. }
  rewrite releaseAll_dev, releaseAll_tracking.
  simpl. repeat split; intros H; by rewrite H.
Qed.

Lemma numlock_on_ungrabs_witness :
  let s := upd_dev (set_grabbed true true) initialIM in
  numLockActive (trk s) = false /\
  monitoringMode (dev (process (mkEnv 0 [] true true) numlock_press false s)) = true.
Proof.
  split; [reflexivity|].
  apply (numlock_on_ungrabs (mkEnv 0 [] true true) false
           (upd_dev (set_grabbed true true) initialIM)). reflexivity.
Defined.

(** C33: a NumLock press that turns NumLock off asks for the grab while NumLock
    itself is recorded as pressed, and the thread that would record its release
    is the one that waits: whatever the hardware reports, unless another thread
    changes the context meanwhile, the wait times out and the devices stay
    ungrabbed and monitored although NumLock is off. *)
Theorem numlock_off_not_regrabbed (env : Env) (m : bool) (s : IM) :
  numLockActive (trk s) = true -> monitoringMode (dev s) = true ->
  Forall no_switch (polls env) ->
  let s' := process env numlock_press m s in
  numLockActive (trk s') = false /\ dev s' = dev s.
Proof.
  intros Hn Hm Hp s'.
  set (t := upd_trk (set_numlock false) (numlock_tracked s)).
  assert ((stageContext env numlock_press s).2 = releaseAllPressedKeys t) as E.
  { rewrite stageContext_numlock, Hn. unfold setNumLockState. simpl. rewrite Hn. simpl.
    unfold grabDevices. rewrite grab_wait_timeout; [done|apply set_insert_nonempty|done]. }
  assert (s' = releaseAllPressedKeys t) as ->.
  { subst s'. rewrite process_monitoring; [done|]. by rewrite E, releaseAll_dev. }
  by rewrite releaseAll_dev, releaseAll_tracking.
Qed.

Lemma numlock_off_not_regrabbed_witness :
  let s := upd_trk (set_numlock true) (upd_dev (set_monitoring true) initialIM) in
  monitoringMode (dev (process (mkEnv 0 [mkPoll false None; mkPoll false None] true true)
    numlock_press false s)) = true.
Proof.
  intros s. set (e := mkEnv 0 [mkPoll false None; mkPoll false None] true true).
  assert (Forall no_switch (polls e)) as Hp by (repeat constructor).
  by rewrite (proj2 (numlock_off_not_regrabbed e false s eq_refl eq_refl Hp)).
Defined.

(** ** What the G-key recogniser accepts *)

Definition recognise (h : list input_event) (g : Z) : Z :=
  foldl (fun g e => (detectGKey e g).2) g h.

(** A press, a repeat or a release that the recogniser takes into account:
    every key event but a repeat or a release of Ctrl or Shift. *)
Definition counts (e : input_event) : bool :=
  (ev_type e =? EV_KEY) &&
  (negb ((ev_code e =? KEY_LEFTCTRL) || (ev_code e =? KEY_LEFTSHIFT)) || (ev_value e =? 1)).

Definition counted (h : list input_event) : list Z :=
  ev_code <$> base.filter (fun e => counts e = true) h.

Lemma detectGKey_ignored e g : counts e = false -> (detectGKey e g).2 = g.
Proof.
  unfold counts, detectGKey. intros H.
  destruct (ev_type e =? EV_KEY); [|done]. simpl in *.
  destruct (ev_code e =? KEY_LEFTCTRL); [simpl in H; by rewrite H|].
  destruct (ev_code e =? KEY_LEFTSHIFT); [simpl in H; by rewrite H|]. done.
Qed.

(** The recogniser as a machine on the codes it takes into account. *)
Definition gstep (g c : Z) : Z :=
  if c =? KEY_LEFTCTRL then (if g =? 1 then 2 else if g =? 3 then 4 else 1)
  else if c =? KEY_LEFTSHIFT then (if g =? 2 then 3 else if g =? 4 then 5 else 1)
  else 1.

Lemma detectGKey_counted e g : counts e = true -> (detectGKey e g).2 = gstep g (ev_code e).
Proof.
  unfold counts, detectGKey, gstep. intros H. bool_prop. rewrite H. simpl.
  destruct (ev_code e =? KEY_LEFTCTRL); [simpl in *; by rewrite H0|].
  destruct (ev_code e =? KEY_LEFTSHIFT); [simpl in *; by rewrite H0|].
  by destruct (g =? 5).
Qed.

Lemma counted_cons e h :
  counted (e :: h) = if counts e then ev_code e :: counted h else counted h.
Proof. unfold counted. rewrite filter_cons. by destruct (counts e). Qed.

Lemma counted_app h1 h2 : counted (h1 ++ h2) = counted h1 ++ counted h2.
Proof. unfold counted. by rewrite filter_app, fmap_app. Qed.

Lemma recognise_counted h g : recognise h g = foldl gstep g (counted h).
Proof.
  revert g. induction h as [|e h IH]; intros g; [done|].
  rewrite counted_cons. simpl. destruct (counts e) eqn:E; simpl; rewrite IH.
  - by rewrite detectGKey_counted.
  - by rewrite detectGKey_ignored.
Qed.

Definition gsequence : list Z := [KEY_LEFTCTRL; KEY_LEFTSHIFT; KEY_LEFTCTRL; KEY_LEFTSHIFT].

Lemma gstep_inv g c g' :
  1 <= g <= 5 -> gstep g c = g' -> 2 <= g' ->
  g = g' - 1 /\ c = (if (g' =? 2) || (g' =? 4) then KEY_LEFTCTRL else KEY_LEFTSHIFT).
Proof. unfold gstep. intros Hg <- H. repeat case_match; bool_prop; simpl in *; lia. Qed.

Lemma foldl_gstep_range l g : 1 <= g <= 5 -> 1 <= foldl gstep g l <= 5.
Proof.
  revert g. induction l as [|c l IH]; intros g H; [done|]. apply IH.
  unfold gstep. repeat case_match; lia.
Qed.

(** A state above 1 was reached by a proper prefix of the sequence. *)
Lemma foldl_gstep_prefix (n : nat) l :
  (n <= 4)%nat -> foldl gstep 1 l = Z.of_nat n + 1 ->
  exists l0, l = l0 ++ take n gsequence /\ foldl gstep 1 l0 = 1.
Proof.
  revert l. induction n as [|n IH]; intros l Hn H.
  { exists l. by rewrite app_nil_r. }
  destruct l as [|c l] using rev_ind; [simpl in H; lia|]. clear IHl.
  rewrite foldl_app in H. simpl in H.
  apply gstep_inv in H as [H Hc]; [|by apply foldl_gstep_range|lia].
  destruct (IH l ltac:(lia)) as (l0 & -> & H0); [lia|].
  exists l0. split; [|done]. rewrite <- app_assoc. f_equal.
  rewrite (take_S_r _ _ c); [done|]. subst c.
  destruct n as [|[|[|[|]]]]; try reflexivity; lia.
Qed.

(** The recogniser reports the G key n exactly on an event of the number
    key n that follows the presses Ctrl, Shift, Ctrl, Shift: repeats and
    releases of those two keys and events that are not keys may come in
    between, any other key event starts the sequence over. *)
Theorem gkey_recognised (h : list input_event) (ev : input_event) (n : Z) :
  (detectGKey ev (recognise h 1)).1 = Some n <->
  (1 <= n <= 6 /\ ev_type ev = EV_KEY /\ ev_code ev = KEY_1 + n - 1) /\
  exists codes, counted h = codes ++ gsequence /\ foldl gstep 1 codes = 1.
Proof.
  rewrite recognise_counted. split.
  - destruct (detectGKey _ _) as [g g'] eqn:E. simpl. intros ->.
    apply detectGKey_Some in E as (H5 & _ & ? & ? & ?). split; [done|].
    apply (foldl_gstep_prefix 4 _ ltac:(lia) H5).
  - intros [(Hn & Ht & Hc) (codes & -> & H1)]. rewrite foldl_app, H1. simpl.
    unfold detectGKey. rewrite Ht, Hc. unfold KEY_1, KEY_6, KEY_LEFTCTRL, KEY_LEFTSHIFT.
    rewrite (proj2 (Z.eqb_neq _ 29)), (proj2 (Z.eqb_neq _ 42)) by lia. simpl.
    rewrite !(proj2 (Z.leb_le _ _)) by lia. simpl. f_equal. lia.
Qed.

(** When the recogniser is ready, an event of number key n is replaced by
    the virtual key 1000 + n with the same value, run through the whole
    pipeline; the number key itself is consumed. *)
Theorem gkey_dispatch (env : Env) (n v : Z) (s : IM) :
  1 <= n <= 6 -> gToggleState (trk s) = 5 -> monitoringMode (dev s) = false ->
  let ev := mkEv EV_KEY (KEY_1 + n - 1) v in
  process env ev false s =
  process env (mkEv EV_KEY (1000 + n) v) false (upd_trk (set_gToggle 1) (track_key env ev s)).
Proof.
  intros Hn H5 Hm ev.
  assert (stageContext env ev s = (CONTINUE, track_key env ev s)) as Ec.
  { unfold stageContext, emergency_scroll, emergency_pause, is_key.
    unfold ev, KEY_1. cbn [ev_type ev_code ev_value].
    by rewrite (proj2 (Z.eqb_neq _ KEY_PAUSE)), (proj2 (Z.eqb_neq _ KEY_SCROLLLOCK))
      by (unfold KEY_PAUSE, KEY_SCROLLLOCK; lia). }
  set (s1 := track_key env ev s) in *.
  assert (gToggleState (trk s1) = 5) as G5 by (subst s1; by rewrite track_key_gToggle).
  assert (monitoringMode (dev s1) = false) as M1.
  { subst s1. rewrite (proj1 (track_key_other env ev s
      ltac:(unfold is_key, ev, KEY_1; cbn [ev_type ev_code ev_value];
            by rewrite (proj2 (Z.eqb_neq _ KEY_NUMLOCK)) by (unfold KEY_NUMLOCK; lia)))).
    done. }
  assert (detectGKey ev (gToggleState (trk s1)) = (Some n, 1)) as D.
  { rewrite G5. unfold detectGKey, ev, KEY_1, KEY_6, KEY_LEFTCTRL, KEY_LEFTSHIFT. simpl.
    rewrite (proj2 (Z.eqb_neq _ 29)), (proj2 (Z.eqb_neq _ 42)) by lia.
    rewrite !(proj2 (Z.leb_le _ _)) by lia. simpl. do 2 f_equal. lia. }
  set (s2 := upd_trk (set_gToggle 1) s1).
  destruct (processEvent_idle env (mkEv EV_KEY (1000 + n) v) false s2 0) as [s' E']; [done|].
  unfold process at 1.
  rewrite processEvent_unfold.
  rewrite Ec. cbn iota. rewrite decide_False by done. rewrite M1. cbn iota.
  unfold stageGKey. rewrite D. fold s2.
  replace (to_uint16 (1000 + n)) with (1000 + n)
    by (unfold to_uint16; rewrite Z.mod_small; lia).
  change (ev_type ev) with EV_KEY. change (ev_value ev) with v.
  rewrite E'. simpl. unfold process. by rewrite (processEvent_mono _ _ _ _ _ _ E').
Qed.

Lemma gkey_dispatch_witness :
  let s := upd_trk (set_gToggle 5) initialIM in
  let e := mkEnv 0 [] true true in
  process e (mkEv EV_KEY 7 1) false s =
  process e (mkEv EV_KEY 1006 1) false
    (upd_trk (set_gToggle 1) (track_key e (mkEv EV_KEY 7 1) s)).
Proof.
  intros s e. apply (gkey_dispatch e 6 1 s); [lia|reflexivity..].
Defined.

(** ** Starting and stopping *)

Definition all_closed (s : IM) : Prop :=
  keyboardFd (dev s) = false /\ mouseFd (dev s) = false /\
  keyboardDev (dev s) = false /\ mouseDev (dev s) = false /\ uinputDev (dev s) = false.

Lemma stop_spec s :
  all_closed (stop s) /\ running (dev (stop s)) = false /\
  monitoringMode (dev (stop s)) = true /\
  (keyboardDev (dev s) = true -> keyboardGrabbed (dev (stop s)) = false) /\
  (mouseDev (dev s) = true -> mouseGrabbed (dev (stop s)) = false).
Proof.
  unfold stop. cbv zeta.
  destruct (monitoringMode (dev (upd_dev (set_running false) s))) eqn:E; simpl in *;
    unfold all_closed; simpl; repeat split; auto; by intros ->.
Qed.

(** Stopping closes every handle, releases the grab of every open device and
    is idempotent: a second stop changes nothing. *)
Theorem stop_releases (s : IM) :
  let s' := stop s in
  all_closed s' /\ running (dev s') = false /\
  (keyboardDev (dev s) = true -> keyboardGrabbed (dev s') = false) /\
  (mouseDev (dev s) = true -> mouseGrabbed (dev s') = false) /\
  stop s' = s'.
Proof.
  intros s'. destruct (stop_spec s) as (H1 & H2 & H3 & H4 & H5).
  repeat (split; [done|]). subst s'. revert H1 H2 H3. generalize (stop s).
  intros [[] t c cb f m p] (? & ? & ? & ? & ?) ? ?. simpl in *. subst. done.
Qed.

Lemma stop_releases_witness :
  let s := upd_dev (fun d => set_grabbed true true (set_handles true true true true true d))
             initialIM in
  keyboardDev (dev s) = true /\ keyboardGrabbed (dev (stop s)) = false.
Proof.
  split; [reflexivity|].
  apply (stop_releases (upd_dev (fun d =>
    set_grabbed true true (set_handles true true true true true d)) initialIM)).
  reflexivity.
Defined.

Lemma insert_pressed_dev lo hi l s : dev (insert_pressed lo hi l s) = dev s.
Proof.
  unfold insert_pressed. apply (foldl_ind (fun t => dev t = dev s)); [|done].
  intros b a _ H. by destruct (_ && _).
Qed.

Lemma setupDevices_spec o path s :
  (setupDevices o path s).1 = kbdOpens o && kbdInit o /\
  ((setupDevices o path s).1 = true ->
     keyboardFd (dev (setupDevices o path s).2) = true /\
     keyboardDev (dev (setupDevices o path s).2) = true /\
     monitoringMode (dev (setupDevices o path s).2) = true).
Proof.
  unfold setupDevices. destruct (kbdOpens o); [|done]. simpl.
  destruct (kbdInit o); [|done]. simpl. split; [done|]. intros _.
  destruct (Str.empty path); simpl; [by rewrite insert_pressed_dev|].
  destruct (_ && _); rewrite ?insert_pressed_dev; simpl; by rewrite insert_pressed_dev.
Qed.

(** Starting succeeds exactly when the keyboard opens, libevdev accepts it
    and the virtual device is created; then the mapper runs with the keyboard
    and the virtual device open, and is not yet in monitoring mode only if it was
    asked to grab at once and the keys came up in time.  A failed start leaves
    every handle closed and the mapper stopped. *)
Theorem start_outcome (env : Env) (o : OpenOutcome) (path : string) (grab : bool) (s : IM) :
  let '(ok, s') := start env o path grab s in
  ok = kbdOpens o && kbdInit o && uinputCreates o /\
  if ok then running (dev s') = true /\ keyboardFd (dev s') = true /\
             keyboardDev (dev s') = true /\ uinputDev (dev s') = true /\
             (grab = false -> monitoringMode (dev s') = true)
  else all_closed s' /\ running (dev s') = false.
Proof.
  unfold start. destruct (setupDevices_spec o path s) as [Hok Hd].
  destruct (setupDevices o path s) as [ok s1]. simpl in *. subst ok.
  destruct (kbdOpens o && kbdInit o); simpl.
  2: { split; [done|]. by destruct (stop_spec s1) as (? & ? & _). }
  destruct (Hd eq_refl) as (H1 & H2 & H3). destruct (uinputCreates o); simpl.
  2: { split; [done|]. set (s2 := upd_dev _ s1).
       by destruct (stop_spec s2) as (? & ? & _). }
  split; [done|]. set (s2 := upd_dev _ s1).
  assert (keyboardFd (dev s2) = true /\ keyboardDev (dev s2) = true /\
          uinputDev (dev s2) = true /\ monitoringMode (dev s2) = true) as (F1 & F2 & F3 & F4)
    by (by simpl).
  clearbody s2. destruct grab; simpl; [|by rewrite F1, F2, F3, F4].
  unfold grabDevices. pose proof (wf_dev _ _ (grab_wait_wait (polls env) s2)) as Hg.
  destruct (grab_wait _ _) as [[] s3]; simpl in *; rewrite ?Hg; by rewrite F1, F2, F3.
Qed.
