(* ===== verification/ComboFacts.v ===== *)
(** The suppression registry and the combo engine: what claiming, breaking,
    completing and flushing a combo do, the invariants of the combo
    bookkeeping, and the steps of the mapper. *)

From S2P Require Import Prelude Types Keys InputMapper InputMapperFacts.
Import SuppressionRegistry.

(** ** The suppression registry *)

Lemma length_pos {A} (l : list A) : l <> [] -> (0 < length l)%nat.
Proof. destruct l; [done|simpl; lia]. Qed.

Lemma kept_elem i vec wk : wk ∈ kept i vec <-> wk ∈ vec /\ owningComboIdx wk <> i.
Proof. unfold kept, owned. rewrite list_elem_of_filter. tauto. Qed.

Lemma withheld_claim c i r : withheld c (claim i r).2 = kept i (withheld c r).
Proof. unfold withheld, claim. simpl. rewrite find_fmap_snd. by destruct (StdMap.find c r). Qed.

Lemma withheld_add c t c' v i r :
  withheld c (add t c' v i r) =
  withheld c r ++ (if decide (c = c') then [mkWK t c' v i] else []).
Proof.
  unfold withheld, add. destruct (StdMap.at_default c' [] r) as [vec r'] eqn:E.
  case_decide as Hc.
  - subst c'. rewrite StdMap.find_insert. apply StdMap.at_default_find in E as [_ ->]. done.
  - rewrite StdMap.find_insert_ne by congruence. rewrite app_nil_r.
    assert (r' = (StdMap.at_default c' [] r).2) as -> by (by rewrite E).
    by rewrite StdMap.at_default_ne by congruence.
Qed.

Lemma isBlocked_fst c r : (isBlocked c r).1 = negb (bool_decide (withheld c r = [])).
Proof.
  unfold isBlocked, withheld. destruct (StdMap.at_default c [] r) as [vec r'] eqn:E.
  apply StdMap.at_default_find in E as [_ ->]. simpl.
  by destruct (default [] (StdMap.find c r)).
Qed.

Lemma isBlocked_withheld c c' r : withheld c' (isBlocked c r).2 = withheld c' r.
Proof.
  unfold isBlocked, withheld, StdMap.at_default.
  destruct (StdMap.find c r) as [vec|] eqn:E; simpl; [done|].
  destruct (decide (c = c')) as [->|Hne].
  - by rewrite StdMap.find_insert, E.
  - by rewrite StdMap.find_insert_ne.
Qed.

(** ** Combo states *)

Lemma combo_state_set app i st s a j :
  combo_state a j (set_combo app i st s) =
  if decide ((a, j) = (app, i)) then st else combo_state a j s.
Proof.
  unfold set_combo, combo_state.
  destruct (StdMap.at_default app [] (comboProgress (combos s))) as [m p] eqn:E. simpl.
  pose proof (StdMap.at_default_find _ _ _ _ _ E) as [Hf Hm].
  destruct (decide (a = app)) as [->|Ha].
  - rewrite StdMap.find_insert. simpl. destruct (decide (j = i)) as [->|Hj].
    + by rewrite StdMap.find_insert, decide_True.
    + rewrite StdMap.find_insert_ne, decide_False by congruence. subst m.
      by destruct (StdMap.find app (comboProgress (combos s))).
  - rewrite StdMap.find_insert_ne, decide_False by congruence.
    assert (p = (StdMap.at_default app [] (comboProgress (combos s))).2) as -> by (by rewrite E).
    by rewrite StdMap.at_default_ne by congruence.
Qed.

Definition index (a : AppType) (i : nat) (s : IM) : nat := nextKeyIndex (combo_state a i s).

(** The registry is a map: its keys ascend. *)
Definition registry_sorted (s : IM) : Prop :=
  StdMap.sorted (suppressionRegistry (combos s)).

Lemma claim_sorted i r : StdMap.sorted r -> StdMap.sorted (claim i r).2.
Proof.
  simpl. induction r as [|[c vec] r IH]; simpl; [done|]. intros [Hf Hs].
  split; [|by apply IH]. rewrite Forall_fmap. exact Hf.
Qed.

Lemma at_default_sorted {V} (c : Z) (d : V) m :
  StdMap.sorted m -> StdMap.sorted (StdMap.at_default c d m).2.
Proof.
  unfold StdMap.at_default. destruct (StdMap.find c m); [done|]. apply StdMap.sorted_insert.
Qed.

Lemma isBlocked_sorted c r : StdMap.sorted r -> StdMap.sorted (isBlocked c r).2.
Proof.
  intros H%(at_default_sorted c []). unfold isBlocked.
  by destruct (StdMap.at_default c [] r).
Qed.

Lemma add_sorted t c v i r : StdMap.sorted r -> StdMap.sorted (add t c v i r).
Proof.
  intros H%(at_default_sorted c []). unfold add.
  destruct (StdMap.at_default c [] r). by apply StdMap.sorted_insert.
Qed.

Definition withheld_in (s : IM) (c : Z) : list WithheldKey :=
  withheld c (suppressionRegistry (combos s)).

Lemma set_combo_registry app i st s :
  suppressionRegistry (combos (set_combo app i st s)) = suppressionRegistry (combos s).
Proof. unfold set_combo. by destruct (StdMap.at_default _ _ _). Qed.

(** States with the same combo bookkeeping. *)
Record same_combos (s s' : IM) : Prop := mkSame {
  same_withheld c : withheld_in s' c = withheld_in s c;
  same_state a i : combo_state a i s' = combo_state a i s;
  same_sorted : registry_sorted s -> registry_sorted s'
}.

#[export] Instance same_combos_preorder : PreOrder same_combos.
Proof. split; [by split|]. intros s1 s2 s3 [] []; split; [congruence..|auto]. Qed.

Lemma same_combos_eq s s' : combos s' = combos s -> same_combos s s'.
Proof.
  intros E. split; unfold withheld_in, combo_state, registry_sorted; by rewrite E.
Qed.

Lemma foldl_same {A} (f : IM -> A -> IM) (l : list A) (s : IM) :
  (forall s a, same_combos s (f s a)) -> same_combos s (foldl f s l).
Proof.
  intros Hf. apply (foldl_ind (same_combos s)); [|done].
  intros b a _ Hb. by etrans; [exact Hb|].
Qed.

Lemma write_events_combos l s : combos (write_events l s) = combos s.
Proof. unfold write_events. by destruct (uinputDev (dev s)). Qed.

Lemma emit_same t c v s : same_combos s (emit t c v s).
Proof. apply same_combos_eq, write_events_combos. Qed.

Lemma sync_same s : same_combos s (sync s).
Proof. apply same_combos_eq, write_events_combos. Qed.

Lemma isBlocked_same c s :
  same_combos s (upd_combos (set_registry (isBlocked c (suppressionRegistry (combos s))).2) s).
Proof. split; intros; [apply isBlocked_withheld|done|by apply isBlocked_sorted]. Qed.

Lemma emit_unblocked_same s wk : same_combos s (emit_unblocked s wk).
Proof.
  unfold emit_unblocked. pose proof (isBlocked_same (wk_code wk) s) as H.
  destruct (isBlocked _ _) as [[] r]; [done|]. by etrans; [exact H|apply emit_same].
Qed.

Lemma executeKeyAction_same a s : same_combos s (executeKeyAction a s).
Proof.
  apply same_combos_eq. unfold executeKeyAction.
  destruct (customHandler a) as [[]|]; [done|]. apply write_events_combos.
Qed.

Lemma emitFinal_same ev s : same_combos s (emitFinal ev s).
Proof. apply same_combos_eq. unfold emitFinal. case_decide; apply write_events_combos. Qed.

(** Clearing a combo: its withheld entries go, its index returns to 0, every
    other entry and index stays. *)
Record clears (p : AppType * nat) (s s' : IM) : Prop := mkClears {
  clears_withheld c : withheld_in s' c = kept p.2 (withheld_in s c);
  clears_index a i : index a i s' = if decide ((a, i) = p) then O else index a i s;
  clears_sorted : registry_sorted s -> registry_sorted s'
}.

Lemma clears_intro app i s s1 s2 :
  (forall c, withheld_in s1 c = kept i (withheld_in s c)) ->
  (forall a j, combo_state a j s1 = combo_state a j s) ->
  (registry_sorted s -> registry_sorted s1) ->
  same_combos s1 s2 -> clears (app, i) s (reset_combo app i s2).
Proof.
  intros Hw Hs Hr [Hw2 Hs2 Hr2]. split; simpl.
  - intros c. unfold withheld_in, reset_combo. rewrite set_combo_registry.
    by setoid_rewrite Hw2.
  - intros a j. unfold index, reset_combo. rewrite combo_state_set.
    case_decide; [done|]. by rewrite Hs2, Hs.
  - intros H. unfold registry_sorted, reset_combo. rewrite set_combo_registry. exact (Hr2 (Hr H)).
Qed.

Lemma claim_only_clears app i s s' :
  same_combos (claim_only i s) s' -> clears (app, i) s (reset_combo app i s').
Proof.
  intros H. eapply clears_intro; [| | |exact H]; [|done|apply claim_sorted].
  intros c. apply withheld_claim.
Qed.

(** Claiming in full, with whatever is emitted from the claimed events. *)
Lemma claim_clears app i (f : list WithheldKey -> IM -> IM) s :
  (forall l s', same_combos s' (f l s')) ->
  clears (app, i) s
    (let '(claimed, r) := claim i (suppressionRegistry (combos s)) in
     reset_combo app i (f claimed (upd_combos (set_registry r) s))).
Proof.
  intros Hf. rewrite (surjective_pairing (claim i (suppressionRegistry (combos s)))).
  eapply claim_only_clears, Hf.
Qed.

Lemma break_combo_clears app i s : clears (app, i) s (break_combo app i s).
Proof.
  apply (claim_clears app i (fun l s => sync (foldl emit_unblocked s l))).
  intros l s'. etrans; [|apply sync_same]. apply foldl_same, emit_unblocked_same.
Qed.

Lemma complete_combo_clears app i a s : clears (app, i) s (complete_combo app i a s).
Proof. apply claim_only_clears, executeKeyAction_same. Qed.

Lemma flush_combo_clears s p : clears p s (flush_combo s p).
Proof.
  destruct p as [app i].
  apply (claim_clears app i
    (fun l s => foldl (fun s wk => emit (wk_type wk) (wk_code wk) (wk_value wk) s) s l)).
  intros l s'. apply foldl_same. intros. apply emit_same.
Qed.

Lemma release_combo_clears s p : clears p s (reset_combo p.1 p.2 (claim_only p.2 s)).
Proof. destruct p as [app i]. by apply claim_only_clears. Qed.

(** Clearing every combo of a list. *)
Lemma foldl_clears (f : IM -> AppType * nat -> IM) l s :
  (forall s p, clears p s (f s p)) ->
  (forall c wk, wk ∈ withheld_in (foldl f s l) c <->
     wk ∈ withheld_in s c /\ owningComboIdx wk ∉ l.*2) /\
  (forall a i, index a i (foldl f s l) = if decide ((a, i) ∈ l) then O else index a i s) /\
  (registry_sorted s -> registry_sorted (foldl f s l)).
Proof.
  intros Hf. revert s. induction l as [|p l IH]; intros s; cbn [foldl].
  { split; [set_solver|]. split; [|done].
    intros. by rewrite decide_False by apply not_elem_of_nil. }
  destruct (IH (f s p)) as (Hw & Hi & Hs). destruct (Hf s p) as [Hw1 Hi1 Hs1].
  split; [|split; [|auto]].
  - intros c wk. rewrite Hw, Hw1, kept_elem. cbn [fmap list_fmap]. rewrite not_elem_of_cons. tauto.
  - intros a i. rewrite Hi, Hi1. destruct (decide ((a, i) ∈ l)) as [H|H].
    + by rewrite decide_True by (by constructor).
    + destruct (decide ((a, i) = p)) as [<-|Hp].
      * by rewrite decide_True by constructor.
      * rewrite decide_False; [done|]. rewrite elem_of_cons. tauto.
Qed.

(** Every combo that has progress is listed. *)
Lemma index_listed a i s : index a i s <> O -> (a, i) ∈ all_combos s.
Proof.
  unfold index, combo_state, all_combos. intros H.
  destruct (StdMap.find a (comboProgress (combos s))) as [m|] eqn:E; [|done].
  simpl in H. destruct (StdMap.find i m) as [st|] eqn:E2; [|done].
  apply StdMap.find_Some_elem in E, E2. apply list_elem_of_join.
  eexists. split; [|apply list_elem_of_fmap; exists (a, m); split; [reflexivity|done]].
  apply list_elem_of_fmap. by exists (i, st).
Qed.

(** ** The invariant of the combo bookkeeping *)

(** Every combo waits for a step its trigger has. *)
Definition in_bounds (s : IM) : Prop :=
  forall app actions i action,
    StdMap.find app (appMacros s) = Some actions -> actions !! i = Some action ->
    events (trigger action) <> [] ->
    (index app i s < length (events (trigger action)))%nat.

(** Every withheld event is filed under its own code and belongs to a combo in
    progress of the active application, or is one of [left]: the events that were
    withheld when the macros were last replaced under them. *)
Definition tracked (left : list WithheldKey) (s : IM) : Prop :=
  forall c wk, wk ∈ withheld_in s c ->
    wk_code wk = c /\ (index (activeApp (ctx s)) (owningComboIdx wk) s <> O \/ wk ∈ left).

Definition combo_inv (left : list WithheldKey) (s : IM) : Prop :=
  in_bounds s /\ tracked left s /\ registry_sorted s.

(** The part of it that does not say whose the withheld events are. *)
Definition filed (s : IM) : Prop := forall c wk, wk ∈ withheld_in s c -> wk_code wk = c.

Definition combos_ok (s : IM) : Prop := in_bounds s /\ filed s /\ registry_sorted s.

Lemma combo_inv_ok left s : combo_inv left s -> combos_ok s.
Proof. intros (Hb & Ht & Hs). split; [done|]. split; [|done]. intros c wk Hwk. by apply (Ht c wk). Qed.

Lemma same_bounds s s' : frame s s' -> same_combos s s' -> in_bounds s -> in_bounds s'.
Proof.
  intros [] [Hw Hi Hr] Hb app actions i action. rewrite fr_macros. unfold index. rewrite Hi. apply Hb.
Qed.

Lemma clears_bounds p s s' : appMacros s' = appMacros s -> clears p s s' -> in_bounds s -> in_bounds s'.
Proof.
  intros Hm [Hw Hi Hr] Hb app actions i action Hf Ha He. rewrite Hm in Hf. rewrite Hi.
  case_decide; [by apply length_pos|by eapply Hb].
Qed.

(** Every withheld event belongs to a listed combo: all that releasing needs. *)
Definition covered (left : list WithheldKey) (s : IM) : Prop :=
  registry_sorted s /\ forall c wk, wk ∈ withheld_in s c ->
    wk_code wk = c /\ (owningComboIdx wk ∈ (all_combos s).*2 \/ wk ∈ left).

Lemma inv_covered left s : combo_inv left s -> covered left s.
Proof.
  intros (_ & Ht & Hs). split; [done|]. intros c wk [? [Hi|Hl]]%Ht; (split; [done|]); [|by right].
  left. apply list_elem_of_fmap. eexists. split; [|by apply index_listed]. done.
Qed.

(** A state in which only events of [left] are withheld and no combo is in progress. *)
Definition idle (left : list WithheldKey) (s : IM) : Prop :=
  (forall c wk, wk ∈ withheld_in s c -> wk_code wk = c /\ wk ∈ left) /\
  (forall a i, index a i s = O) /\ registry_sorted s.

Lemma idle_inv left s : idle left s -> combo_inv left s.
Proof.
  intros (Hw & Hi & Hs). split; [|split; [|done]].
  - intros app actions i action _ _ He. rewrite Hi.
    by apply length_pos.
  - intros c wk [? ?]%Hw. split; [done|by right].
Qed.

Lemma foldl_clears_idle (f : IM -> AppType * nat -> IM) left s :
  (forall s p, clears p s (f s p)) -> covered left s -> idle left (foldl f s (all_combos s)).
Proof.
  intros Hf [Hr Hc]. destruct (foldl_clears f (all_combos s) s Hf) as (Hw & Hi & Hs).
  split; [|split; [|auto]].
  - intros c wk [Hwk Ho]%Hw. destruct (Hc c wk Hwk) as [? [?|?]]; [done|]. by split.
  - intros a i. rewrite Hi. case_decide as Hin; [done|].
    destruct (decide (index a i s = O)) as [|Hne]; [done|]. by apply index_listed in Hne.
Qed.

Lemma idle_same left s s' : same_combos s s' -> idle left s -> idle left s'.
Proof.
  intros [Hw Hi Hr] (H1 & H2 & H3). split; [|split; [|auto]].
  - intros c wk. rewrite Hw. apply H1.
  - intros. unfold index in *. by rewrite Hi.
Qed.

Lemma releaseAll_idle left s : covered left s -> idle left (releaseAllPressedKeys s).
Proof.
  intros Hc. unfold releaseAllPressedKeys. cbv zeta.
  eapply idle_same; [|apply (foldl_clears_idle _ left s release_combo_clears Hc)].
  set (s1 := foldl _ s (all_combos s)). set (s2 := foldl _ s1 _).
  transitivity (sync s2); [|by apply same_combos_eq].
  transitivity s2; [|apply sync_same].
  apply foldl_same. intros. apply emit_same.
Qed.

(** ** The steps of the combo engine *)

Lemma set_combo_self_same app i s : same_combos s (set_combo app i (combo_state app i s) s).
Proof.
  split.
  - intros c. unfold withheld_in. by rewrite set_combo_registry.
  - intros a j. rewrite combo_state_set. case_decide; simplify_eq; done.
  - unfold registry_sorted. by rewrite set_combo_registry.
Qed.

Lemma record_step_index env ev app i step s a j :
  index a j (record_step env ev app i step s) =
  if decide ((a, j) = (app, i)) then S (index app i s) else index a j s.
Proof.
  unfold record_step, index. destruct (ts_suppress step).
  - change (combo_state a j (upd_combos _ ?s0)) with (combo_state a j s0).
    rewrite combo_state_set. by case_decide.
  - rewrite combo_state_set. by case_decide.
Qed.

Lemma record_step_withheld env ev app i step s c :
  withheld_in (record_step env ev app i step s) c =
  withheld_in s c ++
    (if ts_suppress step && bool_decide (ev_code ev = c)
     then [mkWK (ev_type ev) (ev_code ev) (ev_value ev) i] else []).
Proof.
  unfold record_step, withheld_in. destruct (ts_suppress step); simpl.
  - rewrite withheld_add, set_combo_registry. f_equal.
    destruct (decide (c = ev_code ev)) as [->|]; [by rewrite bool_decide_true|].
    by rewrite bool_decide_false by congruence.
  - by rewrite set_combo_registry, app_nil_r.
Qed.

Lemma record_step_sorted env ev app i step s :
  registry_sorted s -> registry_sorted (record_step env ev app i step s).
Proof.
  unfold record_step, registry_sorted. intros H. destruct (ts_suppress step); simpl;
    [apply add_sorted|]; by rewrite set_combo_registry.
Qed.

Lemma record_step_tracked left env ev app i step s :
  activeApp (ctx s) = app -> tracked left s -> tracked left (record_step env ev app i step s).
Proof.
  intros Ha Ht c wk. rewrite record_step_withheld, elem_of_app.
  rewrite (fr_ctx _ _ (record_step_frame env ev app i step s)), record_step_index.
  intros [Hwk|Hwk].
  - destruct (Ht c wk Hwk) as [? [?|?]]; (split; [done|]); [left; by case_decide|by right].
  - destruct (_ && _) eqn:E; [|by apply elem_of_nil in Hwk].
    apply list_elem_of_singleton in Hwk as ->. apply andb_true_iff in E as [_ E].
    apply bool_decide_eq_true in E. split; [done|]. left. simpl. by rewrite Ha, decide_True.
Qed.

Lemma advance_combo_bounds env ev app actions i action step s :
  StdMap.find app (appMacros s) = Some actions -> actions !! i = Some action ->
  (index app i s < length (events (trigger action)))%nat ->
  in_bounds s -> in_bounds (advance_combo env ev app i action step s).2.
Proof.
  intros Hacts Hact Hlt Hb. unfold advance_combo. simpl.
  pose proof (record_step_frame env ev app i step s) as []. destruct (bool_decide _) eqn:E.
  - pose proof (complete_combo_clears app i action (record_step env ev app i step s)) as Hc.
    pose proof (complete_combo_frame app i action (record_step env ev app i step s)) as [].
    intros a acts j act Hfa Hj He. rewrite (clears_index _ _ _ Hc), record_step_index.
    destruct (decide ((a, j) = (app, i))); [by apply length_pos|].
    eapply Hb; [|exact Hj|exact He]. congruence.
  - apply bool_decide_eq_false in E. intros a acts j act Hfa Hj He. rewrite record_step_index.
    rewrite fr_macros in Hfa. destruct (decide _) as [Hd|]; [|by eapply Hb].
    simplify_eq. unfold index in *. lia.
Qed.

Lemma advance_combo_sorted env ev app i action step s :
  registry_sorted s -> registry_sorted (advance_combo env ev app i action step s).2.
Proof.
  intros Hs%(record_step_sorted env ev app i step). unfold advance_combo. simpl.
  destruct (bool_decide _); [|done]. by apply (clears_sorted _ _ _ (complete_combo_clears app i action _)).
Qed.

Lemma advance_combo_withheld env ev app i action step s c wk :
  wk ∈ withheld_in (advance_combo env ev app i action step s).2 c ->
  wk ∈ withheld_in (record_step env ev app i step s) c.
Proof.
  unfold advance_combo. simpl. destruct (bool_decide _); [|done].
  rewrite (clears_withheld _ _ _ (complete_combo_clears app i action _)), kept_elem. by intros [? _].
Qed.

Lemma advance_combo_tracked left env ev app i action step s :
  activeApp (ctx s) = app -> tracked left s ->
  tracked left (advance_combo env ev app i action step s).2.
Proof.
  intros Happ Ht. apply (record_step_tracked left env ev app i step) in Ht as Ht'; [|done].
  unfold advance_combo. simpl. destruct (bool_decide _); [|done].
  pose proof (complete_combo_clears app i action (record_step env ev app i step s)) as Hc.
  pose proof (complete_combo_frame app i action (record_step env ev app i step s)) as [].
  pose proof (record_step_frame env ev app i step s) as [].
  intros c wk. rewrite (clears_withheld _ _ _ Hc), kept_elem. intros [Hwk Ho].
  destruct (Ht' c wk Hwk) as [? [?|?]]; (split; [done|]); [|by right]. left.
  rewrite (clears_index _ _ _ Hc), fr_ctx, decide_False; [done|]. by intros [= _ ?].
Qed.

(** ** Invariants of the bookkeeping *)

(** What an invariant has to survive for every operation of the mapper to keep it. *)
Class Bookkeeping (I : IM -> Prop) := {
  same_inv s s' : frame s s' -> same_combos s s' -> I s -> I s';
  clears_inv p s s' : frame s s' -> clears p s s' -> I s -> I s';
  advance_combo_inv env ev app actions i action step s :
    activeApp (ctx s) = app -> StdMap.find app (appMacros s) = Some actions -> actions !! i = Some action ->
    (index app i s < length (events (trigger action)))%nat ->
    I s -> I (advance_combo env ev app i action step s).2;
  same_but_tracking_inv s s' :
    combos s' = combos s -> ctx s' = ctx s -> appMacros s' = appMacros s -> I s -> I s';
  releaseAll_inv s : I s -> I (releaseAllPressedKeys s);
  setContext_inv app url title s : I s -> I (setContext app url title s)
}.

Lemma same_but_tracking_parts left s s' :
  combos s' = combos s -> ctx s' = ctx s -> appMacros s' = appMacros s ->
  (in_bounds s -> in_bounds s') /\ (tracked left s -> tracked left s') /\ (registry_sorted s -> registry_sorted s') /\
  (forall c, withheld_in s' c = withheld_in s c).
Proof.
  intros Ec Ex Em. split_and!.
  - intros Hb app actions i a. rewrite Em. unfold index, combo_state. rewrite Ec. apply Hb.
  - intros Ht c wk. rewrite Ex. unfold index, combo_state, withheld_in. rewrite Ec. apply Ht.
  - unfold registry_sorted. by rewrite Ec.
  - intros c. unfold withheld_in. by rewrite Ec.
Qed.

#[export] Instance combo_inv_bookkeeping left : Bookkeeping (combo_inv left).
Proof.
  split.
  - intros s s' Hf Hc (Hb & Ht & Hs). split; [by apply (same_bounds s)|]. destruct Hf, Hc as [Hw Hi Hr].
    split; [|auto]. intros c wk. rewrite Hw, fr_ctx. unfold index. rewrite Hi. apply Ht.
  - intros p s s' Hf Hc (Hb & Ht & Hs). destruct Hf. split; [by apply (clears_bounds p s)|].
    destruct Hc as [Hw Hi Hr]. split; [|auto]. intros c wk. rewrite Hw, kept_elem. intros [Hwk Ho].
    destruct (Ht c wk Hwk) as [? [Hidx|?]]; (split; [done|]); [left|by right].
    rewrite fr_ctx, Hi. case_decide as Hp; [|done]. subst p. simpl in Ho. congruence.
  - intros env ev app actions i action step s Happ Hacts Hact Hlt (Hb & Ht & Hs).
    split; [by eapply advance_combo_bounds|]. split; [by apply advance_combo_tracked|by apply advance_combo_sorted].
  - intros s s' Ec Ex Em (Hb & Ht & Hs).
    destruct (same_but_tracking_parts left s s' Ec Ex Em) as (H1 & H2 & H3 & _). split_and!; auto.
  - intros s H. by apply idle_inv, releaseAll_idle, inv_covered.
  - intros app url title s H. unfold setContext. case_decide; [done|].
    apply idle_inv, releaseAll_idle. by apply inv_covered in H.
Qed.

Lemma ok_same s s' : frame s s' -> same_combos s s' -> combos_ok s -> combos_ok s'.
Proof.
  intros Hf Hc (Hb & Hw & Hs). split; [by apply (same_bounds s)|]. destruct Hc as [Hw' _ Hr].
  split; [|auto]. intros c wk. rewrite Hw'. apply Hw.
Qed.

Lemma ok_clears p s s' : frame s s' -> clears p s s' -> combos_ok s -> combos_ok s'.
Proof.
  intros Hf Hc (Hb & Hw & Hs). destruct Hf. split; [by apply (clears_bounds p s)|].
  destruct Hc as [Hw' _ Hr]. split; [|auto]. intros c wk. rewrite Hw', kept_elem. intros [? _]. by apply Hw.
Qed.

Lemma ok_tracking s s' : combos s' = combos s -> appMacros s' = appMacros s -> combos_ok s -> combos_ok s'.
Proof.
  intros Ec Em (Hb & Hw & Hs). split_and!.
  - intros app actions i a. rewrite Em. unfold index, combo_state. rewrite Ec. apply Hb.
  - intros c wk. unfold withheld_in. rewrite Ec. apply Hw.
  - unfold registry_sorted. by rewrite Ec.
Qed.

Lemma releaseAll_ok s : combos_ok s -> combos_ok (releaseAllPressedKeys s).
Proof.
  intros H. unfold releaseAllPressedKeys. cbv zeta. set (s1 := foldl _ s (all_combos s)).
  assert (combos_ok s1) as H1.
  { apply (foldl_ind combos_ok); [|done]. intros b p _. apply (ok_clears p); [apply reset_claim_frame|apply release_combo_clears]. }
  clearbody s1. set (s2 := foldl _ s1 _).
  assert (combos_ok s2) as H2.
  { apply (ok_same s1); [apply foldl_frame; intros; apply emit_frame|apply foldl_same; intros; apply emit_same|done]. }
  apply (ok_tracking (sync s2)); [done..|]. apply (ok_same s2); [apply sync_frame|apply sync_same|done].
Qed.

#[export] Instance combos_ok_bookkeeping : Bookkeeping combos_ok.
Proof.
  split; [apply ok_same|apply ok_clears| |by intros; eapply ok_tracking|apply releaseAll_ok|].
  - intros env ev app actions i action step s Happ Hacts Hact Hlt (Hb & Hw & Hs).
    split; [by eapply advance_combo_bounds|]. split; [|by apply advance_combo_sorted].
    intros c wk Hwk%advance_combo_withheld. rewrite record_step_withheld, elem_of_app in Hwk.
    destruct Hwk as [Hwk|Hwk]; [by apply Hw|]. destruct (_ && _) eqn:E; [|by apply elem_of_nil in Hwk].
    apply list_elem_of_singleton in Hwk as ->. by apply andb_true_iff in E as [_ E%bool_decide_eq_true].
  - intros app url title s H. unfold setContext. case_decide; [done|].
    by apply releaseAll_ok, (ok_tracking s).
Qed.

Section Kept.
Context {I : IM -> Prop} `{!Bookkeeping I}.

Lemma foldl_clears_inv (f : IM -> AppType * nat -> IM) l s :
  (forall s p, clears p s (f s p)) -> (forall s p, frame s (f s p)) ->
  I s -> I (foldl f s l).
Proof.
  intros Hc Hf. apply (foldl_ind I). intros b a _. by apply (clears_inv a).
Qed.

Lemma timeout_combo_inv env app i s : I s -> I (timeout_combo env app i s).
Proof.
  unfold timeout_combo. cbv zeta. destruct (_ && _); [|done].
  eapply clears_inv; [apply break_combo_frame|apply break_combo_clears].
Qed.

Lemma break_combo_inv app i s : I s -> I (break_combo app i s).
Proof. eapply clears_inv; [apply break_combo_frame|apply break_combo_clears]. Qed.

Lemma stageCombo_inv env ev app actions i action s :
  activeApp (ctx s) = app -> StdMap.find app (appMacros s) = Some actions ->
  actions !! i = Some action ->
  I s -> I (stageCombo env ev app i action s).2.
Proof.
  intros Happ Hacts Hact Hinv. unfold stageCombo.
  destruct (bool_decide (events _ = [])) eqn:He; [done|].
  apply bool_decide_eq_false in He. cbv zeta.
  set (s1 := timeout_combo env app i _).
  assert (frame s s1) as Hf by (etrans; [apply set_combo_frame|apply timeout_combo_frame]).
  assert (I s1) as H1.
  { apply timeout_combo_inv. eapply same_inv; [apply set_combo_frame| |exact Hinv].
    apply set_combo_self_same. }
  clearbody s1. destruct Hf. destruct (_ && _); simpl.
  { destruct (_ <? _); [by apply break_combo_inv|done]. }
  destruct (events (trigger action) !! nextKeyIndex _) eqn:Es; simpl; [|done].
  destruct (step_matches _ _).
  - eapply advance_combo_inv; [congruence| |exact Hact| |done]; [congruence|].
    by apply lookup_lt_Some in Es.
  - destruct (_ && _); simpl; [by apply break_combo_inv|done].
Qed.

Lemma stageCombos_inv env ev app actions i rest b s :
  activeApp (ctx s) = app -> StdMap.find app (appMacros s) = Some actions ->
  drop i actions = rest ->
  I s -> I (stageCombos env ev app i rest b s).2.
Proof.
  intros Happ Hacts. revert i b s Happ Hacts.
  induction rest as [|a rest IH]; intros i b s Happ Hacts Hd Hinv; simpl; [done|].
  assert (actions !! i = Some a) as Ha.
  { rewrite <- (Nat.add_0_r i), <- lookup_drop, Hd. done. }
  pose proof (stageCombo_frame env ev app i a s) as [].
  pose proof (stageCombo_inv env ev app actions i a s Happ Hacts Ha Hinv) as H1.
  destruct (stageCombo env ev app i a s) as [b' s1]. simpl in *.
  apply IH; [congruence..| |done].
  rewrite (drop_S _ a) in Hd by done. by injection Hd.
Qed.

Lemma at_default_state app s :
  same_combos s
    (upd_combos (set_progress (StdMap.at_default app [] (comboProgress (combos s))).2) s).
Proof.
  split; [done| |done]. intros a i. unfold combo_state. simpl. f_equal.
  unfold StdMap.at_default.
  destruct (StdMap.find app (comboProgress (combos s))) eqn:E; simpl; [done|].
  destruct (decide (app = a)) as [->|Hne].
  - by rewrite StdMap.find_insert, E.
  - by rewrite StdMap.find_insert_ne.
Qed.

Lemma stageMacros_inv env ev skip s : I s -> I (stageMacros env ev skip s).2.
Proof.
  intros Hinv. unfold stageMacros. destruct skip; [done|].
  destruct (StdMap.find (activeApp (ctx s)) (appMacros s)) as [actions|] eqn:Ha; [|done].
  pose proof (at_default_state (activeApp (ctx s)) s) as Hs.
  destruct (StdMap.at_default _ _ _) as [x p]. simpl in Hs.
  apply (same_inv _ _ (upd_combos_frame _ _) Hs) in Hinv.
  pose proof (stageCombos_inv env ev _ actions 0 actions false
    (upd_combos (set_progress p) s) eq_refl Ha eq_refl Hinv) as H1.
  simpl in H1. destruct (stageCombos _ _ _ _ _ _ _) as [sup s']. simpl in H1.
  destruct sup; [done|]. destruct (ev_type ev =? EV_KEY); [|done].
  pose proof (isBlocked_same (ev_code ev) s') as Hb.
  destruct (isBlocked _ _) as [bl r]. simpl in *.
  eapply same_inv; [apply upd_combos_frame|exact Hb|done].
Qed.

(** ** The other operations keep the invariant *)

Lemma upd_trk_inv f s : I s -> I (upd_trk f s).
Proof. by apply same_but_tracking_inv. Qed.

Lemma upd_dev_inv f s : I s -> I (upd_dev f s).
Proof. by apply same_but_tracking_inv. Qed.

Lemma upd_fx_inv f s : I s -> I (upd_fx f s).
Proof. by apply same_but_tracking_inv. Qed.

#[local] Hint Resolve upd_trk_inv upd_dev_inv upd_fx_inv : daemon.

Lemma grab_wait_inv ps s : I s -> I (grab_wait ps s).2.
Proof.
  revert s. induction ps as [|p ps IH]; intros s Hs; simpl; [done|].
  set (s1 := match context_switch p with Some _ => _ | None => s end).
  assert (I s1) as H1.
  { subst s1. destruct (context_switch p) as [[[]]|]; [by apply setContext_inv|done]. }
  clearbody s1. destruct (_ && _); [done|]. by apply IH.
Qed.

Lemma grabDevices_inv env s : I s -> I (grabDevices env s).
Proof.
  intros H. unfold grabDevices. apply (grab_wait_inv (polls env)) in H.
  destruct (grab_wait _ _) as [[] s1]; simpl in *; auto with daemon.
Qed.

Lemma setNumLockState_inv env b s : I s -> I (setNumLockState env b s).
Proof.
  intros H. unfold setNumLockState. destruct (bool_decide _); [done|]. cbv zeta.
  apply releaseAll_inv. destruct b; [by apply upd_dev_inv, upd_trk_inv|].
  by apply grabDevices_inv, upd_trk_inv.
Qed.

Lemma stageContext_inv env ev s : I s -> I (stageContext env ev s).2.
Proof.
  intros H. unfold stageContext. simpl.
  assert (I (emergency_scroll env ev (emergency_pause ev s))) as H1.
  { unfold emergency_scroll, emergency_pause.
    repeat case_match; (eapply same_but_tracking_inv; [..|exact H]; done). }
  clear H. revert H1. generalize (emergency_scroll env ev (emergency_pause ev s)).
  clear s. intros s H. unfold track_key. destruct (ev_type ev =? EV_KEY); [|done]. cbv zeta.
  match goal with |- I (if _ then setNumLockState _ _ ?s0 else _) =>
    assert (I s0) as H0 end.
  { repeat case_match; (eapply same_but_tracking_inv; [..|exact H]; done). }
  destruct (_ && _); [by apply setNumLockState_inv|done].
Qed.

Lemma emitFinal_inv ev s : I s -> I (emitFinal ev s).
Proof. eapply same_inv; [apply emitFinal_frame|apply emitFinal_same]. Qed.

Lemma process_inv env ev m s : I s -> I (process env ev m s).
Proof.
  apply (process_rel (fun s s' => I s -> I s') env (fun _ => True)); try done.
  - intros e t _. apply stageContext_inv.
  - intros g t. apply upd_trk_inv.
  - intros e k t _. apply stageMacros_inv.
  - intros e t _. apply emitFinal_inv.
Qed.

Lemma flush_inv s : I s -> I (flushAndResetState s).
Proof.
  intros H. unfold flushAndResetState. apply upd_trk_inv.
  apply foldl_clears_inv; [apply flush_combo_clears|apply flush_combo_frame|done].
Qed.

(** ** The steps of the mapper *)

(** What the threads of the daemon do to the mapper once it exists: the input
    thread reads the devices, the command thread changes the context, starts
    and stops the mapper, changes the filters, sets NumLock or grabs and ungrabs,
    and the detached paste threads run to their end. *)
Inductive step : IM -> IM -> Prop :=
  | step_read r s : step s (handle_read s r)
  | step_context app url title s : step s (setContext app url title s)
  | step_start env o mousePath grab s : step s (start env o mousePath grab s).2
  | step_stop s : step s (stop s)
  | step_grab env s : step s (grabDevices env s)
  | step_ungrab s : step s (ungrabDevices s)
  | step_numlock env active s : step s (setNumLockState env active s)
  | step_paste s : step s (pasteThreadBody s)
  | step_ack s : step s (onFocusAck s)
  | step_filters l s : step s (set_filters l s).

Lemma insert_pressed_inv lo hi l s : I s -> I (insert_pressed lo hi l s).
Proof.
  apply (foldl_ind I). intros b a _ H. destruct (_ && _); auto with daemon.
Qed.

Lemma stop_inv s : I s -> I (stop s).
Proof.
  intros H. apply upd_dev_inv. destruct (monitoringMode _); by repeat apply upd_dev_inv.
Qed.

Lemma setupDevices_inv o path s : I s -> I (setupDevices o path s).2.
Proof.
  intros H. unfold setupDevices. destruct (negb (kbdOpens o)); [by apply upd_dev_inv|].
  cbv zeta. destruct (negb (kbdInit o)); [by apply upd_dev_inv|]. cbn [snd].
  apply upd_dev_inv. destruct (Str.empty path);
    [by apply insert_pressed_inv; do 2 apply upd_dev_inv|].
  destruct (_ && _); [apply insert_pressed_inv, upd_dev_inv|];
    by apply upd_dev_inv, insert_pressed_inv; do 2 apply upd_dev_inv.
Qed.

Lemma start_inv env o path g s : I s -> I (start env o path g s).2.
Proof.
  intros H%(setupDevices_inv o path). unfold start.
  destruct (setupDevices o path s) as [ok s1]. simpl in *.
  destruct (negb ok); [by apply stop_inv|].
  destruct (negb _); [by apply stop_inv, upd_dev_inv|].
  apply upd_dev_inv. destruct g; [by apply grabDevices_inv, upd_dev_inv|by apply upd_dev_inv].
Qed.

Lemma pasteThreadBody_inv s : I s -> I (pasteThreadBody s).
Proof.
  intros H. apply upd_fx_inv. eapply same_inv; [apply sync_frame|apply sync_same|].
  eapply same_inv; [apply write_events_frame| |exact H].
  apply same_combos_eq, write_events_combos.
Qed.

Lemma handle_read_inv s r : I s -> I (handle_read s r).
Proof.
  intros H. destruct r as [env ev|env evs]; simpl; [by apply process_inv|].
  apply (foldl_ind I); [|by apply flush_inv].
  intros b a _. apply process_inv.
Qed.

Lemma step_inv s s' : step s s' -> I s -> I s'.
Proof.
  intros [r t|app url title t|env o path g t|t|env t|t|env b t|t|t|l t] H.
  - by apply handle_read_inv.
  - by apply setContext_inv.
  - by apply start_inv.
  - by apply stop_inv.
  - by apply grabDevices_inv.
  - by apply upd_dev_inv.
  - by apply setNumLockState_inv.
  - by apply pasteThreadBody_inv.
  - by apply upd_fx_inv.
  - by apply (same_but_tracking_inv t).
Qed.

End Kept.

Lemma empty_idle s : combos s = combos initialIM -> idle [] s.
Proof.
  intros E. split; [|split]; unfold withheld_in, index, combo_state, registry_sorted; rewrite E;
    [by intros c wk ?%elem_of_nil|done|done].
Qed.

Lemma initialIM_inv : combo_inv [] initialIM.
Proof. by apply idle_inv, empty_idle. Qed.
