(* ===== verification/ComboRuns.v ===== *)
(** What the combo engine writes: which withheld events breaking a combo gives
    back, what flushing can get wrong, and the run of a combo to completion. *)

From S2P Require Import Prelude Types Keys InputMapper InputMapperFacts ComboFacts.
Import SuppressionRegistry.

(** ** Claiming *)

Definition own (i : nat) (vec : list WithheldKey) : list WithheldKey :=
  base.filter (owned i) vec.

Lemma kept_app i v1 v2 : kept i (v1 ++ v2) = kept i v1 ++ kept i v2.
Proof. apply filter_app. Qed.

Lemma kept_all i vec : Forall (fun wk => ~ owned i wk) vec -> kept i vec = vec.
Proof.
  induction 1 as [|wk vec Hw Hv IH]; [done|]. unfold kept in *.
  rewrite filter_cons_True by done. by rewrite IH.
Qed.

Lemma kept_none i vec : Forall (owned i) vec -> kept i vec = [].
Proof.
  induction 1 as [|wk vec Hw Hv IH]; [done|]. unfold kept in *.
  by rewrite filter_cons_False by tauto.
Qed.

Lemma own_all i vec : Forall (owned i) vec -> own i vec = vec.
Proof.
  induction 1 as [|wk vec Hw Hv IH]; [done|]. unfold own in *.
  rewrite filter_cons_True by done. by rewrite IH.
Qed.

Lemma own_none i vec : Forall (fun wk => ~ owned i wk) vec -> own i vec = [].
Proof.
  induction 1 as [|wk vec Hw Hv IH]; [done|]. unfold own in *.
  by rewrite filter_cons_False.
Qed.

Lemma own_app i v1 v2 : own i (v1 ++ v2) = own i v1 ++ own i v2.
Proof. apply filter_app. Qed.

Lemma kept_length_full i vec : length (kept i vec) = length vec -> kept i vec = vec.
Proof.
  induction vec as [|wk vec IH]; [done|]. unfold kept in *.
  destruct (decide (~ owned i wk)) as [H|H].
  - rewrite filter_cons_True by done. simpl. intros [= E]. by rewrite IH.
  - rewrite filter_cons_False by done. simpl. intros E.
    pose proof (length_filter (fun wk => ~ owned i wk) vec). lia.
Qed.

Lemma kept_own_length i vec : (length (kept i vec) + length (own i vec) = length vec)%nat.
Proof.
  induction vec as [|wk vec IH]; [done|]. unfold kept, own in *.
  destruct (decide (owned i wk)) as [H|H].
  - rewrite (filter_cons_True _ _ _ H), filter_cons_False by tauto. simpl. lia.
  - rewrite (filter_cons_False _ _ _ H), filter_cons_True by done. simpl. lia.
Qed.

(** The tail holds only the combo's own events when those come last. *)
Lemma tail_own_iff i vec :
  Forall (owned i) (tail_after_remove i vec) <-> vec = kept i vec ++ own i vec.
Proof.
  unfold tail_after_remove. split.
  - set (k := length (kept i vec)). intros H.
    assert (kept i vec = kept i (take k vec)) as E.
    { rewrite <- (take_drop k vec) at 1.
      by rewrite kept_app, (kept_none i (drop k vec)), app_nil_r. }
    assert (length (take k vec) = k) as Hk.
    { apply length_take_le. subst k. apply length_filter. }
    assert (kept i vec = take k vec) as E2.
    { rewrite E. apply kept_length_full. rewrite <- E. by subst k. }
    rewrite E2 at 1. rewrite <- (take_drop k vec) at 1. f_equal.
    rewrite <- (take_drop k vec) at 2. rewrite own_app, (own_all _ _ H), own_none; [done|].
    rewrite <- E2. apply Forall_forall. intros wk Hwk. by apply kept_elem in Hwk as [_ ?].
  - intros E. rewrite E at 2. rewrite drop_app_length. apply Forall_forall.
    intros wk Hwk. by apply list_elem_of_filter in Hwk as [? _].
Qed.

Lemma claim_cons i p r :
  (claim i (p :: r)).1 = tail_after_remove i p.2 ++ (claim i r).1.
Proof. done. Qed.

(** Claiming combo [i] leaves exactly the events of the other combos, in
    their order, and returns as many events as it removes, whatever the
    registry holds; the events returned are those removed exactly when, for
    every key code, the combo's own events are the last ones withheld. *)
Theorem claim_exact (i : nat) (r : registry) :
  (claim i r).2 = (fun p => (p.1, base.filter (fun wk => owningComboIdx wk <> i) p.2)) <$> r /\
  length (claim i r).1 = list_sum ((fun p => length (own i p.2)) <$> r) /\
  ((claim i r).1 = mjoin ((fun p => own i p.2) <$> r) <->
   Forall (fun p => p.2 = kept i p.2 ++ own i p.2) r).
Proof.
  assert (forall vec, length (tail_after_remove i vec) = length (own i vec)) as Hlen.
  { intros vec. unfold tail_after_remove. rewrite length_drop.
    pose proof (kept_own_length i vec). lia. }
  split; [done|]. split.
  - induction r as [|p r IH]; [done|].
    rewrite claim_cons, length_app, IH, Hlen. done.
  - induction r as [|[c vec] r IH]; [done|].
    rewrite claim_cons, Forall_cons, <- IH. cbn [fmap list_fmap snd mjoin list_join]. split.
    + intros E. apply app_inj_1 in E as [E1 E2]; [|apply Hlen]. split; [|done].
      apply tail_own_iff. rewrite E1. apply Forall_forall.
      intros wk Hwk. by apply list_elem_of_filter in Hwk as [? _].
    + intros [E1 E2]. f_equal; [|done].
      unfold tail_after_remove. rewrite E1 at 2. by rewrite drop_app_length.
Qed.

(** ** What breaking a combo writes *)

Definition wk_event (wk : WithheldKey) : input_event :=
  mkEv (wk_type wk) (wk_code wk) (wk_value wk).

(** The events written for a list of withheld events. *)
Definition replay (l : list WithheldKey) : list input_event :=
  mjoin ((fun wk => [wk_event wk; SYN]) <$> l).

Lemma replay_app l1 l2 : replay (l1 ++ l2) = replay l1 ++ replay l2.
Proof. unfold replay. by rewrite fmap_app, join_app. Qed.

(** Two states that differ in what was written. *)
Definition wrote (l : list input_event) (s s' : IM) : Prop :=
  uinputDev (dev s') = uinputDev (dev s) /\ written (fx s') = written (fx s) ++ l.

Lemma wrote_nil s s' : uinputDev (dev s') = uinputDev (dev s) ->
  written (fx s') = written (fx s) -> wrote [] s s'.
Proof. intros H1 H2. split; [done|]. by rewrite H2, app_nil_r. Qed.

Lemma wrote_trans l1 l2 s1 s2 s3 :
  wrote l1 s1 s2 -> wrote l2 s2 s3 -> wrote (l1 ++ l2) s1 s3.
Proof.
  intros [Hd H1] [Hd' H2]. split; [congruence|]. by rewrite H2, H1, app_assoc.
Qed.

Lemma write_events_wrote l s : uinputDev (dev s) = true -> wrote l s (write_events l s).
Proof. intros H. unfold write_events. by rewrite H. Qed.

Lemma set_combo_wrote app i st s : wrote [] s (set_combo app i st s).
Proof. apply wrote_nil; unfold set_combo; by destruct (StdMap.at_default _ _ _). Qed.

(** Replaying a block of events of one code. *)
Lemma emit_unblocked_wrote b s vec :
  uinputDev (dev s) = true ->
  (forall wk, wk ∈ vec -> bool_decide (withheld_in s (wk_code wk) = []) = b) ->
  wrote (if b then replay vec else []) s (foldl emit_unblocked s vec).
Proof.
  revert s. induction vec as [|wk vec IH]; intros s Hu Hb; simpl.
  { by destruct b; apply wrote_nil. }
  assert (wrote (if b then [wk_event wk; SYN] else []) s (emit_unblocked s wk)) as H1.
  { specialize (Hb wk ltac:(by constructor)). unfold emit_unblocked.
    pose proof (isBlocked_fst (wk_code wk) (suppressionRegistry (combos s))) as E.
    unfold withheld_in in Hb. rewrite Hb in E.
    destruct (isBlocked _ _) as [blocked r]. simpl in E. subst blocked.
    destruct b; [|by apply wrote_nil]. simpl.
    change (wrote [wk_event wk; SYN] (upd_combos (set_registry r) s)
      (emit (wk_type wk) (wk_code wk) (wk_value wk) (upd_combos (set_registry r) s))).
    by apply write_events_wrote. }
  replace (if b then replay (wk :: vec) else [])
    with ((if b then [wk_event wk; SYN] else []) ++ (if b then replay vec else []))
    by (by destruct b).
  eapply wrote_trans; [exact H1|]. apply IH.
  - destruct H1 as [-> _]. done.
  - intros wk' Hwk'. rewrite (same_withheld _ _ (emit_unblocked_same s wk)).
    apply Hb. by constructor.
Qed.

(** The withheld events of the codes that only combo [i] withholds, by
    ascending code and in order of arrival. *)
Definition returned (i : nat) (r : registry) : list WithheldKey :=
  mjoin ((fun p => if bool_decide (kept i p.2 = []) then p.2 else []) <$> r).

Lemma find_sorted (r : registry) p :
  StdMap.sorted r -> p ∈ r -> StdMap.find p.1 r = Some p.2.
Proof.
  induction r as [|[c vec] r IH]; simpl; [by intros _ ?%elem_of_nil|].
  intros [Hf Hs] [->|Hp]%elem_of_cons; [by rewrite decide_True|].
  rewrite decide_False; [by apply IH|]. rewrite Forall_forall in Hf.
  intros E. specialize (Hf p Hp). simpl in Hf. lia.
Qed.

Lemma break_emissions i (r : registry) (s : IM) :
  uinputDev (dev s) = true ->
  (forall p wk, p ∈ r -> wk ∈ p.2 -> wk_code wk = p.1) ->
  (forall p, p ∈ r -> withheld_in s p.1 = kept i p.2) ->
  wrote (replay (returned i r)) s (foldl emit_unblocked s (claim i r).1).
Proof.
  revert s. induction r as [|p r IH]; intros s Hu Hc Hw; [by apply wrote_nil|].
  rewrite claim_cons, foldl_app.
  change (returned i (p :: r)) with
    ((if bool_decide (kept i p.2 = []) then p.2 else []) ++ returned i r).
  rewrite replay_app.
  assert (wrote (if bool_decide (kept i p.2 = []) then replay (tail_after_remove i p.2) else [])
            s (foldl emit_unblocked s (tail_after_remove i p.2))) as H1.
  { apply emit_unblocked_wrote; [done|]. intros wk Hwk.
    rewrite (Hc p wk), Hw; [done|by constructor|by constructor|].
    unfold tail_after_remove in Hwk. rewrite <- (take_drop (length (kept i p.2)) p.2).
    apply elem_of_app. by right. }
  eapply wrote_trans.
  - replace (replay (if bool_decide (kept i p.2 = []) then p.2 else [])) with
      (if bool_decide (kept i p.2 = []) then replay (tail_after_remove i p.2) else []);
      [exact H1|].
    destruct (bool_decide (kept i p.2 = [])) eqn:E; [|done]. apply bool_decide_eq_true in E.
    unfold tail_after_remove. by rewrite E.
  - apply IH; [by destruct H1 as [-> _]| |].
    + intros q wk Hq. apply Hc. by constructor.
    + intros q Hq. rewrite <- (Hw q) by (by constructor).
      apply same_withheld, foldl_same, emit_unblocked_same.
Qed.

(** C15: breaking a combo writes back exactly the events of the key codes that
    this combo alone withholds, by ascending code and in order of arrival, each
    once, followed by a sync; events another combo also withholds stay withheld;
    afterwards the combo owns nothing and waits for its first step, and the
    other combos keep their progress. *)
Theorem break_gives_back (app : AppType) (i : nat) (s : IM) :
  combos_ok s -> uinputDev (dev s) = true ->
  let s' := break_combo app i s in
  written (fx s') = written (fx s) ++
    replay (returned i (suppressionRegistry (combos s))) ++ [SYN] /\
  (forall c, withheld c (suppressionRegistry (combos s')) =
     base.filter (fun wk => owningComboIdx wk <> i)
       (withheld c (suppressionRegistry (combos s)))) /\
  (forall a j, nextKeyIndex (combo_state a j s') =
     if decide ((a, j) = (app, i)) then O else nextKeyIndex (combo_state a j s)).
Proof.
  intros (_ & Ht & Hs) Hu s'.
  destruct (break_combo_clears app i s) as [Hw Hi _]. split; [|split; [exact Hw|exact Hi]].
  subst s'. unfold break_combo.
  rewrite (surjective_pairing (claim i (suppressionRegistry (combos s)))). cbv iota beta.
  set (s1 := upd_combos _ s). set (r := suppressionRegistry (combos s)) in *.
  assert (wrote (replay (returned i r)) s1 (foldl emit_unblocked s1 (claim i r).1)) as H1.
  { apply break_emissions; [done| |].
    - intros p wk Hp Hwk. apply (Ht p.1 wk). unfold withheld_in. fold r.
      unfold withheld. by rewrite (find_sorted r p Hs Hp).
    - intros p Hp. unfold s1, withheld_in. cbn [upd_combos set_registry combos suppressionRegistry].
      rewrite withheld_claim. unfold withheld. by rewrite (find_sorted r p Hs Hp). }
  destruct H1 as [Hd H1].
  destruct (write_events_wrote [SYN] (foldl emit_unblocked s1 (claim i r).1)) as [_ H2];
    [by rewrite Hd|].
  unfold reset_combo. rewrite (proj2 (set_combo_wrote _ _ _ _)), app_nil_r.
  unfold sync. rewrite H2, H1. by rewrite <- app_assoc.
Qed.

(** A macro of two withheld keys, and the state after its first key. *)
Definition hold_step (code : Z) : TriggerStep := mkStep EV_KEY code 1 true false.
Definition two_keys (k1 k2 : Z) : KeyAction :=
  mkAction (trigger_of [hold_step k1; hold_step k2]) [(KEY_X, 1); (KEY_X, 0)] "two keys" None.
Definition grabbing (macros : list KeyAction) : IM :=
  set_macros [(OTHER, macros)]
    (upd_dev (fun d => set_grabbed true true (set_handles true true true true true d)) initialIM).
Definition quiet_env : Env := mkEnv 0 [] true true.
Definition one_held : IM :=
  process quiet_env (mkEv EV_KEY KEY_A 1) false (grabbing [two_keys KEY_A KEY_B]).

Lemma break_gives_back_witness :
  written (fx (break_combo OTHER 0 one_held)) = [mkEv EV_KEY KEY_A 1; SYN; SYN].
Proof.
  assert (combos_ok one_held) as H.
  { by apply process_inv, (combo_inv_ok []), idle_inv, empty_idle. }
  exact (proj1 (break_gives_back OTHER 0 one_held H eq_refl)).
Defined.

(** Flushing after a dropped-events report does not look at what other
    combos withhold, and claiming may return another combo's events: one press
    that two combos withhold is written twice. *)
Theorem flush_duplicates :
  let s := process quiet_env (mkEv EV_KEY KEY_A 1) false
             (grabbing [two_keys KEY_A KEY_B; two_keys KEY_A KEY_C]) in
  written (fx s) = [] /\
  written (fx (flushAndResetState s)) =
    [mkEv EV_KEY KEY_A 1; SYN; mkEv EV_KEY KEY_A 1; SYN].
Proof. split; vm_compute; reflexivity. Qed.

(** ** The run of a combo *)

(** Feed events to one combo, ignoring the others. *)
Fixpoint run_combo (app : AppType) (i : nat) (action : KeyAction)
    (evs : list (Env * input_event)) (s : IM) : IM :=
  match evs with
  | [] => s
  | e :: rest => run_combo app i action rest (stageCombo e.1 e.2 app i action s).2
  end.

(** Each event comes at most two seconds after the previous one. *)
Fixpoint paced (t : Z) (evs : list (Env * input_event)) : Prop :=
  match evs with
  | [] => True
  | e :: rest => now e.1 - t <= seconds 2 /\ paced (now e.1) rest
  end.

Lemma executeKeyAction_fx a s1 s2 :
  fx s1 = fx s2 -> dev s1 = dev s2 -> fx (executeKeyAction a s1) = fx (executeKeyAction a s2).
Proof.
  intros H1 H2. unfold executeKeyAction, triggerChromeChatGPTMacro, emitSequence, write_events.
  destruct (customHandler a) as [[]|]; simpl; [by rewrite H1|].
  rewrite H2. destruct (uinputDev (dev s2)); simpl; by rewrite H1.
Qed.

Lemma set_combo_fx app i st s : fx (set_combo app i st s) = fx s.
Proof. unfold set_combo. by destruct (StdMap.at_default _ _ _). Qed.

Lemma record_step_fx env ev app i step s : fx (record_step env ev app i step s) = fx s.
Proof. unfold record_step. destruct (ts_suppress step); simpl; by rewrite set_combo_fx. Qed.

Lemma record_step_time env ev app i step s :
  lastMatchTime (combo_state app i (record_step env ev app i step s)) = now env.
Proof.
  unfold record_step. destruct (ts_suppress step).
  - change (combo_state app i (upd_combos _ ?s0)) with (combo_state app i s0).
    by rewrite combo_state_set, decide_True.
  - by rewrite combo_state_set, decide_True.
Qed.

(** A matching event in time advances the combo. *)
Lemma stageCombo_match env ev app i action step s :
  numLockActive (trk s) = false ->
  events (trigger action) !! index app i s = Some step ->
  step_matches step ev = true ->
  (index app i s = O \/ now env - lastMatchTime (combo_state app i s) <= seconds 2) ->
  stageCombo env ev app i action s =
  advance_combo env ev app i action step (set_combo app i (combo_state app i s) s).
Proof.
  intros Hn Hst Hm Ht. unfold stageCombo. rewrite bool_decide_eq_false_2 by
    (intros E; by rewrite E in Hst).
  cbv zeta. set (s1 := set_combo app i (combo_state app i s) s).
  assert (combo_state app i s1 = combo_state app i s) as Ec
    by (subst s1; by rewrite combo_state_set, decide_True).
  assert (timeout_combo env app i s1 = s1) as ->.
  { unfold timeout_combo. cbv zeta. rewrite Ec. unfold index in Ht.
    destruct Ht as [->|Ht]; [done|]. by rewrite (proj2 (Z.ltb_ge (seconds 2) _) Ht), andb_false_r. }
  assert (trk s1 = trk s) as -> by apply (fr_trk _ _ (set_combo_frame _ _ _ _)).
  rewrite Hn. simpl.
  rewrite Ec. unfold index in Hst. by rewrite Hst, Hm.
Qed.

Lemma kept_self i t c v : kept i [mkWK t c v i] = [].
Proof. by apply kept_none; repeat constructor. Qed.

(** One matching event: what changes before the last step, and at it. *)
Lemma advance_combo_spec env ev app i action step s :
  let s' := (advance_combo env ev app i action step s).2 in
  (forall c, kept i (withheld_in s' c) = kept i (withheld_in s c)) /\
  (S (index app i s) <> length (events (trigger action)) ->
     fx s' = fx s /\ index app i s' = S (index app i s) /\
     lastMatchTime (combo_state app i s') = now env) /\
  (S (index app i s) = length (events (trigger action)) ->
     fx s' = fx (executeKeyAction action s) /\ index app i s' = O /\
     forall c, withheld_in s' c = kept i (withheld_in s c)).
Proof.
  intros s'. subst s'. unfold advance_combo. simpl. set (s1 := record_step env ev app i step s).
  assert (forall c, kept i (withheld_in s1 c) = kept i (withheld_in s c)) as Hk.
  { intros c. subst s1. rewrite record_step_withheld, kept_app.
    destruct (_ && _); [by rewrite kept_self, app_nil_r|apply app_nil_r]. }
  change (nextKeyIndex (combo_state app i s)) with (index app i s).
  destruct (bool_decide (S (index app i s) = _)) eqn:E;
    [apply bool_decide_eq_true in E|apply bool_decide_eq_false in E].
  - destruct (complete_combo_clears app i action s1) as [Hw Hi _].
    assert (forall c, withheld_in (complete_combo app i action s1) c =
                      kept i (withheld_in s c)) as Hw'
      by (intros c; rewrite Hw; apply Hk).
    split; [|split; [done|]].
    + intros c. rewrite Hw'. apply kept_all, Forall_forall.
      by intros wk [_ ?]%kept_elem.
    + intros _. split; [|split; [by rewrite Hi, decide_True|done]].
      unfold complete_combo, reset_combo. rewrite set_combo_fx. apply executeKeyAction_fx.
      * apply record_step_fx.
      * apply (fr_dev _ _ (record_step_frame env ev app i step s)).
  - split; [done|]. split; [|done]. intros _. split; [apply record_step_fx|].
    subst s1. by rewrite record_step_index, decide_True, record_step_time.
Qed.

(** One matching event in time, from any step of the trigger. *)
Lemma run_step app i action e step s :
  numLockActive (trk s) = false ->
  events (trigger action) !! index app i s = Some step -> step_matches step e.2 = true ->
  (index app i s = O \/ now e.1 - lastMatchTime (combo_state app i s) <= seconds 2) ->
  let s1 := (stageCombo e.1 e.2 app i action s).2 in
  numLockActive (trk s1) = false /\ dev s1 = dev s /\
  (forall c, kept i (withheld_in s1 c) = kept i (withheld_in s c)) /\
  (S (index app i s) <> length (events (trigger action)) ->
     fx s1 = fx s /\ index app i s1 = S (index app i s) /\
     lastMatchTime (combo_state app i s1) = now e.1) /\
  (S (index app i s) = length (events (trigger action)) ->
     fx s1 = fx (executeKeyAction action s) /\ index app i s1 = O /\
     forall c, withheld_in s1 c = kept i (withheld_in s c)).
Proof.
  intros Hn Hst Hm Ht. cbv zeta. rewrite (stageCombo_match e.1 e.2 app i action step s) by done.
  set (s0 := set_combo app i (combo_state app i s) s).
  destruct (set_combo_self_same app i s) as [Hw0 Hc0 _]. fold s0 in Hw0, Hc0.
  assert (index app i s0 = index app i s) as Hi0 by (unfold index; by rewrite Hc0).
  pose proof (advance_combo_spec e.1 e.2 app i action step s0) as (Hk & Hmid & Hlast).
  rewrite Hi0 in Hmid, Hlast.
  pose proof (advance_combo_frame e.1 e.2 app i action step s0) as Hf.
  pose proof (set_combo_frame app i (combo_state app i s) s) as Hf0. fold s0 in Hf0.
  assert (fx s0 = fx s) as Hx0 by apply set_combo_fx.
  split; [by rewrite (fr_trk _ _ Hf), (fr_trk _ _ Hf0)|].
  split; [by rewrite (fr_dev _ _ Hf), (fr_dev _ _ Hf0)|].
  split; [intros c; by rewrite Hk, Hw0|]. split.
  - intros (H1 & H2 & H3)%Hmid. by rewrite H1.
  - intros (H1 & H2 & H3)%Hlast. split; [|split; [done|intros c; by rewrite H3, Hw0]].
    rewrite H1. apply executeKeyAction_fx; [done|apply (fr_dev _ _ Hf0)].
Qed.

Lemma lookup_head_drop {A} (l : list A) k x rest : drop k l = x :: rest -> l !! k = Some x.
Proof. intros H. by rewrite <- (Nat.add_0_r k), <- lookup_drop, H. Qed.

(** Events that match the next steps, without the last one, are only waited for. *)
Lemma run_combo_waits app i action evs s :
  numLockActive (trk s) = false ->
  (index app i s + length evs < length (events (trigger action)))%nat ->
  Forall2 (fun st e => step_matches st e.2 = true)
    (take (length evs) (drop (index app i s) (events (trigger action)))) evs ->
  (index app i s = O \/ match evs with [] => True | e :: _ =>
     now e.1 - lastMatchTime (combo_state app i s) <= seconds 2 end) ->
  match evs with [] => True | e :: rest => paced (now e.1) rest end ->
  let t := run_combo app i action evs s in
  fx t = fx s /\ index app i t = (index app i s + length evs)%nat /\
  (forall c, kept i (withheld_in t c) = kept i (withheld_in s c)).
Proof.
  revert s. induction evs as [|e rest IH]; intros s Hn Hlen Hm Ht Hp; simpl.
  { by rewrite Nat.add_0_r. }
  destruct (drop (index app i s) (events (trigger action))) as [|step steps] eqn:Hd;
    [by inversion Hm|].
  apply Forall2_cons in Hm as [Hm Hms]. pose proof (lookup_head_drop _ _ _ _ Hd) as Hst.
  destruct (run_step app i action e step s Hn Hst Hm Ht) as (Hn1 & _ & Hk & Hmid & _).
  set (s1 := (stageCombo e.1 e.2 app i action s).2) in *. simpl in Hlen.
  destruct Hmid as (H1 & H2 & H3); [lia|].
  destruct (IH s1) as (F1 & F2 & F3).
  - done.
  - rewrite H2. lia.
  - rewrite H2. rewrite (drop_S _ step) in Hd by done. injection Hd as ->. exact Hms.
  - right. destruct rest as [|e2 rest]; [done|]. rewrite H3. by destruct Hp.
  - destruct rest as [|e2 rest]; [done|]. by destruct Hp.
  - rewrite F1, F2, H1, H2. split; [done|]. split; [lia|]. intros c. by rewrite F3.
Qed.

Lemma run_combo_from app i action evs s :
  numLockActive (trk s) = false ->
  evs <> [] ->
  Forall2 (fun st e => step_matches st e.2 = true)
    (drop (index app i s) (events (trigger action))) evs ->
  (index app i s = O \/ match evs with [] => True | e :: _ =>
     now e.1 - lastMatchTime (combo_state app i s) <= seconds 2 end) ->
  match evs with [] => True | e :: rest => paced (now e.1) rest end ->
  let s' := run_combo app i action evs s in
  fx s' = fx (executeKeyAction action s) /\ index app i s' = O /\
  (forall c, withheld_in s' c = kept i (withheld_in s c)).
Proof.
  revert s. induction evs as [|e rest IH]; intros s Hn Hne Hm Ht Hp; [done|]. clear Hne.
  destruct (drop (index app i s) (events (trigger action))) as [|step steps] eqn:Hd;
    [by inversion Hm|].
  apply Forall2_cons in Hm as [Hm Hms]. pose proof (lookup_head_drop _ _ _ _ Hd) as Hst.
  destruct (run_step app i action e step s Hn Hst Hm Ht) as (Hn1 & Hd1 & Hk & Hmid & Hlast).
  cbn [run_combo]. set (s1 := (stageCombo e.1 e.2 app i action s).2) in *.
  assert (length (events (trigger action)) = S (index app i s) + length steps)%nat as Hlen.
  { pose proof (length_drop (events (trigger action)) (index app i s)) as E.
    rewrite Hd in E. simpl in E. apply lookup_lt_Some in Hst. lia. }
  destruct rest as [|e2 rest].
  - apply Forall2_nil_inv_r in Hms as ->. simpl in Hlen. apply Hlast. lia.
  - assert (0 < length steps)%nat as Hpos by (apply length_pos; intros ->; inversion Hms).
    destruct Hmid as (H1 & H2 & H3); [lia|]. destruct Hp as [Hp1 Hp2].
    destruct (IH s1) as (F1 & F2 & F3); [done|done| |right; by rewrite H3|exact Hp2|].
    + rewrite H2. rewrite (drop_S _ step) in Hd by done. by injection Hd as ->.
    + split; [|split; [done|intros c; by rewrite F3, Hk]].
      rewrite F1. by apply executeKeyAction_fx.
Qed.

Lemma paced_take t n evs : paced t evs -> paced t (take n evs).
Proof. revert t n. induction evs as [|e evs IH]; intros t [|n]; simpl; naive_solver. Qed.

(** C1: when the events match the steps of a macro one after another, each at
    most two seconds after the previous one and with NumLock off, and as far as this
    macro is concerned (the macros beside it are not run), the macro fires exactly once,
    at the last event.  After the first [n] events, for every [n] short of all of them,
    nothing was written and no action run, the combo waits for step [n], and other combos
    withhold what they did.  At the last event the effects are those of executeKeyAction
    on the state before the run, the withheld events of the run are gone for good, and
    the combo waits for its first step again. *)
Theorem combo_run_completes (app : AppType) (i : nat) (action : KeyAction)
    (e : Env * input_event) (rest : list (Env * input_event)) (s : IM) :
  numLockActive (trk s) = false ->
  nextKeyIndex (combo_state app i s) = O ->
  Forall2 (fun st e => step_matches st e.2 = true) (events (trigger action)) (e :: rest) ->
  paced (now e.1) rest ->
  (forall n, (n < length (e :: rest))%nat ->
     let t := run_combo app i action (take n (e :: rest)) s in
     fx t = fx s /\ nextKeyIndex (combo_state app i t) = n /\
     (forall c, base.filter (fun wk => owningComboIdx wk <> i) (withheld c (suppressionRegistry (combos t))) =
        base.filter (fun wk => owningComboIdx wk <> i) (withheld c (suppressionRegistry (combos s))))) /\
  let s' := run_combo app i action (e :: rest) s in
  fx s' = fx (executeKeyAction action s) /\
  nextKeyIndex (combo_state app i s') = O /\
  (forall c, withheld c (suppressionRegistry (combos s')) =
     base.filter (fun wk => owningComboIdx wk <> i)
       (withheld c (suppressionRegistry (combos s)))).
Proof.
  intros Hn H0 Hm Hp. change (index app i s = O) in H0. split.
  - intros n Hlt. cbv zeta. pose proof (Forall2_length _ _ _ Hm) as Hlen.
    assert (length (take n (e :: rest)) = n) as Htake by (rewrite length_take; lia).
    destruct (run_combo_waits app i action (take n (e :: rest)) s) as (H1 & H2 & H3).
    + done.
    + rewrite H0, Htake. lia.
    + rewrite H0, Htake. by apply Forall2_take.
    + by left.
    + destruct n; [done|]. by apply paced_take.
    + split; [done|]. split; [|exact H3]. fold (index app i (run_combo app i action (take n (e :: rest)) s)).
      rewrite H2, H0. lia.
  - apply (run_combo_from app i action (e :: rest) s); try done; [by rewrite H0|by left].
Qed.

Lemma combo_run_completes_witness :
  let run evs := written (fx (run_combo OTHER 0 (two_keys KEY_A KEY_B) evs
                                (grabbing [two_keys KEY_A KEY_B]))) in
  let a := (quiet_env, mkEv EV_KEY KEY_A 1) in let b := (quiet_env, mkEv EV_KEY KEY_B 1) in
  run [a] = [] /\ run [a; b] = [mkEv EV_KEY KEY_X 1; SYN; mkEv EV_KEY KEY_X 0; SYN].
Proof.
  destruct (combo_run_completes OTHER 0 (two_keys KEY_A KEY_B)
    (quiet_env, mkEv EV_KEY KEY_A 1) [(quiet_env, mkEv EV_KEY KEY_B 1)]
    (grabbing [two_keys KEY_A KEY_B]) eq_refl eq_refl
    ltac:(repeat constructor) ltac:(vm_compute; repeat split; discriminate)) as (H1 & H2 & _).
  split; [|exact (f_equal written H2)].
  exact (f_equal written (proj1 (H1 1%nat ltac:(simpl; lia)))).
Defined.

(** With the default macros, the keys Ctrl, Shift, Ctrl, Shift, 6 of the
    macro pad send Ctrl+C: the number key is replaced by the four events of the
    copy shortcut, followed by the virtual key code itself, which the macro does
    not withhold; the number key never reaches the virtual device. *)
Theorem g6_sends_ctrl_c :
  let press c s := process quiet_env (mkEv EV_KEY c 1) false s in
  let s := press KEY_LEFTSHIFT (press KEY_LEFTCTRL (press KEY_LEFTSHIFT (press KEY_LEFTCTRL
             (set_macros (MacroConfig.initializeAppMacros []) (grabbing []))))) in
  written (fx (press KEY_6 s)) =
  written (fx s) ++ sequence_events
    [(KEY_LEFTCTRL, 1); (KEY_C, 1); (KEY_C, 0); (KEY_LEFTCTRL, 0)] ++
  [mkEv EV_KEY G6_VIRTUAL 1; SYN].
Proof. vm_compute. reflexivity. Qed.

(** The same keys pressed and released one after the other leave the virtual key
    recorded as pressed although no key is down: its release never comes, because
    the release of the number key is not replaced. *)
Lemma gkey_stays_pressed :
  let tap c s := process quiet_env (mkEv EV_KEY c 0) false
                   (process quiet_env (mkEv EV_KEY c 1) false s) in
  pressedKeys (trk (tap KEY_6 (tap KEY_LEFTSHIFT (tap KEY_LEFTCTRL (tap KEY_LEFTSHIFT
    (tap KEY_LEFTCTRL (set_macros (MacroConfig.initializeAppMacros []) (grabbing [])))))))) =
  [G6_VIRTUAL].
Proof. vm_compute. reflexivity. Qed.
