(* ===== verification/Database.v ===== *)
(** The tables of the daemon's MySQL database and the operations of
    src/DatabaseTableManagers.cpp on them.

    A table whose queries say ORDER BY is the ascending list of its rows
    ([StdMap]); the others are finite maps, and a query without ORDER BY lists
    their rows in an unspecified order.  Every operation opens a connection
    first: [connected] says whether getConnection gives one, and a statement on
    an open connection succeeds (SQL errors on a live connection are logged and
    dropped by the code and are not modelled).  Keys compare exactly. *)

From S2P Require Import Prelude.
From Stdlib Require Import OrderedTypeEx.

(** std::string keys compare bytewise. *)
Lemma string_ltb_lt (k1 k2 : string) : String.ltb k1 k2 = true <-> String_as_OT.lt k1 k2.
Proof.
  rewrite <- String_as_OT.cmp_lt. unfold String_as_OT.cmp, String.ltb.
  by destruct (String.compare k1 k2).
Qed.

#[export] Program Instance ord_string : OrdKey string := {| key_ltb := String.ltb |}.
Next Obligation.
  intros k. unfold String.ltb.
  pose proof (proj2 (String_as_OT.cmp_eq k k) eq_refl) as E. unfold String_as_OT.cmp in E.
  by rewrite E.
Qed.
Next Obligation.
  intros k1 k2 k3. rewrite !string_ltb_lt. apply String_as_OT.lt_trans.
Qed.
Next Obligation.
  intros k1 k2 Hne. unfold String.ltb. rewrite (String.compare_antisym k2 k1).
  destruct (String.compare k1 k2) eqn:E; simpl; try done.
  by apply String.compare_eq_iff in E.
Qed.

(** struct PeerRecord, as stored: the time stamp is in seconds. *)
Record PeerRow := mkPeer {
  peer_id : string; ip_address : string; mac_address : string; hostname : string;
  last_seen : Z; is_online : bool; daemon_version : Z
}.

(** struct ExtraAppRecord *)
Record ExtraAppRecord := mkApp {
  app_id : string; display_name : string; repo_url : string;
  has_server_component : bool;
  server_service_template : string; client_service_template : string;
  port_key_client : string; port_key_server : string;
  dev_path : string; prod_path : string;
  server_build_subdir : string; client_subdir : string
}.

Definition emptyApp : ExtraAppRecord := mkApp "" "" "" false "" "" "" "" "" "" "" "".

Record DB := mkDB {
  connected : bool;
  terminal_history : list (Z * string);
  terminal_sessions : list (Z * Z);
  automation_configs : gmap string string;
  device_registry : gmap string string;
  system_settings : gmap string string;
  peer_registry : list (string * PeerRow);
  extra_apps : list (string * ExtraAppRecord)
}.

Definition set_history (h : list (Z * string)) (d : DB) : DB :=
  mkDB (connected d) h (terminal_sessions d) (automation_configs d) (device_registry d)
    (system_settings d) (peer_registry d) (extra_apps d).
Definition set_sessions (t : list (Z * Z)) (d : DB) : DB :=
  mkDB (connected d) (terminal_history d) t (automation_configs d) (device_registry d)
    (system_settings d) (peer_registry d) (extra_apps d).
Definition set_configs (c : gmap string string) (d : DB) : DB :=
  mkDB (connected d) (terminal_history d) (terminal_sessions d) c (device_registry d)
    (system_settings d) (peer_registry d) (extra_apps d).
Definition set_devices (c : gmap string string) (d : DB) : DB :=
  mkDB (connected d) (terminal_history d) (terminal_sessions d) (automation_configs d) c
    (system_settings d) (peer_registry d) (extra_apps d).
Definition set_settings (c : gmap string string) (d : DB) : DB :=
  mkDB (connected d) (terminal_history d) (terminal_sessions d) (automation_configs d)
    (device_registry d) c (peer_registry d) (extra_apps d).
Definition set_peers (p : list (string * PeerRow)) (d : DB) : DB :=
  mkDB (connected d) (terminal_history d) (terminal_sessions d) (automation_configs d)
    (device_registry d) (system_settings d) p (extra_apps d).
Definition set_apps (a : list (string * ExtraAppRecord)) (d : DB) : DB :=
  mkDB (connected d) (terminal_history d) (terminal_sessions d) (automation_configs d)
    (device_registry d) (system_settings d) (peer_registry d) a.

(** [if (!con) return d; ...] of an update and of a query *)
Definition with_con (f : DB -> DB) (d : DB) : DB := if connected d then f d else d.
Definition query {A} (def : A) (f : DB -> A) (d : DB) : A := if connected d then f d else def.

Module SettingsTable.
Definition setSetting (key value : string) : DB -> DB :=
  with_con (fun d => set_settings (<[key := value]> (system_settings d)) d).

Definition getSetting (key : string) : DB -> string :=
  query "" (fun d => default "" (system_settings d !! key)).

(** The number of deleted rows, and the table left. *)
Definition deleteSetting (key : string) (d : DB) : Z * DB :=
  if connected d then
    (match system_settings d !! key with Some _ => 1 | None => 0 end,
     set_settings (base.delete key (system_settings d)) d)
  else (0, d).

Definition getAllSettings : DB -> list (string * string) :=
  query [] (fun d => map_to_list (system_settings d)).
End SettingsTable.

Module ConfigTable.
Definition setConfig (key jsonValue : string) : DB -> DB :=
  with_con (fun d => set_configs (<[key := jsonValue]> (automation_configs d)) d).

Definition getConfig (key : string) : DB -> string :=
  query "" (fun d => default "" (automation_configs d !! key)).
End ConfigTable.

Module DeviceTable.
Definition setDevicePath (type path : string) : DB -> DB :=
  with_con (fun d => set_devices (<[type := path]> (device_registry d)) d).

Definition getDevicePath (type : string) : DB -> string :=
  query "" (fun d => default "" (device_registry d !! type)).
End DeviceTable.

Definition INDEX_OF_LAST_TOUCHED_DIR_KEY : string := "indexOfLastTouchedDir".

Module TerminalTable.
Definition upsertHistory (index : Z) (path : string) : DB -> DB :=
  with_con (fun d => set_history (StdMap.insert index path (terminal_history d)) d).

Definition getHistory (index : Z) : DB -> string :=
  query "" (fun d => default "" (StdMap.find index (terminal_history d))).

Definition setSessionPointer (tty index : Z) : DB -> DB :=
  with_con (fun d => set_sessions (StdMap.insert tty index (terminal_sessions d)) d).

Definition getSessionPointer (tty : Z) : DB -> Z :=
  query (-1) (fun d => default (-1) (StdMap.find tty (terminal_sessions d))).

Definition deleteSession (tty : Z) : DB -> DB :=
  with_con (fun d => set_sessions (StdMap.erase tty (terminal_sessions d)) d).

Definition getAllHistoryEntries : DB -> list (Z * string) :=
  query [] terminal_history.

(** The join of the sessions with the history, by tty. *)
Definition getAllHistory : DB -> list (Z * Z * string) :=
  query [] (fun d => mjoin ((fun s : Z * Z =>
    match StdMap.find s.2 (terminal_history d) with
    | Some path => [(s.1, s.2, path)]
    | None => []
    end) <$> terminal_sessions d)).

Definition getAllSessions : DB -> list (Z * Z) := query [] terminal_sessions.

(** MAX(entry_index), NULL on an empty table *)
Definition max_index (h : list (Z * string)) : option Z := fst <$> last h.
(** MIN(entry_index) *)
Definition min_index (h : list (Z * string)) : option Z := fst <$> head h.

Definition getMaxHistoryIndex : DB -> Z :=
  query (-1) (fun d => default (-1) (max_index (terminal_history d))).

Definition getHistoryCount : DB -> Z :=
  query 0 (fun d => Z.of_nat (length (terminal_history d))).

(** The rebasing of the last touched index: [try { stoi } catch (...) {}] *)
Definition rebase_last_touched (newMin : Z) (d : DB) : DB :=
  match system_settings d !! INDEX_OF_LAST_TOUCHED_DIR_KEY with
  | None => d
  | Some val =>
      match Num.stoi val with
      | Ok oldIdx =>
          set_settings (<[INDEX_OF_LAST_TOUCHED_DIR_KEY :=
            Num.to_string (Z.max 0 (oldIdx - newMin))]> (system_settings d)) d
      | Throw _ => d
      end
  end.

(** getInt gives 0 for the NULL that MIN returns on an empty table. *)
Definition pruneHistory (maxSize : Z) : DB -> DB :=
  with_con (fun d =>
    let count := Z.of_nat (length (terminal_history d)) in
    if count <=? maxSize then d
    else
      let minIndex := default 0 (min_index (terminal_history d)) in
      let cutoff := minIndex + (count - maxSize) in
      let d := set_history (base.filter (fun p => cutoff <= p.1) (terminal_history d)) d in
      let newMin := default 0 (min_index (terminal_history d)) in
      if newMin <=? 0 then d
      else
        let d := set_history ((fun p => (p.1 - newMin, p.2)) <$> terminal_history d) d in
        let d := set_sessions ((fun p => (p.1, Z.max 0 (p.2 - newMin)))
                                 <$> terminal_sessions d) d in
        rebase_last_touched newMin d).
End TerminalTable.

(** MySQLManager::emptyTable("terminal_history") *)
Definition empty_terminal_history : DB -> DB := with_con (set_history []).

Module PeerTable.
(** [now] is NOW(), in seconds. *)
Definition upsertPeer (now : Z) (id ip mac host : string) (online : bool) (version : Z)
    : DB -> DB :=
  with_con (fun d => set_peers
    (StdMap.insert id (mkPeer id ip mac host now online version) (peer_registry d)) d).

Definition getPeer (id : string) : DB -> option PeerRow :=
  query None (fun d => StdMap.find id (peer_registry d)).

(** IF(is_online = 1 AND last_seen > NOW() - INTERVAL 20 SECOND, 1, 0) *)
Definition online_calculated (now : Z) (p : PeerRow) : PeerRow :=
  mkPeer (peer_id p) (ip_address p) (mac_address p) (hostname p) (last_seen p)
    (is_online p && (now - 20 <? last_seen p)) (daemon_version p).

Definition getAllPeers (now : Z) : DB -> list PeerRow :=
  query [] (fun d => (fun p => online_calculated now p.2) <$> peer_registry d).

(** UPDATE peer_registry SET ... WHERE peer_id = ? *)
Definition update_peer (id : string) (f : PeerRow -> PeerRow) : DB -> DB :=
  with_con (fun d =>
    match StdMap.find id (peer_registry d) with
    | Some p => set_peers (StdMap.insert id (f p) (peer_registry d)) d
    | None => d
    end).

Definition updateOnlineStatus (now : Z) (id : string) (online : bool) : DB -> DB :=
  update_peer id (fun p => mkPeer (peer_id p) (ip_address p) (mac_address p) (hostname p)
                             now online (daemon_version p)).

Definition touchLastSeen (now : Z) (id : string) : DB -> DB :=
  update_peer id (fun p => mkPeer (peer_id p) (ip_address p) (mac_address p) (hostname p)
                             now true (daemon_version p)).

Definition touchLastSeenVersion (now : Z) (id : string) (version : Z) : DB -> DB :=
  update_peer id (fun p => mkPeer (peer_id p) (ip_address p) (mac_address p) (hostname p)
                             now true version).

Definition deletePeer (id : string) : DB -> DB :=
  with_con (fun d => set_peers (StdMap.erase id (peer_registry d)) d).

Definition getIpAddress (id : string) : DB -> string :=
  query "" (fun d => default "" (ip_address <$> StdMap.find id (peer_registry d))).

Definition clearAllPeers (d : DB) : Z * DB :=
  if connected d then (Z.of_nat (length (peer_registry d)), set_peers [] d) else (0, d).
End PeerTable.

Module ExtraAppTable.
Definition upsertApp (app : ExtraAppRecord) : DB -> DB :=
  with_con (fun d => set_apps (StdMap.insert (app_id app) app (extra_apps d)) d).

Definition getApp (id : string) : DB -> ExtraAppRecord :=
  query emptyApp (fun d => default emptyApp (StdMap.find id (extra_apps d))).

Definition getAllApps : DB -> list ExtraAppRecord :=
  query [] (fun d => snd <$> extra_apps d).

Definition deleteApp (id : string) : DB -> DB :=
  with_con (fun d => set_apps (StdMap.erase id (extra_apps d)) d).

Definition appExists (id : string) : DB -> bool :=
  query false (fun d => match StdMap.find id (extra_apps d) with Some _ => true | None => false end).
End ExtraAppTable.
