(* ===== verification/Terminal.v ===== *)
(** The directory history of the terminals (src/terminal.cpp): class Terminal,
    its static list of instances and its handlers, on top of the tables of
    Database.v.  The file system is the parameter [is_directory]; a handler is
    a computation of the state-and-exception monad, because std::stoi and the
    JSON accessors throw. *)

From S2P Require Import Prelude Types Json Database.

Definition MAX_DIR_HISTORY_SIZE : Z := 500.
Definition DIR_HISTORY_DEFAULT_DIR : string := "/opt/automateLinux/".
Definition newline : string := String "010"%char "".

(** The tables and Terminal::instances, the ttys in order of creation. *)
Record TS := mkTS { db : DB; instances : list Z }.

Definition upd_db (f : DB -> DB) (t : TS) : TS := mkTS (f (db t)) (instances t).

(** static getJsonString *)
Definition getJsonString (j : json) (key : string) : string :=
  match Json.member key j with
  | Some (JString s) => s
  | Some (JInt z) => Num.to_string z
  | Some (JFloat m e) => Num.to_string (Json.trunc m e)
  | _ => ""
  end.

Module Terminal.
Section FileSystem.
(** std::filesystem::is_directory *)
Context (is_directory : string -> bool).

Definition standardizePath (path : string) : string :=
  if Str.empty path then "/"
  else if Str.ends_with_char "/" path then path
  else (path +:+ "/")%string.

Definition default_dir : string := standardizePath DIR_HISTORY_DEFAULT_DIR.

(** !dir.empty() && dir != "/" && is_directory(dir) *)
Definition valid_dir (dir : string) : bool :=
  negb (Str.empty dir) && negb (bool_decide (dir = "/")) && is_directory dir.

(** for (int i = n - 1; i >= 0; i--): the first index with a valid entry *)
Fixpoint walk_back (entry : Z -> string) (n : nat) : option Z :=
  match n with
  | O => None
  | S n' => if valid_dir (entry (Z.of_nat n')) then Some (Z.of_nat n')
        else walk_back entry n'
  end.

(** for (int i = from; ...; i++), [n] iterations *)
Fixpoint walk_forward (entry : Z -> string) (from : Z) (n : nat) : option Z :=
  match n with
  | O => None
  | S n' => if valid_dir (entry from) then Some from
        else walk_forward entry (from + 1) n'
  end.

(** The entry of an index, as written and with its final slash. *)
Definition raw_entry (d : DB) (i : Z) : string := TerminalTable.getHistory i d.
Definition std_entry (d : DB) (i : Z) : string := standardizePath (raw_entry d i).

(** The start index the constructor reads from the last touched directory. *)
Definition last_touched_index (d : DB) : Z :=
  let lastTouched := SettingsTable.getSetting INDEX_OF_LAST_TOUCHED_DIR_KEY d in
  if Str.empty lastTouched then -1
  else match Num.stoi lastTouched with Ok i => i | Throw _ => -1 end.

(** Terminal::Terminal(int tty) *)
Definition construct (tty : Z) (t : TS) : TS :=
  let t := mkTS (db t) (instances t ++ [tty]) in
  let startIndex := last_touched_index (db t) in
  let startIndex :=
    if startIndex <? 0 then TerminalTable.getMaxHistoryIndex (db t) else startIndex in
  let '(startIndex, t) :=
    if startIndex <? 0 then (0, upd_db (TerminalTable.upsertHistory 0 default_dir) t)
    else (startIndex, t) in
  match walk_back (raw_entry (db t)) (Z.to_nat (startIndex + 1)) with
  | Some i => upd_db (TerminalTable.setSessionPointer tty i) t
  | None =>
      let m := TerminalTable.getMaxHistoryIndex (db t) in
      let i := if m <? 0 then 0 else m in
      upd_db (TerminalTable.setSessionPointer tty i)
        (upd_db (TerminalTable.upsertHistory i default_dir) t)
  end.

(** Terminal::getInstanceByTTY *)
Definition has_instance (tty : Z) (t : TS) : bool := bool_decide (tty ∈ instances t).

(** Terminal::getIndex *)
Definition getIndex (tty : Z) (d : DB) : Z :=
  let idx := TerminalTable.getSessionPointer tty d in
  if 0 <=? idx then idx else 0.

Definition create_if_absent (tty : Z) (t : TS) : TS :=
  if has_instance tty t then t else construct tty t.

(** Terminal::_openedTty: no call in it throws, so its catch is not reached. *)
Definition _openedTty (tty : Z) (t : TS) : TS * CmdResult :=
  let index := TerminalTable.getSessionPointer tty (db t) in
  let '(index, t) :=
    if index <? 0 then
      (0, upd_db (TerminalTable.upsertHistory 0 default_dir)
            (upd_db (TerminalTable.setSessionPointer tty 0) t))
    else (index, t) in
  let dir := std_entry (db t) index in
  let '(index, dir, t) :=
    if negb (Str.empty dir) && negb (bool_decide (dir = "/")) && negb (is_directory dir) then
      match walk_back (std_entry (db t)) (Z.to_nat index) with
      | Some i => (i, std_entry (db t) i, upd_db (TerminalTable.setSessionPointer tty i) t)
      | None => (index, default_dir, upd_db (TerminalTable.setSessionPointer tty 0) t)
      end
    else (index, dir, t) in
  let '(dir, t) :=
    if Str.empty dir || bool_decide (dir = "/") then
      (default_dir, upd_db (TerminalTable.upsertHistory index default_dir) t)
    else (dir, t) in
  (t, mkCmdResult 0 (dir +:+ newline)).

Definition missing_tty : CmdResult := mkCmdResult 1 ("Missing tty argument" +:+ newline).

Definition not_found (ttyStr : string) : CmdResult :=
  mkCmdResult 1 ("Terminal instance not found for tty " +:+ ttyStr +:+ newline).

(** The common start of the handlers: the tty argument and its number. *)
Definition with_tty (command : json) (k : string -> Z -> M TS CmdResult) : M TS CmdResult :=
  let ttyStr := getJsonString command "tty" in
  if Str.empty ttyStr then mret missing_tty
  else let! tty := lift (Num.stoi ttyStr) in k ttyStr tty.

Definition openedTty (command : json) : M TS CmdResult :=
  with_tty command (fun _ tty t =>
    let '(t, r) := _openedTty tty (create_if_absent tty t) in (t, Ok r)).

(** Terminal::_closedTty erases the instance and its session; the destructor
    finds nothing left to erase. *)
Definition _closedTty (tty : Z) (t : TS) : TS * CmdResult :=
  (upd_db (TerminalTable.deleteSession tty)
  (mkTS (db t) (base.filter (fun x => x <> tty) (instances t))),
  mkCmdResult 0 newline).

Definition closedTty (command : json) : M TS CmdResult :=
  with_tty command (fun ttyStr tty t =>
    if has_instance tty t then
      let '(t, r) := _closedTty tty t in (t, Ok r)
    else (t, Ok (not_found ttyStr))).

(** Terminal::_updateDirHistory, once the pwd argument is read *)
Definition update_history (tty : Z) (pwd : string) (d : DB) : DB * CmdResult :=
  let index := getIndex tty d in
  let currentDir := std_entry d index in
  let nextDir := std_entry d (index + 1) in
  let d := SettingsTable.setSetting INDEX_OF_LAST_TOUCHED_DIR_KEY (Num.to_string index) d in
  if Str.empty pwd || bool_decide (pwd = "/") then
    (d, mkCmdResult 1 ("No directory provided to updateDirHistory" +:+ newline))
  else if bool_decide (currentDir = pwd) then (d, mkCmdResult 0 newline)
  else if bool_decide (nextDir = pwd) then
    (TerminalTable.setSessionPointer tty (index + 1) d, mkCmdResult 0 newline)
  else
    let insertIndex := TerminalTable.getMaxHistoryIndex d + 1 in
    let d := TerminalTable.upsertHistory insertIndex pwd d in
    let d := TerminalTable.setSessionPointer tty insertIndex d in
    let d := SettingsTable.setSetting INDEX_OF_LAST_TOUCHED_DIR_KEY
               (Num.to_string insertIndex) d in
    (TerminalTable.pruneHistory MAX_DIR_HISTORY_SIZE d, mkCmdResult 0 newline).

Definition updateDirHistory (command : json) : M TS CmdResult :=
  with_tty command (fun _ tty =>
    let! _ := modify (create_if_absent tty) in
    let! pwd := lift (Json.string_at "pwd" command) in
    fun t =>
      let '(d, r) := update_history tty (standardizePath pwd) (db t) in
      (mkTS d (instances t), Ok r)).

(** Terminal::_cdForward and _cdBackward *)
Definition cd_forward (tty : Z) (d : DB) : DB * CmdResult :=
  let index := getIndex tty d in
  let maxIndex := TerminalTable.getMaxHistoryIndex d in
  match walk_forward (std_entry d) (index + 1) (Z.to_nat (maxIndex - index)) with
  | Some i => (TerminalTable.setSessionPointer tty i d,
               mkCmdResult 0 ("cd " +:+ std_entry d i +:+ newline))
  | None => (d, mkCmdResult 0 ("echo " +:+ newline +:+ "END OF HISTORY reached"
                             +:+ newline +:+ newline))
  end.

Definition cd_backward (tty : Z) (d : DB) : DB * CmdResult :=
  let index := getIndex tty d in
  match walk_back (std_entry d) (Z.to_nat index) with
  | Some i => (TerminalTable.setSessionPointer tty i d,
               mkCmdResult 0 ("cd " +:+ std_entry d i +:+ newline))
  | None => (d, mkCmdResult 0 ("echo " +:+ newline +:+ "BEGINNING OF HISTORY reached"
                             +:+ newline +:+ newline))
  end.

Definition on_db (f : DB -> DB * CmdResult) : M TS CmdResult := fun t =>
  let '(d, r) := f (db t) in (mkTS d (instances t), Ok r).

Definition cdForward (command : json) : M TS CmdResult :=
  with_tty command (fun _ tty =>
    let! _ := modify (create_if_absent tty) in on_db (cd_forward tty)).

Definition cdBackward (command : json) : M TS CmdResult :=
  with_tty command (fun _ tty =>
    let! _ := modify (create_if_absent tty) in on_db (cd_backward tty)).

Definition toString (tty : Z) (d : DB) : string :=
  let index := getIndex tty d in
  ("tty: " +:+ Num.to_string tty +:+ newline +:+ "Dir history index: " +:+
  Num.to_string index +:+ newline +:+ "cwd: " +:+ raw_entry d index +:+ newline)%string.

Definition showTerminalInstance (command : json) : M TS CmdResult :=
  with_tty command (fun ttyStr tty t =>
    (t, Ok (if has_instance tty t then mkCmdResult 0 (toString tty (db t))
            else not_found ttyStr))).

Definition showAllTerminalInstances (command : json) : M TS CmdResult := fun t =>
  (t, Ok (match instances t with
          | [] => mkCmdResult 0 ("No terminal instances found" +:+ newline)
          | l => mkCmdResult 0 (Str.pop_back
                   (foldl (fun m tty => m +:+ toString tty (db t) +:+ newline) "" l)%string)
          end)).
End FileSystem.
End Terminal.

(** handleEmptyDirHistoryTable of src/cmdTerminal.cpp *)
Definition handleEmptyDirHistoryTable (command : json) : M TS CmdResult := fun t =>
  (upd_db empty_terminal_history t,
   Ok (mkCmdResult 0 ("terminal_history table emptied." +:+ newline))).

Definition handleShellSignal (command : json) : M TS CmdResult :=
  let! signal := lift (Json.string_at "signal" command) in
  mret (mkCmdResult 0 ("kill -" +:+ signal +:+ " $$" +:+ newline)).

(** handlePrintDirHistory *)
Definition handlePrintDirHistory (command : json) : M TS CmdResult := fun t =>
  let d := db t in
  let line (s : string) := (s +:+ newline)%string in
  let history := TerminalTable.getAllHistory d in
  let sessions := TerminalTable.getAllSessions d in
  let lastTouchedIndex := SettingsTable.getSetting INDEX_OF_LAST_TOUCHED_DIR_KEY d in
  let ss := line "--- Directory History Entries ---" in
  let ss := match history with
    | [] => ss +:+ line "No directory entries found."
    | _ => foldl (fun s (e : Z * Z * string) => s +:+ "  TTY " +:+ Num.to_string e.1.1
             +:+ " Index " +:+ Num.to_string e.1.2 +:+ ": " +:+ line e.2) ss history
    end%string in
  let ss := (ss +:+ newline +:+ line "--- Terminal Sessions ---")%string in
  let ss := match sessions with
    | [] => ss +:+ line "No active sessions found."
    | _ => foldl (fun s (e : Z * Z) => s +:+ "  TTY " +:+ Num.to_string e.1
             +:+ ": Index " +:+ line (Num.to_string e.2)) ss sessions
    end%string in
  let ss := (ss +:+ newline +:+ line "--- Last Touched Directory ---")%string in
  let ss := if Str.empty lastTouchedIndex
    then (ss +:+ line "No last touched directory recorded.")%string
    else (ss +:+ "  Index: " +:+ lastTouchedIndex +:+
          line " (lookup disabled due to per-TTY schema)")%string in
  (t, Ok (mkCmdResult 0 ss)).
