(* ===== verification/TerminalFacts.v ===== *)
(** Theorems about the directory history: the numbering invariant and its
    preservation, pruning, updateDirHistory and the two directions of cd. *)

From S2P Require Import Prelude Types Json Database Terminal.

(** ** Histories without gaps *)

(** The rows of a history numbered from [k] without gaps. *)
Fixpoint numbered (k : Z) (l : list string) : list (Z * string) :=
  match l with
  | [] => []
  | x :: l' => (k, x) :: numbered (k + 1) l'
  end.

Lemma numbered_length k l : length (numbered k l) = length l.
Proof. revert k. induction l; intros k; simpl; auto. Qed.

Lemma numbered_find k l i :
  StdMap.find i (numbered k l) = if k <=? i then l !! Z.to_nat (i - k) else None.
Proof.
  revert k. induction l as [|x l IH]; intros k; simpl.
  { by destruct (k <=? i). }
  case_decide as E.
  - subst i. by rewrite Z.leb_refl, Z.sub_diag.
  - rewrite IH. destruct (Z.leb_spec k i).
    + rewrite (proj2 (Z.leb_le (k + 1) i)) by lia.
      replace (Z.to_nat (i - k)) with (S (Z.to_nat (i - (k + 1)))) by lia. done.
    + by rewrite (proj2 (Z.leb_gt (k + 1) i)) by lia.
Qed.

Lemma numbered_app k l1 l2 :
  numbered k (l1 ++ l2) = numbered k l1 ++ numbered (k + Z.of_nat (length l1)) l2.
Proof.
  revert k. induction l1 as [|x l1 IH]; intros k; simpl; [by rewrite Z.add_0_r|].
  rewrite IH. do 3 f_equal. lia.
Qed.

Lemma numbered_insert k l i x :
  k <= i <= k + Z.of_nat (length l) ->
  StdMap.insert i x (numbered k l) =
  numbered k (if decide (i = k + Z.of_nat (length l)) then l ++ [x]
              else <[Z.to_nat (i - k) := x]> l).
Proof.
  revert k. induction l as [|y l IH]; intros k Hi; simpl in *.
  { rewrite decide_True by lia. simpl. by replace i with k by lia. }
  destruct (decide (i = k)) as [->|Hne].
  - rewrite decide_False by lia. by rewrite Z.sub_diag.
  - rewrite (proj2 (Z.ltb_ge i k)) by lia. rewrite IH by lia.
    destruct (decide (i = k + 1 + Z.of_nat (length l))).
    + by rewrite decide_True by lia.
    + rewrite decide_False by lia.
      by replace (Z.to_nat (i - k)) with (S (Z.to_nat (i - (k + 1)))) by lia.
Qed.

Lemma numbered_filter_all k j l :
  k <= j -> base.filter (fun p : Z * string => k <= p.1) (numbered j l) = numbered j l.
Proof.
  revert j. induction l as [|y l IH]; intros j Hj; [done|]. simpl.
  rewrite filter_cons_True by (simpl; lia). f_equal. apply IH. lia.
Qed.

Lemma numbered_filter k l c :
  k <= c -> base.filter (fun p : Z * string => c <= p.1) (numbered k l) =
  numbered c (drop (Z.to_nat (c - k)) l).
Proof.
  revert k. induction l as [|x l IH]; intros k Hc; simpl; [by rewrite drop_nil|].
  rewrite filter_cons. simpl. destruct (decide (c <= k)).
  - replace c with k in * by lia. rewrite Z.sub_diag. simpl. f_equal.
    apply numbered_filter_all. lia.
  - rewrite IH by lia.
    by replace (Z.to_nat (c - k)) with (S (Z.to_nat (c - (k + 1)))) by lia.
Qed.

Lemma numbered_shift k l m :
  (fun p : Z * string => (p.1 - m, p.2)) <$> numbered k l = numbered (k - m) l.
Proof.
  revert k. induction l as [|x l IH]; intros k; [done|]. csimpl. f_equal.
  rewrite IH. f_equal. lia.
Qed.

Lemma numbered_max k l :
  l <> [] -> TerminalTable.max_index (numbered k l) = Some (k + Z.of_nat (length l) - 1).
Proof.
  intros Hl. destruct l as [|x l] using rev_ind; [done|]. clear IHl.
  unfold TerminalTable.max_index. rewrite numbered_app. simpl.
  rewrite last_snoc, length_app. simpl. f_equal. lia.
Qed.

Lemma numbered_min k l :
  TerminalTable.min_index (numbered k l) = if decide (l = []) then None else Some k.
Proof. by destruct l. Qed.

(** ** The invariant *)

Definition paths (d : DB) : list string := (terminal_history d).*2.
Definition hist_len (d : DB) : Z := Z.of_nat (length (terminal_history d)).

(** The history is numbered 0, 1, 2, ... without gaps and has at most [size]
    entries, and every session points into it. *)
Record history_ok (size : Z) (d : DB) : Prop := mkHistoryOk {
  ok_numbered : terminal_history d = numbered 0 (paths d);
  ok_size : hist_len d <= size;
  ok_pointers : Forall (fun s => 0 <= s.2 < hist_len d) (terminal_sessions d)
}.

Lemma numbered_paths k l : (numbered k l).*2 = l.
Proof. revert k. induction l as [|x l IH]; intros k; csimpl; [done|]. by rewrite IH. Qed.

Lemma paths_length d : Z.of_nat (length (paths d)) = hist_len d.
Proof. unfold paths, hist_len. by rewrite length_fmap. Qed.

Lemma history_ok_intro size d l :
  terminal_history d = numbered 0 l -> Z.of_nat (length l) <= size ->
  Forall (fun s => 0 <= s.2 < Z.of_nat (length l)) (terminal_sessions d) -> history_ok size d.
Proof.
  intros E Hs Hp. assert (hist_len d = Z.of_nat (length l)) as El
    by (unfold hist_len; by rewrite E, numbered_length).
  split; [|lia|by rewrite El]. unfold paths. by rewrite E, numbered_paths.
Qed.

Lemma with_con_ok size f d :
  history_ok size d -> (connected d = true -> history_ok size (f d)) ->
  history_ok size (with_con f d).
Proof. intros H Hf. unfold with_con. destruct (connected d); auto. Qed.

Lemma history_ok_same size d d' :
  terminal_history d' = terminal_history d -> terminal_sessions d' = terminal_sessions d ->
  history_ok size d -> history_ok size d'.
Proof.
  intros E1 E2 [H1 H2 H3]. unfold paths, hist_len in *.
  split; unfold paths, hist_len; by rewrite ?E1, ?E2.
Qed.

Lemma setSetting_ok size k v d : history_ok size d -> history_ok size (SettingsTable.setSetting k v d).
Proof. intros H. apply with_con_ok; [done|]. intros _. by apply (history_ok_same size d). Qed.

(** An upsert at an index of the history or just after its end. *)
Lemma upsert_paths d i x :
  connected d = true -> terminal_history d = numbered 0 (paths d) -> 0 <= i <= hist_len d ->
  terminal_history (TerminalTable.upsertHistory i x d) =
  numbered 0 (if decide (i = hist_len d) then paths d ++ [x]
              else <[Z.to_nat i := x]> (paths d)).
Proof.
  intros Hc E Hi. unfold TerminalTable.upsertHistory, with_con. rewrite Hc. simpl.
  rewrite E, numbered_insert by (rewrite paths_length; lia).
  by rewrite paths_length, Z.sub_0_r.
Qed.

Lemma upsert_ok size d i x :
  history_ok size d -> 0 <= i < hist_len d \/ (i = hist_len d /\ i < size) ->
  history_ok size (TerminalTable.upsertHistory i x d).
Proof.
  intros Hok Hi. destruct (connected d) eqn:Hc.
  2: { unfold TerminalTable.upsertHistory, with_con. by rewrite Hc. }
  destruct Hok as [H1 H2 H3]. pose proof (paths_length d) as Hl.
  eapply history_ok_intro; [apply upsert_paths; [done|done|lia]| |].
  - pose proof (paths_length d). case_decide; rewrite ?length_app, ?length_insert; cbn [length]; lia.
  - unfold TerminalTable.upsertHistory, with_con. rewrite Hc. simpl.
    eapply Forall_impl; [exact H3|]. simpl. intros s Hs.
    pose proof (paths_length d). case_decide; rewrite ?length_app, ?length_insert; cbn [length]; lia.
Qed.

Lemma pointer_ok size d tty i :
  history_ok size d -> 0 <= i < hist_len d ->
  history_ok size (TerminalTable.setSessionPointer tty i d).
Proof.
  intros [H1 H2 H3] Hi. apply with_con_ok; [by split|]. intros _.
  split; [done|done|]. by apply StdMap.Forall_insert.
Qed.

Lemma deleteSession_ok size d tty :
  history_ok size d -> history_ok size (TerminalTable.deleteSession tty d).
Proof.
  intros [H1 H2 H3]. apply with_con_ok; [by split|]. intros _. split; [done|done|].
  simpl. unfold StdMap.erase. apply Forall_forall. intros s [_ Hs]%list_elem_of_filter.
  rewrite Forall_forall in H3. by apply H3.
Qed.

(** ** Entries *)

Lemma raw_entry_paths size d i :
  connected d = true -> history_ok size d ->
  Terminal.raw_entry d i = if 0 <=? i then default "" (paths d !! Z.to_nat i) else "".
Proof.
  intros Hc [H _ _]. unfold Terminal.raw_entry, TerminalTable.getHistory, query.
  rewrite Hc, H, numbered_find, Z.sub_0_r. by destruct (0 <=? i).
Qed.

Lemma raw_entry_range size d i :
  history_ok size d -> Terminal.raw_entry d i <> "" ->
  connected d = true /\ 0 <= i < hist_len d.
Proof.
  intros Hok Hne. destruct (connected d) eqn:Hc.
  2: { unfold Terminal.raw_entry, TerminalTable.getHistory, query in Hne. by rewrite Hc in Hne. }
  split; [done|]. rewrite (raw_entry_paths size) in Hne by done.
  destruct (Z.leb_spec 0 i); [|done]. split; [done|].
  destruct (paths d !! Z.to_nat i) eqn:E; [|done].
  apply lookup_lt_Some in E. pose proof (paths_length d). lia.
Qed.

Section Fs.
Context (is_directory : string -> bool).
Abbreviation valid := (Terminal.valid_dir is_directory).
Abbreviation walk_back := (Terminal.walk_back is_directory).
Abbreviation walk_forward := (Terminal.walk_forward is_directory).

Lemma valid_raw_range size d i :
  history_ok size d -> valid (Terminal.raw_entry d i) = true -> 0 <= i < hist_len d.
Proof.
  intros Hok Hv. apply (raw_entry_range size); [done|]. intros E. by rewrite E in Hv.
Qed.

Lemma valid_std_range size d i :
  history_ok size d -> valid (Terminal.std_entry d i) = true -> 0 <= i < hist_len d.
Proof.
  intros Hok Hv. apply (raw_entry_range size); [done|]. intros E.
  unfold Terminal.std_entry in Hv. by rewrite E in Hv.
Qed.

(** What the walks find. *)
Lemma walk_back_spec entry n :
  match walk_back entry n with
  | Some i => 0 <= i < Z.of_nat n /\ valid (entry i) = true /\
              forall j, i < j < Z.of_nat n -> valid (entry j) = false
  | None => forall j, 0 <= j < Z.of_nat n -> valid (entry j) = false
  end.
Proof.
  induction n as [|n IH]; cbn [Terminal.walk_back]; [lia|].
  destruct (valid (entry (Z.of_nat n))) eqn:E; [repeat split; [lia..|done|lia]|].
  assert (forall j, Z.of_nat n = j -> valid (entry j) = false) as Hn by (by intros j <-).
  destruct (walk_back entry n) as [i|].
  - destruct IH as (? & ? & IH). repeat split; [lia..|done|].
    intros j Hj. destruct (decide (Z.of_nat n = j)); [by apply Hn|apply IH; lia].
  - intros j Hj. destruct (decide (Z.of_nat n = j)); [by apply Hn|apply IH; lia].
Qed.

Lemma walk_forward_spec entry from n :
  match walk_forward entry from n with
  | Some i => from <= i < from + Z.of_nat n /\ valid (entry i) = true /\
              forall j, from <= j < i -> valid (entry j) = false
  | None => forall j, from <= j < from + Z.of_nat n -> valid (entry j) = false
  end.
Proof.
  revert from. induction n as [|n IH]; intros from; cbn [Terminal.walk_forward]; [lia|].
  destruct (valid (entry from)) eqn:E; [repeat split; [lia..|done|lia]|].
  specialize (IH (from + 1)). destruct (walk_forward entry (from + 1) n) as [i|].
  - destruct IH as (? & ? & IH). repeat split; [lia..|done|].
    intros j Hj. destruct (decide (from = j)) as [<-|]; [done|apply IH; lia].
  - intros j Hj. destruct (decide (from = j)) as [<-|]; [done|apply IH; lia].
Qed.
End Fs.

(** ** Pruning *)

Lemma rebase_history k d :
  terminal_history (TerminalTable.rebase_last_touched k d) = terminal_history d /\
  terminal_sessions (TerminalTable.rebase_last_touched k d) = terminal_sessions d /\
  connected (TerminalTable.rebase_last_touched k d) = connected d.
Proof. unfold TerminalTable.rebase_last_touched. by repeat case_match. Qed.

Lemma prune_cut max d :
  connected d = true -> 0 < max -> terminal_history d = numbered 0 (paths d) ->
  max < hist_len d ->
  let k := hist_len d - max in
  terminal_history (TerminalTable.pruneHistory max d) =
    numbered 0 (drop (Z.to_nat k) (paths d)) /\
  terminal_sessions (TerminalTable.pruneHistory max d) =
    (fun p => (p.1, Z.max 0 (p.2 - k))) <$> terminal_sessions d /\
  connected (TerminalTable.pruneHistory max d) = true.
Proof.
  intros Hc Hmax Hn Hlen k. pose proof (paths_length d) as Hl.
  unfold TerminalTable.pruneHistory, with_con. rewrite Hc. cbv zeta.
  change (Z.of_nat (length (terminal_history d))) with (hist_len d).
  rewrite (proj2 (Z.leb_gt (hist_len d) max)) by lia. fold k.
  rewrite Hn, numbered_min, decide_False by (intros E; rewrite E in Hl; simpl in Hl; lia).
  cbn [from_option id]. rewrite Z.add_0_l.
  rewrite numbered_filter, Z.sub_0_r by lia.
  set (rest := drop (Z.to_nat k) (paths d)).
  assert (length rest = Z.to_nat max) as Hr by (subst rest; rewrite length_drop; lia).
  cbn [set_history terminal_history terminal_sessions].
  rewrite numbered_min, decide_False by (intros E; rewrite E in Hr; simpl in Hr; lia).
  cbn [from_option id]. rewrite (proj2 (Z.leb_gt k 0)) by lia.
  match goal with |- context [TerminalTable.rebase_last_touched k ?d0] =>
    destruct (rebase_history k d0) as (-> & -> & ->) end.
  cbn [set_sessions set_history terminal_history terminal_sessions connected].
  rewrite numbered_shift, Z.sub_diag. done.
Qed.

Lemma prune_small max d :
  hist_len d <= max -> TerminalTable.pruneHistory max d = d.
Proof.
  intros H. unfold TerminalTable.pruneHistory, with_con. destruct (connected d); [|done].
  cbv zeta. fold (hist_len d). by rewrite (proj2 (Z.leb_le _ _)).
Qed.

Lemma prune_ok size max d :
  0 < max -> history_ok size d -> history_ok max (TerminalTable.pruneHistory max d) \/
  connected d = false.
Proof.
  intros Hmax [H1 H2 H3]. destruct (connected d) eqn:Hc; [left|by right].
  destruct (decide (hist_len d <= max)) as [Hle|Hgt].
  { rewrite prune_small by done. by split. }
  destruct (prune_cut max d Hc Hmax H1 ltac:(lia)) as (E1 & E2 & _).
  pose proof (paths_length d).
  eapply history_ok_intro; [exact E1|rewrite length_drop; lia|].
  rewrite E2, Forall_fmap. eapply Forall_impl; [exact H3|].
  intros s Hs. cbv beta in Hs. unfold compose. cbn [snd]. rewrite length_drop. lia.
Qed.

(** Pruning keeps the newest entries: the history holds exactly its last
    [max] paths, renumbered from 0, and a session whose entry survives still
    points at the same path. *)
Theorem prune_keeps_newest (size max : Z) (d : DB) (tty p : Z) :
  connected d = true -> 0 < max -> history_ok size d ->
  StdMap.find tty (terminal_sessions d) = Some p ->
  let d' := TerminalTable.pruneHistory max d in
  let k := Z.max 0 (hist_len d - max) in
  terminal_history d' = numbered 0 (drop (Z.to_nat k) (paths d)) /\
  TerminalTable.getSessionPointer tty d' = Z.max 0 (p - k) /\
  (k <= p -> TerminalTable.getHistory (TerminalTable.getSessionPointer tty d') d' =
             TerminalTable.getHistory p d).
Proof.
  intros Hc Hmax Hok Hp d' k.
  assert (0 <= p < hist_len d) as Hpr.
  { destruct Hok as [_ _ H]. rewrite Forall_forall in H.
    apply (H (tty, p)), StdMap.find_Some_elem, Hp. }
  assert (terminal_history d' = numbered 0 (drop (Z.to_nat k) (paths d)) /\
          TerminalTable.getSessionPointer tty d' = Z.max 0 (p - k) /\ connected d' = true)
    as (E1 & E2 & E3).
  { subst d'. destruct (decide (hist_len d <= max)) as [Hle|Hgt].
    - rewrite prune_small by done. replace k with 0 by lia.
      split; [apply (ok_numbered _ _ Hok)|]. split; [|done].
      unfold TerminalTable.getSessionPointer, query. rewrite Hc, Hp. cbn [from_option id]. lia.
    - replace k with (hist_len d - max) by lia.
      destruct (prune_cut max d Hc Hmax (ok_numbered _ _ Hok) ltac:(lia)) as (E1 & E2 & E3).
      split; [done|]. split; [|done].
      unfold TerminalTable.getSessionPointer, query. rewrite E3, E2.
      rewrite (find_fmap_snd (fun q => Z.max 0 (q - (hist_len d - max)))), Hp. done. }
  split; [done|]. split; [done|]. intros Hk.
  rewrite E2. unfold TerminalTable.getHistory, query. rewrite E3, Hc, E1.
  rewrite (ok_numbered _ _ Hok) at 1. rewrite !numbered_find, !Z.sub_0_r.
  rewrite !(proj2 (Z.leb_le _ _)) by lia. rewrite lookup_drop. do 2 f_equal. lia.
Qed.

Lemma prune_keeps_newest_witness :
  let d := set_sessions [(7, 2)] (set_history (numbered 0 ["/a/"; "/b/"; "/c/"])
             (mkDB true [] [] ∅ ∅ ∅ [] [])) in
  TerminalTable.getHistory (TerminalTable.getSessionPointer 7 (TerminalTable.pruneHistory 2 d))
    (TerminalTable.pruneHistory 2 d) = TerminalTable.getHistory 2 d.
Proof.
  intros d.
  apply (prune_keeps_newest 500 2 d 7 2); [reflexivity|lia| |reflexivity|vm_compute; discriminate].
  split; [reflexivity|vm_compute; discriminate|].
  constructor; [vm_compute; split; [discriminate|reflexivity]|constructor].
Defined.

(** ** Every handler keeps the invariant *)

Abbreviation ok := (history_ok MAX_DIR_HISTORY_SIZE).

Lemma max_history size d :
  history_ok size d -> TerminalTable.getMaxHistoryIndex d =
    (if connected d then hist_len d - 1 else -1).
Proof.
  intros [H _ _]. unfold TerminalTable.getMaxHistoryIndex, query.
  destruct (connected d); [|done]. rewrite H. pose proof (paths_length d).
  destruct (decide (paths d = [])) as [E|E].
  - rewrite E in *. simpl in *. lia.
  - rewrite numbered_max by done. cbn [from_option id]. lia.
Qed.

Lemma disconnected_upsert i x d : connected d = false -> TerminalTable.upsertHistory i x d = d.
Proof. intros H. unfold TerminalTable.upsertHistory, with_con. by rewrite H. Qed.

Lemma disconnected_pointer i x d :
  connected d = false -> TerminalTable.setSessionPointer i x d = d.
Proof. intros H. unfold TerminalTable.setSessionPointer, with_con. by rewrite H. Qed.

Lemma hist_len_nonneg d : 0 <= hist_len d.
Proof. unfold hist_len. lia. Qed.

(** The default directory is written at index 0 or at the last index. *)
Lemma upsert_default_ok d i :
  ok d -> i = 0 \/ (0 <= i /\ i = hist_len d - 1) -> ok (TerminalTable.upsertHistory i
    Terminal.default_dir d).
Proof.
  intros Hok Hi. apply upsert_ok; [done|]. pose proof (hist_len_nonneg d).
  destruct (decide (hist_len d = 0)); [right|left]; unfold MAX_DIR_HISTORY_SIZE; lia.
Qed.

Lemma upsert_len size i x d :
  history_ok size d -> connected d = true -> 0 <= i <= hist_len d ->
  hist_len (TerminalTable.upsertHistory i x d) = Z.max (hist_len d) (i + 1).
Proof.
  intros [H _ _] Hc Hi. unfold hist_len at 1. rewrite upsert_paths by done.
  rewrite numbered_length. pose proof (paths_length d).
  case_decide; rewrite ?length_app, ?length_insert; cbn [length]; lia.
Qed.

Lemma upsert_connected i x d : connected (TerminalTable.upsertHistory i x d) = connected d.
Proof.
  unfold TerminalTable.upsertHistory, with_con. by destruct (connected d) eqn:E.
Qed.

Lemma pointer_len tty i d :
  hist_len (TerminalTable.setSessionPointer tty i d) = hist_len d /\
  connected (TerminalTable.setSessionPointer tty i d) = connected d.
Proof.
  unfold TerminalTable.setSessionPointer, with_con. by destruct (connected d) eqn:E.
Qed.

Lemma upsert_pointer_swap i x tty j d :
  TerminalTable.upsertHistory i x (TerminalTable.setSessionPointer tty j d) =
  TerminalTable.setSessionPointer tty j (TerminalTable.upsertHistory i x d).
Proof.
  unfold TerminalTable.upsertHistory, TerminalTable.setSessionPointer, with_con.
  destruct (connected d) eqn:Hc; simpl; by rewrite Hc.
Qed.

(** Writing the default directory and pointing a session at it. *)
Lemma upsert_point_ok d tty i :
  ok d -> i = 0 \/ (0 <= i /\ i = hist_len d - 1) ->
  ok (TerminalTable.setSessionPointer tty i (TerminalTable.upsertHistory i
        Terminal.default_dir d)).
Proof.
  intros Hok Hi. pose proof (upsert_default_ok d i Hok Hi) as H1.
  destruct (connected d) eqn:Hc.
  - apply pointer_ok; [done|]. pose proof (hist_len_nonneg d).
    rewrite (upsert_len _ _ _ _ Hok Hc) by lia. lia.
  - by rewrite disconnected_pointer by (by rewrite upsert_connected).
Qed.

Section FsOk.
Context (is_directory : string -> bool).

Lemma construct_ok tty t : ok (db t) -> ok (db (Terminal.construct is_directory tty t)).
Proof.
  intros Hok. unfold Terminal.construct. cbv zeta. cbn [db].
  set (start := if Terminal.last_touched_index (db t) <? 0 then _ else _).
  assert (exists i t1, (if start <? 0
      then (0, upd_db (TerminalTable.upsertHistory 0 Terminal.default_dir)
                 (mkTS (db t) (instances t ++ [tty])))
      else (start, mkTS (db t) (instances t ++ [tty]))) = (i, t1) /\ ok (db t1))
    as (i & t1 & -> & H1).
  { destruct (start <? 0); eexists _, _; (split; [reflexivity|]); [|done].
    apply upsert_default_ok; auto. }
  pose proof (walk_back_spec is_directory (Terminal.raw_entry (db t1)) (Z.to_nat (i + 1))) as Hw.
  destruct (Terminal.walk_back _ _ _) as [j|].
  - apply pointer_ok; [done|]. destruct Hw as (_ & Hv & _).
    by eapply valid_raw_range.
  - apply upsert_point_ok; [done|]. rewrite (max_history _ _ H1).
    pose proof (hist_len_nonneg (db t1)).
    destruct (connected (db t1)); [|by left]. destruct (Z.ltb_spec (hist_len (db t1) - 1) 0); lia.
Qed.

Lemma create_ok tty t : ok (db t) -> ok (db (Terminal.create_if_absent is_directory tty t)).
Proof.
  unfold Terminal.create_if_absent. destruct (Terminal.has_instance _ _); [done|].
  apply construct_ok.
Qed.

(** A session pointer read from the table points into the history. *)
Lemma session_pointer_range size d tty i :
  history_ok size d -> TerminalTable.getSessionPointer tty d = i -> 0 <= i -> i < hist_len d.
Proof.
  intros [_ _ H] <- Hi. unfold TerminalTable.getSessionPointer, query in *.
  destruct (connected d); [|lia].
  destruct (StdMap.find tty (terminal_sessions d)) as [q|] eqn:E; simpl in *; [|lia].
  rewrite Forall_forall in H. apply StdMap.find_Some_elem in E. by apply H in E as [_ E].
Qed.

Lemma std_entry_not_empty d i : Str.empty (Terminal.std_entry d i) = false.
Proof.
  unfold Terminal.std_entry, Terminal.standardizePath.
  destruct (Str.empty (Terminal.raw_entry d i)) eqn:E; [done|].
  destruct (Str.ends_with_char _ _); [done|].
  by destruct (Terminal.raw_entry d i).
Qed.

Lemma openedTty_ok tty t :
  ok (db t) -> ok (db (Terminal._openedTty is_directory tty t).1).
Proof.
  intros Hok. unfold Terminal._openedTty.
  set (p := TerminalTable.getSessionPointer tty (db t)).
  assert (exists i t1, (if p <? 0
      then (0, upd_db (TerminalTable.upsertHistory 0 Terminal.default_dir)
                 (upd_db (TerminalTable.setSessionPointer tty 0) t))
      else (p, t)) = (i, t1) /\ ok (db t1) /\ (connected (db t1) = true -> 0 <= i < hist_len (db t1)))
    as (i & t1 & -> & H1 & Hi).
  { destruct (Z.ltb_spec p 0) as [Hp|Hp]; eexists _, _; (split; [reflexivity|]).
    - cbn [upd_db db].
      rewrite upsert_pointer_swap. split; [apply upsert_point_ok; auto|].
      destruct (pointer_len tty 0 (TerminalTable.upsertHistory 0 Terminal.default_dir (db t)))
        as [-> ->].
      rewrite upsert_connected. intros Hc. pose proof (hist_len_nonneg (db t)).
      rewrite (upsert_len _ _ _ _ Hok Hc) by lia. lia.
    - split; [done|]. intros _. split; [done|]. by eapply session_pointer_range. }
  set (dir := Terminal.std_entry (db t1) i).
  assert (forall j, ok (TerminalTable.setSessionPointer tty j (db t1)) ->
    ok (db (upd_db (TerminalTable.setSessionPointer tty j) t1))) as Hu by done.
  destruct (negb (Str.empty dir) && negb (bool_decide (dir = "/")) && negb (is_directory dir)).
  - pose proof (walk_back_spec is_directory (Terminal.std_entry (db t1)) (Z.to_nat i)) as Hw.
    destruct (Terminal.walk_back _ _ _) as [j|].
    + destruct Hw as (_ & Hv & _). pose proof (valid_std_range is_directory _ _ _ H1 Hv) as Hj.
      assert (Str.empty (Terminal.std_entry (db t1) j) ||
              bool_decide (Terminal.std_entry (db t1) j = "/") = false) as ->.
      { unfold Terminal.valid_dir in Hv. by bool_prop; apply orb_false_iff. }
      by apply pointer_ok.
    + simpl. destruct (connected (db t1)) eqn:Hc; [|by rewrite disconnected_pointer].
      apply pointer_ok; [done|]. specialize (Hi eq_refl). lia.
  - destruct (_ || _); [|done]. cbn [fst upd_db db].
    destruct (connected (db t1)) eqn:Hc; [|by rewrite disconnected_upsert].
    apply upsert_ok; [done|]. left. by apply Hi.
Qed.

Lemma cd_backward_ok tty d : ok d -> ok (Terminal.cd_backward is_directory tty d).1.
Proof.
  intros Hok. unfold Terminal.cd_backward. cbv zeta.
  pose proof (walk_back_spec is_directory (Terminal.std_entry d)
    (Z.to_nat (Terminal.getIndex tty d))) as Hw.
  destruct (Terminal.walk_back _ _ _) as [j|]; [|done]. apply pointer_ok; [done|].
  destruct Hw as (_ & Hv & _). by eapply valid_std_range.
Qed.

Lemma cd_forward_ok tty d : ok d -> ok (Terminal.cd_forward is_directory tty d).1.
Proof.
  intros Hok. unfold Terminal.cd_forward. cbv zeta.
  pose proof (walk_forward_spec is_directory (Terminal.std_entry d)
    (Terminal.getIndex tty d + 1)
    (Z.to_nat (TerminalTable.getMaxHistoryIndex d - Terminal.getIndex tty d))) as Hw.
  destruct (Terminal.walk_forward _ _ _ _) as [j|]; [|done]. apply pointer_ok; [done|].
  destruct Hw as (_ & Hv & _). by eapply valid_std_range.
Qed.
End FsOk.

Lemma standardizePath_idem p :
  Terminal.standardizePath (Terminal.standardizePath p) = Terminal.standardizePath p.
Proof.
  unfold Terminal.standardizePath at 2 3. destruct (Str.empty p) eqn:E; [done|].
  destruct (Str.ends_with_char "/" p) eqn:Es; unfold Terminal.standardizePath; [by rewrite E, Es|].
  assert (Str.empty (p +:+ "/") = false) as -> by (by destruct p).
  unfold Str.ends_with_char. by rewrite Str.back_snoc, bool_decide_true.
Qed.

(** An entry that is neither empty nor the root is in the history. *)
Lemma std_entry_range size d i pwd :
  history_ok size d -> Terminal.std_entry d i = pwd -> pwd <> "/" ->
  connected d = true /\ 0 <= i < hist_len d.
Proof.
  intros Hok <- Hne. apply (raw_entry_range size); [done|]. intros E.
  unfold Terminal.std_entry in Hne. by rewrite E in Hne.
Qed.

Lemma history_ok_weaken size size' d : size <= size' -> history_ok size d -> history_ok size' d.
Proof. intros H [H1 H2 H3]. split; [done|lia|done]. Qed.

Lemma setting_frame k v d :
  terminal_history (SettingsTable.setSetting k v d) = terminal_history d /\
  terminal_sessions (SettingsTable.setSetting k v d) = terminal_sessions d /\
  connected (SettingsTable.setSetting k v d) = connected d.
Proof. unfold SettingsTable.setSetting, with_con. by destruct (connected d) eqn:E. Qed.

(** The new entry of updateDirHistory, before pruning. *)
Definition inserted (tty : Z) (pwd : string) (d : DB) : DB :=
  let insertIndex := TerminalTable.getMaxHistoryIndex d + 1 in
  SettingsTable.setSetting INDEX_OF_LAST_TOUCHED_DIR_KEY (Num.to_string insertIndex)
    (TerminalTable.setSessionPointer tty insertIndex
       (TerminalTable.upsertHistory insertIndex pwd d)).

Lemma inserted_spec tty pwd d :
  ok d -> connected d = true ->
  let d' := inserted tty pwd d in
  history_ok (MAX_DIR_HISTORY_SIZE + 1) d' /\ connected d' = true /\
  terminal_history d' = numbered 0 (paths d ++ [pwd]) /\
  StdMap.find tty (terminal_sessions d') = Some (hist_len d).
Proof.
  intros Hok Hc d'. subst d'. unfold inserted. cbv zeta.
  rewrite (max_history _ _ Hok), Hc. replace (hist_len d - 1 + 1) with (hist_len d) by lia.
  set (d1 := TerminalTable.upsertHistory (hist_len d) pwd d).
  pose proof (hist_len_nonneg d) as Hn.
  assert (connected d1 = true) as Hc1 by (subst d1; by rewrite upsert_connected).
  assert (history_ok (MAX_DIR_HISTORY_SIZE + 1) d1) as H1.
  { apply upsert_ok; [apply (history_ok_weaken MAX_DIR_HISTORY_SIZE); [lia|done]|].
    right. split; [done|]. pose proof (ok_size _ _ Hok). lia. }
  set (d2 := TerminalTable.setSessionPointer tty (hist_len d) d1).
  destruct (setting_frame INDEX_OF_LAST_TOUCHED_DIR_KEY (Num.to_string (hist_len d)) d2)
    as (-> & -> & ->).
  split; [|split; [|split]].
  - apply setSetting_ok, pointer_ok; [done|]. subst d1.
    rewrite (upsert_len _ _ _ _ Hok Hc) by lia. lia.
  - subst d2. by destruct (pointer_len tty (hist_len d) d1) as [_ ->].
  - subst d2 d1. unfold TerminalTable.setSessionPointer, with_con. rewrite upsert_connected, Hc.
    cbn [set_sessions terminal_history].
    rewrite upsert_paths by (apply Hok || lia || done). by rewrite decide_True.
  - subst d2. unfold TerminalTable.setSessionPointer, with_con. rewrite Hc1.
    apply StdMap.find_insert.
Qed.

Lemma insert_ok tty pwd d :
  ok d -> ok (TerminalTable.pruneHistory MAX_DIR_HISTORY_SIZE (inserted tty pwd d)).
Proof.
  intros Hok. destruct (connected d) eqn:Hc.
  - destruct (inserted_spec tty pwd d Hok Hc) as (H & Hc' & _).
    destruct (prune_ok _ MAX_DIR_HISTORY_SIZE _ ltac:(done) H); [done|congruence].
  - assert (inserted tty pwd d = d) as ->.
    { unfold inserted. cbv zeta. rewrite disconnected_upsert, disconnected_pointer by done.
      unfold SettingsTable.setSetting, with_con. by rewrite Hc. }
    unfold TerminalTable.pruneHistory, with_con. by rewrite Hc.
Qed.

Lemma update_history_ok tty pwd d : ok d -> ok (Terminal.update_history tty pwd d).1.
Proof.
  intros Hok. unfold Terminal.update_history. cbv zeta.
  set (d1 := SettingsTable.setSetting _ _ d).
  assert (ok d1) as H1 by (by apply setSetting_ok).
  destruct (Str.empty pwd || bool_decide (pwd = "/")) eqn:E; [done|]. bool_prop.
  apply bool_decide_eq_false in H0.
  destruct (bool_decide (_ = pwd)); [done|].
  destruct (bool_decide (Terminal.std_entry d (Terminal.getIndex tty d + 1) = pwd)) eqn:En.
  - apply bool_decide_eq_true in En. apply pointer_ok; [done|].
    destruct (std_entry_range _ _ _ _ Hok En H0) as [Hc Hr].
    assert (hist_len d1 = hist_len d) as ->; [|done].
    subst d1. unfold SettingsTable.setSetting, with_con. by rewrite Hc.
  - cbn [fst]. by apply insert_ok.
Qed.

(** What the terminal commands do to the state; the file system may change
    between two of them. *)
Inductive term_step : TS -> TS -> Prop :=
  | step_opened fs c t : term_step t (Terminal.openedTty fs c t).1
  | step_closed c t : term_step t (Terminal.closedTty c t).1
  | step_update fs c t : term_step t (Terminal.updateDirHistory fs c t).1
  | step_forward fs c t : term_step t (Terminal.cdForward fs c t).1
  | step_backward fs c t : term_step t (Terminal.cdBackward fs c t).1
  | step_show c t : term_step t (Terminal.showTerminalInstance c t).1
  | step_show_all c t : term_step t (Terminal.showAllTerminalInstances c t).1
  | step_print c t : term_step t (handlePrintDirHistory c t).1
  | step_signal c t : term_step t (handleShellSignal c t).1.

(** A handler keeps a property of the tables when its body does. *)
Lemma with_tty_inv (P : TS -> Prop) c k t :
  P t -> (forall s tty, P (k s tty t).1) -> P (Terminal.with_tty c k t).1.
Proof.
  intros Ht Hk. unfold Terminal.with_tty. cbv zeta. destruct (Str.empty _); [done|].
  unfold bindM, M_bind, lift. destruct (Num.stoi _); [apply Hk|done].
Qed.

Lemma on_db_inv (P : DB -> Prop) f t : P (f (db t)).1 -> P (db (Terminal.on_db f t).1).
Proof. unfold Terminal.on_db. by destruct (f (db t)). Qed.

Lemma closedTty_ok c t : ok (db t) -> ok (db (Terminal.closedTty c t).1).
Proof.
  intros H. apply (with_tty_inv (fun t => ok (db t))); [done|]. intros s tty.
  destruct (Terminal.has_instance _ _); [|done]. by apply deleteSession_ok.
Qed.

Lemma openedTty_handler_ok fs c t : ok (db t) -> ok (db (Terminal.openedTty fs c t).1).
Proof.
  intros H. apply (with_tty_inv (fun t => ok (db t))); [done|]. intros s tty.
  pose proof (openedTty_ok fs tty (Terminal.create_if_absent fs tty t)) as Ho.
  destruct (Terminal._openedTty _ _ _). by apply Ho, create_ok.
Qed.

Lemma updateDirHistory_ok fs c t : ok (db t) -> ok (db (Terminal.updateDirHistory fs c t).1).
Proof.
  intros H. apply (with_tty_inv (fun t => ok (db t))); [done|]. intros s tty.
  apply (create_ok fs tty) in H. unfold bindM, M_bind, modify, lift.
  destruct (Json.string_at "pwd" c) as [pwd|]; [|done].
  pose proof (update_history_ok tty (Terminal.standardizePath pwd) _ H) as Hu.
  by destruct (Terminal.update_history _ _ _).
Qed.

Lemma cd_handler_ok fs f c t :
  (forall tty d, ok d -> ok (f tty d).1) -> ok (db t) ->
  ok (db (Terminal.with_tty c (fun _ tty =>
    let! _ := modify (Terminal.create_if_absent fs tty) in Terminal.on_db (f tty)) t).1).
Proof.
  intros Hf H. apply (with_tty_inv (fun t => ok (db t))); [done|]. intros s tty.
  unfold bindM, M_bind, modify. apply on_db_inv, Hf, create_ok, H.
Qed.

Lemma term_step_ok t t' : term_step t t' -> ok (db t) -> ok (db t').
Proof.
  intros [fs c s|c s|fs c s|fs c s|fs c s|c s|c s|c s|c s] H.
  - by apply openedTty_handler_ok.
  - by apply closedTty_ok.
  - by apply updateDirHistory_ok.
  - apply cd_handler_ok; [|done]. intros; by apply cd_forward_ok.
  - apply cd_handler_ok; [|done]. intros; by apply cd_backward_ok.
  - by apply (with_tty_inv (fun t => ok (db t))).
  - done.
  - done.
  - unfold handleShellSignal, bindM, M_bind, lift. by destruct (Json.string_at _ _).
Qed.

Definition emptyDB : DB := mkDB true [] [] ∅ ∅ ∅ [] [].

Lemma emptyDB_ok : ok emptyDB.
Proof. split; [done|done|constructor]. Qed.

(** Whatever terminal commands run, in any order, with any arguments and any
    file system, and whether or not the database answers, the directory history
    stays numbered 0, 1, 2, ... without gaps, never holds more than 500 entries,
    and every terminal session points at an existing entry. *)
Theorem history_invariant (t t' : TS) :
  history_ok MAX_DIR_HISTORY_SIZE (db t) -> rtc term_step t t' ->
  terminal_history (db t') = numbered 0 (paths (db t')) /\
  Z.of_nat (length (terminal_history (db t'))) <= 500 /\
  Forall (fun s => 0 <= s.2 < Z.of_nat (length (terminal_history (db t'))))
    (terminal_sessions (db t')).
Proof.
  intros H Hr. enough (ok (db t')) as [H1 H2 H3] by done.
  induction Hr as [|t1 t2 t3 H12 _ IH]; [done|]. by apply IH, (term_step_ok t1).
Qed.

Definition tty_command (tty : Z) (pwd : string) : json :=
  JObject [("pwd", JString pwd); ("tty", JInt tty)].

Lemma history_invariant_witness :
  let t := (Terminal.updateDirHistory (fun _ => true) (tty_command 3 "/home") (mkTS emptyDB [])).1 in
  terminal_history (db t) = numbered 0 (paths (db t)).
Proof.
  intros t. apply (history_invariant (mkTS emptyDB []) t); [|apply rtc_once; constructor].
  split; [reflexivity|vm_compute; discriminate|constructor].
Defined.

(** ** updateDirHistory *)

Lemma getIndex_find tty d p :
  connected d = true -> StdMap.find tty (terminal_sessions d) = Some p -> 0 <= p ->
  Terminal.getIndex tty d = p.
Proof.
  intros Hc Hf Hp. unfold Terminal.getIndex, TerminalTable.getSessionPointer, query.
  rewrite Hc, Hf. cbn [from_option id]. by rewrite (proj2 (Z.leb_le 0 p)).
Qed.

Lemma std_entry_same d d' i :
  terminal_history d' = terminal_history d -> connected d' = connected d ->
  Terminal.std_entry d' i = Terminal.std_entry d i.
Proof.
  intros H1 H2. unfold Terminal.std_entry, Terminal.raw_entry, TerminalTable.getHistory, query.
  by rewrite H1, H2.
Qed.

Lemma std_entry_numbered d l i :
  connected d = true -> terminal_history d = numbered 0 l -> 0 <= i ->
  Terminal.std_entry d i = Terminal.standardizePath (default "" (l !! Z.to_nat i)).
Proof.
  intros Hc H Hi. unfold Terminal.std_entry, Terminal.raw_entry, TerminalTable.getHistory, query.
  by rewrite Hc, H, numbered_find, Z.sub_0_r, (proj2 (Z.leb_le 0 i)).
Qed.

Lemma update_history_here tty pwd d :
  ok d -> connected d = true -> pwd <> "/" -> Terminal.standardizePath pwd = pwd ->
  Str.empty pwd = false ->
  let '(d', r) := Terminal.update_history tty pwd d in
  status r = 0 /\ Terminal.std_entry d' (Terminal.getIndex tty d') = pwd.
Proof.
  intros Hok Hc Hne Hstd Hemp. unfold Terminal.update_history. cbv zeta.
  rewrite Hemp, (bool_decide_eq_false_2 (pwd = "/")) by done. simpl.
  set (i := Terminal.getIndex tty d).
  set (d1 := SettingsTable.setSetting _ _ d).
  destruct (setting_frame INDEX_OF_LAST_TOUCHED_DIR_KEY (Num.to_string i) d) as (Eh & Es & Ec).
  fold d1 in Eh, Es, Ec.
  assert (Terminal.getIndex tty d1 = i) as Hi1.
  { subst i. unfold Terminal.getIndex, TerminalTable.getSessionPointer, query. by rewrite Ec, Es. }
  destruct (bool_decide (Terminal.std_entry d i = pwd)) eqn:E1.
  { apply bool_decide_eq_true in E1. split; [done|]. rewrite Hi1.
    by rewrite (std_entry_same d d1). }
  destruct (bool_decide (Terminal.std_entry d (i + 1) = pwd)) eqn:E2.
  { apply bool_decide_eq_true in E2. split; [done|].
    destruct (std_entry_range _ _ _ _ Hok E2 Hne) as [_ Hr].
    unfold TerminalTable.setSessionPointer, with_con. rewrite Ec, Hc.
    rewrite (getIndex_find _ _ (i + 1)); [|by rewrite <- Hc, <- Ec|apply StdMap.find_insert|lia].
    by rewrite (std_entry_same d). }
  split; [done|]. fold (inserted tty pwd d1).
  assert (ok d1) as Hok1 by (by apply setSetting_ok).
  assert (hist_len d1 = hist_len d) as El by (unfold hist_len; by rewrite Eh).
  destruct (inserted_spec tty pwd d1 Hok1 ltac:(congruence)) as (H & Hc2 & Hh & Hp).
  set (d2 := inserted tty pwd d1) in *. rewrite El in Hp.
  pose proof (hist_len_nonneg d) as Hn. pose proof (paths_length d1) as Hl. rewrite El in Hl.
  assert (paths d2 = paths d1 ++ [pwd]) as Hp2 by (unfold paths at 1; by rewrite Hh, numbered_paths).
  assert (hist_len d2 = hist_len d + 1) as El2.
  { rewrite <- paths_length, Hp2, length_app. simpl. lia. }
  destruct (decide (hist_len d2 <= MAX_DIR_HISTORY_SIZE)) as [Hle|Hgt].
  - rewrite prune_small by done. rewrite (getIndex_find _ _ _ Hc2 Hp Hn).
    rewrite (std_entry_numbered _ _ _ Hc2 Hh Hn).
    rewrite lookup_app_r by lia. replace (Z.to_nat (hist_len d) - length (paths d1))%nat with O by lia.
    done.
  - destruct (prune_cut MAX_DIR_HISTORY_SIZE d2 Hc2 ltac:(done) (ok_numbered _ _ H) ltac:(lia))
      as (P1 & P2 & P3). set (d3 := TerminalTable.pruneHistory _ d2) in *.
    rewrite (getIndex_find tty d3 (Z.max 0 (hist_len d - (hist_len d2 - MAX_DIR_HISTORY_SIZE))));
      [|done|rewrite P2, (find_fmap_snd
         (fun q => Z.max 0 (q - (hist_len d2 - MAX_DIR_HISTORY_SIZE)))), Hp; done|lia].
    rewrite (std_entry_numbered _ _ _ P3 P1) by lia. rewrite lookup_drop, Hp2.
    unfold MAX_DIR_HISTORY_SIZE in *.
    rewrite lookup_app_r by lia.
    match goal with |- context [[pwd] !! ?n] => replace n with O by lia end. done.
Qed.

#[local] Arguments Terminal.walk_back : simpl never.

Lemma construct_connected fs tty t :
  connected (db (Terminal.create_if_absent fs tty t)) = connected (db t).
Proof.
  unfold Terminal.create_if_absent, Terminal.construct. destruct (Terminal.has_instance _ _); [done|].
  cbv zeta. destruct (_ <? 0); simpl;
    match goal with |- context [Terminal.walk_back ?f ?e ?n] =>
      destruct (Terminal.walk_back f e n) end; simpl;
    rewrite ?(proj2 (pointer_len _ _ _)), ?upsert_connected; done.
Qed.

Lemma standardize_nonempty dir : Str.empty (Terminal.standardizePath dir) = false.
Proof.
  unfold Terminal.standardizePath. destruct (Str.empty dir) eqn:E; [done|].
  destruct (Str.ends_with_char _ _); [done|]. by destruct dir.
Qed.

Lemma getIndex_setting tty k v d :
  Terminal.getIndex tty (SettingsTable.setSetting k v d) = Terminal.getIndex tty d.
Proof.
  destruct (setting_frame k v d) as (_ & Es & Ec).
  unfold Terminal.getIndex, TerminalTable.getSessionPointer, query. by rewrite Ec, Es.
Qed.

(** The root, and an empty directory, are refused; only the last touched entry is noted. *)
Lemma update_history_root tty d :
  let '(d', r) := Terminal.update_history tty "/" d in
  status r = 1 /\ terminal_history d' = terminal_history d /\
  Terminal.getIndex tty d' = Terminal.getIndex tty d.
Proof.
  unfold Terminal.update_history. cbv zeta. cbn [orb]. rewrite bool_decide_eq_true_2 by done. cbn.
  split; [done|]. split; [apply setting_frame|apply getIndex_setting].
Qed.



(** ** cd forward and backward *)

Section CdFacts.
Context (fs : string -> bool).
Abbreviation valid d i := (Terminal.valid_dir fs (Terminal.std_entry d i)).

Lemma getIndex_nonneg tty d : 0 <= Terminal.getIndex tty d.
Proof. unfold Terminal.getIndex. cbv zeta. destruct (Z.leb_spec 0 (TerminalTable.getSessionPointer tty d)); lia. Qed.

Lemma getIndex_pointer tty i d :
  connected d = true -> 0 <= i ->
  Terminal.getIndex tty (TerminalTable.setSessionPointer tty i d) = i.
Proof.
  intros Hc Hi. apply getIndex_find; [|unfold TerminalTable.setSessionPointer, with_con|done].
  - by rewrite (proj2 (pointer_len _ _ _)).
  - rewrite Hc. apply StdMap.find_insert.
Qed.

(** Cd backward moves the session to the nearest earlier entry that is an
    existing directory other than the root and answers with the command to go
    there; when there is none it changes nothing. *)
Theorem cd_backward_nearest (tty : Z) (d : DB) :
  connected d = true ->
  let k := Terminal.getIndex tty d in
  let '(d', r) := Terminal.cd_backward fs tty d in
  (exists i, 0 <= i < k /\ valid d i = true /\ (forall j, i < j < k -> valid d j = false) /\
     d' = TerminalTable.setSessionPointer tty i d /\ Terminal.getIndex tty d' = i /\
     r = mkCmdResult 0 ("cd " +:+ Terminal.std_entry d i +:+ newline)) \/
  ((forall j, 0 <= j < k -> valid d j = false) /\ d' = d).
Proof.
  intros Hc k. unfold Terminal.cd_backward. cbv zeta. fold k.
  pose proof (getIndex_nonneg tty d) as Hk. fold k in Hk.
  pose proof (walk_back_spec fs (Terminal.std_entry d) (Z.to_nat k)) as Hw.
  destruct (Terminal.walk_back fs (Terminal.std_entry d) (Z.to_nat k)) as [i|].
  - destruct Hw as (Hi & Hv & Hj). left. exists i. rewrite Z2Nat.id in * by lia.
    repeat split; try done; try lia. apply getIndex_pointer; [done|lia].
  - right. rewrite Z2Nat.id in Hw by lia. done.
Qed.

(** Cd forward likewise moves to the nearest later one. *)
Lemma cd_forward_nearest (tty : Z) (d : DB) :
  history_ok MAX_DIR_HISTORY_SIZE d -> connected d = true ->
  let k := Terminal.getIndex tty d in
  let d' := (Terminal.cd_forward fs tty d).1 in
  (exists i, k < i < hist_len d /\ valid d i = true /\ (forall j, k < j < i -> valid d j = false) /\
     d' = TerminalTable.setSessionPointer tty i d /\ Terminal.getIndex tty d' = i) \/
  ((forall j, k < j < hist_len d -> valid d j = false) /\ d' = d).
Proof.
  intros Hok Hc k d'. subst d'. unfold Terminal.cd_forward. cbv zeta. fold k.
  rewrite (max_history MAX_DIR_HISTORY_SIZE) by done. rewrite Hc.
  pose proof (getIndex_nonneg tty d) as Hk. fold k in Hk.
  pose proof (walk_forward_spec fs (Terminal.std_entry d) (k + 1) (Z.to_nat (hist_len d - 1 - k))) as Hf.
  destruct (Terminal.walk_forward _ _ _ _) as [j|]; cbn [fst].
  - destruct Hf as (Hj & Hv & Hlow). left. exists j. split; [lia|]. split; [done|].
    split; [intros; apply Hlow; lia|]. split; [done|]. apply getIndex_pointer; [done|lia].
  - right. split; [|done]. intros j Hj. apply Hf. lia.
Qed.

Lemma pointer_valid tty i d j : valid (TerminalTable.setSessionPointer tty i d) j = valid d j.
Proof.
  f_equal. apply std_entry_same; [|apply pointer_len].
  unfold TerminalTable.setSessionPointer, with_con. by destruct (connected d).
Qed.

(** C34: going backward and then forward.  When cd backward moved a session whose own
    directory still exists, cd forward returns it to the entry it came from.  When there
    was no earlier directory to go to, cd backward changed nothing, and cd forward moves on
    to the nearest later one, or nowhere if there is none. *)
Theorem cd_back_and_forth (tty : Z) (d : DB) :
  history_ok MAX_DIR_HISTORY_SIZE d -> connected d = true ->
  valid d (Terminal.getIndex tty d) = true ->
  let k := Terminal.getIndex tty d in
  let d1 := (Terminal.cd_backward fs tty d).1 in
  let k2 := Terminal.getIndex tty (Terminal.cd_forward fs tty d1).1 in
  (Terminal.getIndex tty d1 <> k -> k2 = k) /\
  (Terminal.getIndex tty d1 = k ->
     d1 = d /\ (forall j, 0 <= j < k -> valid d j = false) /\
     ((k < k2 < hist_len d /\ valid d k2 = true /\ (forall j, k < j < k2 -> valid d j = false)) \/
      (k2 = k /\ forall j, k < j < hist_len d -> valid d j = false))).
Proof.
  intros Hok Hc Hv k d1 k2. subst k2.
  pose proof (valid_std_range fs _ _ _ Hok Hv) as Hk. fold k in Hk, Hv.
  pose proof (cd_backward_nearest tty d Hc) as Hb. cbv zeta in Hb. fold k in Hb. fold d1 in Hb.
  subst d1. destruct (Terminal.cd_backward fs tty d) as [d1 r]. cbn [fst].
  destruct Hb as [(i & Hi & Hvi & Hbetween & E & Ei & _)|[Hnone ->]].
  - split; [|lia]. intros _. pose proof (pointer_len tty i d) as [El Ec]. rewrite <- E in El, Ec.
    assert (forall j, valid d1 j = valid d j) as He by (intros j; by rewrite E, pointer_valid).
    assert (history_ok MAX_DIR_HISTORY_SIZE d1) as Hok1 by (rewrite E; apply pointer_ok; [done|lia]).
    destruct (cd_forward_nearest tty d1 Hok1 ltac:(congruence)) as [(j & Hj & Hvj & Hlow & _ & ->)|[Hlow _]].
    + rewrite Ei in *. rewrite He in Hvj. destruct (Z.lt_trichotomy j k) as [Hlt|[->|Hgt]]; [|done|].
      * by rewrite (Hbetween j) in Hvj by lia.
      * specialize (Hlow k ltac:(lia)). rewrite He in Hlow. congruence.
    + specialize (Hlow k ltac:(lia)). rewrite He in Hlow. congruence.
  - split; [done|]. intros _. split; [done|]. split; [done|].
    destruct (cd_forward_nearest tty d Hok Hc) as [(j & Hj & Hvj & Hlow & _ & ->)|[Hlow ->]];
      [by left|by right].
Qed.
End CdFacts.

Definition two_dirs (p : Z) : DB :=
  set_sessions [(1, p)] (set_history (numbered 0 ["/a/"; "/b/"]) emptyDB).

Lemma two_dirs_ok p : 0 <= p < 2 -> history_ok MAX_DIR_HISTORY_SIZE (two_dirs p).
Proof.
  intros Hp. split; [done|done|]. constructor; [exact Hp|constructor].
Qed.

Lemma cd_backward_nearest_witness :
  let '(d', _) := Terminal.cd_backward (fun _ => true) 1 (two_dirs 1) in
  Terminal.getIndex 1 d' = 0.
Proof.
  pose proof (cd_backward_nearest (fun _ => true) 1 (two_dirs 1) eq_refl) as H.
  destruct H as [(i & Hi & _ & _ & _ & Hg & _)|[Hno _]].
  - reflexivity.
  - exfalso. specialize (Hno 0 ltac:(vm_compute; split; [discriminate|reflexivity])).
    discriminate.
Defined.

Lemma cd_back_and_forth_witness :
  let round p := Terminal.getIndex 1 (Terminal.cd_forward (fun _ => true) 1
    (Terminal.cd_backward (fun _ => true) 1 (two_dirs p)).1).1 in
  round 1 = 1 /\ round 0 = 1.
Proof.
  split.
  - apply (proj1 (cd_back_and_forth (fun _ => true) 1 (two_dirs 1) (two_dirs_ok 1 ltac:(lia)) eq_refl eq_refl)).
    vm_compute. discriminate.
  - destruct (cd_back_and_forth (fun _ => true) 1 (two_dirs 0) (two_dirs_ok 0 ltac:(lia)) eq_refl eq_refl)
      as [_ H].
    destruct (H eq_refl) as (_ & _ & [(Hr & _)|[_ Hn]]); cbv zeta.
    + change (hist_len (two_dirs 0)) with 2 in Hr. change (Terminal.getIndex 1 (two_dirs 0)) with 0 in Hr. lia.
    + discriminate (Hn 1 ltac:(vm_compute; split; reflexivity)).
Defined.

(** ** Where the invariant and the comments do not hold *)

(** Emptying the history table leaves the session pointers: the next
    openedTty writes its default entry at the old index, so the history then
    starts with a gap. *)
Theorem emptying_leaves_gap :
  let t := (handleEmptyDirHistoryTable JNull (mkTS (two_dirs 1) [1])).1 in
  let t' := (Terminal.openedTty (fun _ => true) (tty_command 1 "") t).1 in
  terminal_history (db t') = [(1, "/opt/automateLinux/")] /\
  terminal_history (db t') <> numbered 0 (paths (db t')).
Proof. split; [vm_compute; reflexivity|vm_compute; discriminate]. Qed.

(** Moving to the next entry of the history records the entry left, not the
    one reached, as the last touched directory: a new terminal opens at the
    former. *)
Theorem forward_move_touches_old :
  let t := (Terminal.updateDirHistory (fun _ => true) (tty_command 1 "/b")
              (mkTS (two_dirs 0) [1])).1 in
  Terminal.getIndex 1 (db t) = 1 /\
  SettingsTable.getSetting INDEX_OF_LAST_TOUCHED_DIR_KEY (db t) = "0" /\
  (Terminal.openedTty (fun _ => true) (tty_command 2 "") t).2 =
    Ok (mkCmdResult 0 ("/a/" +:+ newline)).
Proof. repeat split; vm_compute; reflexivity. Qed.
