(* ===== verification/MacroJson.v ===== *)
(** Macros and event filters as JSON (src/InputMapper.cpp): exporting and
    loading the macros, the event filters, the active context, and their
    persistence in the table automation_configs. *)

From S2P Require Import Prelude Types Json Keys Database InputMapper ComboFacts ComboRuns.

(** ** Building JSON values as the code does *)

(** [j[k] = v] on an object; the members stay in ascending key order, which is
    the order in which nlohmann::json iterates over them. *)
Definition set_member (k : string) (v : json) (j : json) : json :=
  match j with
  | JObject l => JObject (StdMap.insert k v l)
  | JNull => JObject [(k, v)]
  | _ => j
  end.

Definition step_json (e : TriggerStep) : json :=
  set_member "ignoreRepeat" (JBool (ts_ignoreRepeat e))
    (set_member "suppress" (JBool (ts_suppress e))
      (set_member "state" (JInt (ts_value e))
        (set_member "code" (JInt (ts_code e))
          (set_member "type" (JInt (ts_type e)) JNull)))).

Definition action_json (action : KeyAction) : json :=
  let trigger_j := set_member "keys" (JArray (step_json <$> events (trigger action))) JNull in
  set_member "hasHandler" (JBool (match customHandler action with Some _ => true | None => false end))
    (set_member "sequence" (JArray ((fun sk => JArray [JInt sk.1; JInt sk.2]) <$> keySequence action))
      (set_member "trigger" trigger_j
        (set_member "logMessage" (JString (logMessage action)) JNull))).

(** InputMapper::getMacrosJson *)
Definition getMacrosJson (s : IM) : json :=
  foldl (fun j p => set_member (appTypeToString p.1) (JArray (action_json <$> p.2)) j)
    (JObject []) (appMacros s).

(** InputMapper::getActiveContextJson *)
Definition getActiveContextJson (s : IM) : json :=
  set_member "numLockActive" (JBool (numLockActive (trk s)))
    (set_member "activeTitle" (JString (activeTitle (ctx s)))
      (set_member "activeUrl" (JString (activeUrl (ctx s)))
        (set_member "activeApp" (JString (appTypeToString (activeApp (ctx s)))) JNull))).

(** InputMapper::getEventFiltersJson *)
Definition getEventFiltersJson (s : IM) : json := JArray (JString <$> logFilterPatterns s).

(** ** Reading JSON *)

(** The values a range-based for visits. *)
Definition elements (j : json) : list json :=
  match j with
  | JArray l => l
  | JObject l => l.*2
  | JNull => []
  | _ => [j]
  end.

(** One key of a trigger: [None] when it has neither form and is skipped. *)
Definition parse_key (tk : json) : outcome (option TriggerStep) :=
  match tk with
  | JObject _ =>
      type ← Json.value Json.get_uint16 "type" EV_KEY tk;
      code ← Json.value Json.get_uint16 "code" 0 tk;
      value ← Json.value Json.get_int32 "state" 0 tk;
      suppress ← Json.value Json.get_bool "suppress" false tk;
      ignoreRepeat ← Json.value Json.get_bool "ignoreRepeat" false tk;
      Ok (Some (mkStep type code value suppress ignoreRepeat))
  | JArray (j0 :: j1 :: rest) =>
      code ← Json.get_uint16 j0;
      value ← Json.get_int32 j1;
      suppress ← match rest with j2 :: _ => Json.get_bool j2 | [] => Ok false end;
      ignoreRepeat ← match rest with _ :: j3 :: _ => Json.get_bool j3 | _ => Ok false end;
      Ok (Some (mkStep EV_KEY code value suppress ignoreRepeat))
  | _ => Ok None
  end.

(** One pair of a sequence. *)
Definition parse_pair (seq : json) : outcome (option (Z * Z)) :=
  match seq with
  | JArray (j0 :: j1 :: _) =>
      code ← Json.get_uint16 j0; value ← Json.get_int32 j1; Ok (Some (code, value))
  | _ => Ok None
  end.

(** A loop whose body may throw and pushes what it finds. *)
Fixpoint collect {A} (f : json -> outcome (option A)) (l : list json) : outcome (list A) :=
  match l with
  | [] => Ok []
  | j :: l' => o ← f j; r ← collect f l'; Ok (match o with Some a => a :: r | None => r end)
  end.

Definition parse_trigger (tr : json) : outcome KeyTrigger :=
  noise ← Json.value Json.get_bool "noiseBreaks" true tr;
  steps ← match Json.member "keys" tr with
          | Some keys => collect parse_key (elements keys)
          | None => Ok []
          end;
  Ok (mkTrigger steps (existsb ts_suppress steps) noise).

(** One macro: [None] when it has no trigger. *)
Definition parse_macro (ma : json) : outcome (option KeyAction) :=
  message ← Json.value Json.get_string "message" "" ma;
  match Json.member "trigger" ma with
  | None => Ok None
  | Some tr =>
      trigger ← parse_trigger tr;
      sequence ← match Json.member "sequence" ma with
                 | Some seq => collect parse_pair (elements seq)
                 | None => Ok []
                 end;
      hasHandler ← Json.value Json.get_bool "hasHandler" false ma;
      Ok (Some (mkAction trigger sequence message
        (if hasHandler && Str.contains "ChatGPT" message then Some TriggerChromeChatGPT
         else None)))
  end.

(** appMacros_[app] = macros *)
Definition assign_macros (app : AppType) (macros : list KeyAction) (s : IM) : IM :=
  set_macros (StdMap.insert app macros (appMacros s)) s.

(** The loop over the macros of one application: the assignment is inside it. *)
Fixpoint load_macros (app : AppType) (macros : list KeyAction) (l : list json) : M IM unit :=
  match l with
  | [] => mret tt
  | ma :: l' =>
      let! o := lift (parse_macro ma) in
      let macros := match o with Some a => macros ++ [a] | None => macros end in
      let! _ := modify (assign_macros app macros) in
      load_macros app macros l'
  end.

Fixpoint load_apps (members : list (string * json)) : M IM unit :=
  match members with
  | [] => mret tt
  | (name, v) :: rest =>
      let! _ := load_macros (stringToAppType name) [] (elements v) in
      load_apps rest
  end.

(** InputMapper::setMacrosFromJsonInternal; it.key() throws unless [j] is an
    object, and an empty array or null has no iteration. *)
Definition setMacrosFromJsonInternal (j : json) : M IM unit :=
  let! _ := modify (fun s =>
    match appMacros s with
    | [] => set_macros (MacroConfig.initializeAppMacros []) s
    | _ => s
    end) in
  let! _ := modify (upd_combos (set_progress [])) in
  match j with
  | JObject members => load_apps members
  | JNull | JArray [] => mret tt
  | _ => lift (Throw JsonInvalidIterator)
  end.

(** InputMapper::setEventFiltersInternal *)
Definition filter_strings (j : json) : list string :=
  match j with
  | JArray l => omap (fun item => match item with JString x => Some x | _ => None end) l
  | _ => []
  end.
Definition setEventFiltersInternal (j : json) (s : IM) : IM := set_filters (filter_strings j) s.

Section Persistence.
(** nlohmann's dump and parse *)
Context (dump : json -> string) (parse : string -> outcome json).

(** InputMapper::setMacrosFromJson *)
Definition setMacrosFromJson (j : json) : M (IM * DB) unit := fun w =>
  match setMacrosFromJsonInternal j w.1 with
  | (s, Ok _) => ((s, ConfigTable.setConfig "custom_macros" (dump j) w.2), Ok tt)
  | (s, Throw e) => ((s, w.2), Throw e)
  end.

(** InputMapper::setEventFilters *)
Definition setEventFilters (j : json) (w : IM * DB) : IM * DB :=
  (setEventFiltersInternal j w.1, ConfigTable.setConfig "custom_event_filters" (dump j) w.2).

(** InputMapper::loadPersistence: each part in its own try block *)
Definition loadPersistence (w : IM * DB) : IM * DB :=
  let savedMacros := ConfigTable.getConfig "custom_macros" w.2 in
  let s :=
    if Str.empty savedMacros then w.1
    else match parse savedMacros with
         | Ok j => (setMacrosFromJsonInternal j w.1).1
         | Throw _ => w.1
         end in
  let savedFilters := ConfigTable.getConfig "custom_event_filters" w.2 in
  let s :=
    if Str.empty savedFilters then s
    else match parse savedFilters with
         | Ok j => setEventFiltersInternal j s
         | Throw _ => s
         end in
  (s, w.2).
End Persistence.

(** ** Loading *)

Lemma bind_ok {A B} (o : outcome A) (f : A -> outcome B) b :
  (a ← o; f a) = Ok b -> exists a, o = Ok a /\ f a = Ok b.
Proof. destruct o; simpl; [eauto|discriminate]. Qed.

Lemma load_macros_acc app l acc s ms :
  collect parse_macro l = Ok ms ->
  load_macros app acc l s =
    (match l with [] => s | _ => assign_macros app (acc ++ ms) s end, Ok tt).
Proof.
  revert acc s ms. induction l as [|ma l IH]; intros acc s ms H; [done|].
  simpl in H. apply bind_ok in H as (o & Ho & H). apply bind_ok in H as (r & Hr & H).
  injection H as <-. cbn [load_macros]. unfold bindM at 1, M_bind, lift. rewrite Ho.
  unfold bindM, M_bind, modify. rewrite (IH _ _ _ Hr).
  assert (forall x y, assign_macros app x (assign_macros app y s) = assign_macros app x s) as Ha.
  { intros x y. unfold assign_macros, set_macros. simpl. f_equal.
    apply insert_insert_same. }
  destruct l as [|ma2 l2].
  - simpl in Hr. injection Hr as <-. destruct o; by rewrite ?app_nil_r.
  - rewrite Ha. destruct o; [|done]. by rewrite <- app_assoc.
Qed.

(** When every macro listed for an application is well formed, loading them
    replaces the application's macros by those that have a trigger, in order; an
    empty list leaves the application as it was.  When one is malformed the
    exception passes on after the macros before it have been assigned. *)
Theorem load_macros_spec (app : AppType) (good : list json) (bad : option (json * exn))
    (rest : list json) (s : IM) (ms : list KeyAction) :
  collect parse_macro good = Ok ms ->
  match bad with
  | None => rest = []
  | Some (b, e) => parse_macro b = Throw e
  end ->
  let l := good ++ match bad with None => [] | Some (b, _) => b :: rest end in
  load_macros app [] l s =
    (match good with [] => s | _ => assign_macros app ms s end,
     match bad with None => Ok tt | Some (_, e) => Throw e end).
Proof.
  intros Hg Hb l. subst l. destruct bad as [[b e]|].
  2: { rewrite app_nil_r. exact (load_macros_acc app good [] s ms Hg). }
  rename Hb into He.
  enough (forall acc, load_macros app acc (good ++ b :: rest) s =
    (match good with [] => s | _ => assign_macros app (acc ++ ms) s end, Throw e)) as H
    by apply (H []).
  revert s ms Hg. induction good as [|ma l IH]; intros s ms H acc.
  - change ([] ++ b :: rest) with (b :: rest). cbn [load_macros]. unfold bindM, M_bind, lift. by rewrite He.
  - simpl in H. apply bind_ok in H as (o & Ho & H). apply bind_ok in H as (r & Hr & H).
    injection H as <-. change ((ma :: l) ++ b :: rest) with (ma :: (l ++ b :: rest)).
    cbn [load_macros]. unfold bindM at 1, M_bind, lift. rewrite Ho.
    unfold bindM, M_bind, modify. rewrite (IH _ _ Hr).
    destruct l as [|ma2 l2].
    + simpl in Hr. injection Hr as <-. destruct o; by rewrite ?app_nil_r.
    + unfold assign_macros, set_macros. simpl. rewrite insert_insert_same.
      destruct o; [|done]. by rewrite <- app_assoc.
Qed.

(** Loading macros, whether or not it throws, leaves every combo waiting for
    its first step, and changes nothing of the mapper but the macros and the
    combo progress: in particular what is withheld stays withheld. *)
Theorem load_resets_progress (j : json) (s : IM) :
  let s' := (setMacrosFromJsonInternal j s).1 in
  (forall a i, nextKeyIndex (combo_state a i s') = O) /\
  suppressionRegistry (combos s') = suppressionRegistry (combos s) /\
  dev s' = dev s /\ trk s' = trk s /\ ctx s' = ctx s /\ fx s' = fx s.
Proof.
  set (kept (t : IM) := comboProgress (combos t) = [] /\
    suppressionRegistry (combos t) = suppressionRegistry (combos s) /\
    dev t = dev s /\ trk t = trk s /\ ctx t = ctx s /\ fx t = fx s).
  assert (forall app l acc t, kept t -> kept (load_macros app acc l t).1) as H1.
  { intros app l. induction l as [|ma l IH]; intros acc t Ht; [done|].
    cbn [load_macros]. unfold bindM at 1, M_bind, lift. destruct (parse_macro ma); [|done].
    unfold bindM, M_bind, modify. by apply IH. }
  assert (forall l t, kept t -> kept (load_apps l t).1) as H2.
  { intros l. induction l as [|[name v] l IH]; intros t Ht; [done|].
    cbn [load_apps]. unfold bindM at 1, M_bind.
    specialize (H1 (stringToAppType name) (elements v) [] t Ht).
    destruct (load_macros _ _ _ _) as [t' []]; [by apply IH|done]. }
  enough (kept (setMacrosFromJsonInternal j s).1) as (Hp & ? & ? & ? & ? & ?).
  { repeat split; try done. intros a i. unfold combo_state. by rewrite Hp. }
  unfold setMacrosFromJsonInternal, bindM, M_bind, modify.
  set (t0 := upd_combos _ _).
  assert (kept t0) as Ht0 by (subst t0; unfold kept; by destruct (appMacros s)).
  clearbody t0. destruct j as [| | | | |[]|]; try done. by apply H2.
Qed.

(** ** Exporting and importing *)

(** The integers an exported macro holds fit the types they are read as. *)
Definition macro_in_range (a : KeyAction) : Prop :=
  Forall (fun e => 0 <= ts_type e < 65536 /\ 0 <= ts_code e < 65536 /\
                   INT_MIN <= ts_value e <= INT_MAX) (events (trigger a)) /\
  Forall (fun p => 0 <= p.1 < 65536 /\ INT_MIN <= p.2 <= INT_MAX) (keySequence a).

(** What is left of a macro after exporting and loading it. *)
Definition reloaded (a : KeyAction) : KeyAction :=
  mkAction (mkTrigger (events (trigger a)) (existsb ts_suppress (events (trigger a))) true)
    (keySequence a) "" None.

Lemma to_int32_id z : INT_MIN <= z <= INT_MAX -> to_int32 z = z.
Proof. unfold to_int32, INT_MIN, INT_MAX. intros H. rewrite Z.mod_small; lia. Qed.

Lemma to_uint16_id z : 0 <= z < 65536 -> to_uint16 z = z.
Proof. intros H. by apply Z.mod_small. Qed.

Lemma collect_fmap {A B} (f : json -> outcome (option A)) (g : B -> json) (h : B -> A) l :
  (forall b, b ∈ l -> f (g b) = Ok (Some (h b))) -> collect f (g <$> l) = Ok (h <$> l).
Proof.
  induction l as [|b l IH]; intros H; [done|]. cbn [fmap list_fmap collect].
  rewrite H by constructor. simpl. rewrite IH; [done|].
  intros b' Hb'. apply H. by constructor.
Qed.

Lemma parse_step_json e :
  0 <= ts_type e < 65536 /\ 0 <= ts_code e < 65536 /\ INT_MIN <= ts_value e <= INT_MAX ->
  parse_key (step_json e) = Ok (Some e).
Proof.
  intros (H1 & H2 & H3). destruct e as [t c v su ig]. simpl in *.
  change (parse_key _) with (Ok (Some (mkStep (to_uint16 t) (to_uint16 c) (to_int32 v) su ig))).
  by rewrite !to_uint16_id, to_int32_id.
Qed.

(** Exporting a macro and loading it again keeps its steps and its key
    sequence, and loses the rest: the message (written as logMessage, read as
    message), the handler, and noiseBreaks, which is not written. *)
Theorem macro_export_import (a : KeyAction) :
  macro_in_range a -> parse_macro (action_json a) = Ok (Some (reloaded a)).
Proof.
  intros [Hs Hq]. rewrite Forall_forall in Hs; rewrite Forall_forall in Hq.
  assert (collect parse_key (step_json <$> events (trigger a)) = Ok (events (trigger a))) as E1.
  { rewrite (collect_fmap _ _ id), list_fmap_id; [done|].
    intros e He. by apply parse_step_json, Hs. }
  assert (collect parse_pair ((fun sk => JArray [JInt sk.1; JInt sk.2]) <$> keySequence a) =
    Ok (keySequence a)) as E2.
  { rewrite (collect_fmap _ _ id), list_fmap_id; [done|].
    intros [c v] Hp. destruct (Hq _ Hp) as [H1 H2]. simpl in *.
    by rewrite to_uint16_id, to_int32_id. }
  unfold parse_macro, action_json.
  change (Json.value Json.get_string "message" "" _) with (@Ok string "").
  cbn [outcome_bind mbind].
  set (keys := JArray (step_json <$> events (trigger a))) in *.
  set (seq := JArray ((fun sk => JArray [JInt sk.1; JInt sk.2]) <$> keySequence a)) in *.
  change (Json.member "trigger" _) with (Some (JObject [("keys", keys)])).
  change (Json.member "sequence" _) with (Some seq).
  cbv iota beta.
  assert (parse_trigger (JObject [("keys", keys)]) = Ok (trigger (reloaded a))) as ->.
  { unfold parse_trigger. subst keys. simpl. by rewrite E1. }
  unfold mbind. cbn [outcome_bind elements seq]. rewrite E2.
  by destruct (customHandler a).
Qed.

Lemma macro_export_import_witness :
  parse_macro (action_json (two_keys KEY_A KEY_B)) = Ok (Some (reloaded (two_keys KEY_A KEY_B))).
Proof.
  apply (macro_export_import (two_keys KEY_A KEY_B)).
  split; repeat constructor; vm_compute; congruence.
Defined.

(** Loading back what getMacrosJson exported of the initial macros does not
    restore them: the exported names are not window classes, so every list goes
    to the application OTHER, the last one, TERMINAL's, winning; the macros of
    the other applications stay as they were. *)
Theorem export_import_goes_to_other :
  let s := (setMacrosFromJsonInternal (getMacrosJson initialIM) initialIM).1 in
  StdMap.find OTHER (appMacros s) =
    option_map (List.map reloaded) (StdMap.find TERMINAL (appMacros initialIM)) /\
  (forall app, app <> OTHER ->
     StdMap.find app (appMacros s) = StdMap.find app (appMacros initialIM)).
Proof.
  split; [vm_compute; reflexivity|].
  intros [] H; [done|vm_compute; reflexivity..].
Qed.

(** Replacing the macros while a key is withheld leaves the key blocked: the
    new macros do not mention it, no combo is in progress, and yet neither its
    presses nor its releases reach the virtual device any more. *)
Theorem update_keeps_key_blocked :
  let j := JObject [("nothing", JArray [action_json (two_keys KEY_B KEY_C)])] in
  let s := (setMacrosFromJsonInternal j one_held).1 in
  StdMap.find OTHER (appMacros s) = Some [reloaded (two_keys KEY_B KEY_C)] /\
  (forall a i, nextKeyIndex (combo_state a i s) = O) /\
  fx (process quiet_env (mkEv EV_KEY KEY_A 0) false s) = fx s /\
  fx (process quiet_env (mkEv EV_KEY KEY_A 1) false
        (process quiet_env (mkEv EV_KEY KEY_A 0) false s)) = fx s.
Proof.
  split; [vm_compute; reflexivity|]. split; [|split; vm_compute; reflexivity].
  intros a i. unfold combo_state.
  match goal with |- context [StdMap.find a ?m] =>
    let v := eval vm_compute in m in replace m with v by (vm_compute; reflexivity) end.
  done.
Qed.

(** ** Persistence *)

Lemma filter_strings_array l : filter_strings (JArray (JString <$> l)) = l.
Proof.
  unfold filter_strings. induction l as [|x l IH]; [done|]. csimpl. f_equal. exact IH.
Qed.

(** What the event filters were set to is what a restarted daemon starts
    with, when the JSON library reads back what it wrote. *)
Theorem filters_persist (dump : json -> string) (parse : string -> outcome json)
    (j : json) (w : IM * DB) :
  parse (dump j) = Ok j -> Str.empty (dump j) = false ->
  automation_configs w.2 !! "custom_macros" = None ->
  connected w.2 = true ->
  let w' := setEventFilters dump j w in
  logFilterPatterns w'.1 = filter_strings j /\
  logFilterPatterns (loadPersistence parse (initialIM, w'.2)).1 = filter_strings j /\
  filter_strings (getEventFiltersJson w'.1) = filter_strings j.
Proof.
  intros Hp He Hm Hc w'. subst w'. unfold setEventFilters, loadPersistence.
  cbn [fst snd]. split; [done|]. split.
  - unfold ConfigTable.getConfig, ConfigTable.setConfig, with_con, query. rewrite Hc.
    cbn [set_configs connected automation_configs]. rewrite Hc.
    rewrite lookup_insert_eq, lookup_insert_ne, Hm by done. cbn [from_option id].
    by rewrite He, Hp.
  - apply filter_strings_array.
Qed.

(** A JSON library restricted to one value. *)
Definition dump_one (_ : json) : string := "j".
Definition parse_one (j : json) (_ : string) : outcome json := Ok j.

Lemma filters_persist_witness :
  let j := JArray [JString "key:a"; JNull; JString "btn"] in
  logFilterPatterns (loadPersistence (parse_one j)
    (initialIM, (setEventFilters dump_one j (initialIM, mkDB true [] [] ∅ ∅ ∅ [] [])).2)).1 =
  ["key:a"; "btn"].
Proof.
  intros j.
  exact (proj1 (proj2 (filters_persist dump_one (parse_one j) j
    (initialIM, mkDB true [] [] ∅ ∅ ∅ [] []) eq_refl eq_refl eq_refl eq_refl))).
Defined.

(** C24: macros set at run time survive a restart, whatever event filters are saved
    beside them: the daemon that starts from the same table loads the same overlay on the
    initial macros, when the JSON library reads back what it wrote. *)
Theorem macros_persist (dump : json -> string) (parse : string -> outcome json)
    (j : json) (w : IM * DB) :
  parse (dump j) = Ok j -> Str.empty (dump j) = false -> connected w.2 = true ->
  (setMacrosFromJsonInternal j w.1).2 = Ok tt ->
  let w' := (setMacrosFromJson dump j w).1 in
  appMacros (loadPersistence parse (initialIM, w'.2)).1 =
    appMacros (setMacrosFromJsonInternal j initialIM).1.
Proof.
  intros Hp He Hc Hok w'. subst w'. unfold setMacrosFromJson.
  destruct (setMacrosFromJsonInternal j w.1) as [s o]. simpl in Hok. subst o.
  unfold loadPersistence, ConfigTable.getConfig, ConfigTable.setConfig, with_con, query.
  cbn [fst snd]. rewrite Hc. cbn [set_configs connected automation_configs]. rewrite Hc.
  rewrite lookup_insert_eq. cbn [from_option id]. rewrite He, Hp.
  by repeat case_match.
Qed.

(** A machine on which filters were saved before. *)
Definition with_filters : DB := mkDB true [] [] {["custom_event_filters" := "f"]} ∅ ∅ [] [].

Lemma macros_persist_witness :
  let j := JObject [("code", JArray [action_json (two_keys KEY_B KEY_C)])] in
  StdMap.find CODE (appMacros (loadPersistence (parse_one j)
    (initialIM, (setMacrosFromJson dump_one j (initialIM, with_filters)).1.2)).1) =
  Some [reloaded (two_keys KEY_B KEY_C)].
Proof.
  intros j.
  exact (f_equal (StdMap.find CODE) (macros_persist dump_one (parse_one j) j
    (initialIM, with_filters) eq_refl eq_refl eq_refl eq_refl)).
Defined.

Lemma load_macros_spec_witness :
  (load_macros CODE [] [action_json (two_keys KEY_A KEY_B); JInt 3; JNull] initialIM).2 =
  Throw JsonTypeError.
Proof.
  exact (f_equal snd (load_macros_spec CODE [action_json (two_keys KEY_A KEY_B)]
    (Some (JInt 3, JsonTypeError)) [JNull] initialIM [reloaded (two_keys KEY_A KEY_B)]
    eq_refl eq_refl)).
Defined.
