(* ===== verification/Settings.v ===== *)
(** What the settings table promises to the components that use it: an interface
    with its laws, and the table system_settings as an instance.  The clients
    (Ports.v) are proved against the interface only. *)

From S2P Require Import Prelude Database.

Class SettingsStore (W : Type) := {
  (** Does the store answer? *)
  available : W -> Prop;
  get_setting : string -> W -> string;
  set_setting : string -> string -> W -> W;
  delete_setting : string -> W -> Z * W;
  all_settings : W -> list (string * string);

  get_set_eq w k v : available w -> get_setting k (set_setting k v w) = v;
  get_set_ne w k k' v : k <> k' -> get_setting k' (set_setting k v w) = get_setting k' w;
  set_available w k v : available w -> available (set_setting k v w);
  get_delete_eq w k : available w -> get_setting k (delete_setting k w).2 = "";
  get_delete_ne w k k' : k <> k' -> get_setting k' (delete_setting k w).2 = get_setting k' w;
  delete_count w k : available w -> get_setting k w <> "" -> (delete_setting k w).1 = 1;
  delete_absent w k :
    available w -> (forall v, (k, v) ∉ all_settings w) -> (delete_setting k w).1 = 0;
  all_get w k v : (k, v) ∈ all_settings w -> get_setting k w = v;
  get_all w k : get_setting k w <> "" -> (k, get_setting k w) ∈ all_settings w;
  all_set w k v : available w -> (k, v) ∈ all_settings (set_setting k v w);
  all_set_ne w k k' v v' : available w -> k <> k' ->
    (k', v') ∈ all_settings (set_setting k v w) <-> (k', v') ∈ all_settings w
}.

#[export] Program Instance DB_settings : SettingsStore DB := {|
  available d := connected d = true;
  get_setting := SettingsTable.getSetting;
  set_setting := SettingsTable.setSetting;
  delete_setting := SettingsTable.deleteSetting;
  all_settings := SettingsTable.getAllSettings
|}.
Next Obligation.
  intros w k v H. simpl. unfold SettingsTable.getSetting, SettingsTable.setSetting, query, with_con.
  rewrite H. simpl. by rewrite H, lookup_insert_eq.
Qed.
Next Obligation.
  intros w k k' v H. unfold SettingsTable.getSetting, SettingsTable.setSetting, query, with_con.
  destruct (connected w) eqn:E; simpl; rewrite E; [by rewrite lookup_insert_ne|done].
Qed.
Next Obligation.
  intros w k v H. simpl in *. unfold SettingsTable.setSetting, with_con. by rewrite H.
Qed.
Next Obligation.
  intros w k H. simpl in *. unfold SettingsTable.getSetting, SettingsTable.deleteSetting, query.
  rewrite H. simpl. by rewrite H, lookup_delete_eq.
Qed.
Next Obligation.
  intros w k k' H. unfold SettingsTable.getSetting, SettingsTable.deleteSetting, query.
  destruct (connected w) eqn:E; simpl; rewrite E; [by rewrite lookup_delete_ne|done].
Qed.
Next Obligation.
  intros w k H. simpl in *. unfold SettingsTable.getSetting, SettingsTable.deleteSetting, query.
  rewrite H. by destruct (system_settings w !! k).
Qed.
Next Obligation.
  intros w k H Hall. simpl in *. unfold SettingsTable.getAllSettings, query in Hall.
  unfold SettingsTable.deleteSetting. rewrite H in *.
  destruct (system_settings w !! k) as [v|] eqn:E; [|done].
  by apply elem_of_map_to_list, Hall in E.
Qed.
Next Obligation.
  intros w k v. simpl. unfold SettingsTable.getAllSettings, SettingsTable.getSetting, query.
  destruct (connected w); [|by intros ?%elem_of_nil].
  intros H%elem_of_map_to_list. by rewrite H.
Qed.
Next Obligation.
  intros w k. simpl. unfold SettingsTable.getAllSettings, SettingsTable.getSetting, query.
  destruct (connected w); [|done].
  destruct (system_settings w !! k) eqn:E; simpl; [|done]. intros _.
  by apply elem_of_map_to_list.
Qed.
Next Obligation.
  intros w k v H. simpl in *. unfold SettingsTable.getAllSettings, SettingsTable.setSetting, query, with_con.
  rewrite H. simpl. rewrite H. apply elem_of_map_to_list, lookup_insert_eq.
Qed.
Next Obligation.
  intros w k k' v v' H Hne. simpl in *.
  unfold SettingsTable.getAllSettings, SettingsTable.setSetting, query, with_con.
  rewrite H. simpl. rewrite H, !elem_of_map_to_list. by rewrite lookup_insert_ne.
Qed.
