(* ===== verification/Ports.v ===== *)
(** The port registry (src/cmdPort.cpp) and the allocation of ports to new
    applications (src/cmdApp.cpp), over the settings interface.

    A worker forwards the four registry commands to the leader: what the
    connection does is the record [Link].  Shell commands the handlers run are
    recorded in order; what they return is an argument. *)

From S2P Require Import Prelude Types Json Database Settings.

Definition nl : string := String "010"%char "".

(** What PeerManager and the leader's socket answer. *)
Record Link := mkLink {
  isLeader : bool;
  isConnectedToLeader : bool;
  connectToLeader : bool;       (** does connecting succeed? *)
  writeOk : bool;
  reply : option string         (** what read() gives, when it gives something *)
}.

(** static forwardToLeader: status -1 asks the caller to handle the command. *)
Definition forwardToLeader (link : Link) (cmdName : string) : CmdResult :=
  if isLeader link then mkCmdResult (-1) ""
  else if negb (isConnectedToLeader link) && negb (connectToLeader link) then
    mkCmdResult 1 ("Not connected to leader. Run 'd registerWorker' first." +:+ nl)
  else if negb (writeOk link) then
    mkCmdResult 1 ("Failed to forward " +:+ cmdName +:+ " to leader" +:+ nl)
  else match reply link with
       | Some s => mkCmdResult 0 s
       | None => mkCmdResult 1 ("No response from leader" +:+ nl)
       end.

(** Forward to the leader, or handle locally. *)
Definition forwarded {W} (link : Link) (cmdName : string) (k : M W CmdResult) : M W CmdResult :=
  let r := forwardToLeader link cmdName in
  if decide (status r = -1) then k else mret r.

Definition port_key (key : string) : string := ("port_" +:+ key)%string.

(** std::left << std::setw(n) *)
Fixpoint spaces (n : nat) : string := match n with O => "" | S n' => String " "%char (spaces n') end.
Definition pad (n : nat) (s : string) : string := (s +:+ spaces (n - String.length s))%string.
Fixpoint dashes (n : nat) : string := match n with O => "" | S n' => String "-"%char (dashes n') end.

(** The ports of the registry: keys with the prefix, values that are integers. *)
Definition parse_port (p : string * string) : option (string * Z) :=
  if Str.starts_with "port_" p.1 then
    match Num.stoi p.2 with Ok z => Some (Str.drop 5 p.1, z) | Throw _ => None end
  else None.

Definition by_port (a b : string * Z) : Prop := a.2 <= b.2.
#[export] Instance by_port_dec a b : Decision (by_port a b).
Proof. unfold by_port. apply _. Defined.

(** The repository of a port key, for its version. *)
Definition repo_path (key : string) : string :=
  if decide (key = "dashboard-dev" \/ key = "dashboard-bridge") then "/opt/dev/dashboard"
  else if decide (key = "dashboard-prod") then "/opt/prod/dashboard"
  else if decide (key = "cad-dev") then "/opt/dev/cad"
  else if decide (key = "cad-prod") then "/opt/prod/cad"
  else if decide (key = "pt-dev") then "/opt/dev/publicTransportation"
  else if decide (key = "pt-prod") then "/opt/prod/publicTransportation"
  else "".

Section Ports.
Context {W : Type} `{SettingsStore W}.
(** executeCommand: the output of a shell command *)
Context (executeCommand : string -> string).

Definition chomp (s : string) : string :=
  if Str.ends_with_char "010" s then Str.pop_back s else s.

(** static getGitVersion *)
Definition getGitVersion (path : string) : string :=
  let hash := executeCommand ("git -C " +:+ path +:+ " rev-parse --short HEAD")%string in
  if Str.empty hash then "N/A"
  else
    let quote := String "034"%char "" in
    let msg := executeCommand ("git -C " +:+ path +:+ " log -1 --format=" +:+ quote
                                 +:+ "%s" +:+ quote)%string in
    (chomp hash +:+ " - " +:+ chomp msg)%string.

Definition handleGetPort (link : Link) (command : json) : M W CmdResult :=
  forwarded link "getPort" (
    let! key := lift (Json.string_at "key" command) in
    let! value := gets (get_setting (port_key key)) in
    mret (if Str.empty value then mkCmdResult 1 ("Port not set for " +:+ key +:+ nl)
          else mkCmdResult 0 (value +:+ nl))).

(** The value argument: a number or a string. *)
Definition port_value (command : json) : outcome string :=
  v ← Json.at_key "value" command;
  match v with
  | JInt z => Ok (Num.to_string z)
  | JFloat m e => Ok (Num.to_string (Json.trunc m e))
  | _ => Json.get_string v
  end.

Definition handleSetPort (link : Link) (command : json) : M W CmdResult :=
  forwarded link "setPort" (
    let! key := lift (Json.string_at "key" command) in
    let! value := lift (port_value command) in
    let! _ := modify (set_setting (port_key key) value) in
    mret (mkCmdResult 0 ("Port set for " +:+ key +:+ " to " +:+ value +:+ nl))).

Definition handleDeletePort (link : Link) (command : json) : M W CmdResult :=
  forwarded link "deletePort" (
    let! key := lift (Json.string_at "key" command) in
    fun w =>
      let '(rc, w) := delete_setting (port_key key) w in
      (w, Ok (if 1 <=? rc then mkCmdResult 0 ("Port entry deleted for " +:+ key +:+ nl)
              else mkCmdResult 1 ("Port entry not found for " +:+ key +:+ nl)))).

Definition registered_ports (w : W) : list (string * Z) :=
  merge_sort by_port (omap parse_port (all_settings w)).

Definition port_line (p : string * Z) : string :=
  let repoPath := repo_path p.1 in
  (pad 20 p.1 +:+ pad 8 (Num.to_string p.2) +:+
   (if Str.empty repoPath then "" else getGitVersion repoPath) +:+ nl)%string.

Definition handleListPorts (link : Link) (command : json) : M W CmdResult :=
  forwarded link "listPorts" (fun w =>
    let ports := registered_ports w in
    let ss := ("--- Registered Port Mappings ---" +:+ nl +:+ pad 20 "Key" +:+ pad 8 "Port"
                 +:+ "Version" +:+ nl +:+ dashes 80 +:+ nl)%string in
    (w, Ok (mkCmdResult 0
      match ports with
      | [] => ss +:+ "  (No ports registered)" +:+ nl
      | _ => foldl (fun s p => s +:+ port_line p) ss ports
      end%string))).

(** ** Allocation of ports *)

(** The set usedPorts the allocators collect. *)
Definition usedPorts (w : W) : list Z := snd <$> omap parse_port (all_settings w).
Definition is_used (w : W) (p : Z) : bool := bool_decide (p ∈ usedPorts w).

(** for (int base = from; base < limit; base += 2), [n] iterations *)
Fixpoint first_free_pair (w : W) (base : Z) (n : nat) : Z * Z :=
  match n with
  | O => (-1, -1)
  | S n' => if negb (is_used w base) && negb (is_used w (base + 1)) then (base, base + 1)
            else first_free_pair w (base + 2) n'
  end.

Definition findNextAvailablePortPair (w : W) : Z * Z := first_free_pair w 3000 250.

Fixpoint first_free_port (w : W) (port : Z) (n : nat) : Z :=
  match n with
  | O => -1
  | S n' => if negb (is_used w port) then port else first_free_port w (port + 1) n'
  end.

Definition findNextAvailableServerPort (w : W) : Z := first_free_port w 3500 500.

(** ** The public transportation proxy *)

(** What the sockets, the shell and the file system answer. *)
Record ProxyEnv := mkProxyEnv {
  socketOk : bool; bindOk : bool; nameOk : bool; osPort : Z;
  tunnelRc : Z; fileOpens : bool
}.

(** The state of a handler that runs shell commands: the store and the commands. *)
Definition run_command (cmd : string) : M (W * list string) unit :=
  modify (fun w => (w.1, w.2 ++ [cmd])).

Definition start_tunnel (env : ProxyEnv) (port : Z) : M (W * list string) CmdResult :=
  let! _ := run_command ("ssh -f -N -L " +:+ Num.to_string port +:+
              ":moran.mot.gov.il:110 root@10.0.0.1")%string in
  mret (if negb (tunnelRc env =? 0) then
          mkCmdResult 1 ("Failed to start SSH tunnel" +:+ nl)
        else if fileOpens env then
          mkCmdResult 0 ("Proxy started on port " +:+ Num.to_string port +:+ nl)
        else mkCmdResult 1 ("Failed to write port file" +:+ nl)).

Definition handlePublicTransportationStartProxy (env : ProxyEnv) (command : json)
    : M (W * list string) CmdResult := fun w =>
  let portStr := get_setting "port_pt-proxy" w.1 in
  match (if Str.empty portStr then Ok 0 else Num.stoi portStr) with
  | Throw _ =>
      (w, Ok (mkCmdResult 1 ("Invalid port for pt-proxy in registry: " +:+ portStr +:+ nl)))
  | Ok port =>
      if port =? 0 then
        if negb (socketOk env) then
          (w, Ok (mkCmdResult 1 ("Failed to create socket for port discovery" +:+ nl)))
        else if negb (bindOk env) then
          (w, Ok (mkCmdResult 1 ("Failed to bind to find free port" +:+ nl)))
        else if negb (nameOk env) then
          (w, Ok (mkCmdResult 1 ("Failed to get socket name" +:+ nl)))
        else
          start_tunnel env (osPort env)
            (set_setting "port_pt-proxy" (Num.to_string (osPort env)) w.1, w.2)
      else start_tunnel env port w
  end.

(** The port of the application: an explicit variant, or pt, pt-prod, pt-dev. *)
Definition first_setting (keys : list string) (w : W) : string :=
  foldl (fun port k => if Str.empty port then get_setting k w else port) "" keys.

Definition handlePublicTransportationOpenApp (rc : Z) (command : json)
    : M (W * list string) CmdResult :=
  let open (port : string) : M (W * list string) CmdResult :=
    if Str.empty port then
      mret (mkCmdResult 1 ("PT app port not set. Use 'd setPort pt <PORT>' to configure." +:+ nl))
    else
      let url := ("http://localhost:" +:+ port)%string in
      let! _ := run_command ("google-chrome " +:+ url +:+ " > /dev/null 2>&1 &")%string in
      mret (if rc =? 0 then mkCmdResult 0 ("Opened " +:+ url +:+ " in Chrome" +:+ nl)
            else mkCmdResult 1 ("Failed to open Chrome" +:+ nl)) in
  if Json.contains "variant" command then
    let! variant := lift (Json.string_at "variant" command) in
    let! port := gets (fun w => get_setting ("port_pt-" +:+ variant)%string w.1) in
    if Str.empty port then
      mret (mkCmdResult 1 ("PT app port for variant '" +:+ variant +:+ "' not found." +:+ nl))
    else open port
  else
    let! port := gets (fun w => first_setting ["port_pt"; "port_pt-prod"; "port_pt-dev"] w.1) in
    open port.

(** ** The registry as a map of ports *)

Lemma forwarded_worker link name (k : M W CmdResult) w :
  isLeader link = false -> forwarded link name k w = (w, Ok (forwardToLeader link name)).
Proof using Type.
  intros Hl. unfold forwarded. cbv zeta. rewrite decide_False; [done|].
  unfold forwardToLeader. rewrite Hl.
  destruct (negb (isConnectedToLeader link) && _); [done|].
  destruct (negb (writeOk link)); [done|]. by destruct (reply link).
Qed.

(** A worker never touches its own registry: each of the four commands
    answers what the leader answered, or an error, and leaves the settings
    alone. *)
Theorem worker_forwards (link : Link) (command : json) (w : W) :
  isLeader link = false ->
  handleGetPort link command w = (w, Ok (forwardToLeader link "getPort")) /\
  handleSetPort link command w = (w, Ok (forwardToLeader link "setPort")) /\
  handleDeletePort link command w = (w, Ok (forwardToLeader link "deletePort")) /\
  handleListPorts link command w = (w, Ok (forwardToLeader link "listPorts")) /\
  (isConnectedToLeader link = true -> writeOk link = true ->
     forall s name, reply link = Some s -> forwardToLeader link name = mkCmdResult 0 s).
Proof using Type.
  intros Hl. unfold handleGetPort, handleSetPort, handleDeletePort, handleListPorts.
  rewrite !forwarded_worker by done. repeat split.
  intros H1 H2 s name Hr. unfold forwardToLeader. by rewrite Hl, H1, H2, Hr.
Qed.

Definition leader_link : Link := mkLink true false false false None.

Lemma forwarded_leader link name (k : M W CmdResult) w :
  isLeader link = true -> forwarded link name k w = k w.
Proof using Type. intros Hl. unfold forwarded, forwardToLeader. by rewrite Hl, decide_True. Qed.

(** C27: on the leader, a port that was set is what the next query answers,
    whether it was given as a number or as a string, and the ports of the other
    keys are unchanged; after deleting it, the query says it is not set. *)
Theorem port_registry_map (link : Link) (key value : string) (set_cmd get_cmd : json) (w : W) :
  isLeader link = true -> available w ->
  Json.member "key" set_cmd = Some (JString key) -> port_value set_cmd = Ok value ->
  Json.member "key" get_cmd = Some (JString key) -> Str.empty value = false ->
  let w1 := (handleSetPort link set_cmd w).1 in
  let w2 := (handleDeletePort link get_cmd w1).1 in
  (handleGetPort link get_cmd w1).2 = Ok (mkCmdResult 0 (value +:+ nl)) /\
  (forall key', key' <> key ->
     get_setting (port_key key') w1 = get_setting (port_key key') w /\
     get_setting (port_key key') w2 = get_setting (port_key key') w) /\
  (handleGetPort link get_cmd w2).2 =
    Ok (mkCmdResult 1 ("Port not set for " +:+ key +:+ nl)).
Proof using Type.
  intros Hl Hav Hk Hv Hk' Hne. cbv zeta.
  assert ((handleSetPort link set_cmd w).1 = set_setting (port_key key) value w) as ->.
  { unfold handleSetPort. rewrite forwarded_leader by done. unfold bindM, M_bind, lift.
    by rewrite (proj2 (Json.string_at_member _ _ _) Hk), Hv. }
  set (w1 := set_setting (port_key key) value w).
  assert (forall x, handleGetPort link get_cmd x = (x, Ok
    (if Str.empty (get_setting (port_key key) x)
     then mkCmdResult 1 ("Port not set for " +:+ key +:+ nl)
     else mkCmdResult 0 (get_setting (port_key key) x +:+ nl)))) as Hget.
  { intros x. unfold handleGetPort. rewrite forwarded_leader by done.
    unfold bindM, M_bind, lift. by rewrite (proj2 (Json.string_at_member _ _ _) Hk'). }
  assert ((handleDeletePort link get_cmd w1).1 = (delete_setting (port_key key) w1).2) as ->.
  { unfold handleDeletePort. rewrite forwarded_leader by done. unfold bindM, M_bind, lift.
    rewrite (proj2 (Json.string_at_member _ _ _) Hk'). by destruct (delete_setting _ _). }
  rewrite !Hget. cbn [snd]. subst w1. rewrite get_set_eq, Hne by done.
  split; [done|]. split.
  - intros key' Hd. assert (port_key key <> port_key key').
    { unfold port_key. intros [= E]. congruence. }
    by rewrite get_delete_ne, get_set_ne by done.
  - by rewrite get_delete_eq by (by apply set_available).
Qed.

Lemma first_free_pair_spec w base n :
  match first_free_pair w base n with
  | (a, b) => (exists i, 0 <= i < Z.of_nat n /\ a = base + 2 * i /\ b = a + 1 /\
                 is_used w a = false /\ is_used w b = false /\
                 forall j, 0 <= j < i -> is_used w (base + 2 * j) = true \/
                                         is_used w (base + 2 * j + 1) = true) \/
              ((a, b) = (-1, -1) /\ forall j, 0 <= j < Z.of_nat n ->
                 is_used w (base + 2 * j) = true \/ is_used w (base + 2 * j + 1) = true)
  end.
Proof using Type.
  revert base. induction n as [|n IH]; intros base; cbn [first_free_pair].
  { right. split; [done|]. lia. }
  destruct (is_used w base) eqn:E1, (is_used w (base + 1)) eqn:E2; cbn [negb andb];
    [| | |left; exists 0; rewrite Z.mul_0_r, Z.add_0_r; repeat split; done || lia];
    specialize (IH (base + 2)); destruct (first_free_pair w (base + 2) n) as [a b];
    (assert (is_used w base = true \/ is_used w (base + 1) = true) as H0 by auto);
    (destruct IH as [(i & Hi & Ha & Hb & Hua & Hub & Hlow)|[Hab Hlow]];
      [left; exists (i + 1); repeat split; try done; try lia|right; split; [done|]]);
    intros j Hj; (destruct (decide (j = 0)) as [->|Hj0];
      [by rewrite Z.mul_0_r, Z.add_0_r|]);
    replace (base + 2 * j) with (base + 2 + 2 * (j - 1)) by lia; apply Hlow; lia.
Qed.

Definition free_pair (w : W) (p : Z) : Prop := is_used w p = false /\ is_used w (p + 1) = false.

Lemma port_pair_range w :
  let '(a, b) := findNextAvailablePortPair w in
  (3000 <= a < 3500 /\ Z.even a = true /\ b = a + 1 /\ is_used w a = false /\
   is_used w b = false /\
   forall p, 3000 <= p < a -> Z.even p = true -> ~ free_pair w p) \/
  (a = -1 /\ b = -1 /\ forall p, 3000 <= p < 3500 -> Z.even p = true -> ~ free_pair w p).
Proof using Type.
  pose proof (first_free_pair_spec w 3000 250) as Hs. unfold findNextAvailablePortPair.
  destruct (first_free_pair w 3000 250) as [a b].
  assert (forall p, 3000 <= p -> Z.even p = true -> exists j, 0 <= j /\ p = 3000 + 2 * j) as He.
  { intros p Hp Hev. apply Z.even_spec in Hev as [j ->]. exists (j - 1500). lia. }
  destruct Hs as [(i & Hi & -> & -> & Hua & Hub & Hlow)|[[= -> ->] Hlow]].
  - left. split; [lia|]. split; [by rewrite Z.even_add, Z.even_mul|].
    repeat split; try done. intros p Hp Hev [F1 F2].
    destruct (He p) as (j & Hj & ->); [lia|done|].
    destruct (Hlow j) as [E|E]; [lia|congruence..].
  - right. repeat split. intros p Hp Hev [F1 F2].
    destruct (He p) as (j & Hj & ->); [lia|done|].
    destruct (Hlow j) as [E|E]; [lia|congruence..].
Qed.

(** C21: the pair of ports given to a new application is the lowest free pair
    that starts at an even port from 3000 to 3498; -1 is returned exactly when
    no such pair is free, and 250 iterations are enough to see them all. *)
Theorem port_pair_lowest_free (w : W) :
  let '(a, b) := findNextAvailablePortPair w in
  (3000 <= a < 3500 /\ Z.even a = true /\ b = a + 1 /\ free_pair w a /\
   forall p, 3000 <= p < a -> Z.even p = true -> ~ free_pair w p) \/
  (a = -1 /\ b = -1 /\ forall p, 3000 <= p < 3500 -> Z.even p = true -> ~ free_pair w p).
Proof using Type.
  pose proof (port_pair_range w) as H1. destruct (findNextAvailablePortPair w) as [a b].
  destruct H1 as [(Hr & He & -> & Hu & Hv & Hl)|Hn]; [left|by right].
  repeat split; try done; lia.
Qed.

Lemma is_used_set w k p :
  available w -> is_int32 p = true -> Str.starts_with "port_" k = true ->
  is_used (set_setting k (Num.to_string p) w) p = true.
Proof using Type.
  intros Hav Hp Hk. apply bool_decide_eq_true. unfold usedPorts.
  apply list_elem_of_fmap. exists (Str.drop 5 k, p). split; [done|].
  apply list_elem_of_omap. exists (k, Num.to_string p).
  split; [by apply all_set|]. unfold parse_port. cbn [fst snd].
  by rewrite Hk, Num.stoi_to_string.
Qed.

Lemma is_used_set_ne w k v k' p :
  available w -> is_int32 p = true -> Str.starts_with "port_" k = true -> k <> k' ->
  is_used (set_setting k' v (set_setting k (Num.to_string p) w)) p = true.
Proof using Type.
  intros Hav Hp Hk Hne. apply bool_decide_eq_true. unfold usedPorts.
  apply list_elem_of_fmap. exists (Str.drop 5 k, p). split; [done|].
  apply list_elem_of_omap. exists (k, Num.to_string p). split.
  - apply all_set_ne; [by apply set_available|done|]. by apply all_set.
  - unfold parse_port. cbn [fst snd]. by rewrite Hk, Num.stoi_to_string.
Qed.

(** Two applications never get the same ports: once the pair given to the
    first is recorded under its two keys, the next pair has no port in common
    with it. *)
Theorem allocation_disjoint (w : W) (client server : string) :
  available w -> client <> server ->
  let '(a, b) := findNextAvailablePortPair w in
  a <> -1 ->
  let w' := set_setting (port_key server) (Num.to_string b)
              (set_setting (port_key client) (Num.to_string a) w) in
  let '(a', b') := findNextAvailablePortPair w' in
  a' <> a /\ a' <> b /\ b' <> a /\ b' <> b.
Proof using Type.
  intros Hav Hne. pose proof (port_pair_range w) as H1.
  destruct (findNextAvailablePortPair w) as [a b]. intros Ha w'.
  pose proof (port_pair_range w') as H2. destruct (findNextAvailablePortPair w') as [a' b'].
  destruct H1 as [(Hr & Hev & -> & _)|[-> _]]; [|done].
  assert (is_used w' a = true) as Hu.
  { subst w'. apply is_used_set_ne; [done|unfold is_int32, INT_MIN, INT_MAX; lia|apply Str.prefix_append|].
    unfold port_key. intros [= E]. congruence. }
  destruct H2 as [(Hr' & Hev' & -> & Hf & _)|(-> & -> & _)]; [|lia].
  assert (a' <> a) by (intros ->; congruence).
  apply Z.even_spec in Hev as [i ->], Hev' as [j ->]. lia.
Qed.
End Ports.

(** ** Witnesses on the database *)

Definition port_db : DB := mkDB true [] [] ∅ ∅ ∅ [] [].
Definition set_port_cmd (key : string) (port : Z) : json :=
  JObject [("key", JString key); ("value", JInt port)].

Lemma worker_forwards_witness :
  (handleListPorts (fun _ => "") (mkLink false true false true (Some "3001")) JNull port_db).2 =
  Ok (mkCmdResult 0 "3001").
Proof.
  destruct (worker_forwards (fun _ => "") (mkLink false true false true (Some "3001")) JNull port_db
    eq_refl) as (_ & _ & _ & -> & _). reflexivity.
Defined.

Lemma port_registry_map_witness :
  (handleGetPort leader_link (set_port_cmd "cad-dev" 0)
     (handleSetPort leader_link (set_port_cmd "cad-dev" 3010) port_db).1).2 =
  Ok (mkCmdResult 0 ("3010" +:+ nl)).
Proof.
  exact (proj1 (port_registry_map leader_link "cad-dev" "3010" (set_port_cmd "cad-dev" 3010)
    (set_port_cmd "cad-dev" 0) port_db eq_refl eq_refl eq_refl eq_refl eq_refl eq_refl)).
Defined.

Lemma allocation_disjoint_witness :
  (findNextAvailablePortPair
    (set_setting (port_key "b") "3001" (set_setting (port_key "a") "3000" port_db))).1 <> 3000.
Proof.
  pose proof (allocation_disjoint port_db "a" "b" eq_refl ltac:(discriminate)) as H.
  vm_compute in H. vm_compute. apply H. discriminate.
Defined.
