(* ===== verification/Registry.v ===== *)
(** The command registry and the dispatch table of src/mainCommand.cpp: every
    command the daemon knows, with its required arguments and help text, and the
    handler each name is dispatched to.  The groups are the comment groups of the
    source. *)

From S2P Require Import Prelude Types.

(** Help Commands *)
Definition registryHelpCommands : list CommandSignature := [
  mkSig "" []
    "Show help message"
    "";
  mkSig "help" []
    "Show help message"
    "";
  mkSig "--help" []
    "Show help message"
    ""
].

(** Terminal History Commands *)
Definition registryTerminalHistoryCommands : list CommandSignature := [
  mkSig "openedTty" ["tty"]
    "Notify daemon that a terminal was opened"
    "";
  mkSig "closedTty" ["tty"]
    "Notify daemon that a terminal was closed"
    "";
  mkSig "updateDirHistory" ["tty"; "pwd"]
    "Update directory history for a terminal"
    "";
  mkSig "cdForward" ["tty"]
    "Navigate forward in directory history (Ctrl+Down)"
    "";
  mkSig "cdBackward" ["tty"]
    "Navigate backward in directory history (Ctrl+Up)"
    "";
  mkSig "shellSignal" ["signal"]
    "Handle shell signal events"
    "";
  mkSig "showTerminalInstance" ["tty"]
    "Show terminal instance info for a TTY"
    "";
  mkSig "showAllTerminalInstances" []
    "Show all active terminal instances"
    "";
  mkSig "printDirHistory" []
    "Print all directory history entries"
    "";
  mkSig "emptyDirHistoryTable" []
    "Clear all directory history entries"
    ""
].

(** Database Commands *)
Definition registryDatabaseCommands : list CommandSignature := [
  mkSig "deleteEntry" ["key"]
    "Delete a setting entry by key"
    "";
  mkSig "showEntriesByPrefix" ["prefix"]
    "(Deprecated) Show entries by prefix"
    "";
  mkSig "deleteEntriesByPrefix" ["prefix"]
    "(Deprecated) Delete entries by prefix"
    "";
  mkSig "showDB" []
    "Show database summary (terminal history, devices, settings)"
    "";
  mkSig "upsertEntry" ["key"; "value"]
    "Insert or update a setting entry"
    "";
  mkSig "getEntry" ["key"]
    "Get a setting entry by key"
    ""
].

(** System Commands *)
Definition registrySystemCommands : list CommandSignature := [
  mkSig "ping" []
    "Ping the daemon (returns 'pong')"
    "";
  mkSig "version" []
    "Show daemon version (git commit count)"
    "";
  mkSig "quit" []
    "Stop the daemon"
    "";
  mkSig "getDir" ["dirName"]
    "Get daemon directory path (base, data, mappings)"
    "";
  mkSig "getFile" ["fileName"]
    "Get file path from data or mappings directory"
    "";
  mkSig "listCommands" []
    "List all available command names"
    ""
].

(** Input Device Commands *)
Definition registryInputDeviceCommands : list CommandSignature := [
  mkSig "getKeyboardPath" []
    "Get path to the grabbed keyboard device"
    "";
  mkSig "getMousePath" []
    "Get path to the grabbed mouse device"
    "";
  mkSig "getSocketPath" []
    "Get the daemon's UNIX socket path"
    "";
  mkSig "setKeyboard" ["windowTitle"; "wmClass"; "wmInstance"; "windowId"]
    "Simulate active window change (for debugging)"
    "";
  mkSig "getKeyboard" []
    "Get current keyboard mapping state"
    "";
  mkSig "getKeyboardEnabled" []
    "Check if keyboard input is enabled"
    "";
  mkSig "toggleKeyboard" ["enable"]
    "Toggle auto-keyboard switching on window change"
    "";
  mkSig "disableKeyboard" []
    "Disable keyboard input grabbing"
    "";
  mkSig "enableKeyboard" []
    "Enable keyboard input grabbing"
    "";
  mkSig "simulateInput" []
    "Simulate input event or type text"
    "--type --code --value (raw event) OR --string (text)"
].

(** Logging Commands *)
Definition registryLoggingCommands : list CommandSignature := [
  mkSig "shouldLog" ["enable"]
    "Enable or disable logging"
    "";
  mkSig "getShouldLog" []
    "Get current logging state"
    "";
  mkSig "registerLogListener" []
    "Register as a live log listener (streaming)"
    "";
  mkSig "addLogFilter" ["action"]
    "Add granular input event log filter"
    "--type --code --value --devicePathRegex --isKeyboard";
  mkSig "removeLogFilter" []
    "Remove a log filter"
    "--type --code --value --devicePathRegex --isKeyboard";
  mkSig "listLogFilters" []
    "List all active log filters"
    "";
  mkSig "clearLogFilters" []
    "Clear all log filters"
    ""
].

(** Window/Context Commands *)
Definition registryWindowContextCommands : list CommandSignature := [
  mkSig "activeWindowChanged" ["windowTitle"; "wmClass"; "wmInstance"; "windowId"]
    "Notify daemon of active window change (from GNOME ext)"
    "";
  mkSig "setActiveTabUrl" ["url"]
    "Set active browser tab URL (from Chrome ext)"
    "";
  mkSig "registerNativeHost" []
    "Register Chrome native messaging host"
    "";
  mkSig "focusChatGPT" []
    "Request focus on ChatGPT browser tab"
    "";
  mkSig "focusAck" []
    "Acknowledge focus request"
    "";
  mkSig "getActiveContext" []
    "Get current active window context (JSON)"
    "";
  mkSig "registerWindowExtension" []
    "Register GNOME window tracking extension"
    "";
  mkSig "listWindows" []
    "List all tracked windows"
    "";
  mkSig "activateWindow" ["windowId"]
    "Activate a window by ID"
    ""
].

(** Macro Commands *)
Definition registryMacroCommands : list CommandSignature := [
  mkSig "getMacros" []
    "Get all configured macros (JSON)"
    "";
  mkSig "updateMacros" ["value"]
    "Update macro configuration"
    "";
  mkSig "getEventFilters" []
    "Get event filters for macro system"
    "";
  mkSig "setEventFilters" ["value"]
    "Set event filters for macro system"
    ""
].

(** Port Management Commands *)
Definition registryPortManagementCommands : list CommandSignature := [
  mkSig "getPort" ["key"]
    "Get assigned port for an app/service"
    "";
  mkSig "setPort" ["key"; "value"]
    "Assign a port to an app/service"
    "";
  mkSig "listPorts" []
    "List all port assignments"
    "";
  mkSig "deletePort" ["key"]
    "Delete a port assignment"
    ""
].

(** Public Transportation Commands *)
Definition registryPublicTransportationCommands : list CommandSignature := [
  mkSig "publicTransportationStartProxy" []
    "Start public transportation proxy server"
    "";
  mkSig "publicTransportationOpenApp" []
    "Open public transportation app"
    ""
].

(** App Management Commands *)
Definition registryAppManagementCommands : list CommandSignature := [
  mkSig "startApp" ["app"]
    "Start an app"
    "--mode <prod|dev>";
  mkSig "stopApp" ["app"]
    "Stop an app"
    "--mode <prod|dev|all>";
  mkSig "restartApp" ["app"]
    "Restart an app"
    "--mode <prod|dev>";
  mkSig "appStatus" []
    "Show app status"
    "--app <name>";
  mkSig "listApps" []
    "List all registered apps"
    "";
  mkSig "buildApp" ["app"]
    "Build an app's server component"
    "--mode <prod|dev>";
  mkSig "installAppDeps" ["app"]
    "Install npm dependencies for an app"
    "--mode <prod|dev> --component <client|server|all>";
  mkSig "enableApp" ["app"]
    "Enable app services for boot"
    "--mode <prod|dev>";
  mkSig "disableApp" ["app"]
    "Disable app services from boot"
    "--mode <prod|dev|all>";
  mkSig "addExtraApp" ["repoUrl"]
    "Add an extra app from git repository"
    "--displayName <name> --hasServer --serverSubdir <dir> --clientSubdir <dir>";
  mkSig "removeExtraApp" ["app"]
    "Remove an extra app from registry (keeps files)"
    "";
  mkSig "listExtraApps" []
    "List all extra apps registered in database"
    "";
  mkSig "deployToProd" ["app"]
    "Deploy dev changes to prod worktree"
    "--commit <hash>";
  mkSig "prodStatus" ["app"]
    "Check prod worktree status (clean/dirty)"
    "";
  mkSig "cleanProd" ["app"]
    "Discard uncommitted changes in prod worktree"
    "";
  mkSig "getAppPeers" ["app"]
    "Show which peers have an app installed and running"
    "";
  mkSig "installAppOnPeer" ["app"; "peer"]
    "Install an app on a remote peer"
    "--mode <dev|prod|all>";
  mkSig "uninstallAppOnPeer" ["app"; "peer"]
    "Uninstall an app from a remote peer"
    "";
  mkSig "startAppOnPeer" ["app"; "peer"; "mode"]
    "Start an app on a remote peer"
    "";
  mkSig "stopAppOnPeer" ["app"; "peer"]
    "Stop an app on a remote peer"
    "--mode <dev|prod|all>";
  mkSig "installAppServices" ["app"]
    "Install systemd service files for an app locally"
    ""
].

(** Test/Debug Commands *)
Definition registryTestDebugCommands : list CommandSignature := [
  mkSig "testIntegrity" []
    "Run internal integrity tests"
    "";
  mkSig "testLsof" ["port"]
    "Test lsof on a port"
    "";
  mkSig "testEcho" ["message"]
    "Echo a test message"
    "";
  mkSig "testLsofScript" ["port"]
    "Test lsof script on a port"
    ""
].

(** Peer Networking Commands *)
Definition registryPeerNetworkingCommands : list CommandSignature := [
  mkSig "setPeerConfig" []
    "Configure peer networking role and identity"
    "--role (leader|worker) --id <peer_id> [--leader <ip>]";
  mkSig "getPeerStatus" []
    "Show current peer configuration and connection status"
    "";
  mkSig "registerPeer" []
    "(Internal) Register a peer connection"
    "";
  mkSig "listPeers" []
    "List all registered peers in the network"
    "";
  mkSig "deletePeer" ["peer"]
    "Delete a peer from the registry"
    "";
  mkSig "getPeerInfo" ["peer"]
    "Get detailed info about a specific peer"
    "";
  mkSig "execOnPeer" ["peer"; "directory"; "shellCmd"]
    "Execute a command on a remote peer in specified directory"
    "";
  mkSig "execRequest" ["directory"; "shellCmd"]
    "(Internal) Handle exec request from another peer"
    "";
  mkSig "remotePull" ["peer"]
    "Git pull automateLinux on a remote peer"
    "";
  mkSig "remoteBd" ["peer"]
    "Build daemon on a remote peer"
    "";
  mkSig "remoteDeployDaemon" ["peer"]
    "Pull and build daemon on a remote peer"
    "";
  mkSig "dbSanityCheck" []
    "Check and fix worker database (delete leader-only data)"
    "";
  mkSig "registerWorker" []
    "Register this machine as a worker (uses hostname, connects to VPS)"
    "";
  mkSig "updatePeerMac" []
    "Update this peer's MAC address in the leader's database"
    "";
  mkSig "updatePeerMacInternal" []
    "(internal) Receives MAC update from worker"
    ""
].

(** WireGuard Setup Commands *)
Definition registryWireguardSetupCommands : list CommandSignature := [
  mkSig "setupWireGuardPeer" ["name"]
    "Set up WireGuard on a peer and register with daemon"
    "--host <ip> --vpnIp <ip> --mac <addr> --dualBoot --privateKey <key>";
  mkSig "listWireGuardPeers" []
    "List peers configured in WireGuard on the VPS"
    "";
  mkSig "getWireGuardIp" []
    "Get the local WireGuard (wg0) interface IP address"
    ""
].

(** RDP Setup Commands *)
Definition registryRdpSetupCommands : list CommandSignature := [
  mkSig "setupRdp" []
    "Configure GNOME Remote Desktop for RDP access"
    "--rdpUsername <user> --rdpPassword <pass>"
].

Definition COMMAND_REGISTRY : list CommandSignature :=
  registryHelpCommands ++
  registryTerminalHistoryCommands ++
  registryDatabaseCommands ++
  registrySystemCommands ++
  registryInputDeviceCommands ++
  registryLoggingCommands ++
  registryWindowContextCommands ++
  registryMacroCommands ++
  registryPortManagementCommands ++
  registryPublicTransportationCommands ++
  registryAppManagementCommands ++
  registryTestDebugCommands ++
  registryPeerNetworkingCommands ++
  registryWireguardSetupCommands ++
  registryRdpSetupCommands.

(** The handler functions, by name. *)
Inductive HandlerId :=
  | H_handleHelp
  | H_handlePing
  | H_handleVersion
  | H_handleQuit
  | H_handleGetDir
  | H_handleGetFile
  | H_handleGetSocketPath
  | H_handleListCommands
  | H_handleTestLsof
  | H_handleTestEcho
  | H_handleTestLsofScript
  | H_handleOpenedTty
  | H_handleClosedTty
  | H_handleUpdateDirHistory
  | H_handleCdForward
  | H_handleCdBackward
  | H_handleShellSignal
  | H_handleShowTerminalInstance
  | H_handleShowAllTerminalInstances
  | H_handlePrintDirHistory
  | H_handleEmptyDirHistoryTable
  | H_handleShowEntriesByPrefix
  | H_handleDeleteEntriesByPrefix
  | H_handleShowDb
  | H_handleDeleteEntry
  | H_handleUpsertEntry
  | H_handleGetEntry
  | H_handleGetKeyboardPath
  | H_handleGetMousePath
  | H_handleSetKeyboard
  | H_handleGetKeyboard
  | H_handleToggleKeyboard
  | H_handleDisableKeyboard
  | H_handleEnableKeyboard
  | H_handleSimulateInput
  | H_handleTestIntegrity
  | H_handleGetMacros
  | H_handleUpdateMacros
  | H_handleShouldLog
  | H_handleGetShouldLog
  | H_handleRegisterLogListener
  | H_handleGetEventFilters
  | H_handleSetEventFilters
  | H_handleRegisterWindowExtension
  | H_handleListWindows
  | H_handleActivateWindow
  | H_handleActiveWindowChanged
  | H_handleGetActiveContext
  | H_handleSetActiveTabUrl
  | H_handleRegisterNativeHost
  | H_handleFocusChatGPT
  | H_handleFocusAck
  | H_handleGetPort
  | H_handleSetPort
  | H_handleListPorts
  | H_handleDeletePort
  | H_handlePublicTransportationStartProxy
  | H_handlePublicTransportationOpenApp
  | H_handleStartApp
  | H_handleStopApp
  | H_handleRestartApp
  | H_handleAppStatus
  | H_handleListApps
  | H_handleBuildApp
  | H_handleInstallAppDeps
  | H_handleEnableApp
  | H_handleDisableApp
  | H_handleAddExtraApp
  | H_handleRemoveExtraApp
  | H_handleListExtraApps
  | H_handleDeployToProd
  | H_handleProdStatus
  | H_handleCleanProd
  | H_handleGetAppPeers
  | H_handleInstallAppOnPeer
  | H_handleUninstallAppOnPeer
  | H_handleStartAppOnPeer
  | H_handleStopAppOnPeer
  | H_handleInstallAppServices
  | H_handleSetPeerConfig
  | H_handleGetPeerStatus
  | H_handleRegisterPeer
  | H_handleListPeers
  | H_handleDeletePeer
  | H_handleGetPeerInfo
  | H_handleExecOnPeer
  | H_handleExecRequest
  | H_handleRemotePull
  | H_handleRemoteBd
  | H_handleRemoteDeployDaemon
  | H_handleDbSanityCheck
  | H_handleRegisterWorker
  | H_handleUpdatePeerMac
  | H_handleUpdatePeerMacInternal
  | H_handleSetupWireGuardPeer
  | H_handleListWireGuardPeers
  | H_handleGetWireGuardIp
  | H_handleSetupRdp.

#[export] Instance HandlerId_eq_dec : EqDecision HandlerId.
Proof. solve_decision. Defined.

Definition COMMAND_HANDLERS : list (string * HandlerId) := [
  ("", H_handleHelp);
  ("help", H_handleHelp);
  ("--help", H_handleHelp);
  ("ping", H_handlePing);
  ("version", H_handleVersion);
  ("quit", H_handleQuit);
  ("getDir", H_handleGetDir);
  ("getFile", H_handleGetFile);
  ("getSocketPath", H_handleGetSocketPath);
  ("listCommands", H_handleListCommands);
  ("testLsof", H_handleTestLsof);
  ("testEcho", H_handleTestEcho);
  ("testLsofScript", H_handleTestLsofScript);
  ("openedTty", H_handleOpenedTty);
  ("closedTty", H_handleClosedTty);
  ("updateDirHistory", H_handleUpdateDirHistory);
  ("cdForward", H_handleCdForward);
  ("cdBackward", H_handleCdBackward);
  ("shellSignal", H_handleShellSignal);
  ("showTerminalInstance", H_handleShowTerminalInstance);
  ("showAllTerminalInstances", H_handleShowAllTerminalInstances);
  ("printDirHistory", H_handlePrintDirHistory);
  ("emptyDirHistoryTable", H_handleEmptyDirHistoryTable);
  ("showEntriesByPrefix", H_handleShowEntriesByPrefix);
  ("deleteEntriesByPrefix", H_handleDeleteEntriesByPrefix);
  ("showDB", H_handleShowDb);
  ("deleteEntry", H_handleDeleteEntry);
  ("upsertEntry", H_handleUpsertEntry);
  ("getEntry", H_handleGetEntry);
  ("getKeyboardPath", H_handleGetKeyboardPath);
  ("getMousePath", H_handleGetMousePath);
  ("setKeyboard", H_handleSetKeyboard);
  ("getKeyboard", H_handleGetKeyboard);
  ("getKeyboardEnabled", H_handleGetKeyboard);
  ("toggleKeyboard", H_handleToggleKeyboard);
  ("disableKeyboard", H_handleDisableKeyboard);
  ("enableKeyboard", H_handleEnableKeyboard);
  ("simulateInput", H_handleSimulateInput);
  ("testIntegrity", H_handleTestIntegrity);
  ("getMacros", H_handleGetMacros);
  ("updateMacros", H_handleUpdateMacros);
  ("shouldLog", H_handleShouldLog);
  ("getShouldLog", H_handleGetShouldLog);
  ("registerLogListener", H_handleRegisterLogListener);
  ("getEventFilters", H_handleGetEventFilters);
  ("setEventFilters", H_handleSetEventFilters);
  ("registerWindowExtension", H_handleRegisterWindowExtension);
  ("listWindows", H_handleListWindows);
  ("activateWindow", H_handleActivateWindow);
  ("activeWindowChanged", H_handleActiveWindowChanged);
  ("getActiveContext", H_handleGetActiveContext);
  ("setActiveTabUrl", H_handleSetActiveTabUrl);
  ("registerNativeHost", H_handleRegisterNativeHost);
  ("focusChatGPT", H_handleFocusChatGPT);
  ("focusAck", H_handleFocusAck);
  ("getPort", H_handleGetPort);
  ("setPort", H_handleSetPort);
  ("listPorts", H_handleListPorts);
  ("deletePort", H_handleDeletePort);
  ("publicTransportationStartProxy", H_handlePublicTransportationStartProxy);
  ("publicTransportationOpenApp", H_handlePublicTransportationOpenApp);
  ("startApp", H_handleStartApp);
  ("stopApp", H_handleStopApp);
  ("restartApp", H_handleRestartApp);
  ("appStatus", H_handleAppStatus);
  ("listApps", H_handleListApps);
  ("buildApp", H_handleBuildApp);
  ("installAppDeps", H_handleInstallAppDeps);
  ("enableApp", H_handleEnableApp);
  ("disableApp", H_handleDisableApp);
  ("addExtraApp", H_handleAddExtraApp);
  ("removeExtraApp", H_handleRemoveExtraApp);
  ("listExtraApps", H_handleListExtraApps);
  ("deployToProd", H_handleDeployToProd);
  ("prodStatus", H_handleProdStatus);
  ("cleanProd", H_handleCleanProd);
  ("getAppPeers", H_handleGetAppPeers);
  ("installAppOnPeer", H_handleInstallAppOnPeer);
  ("uninstallAppOnPeer", H_handleUninstallAppOnPeer);
  ("startAppOnPeer", H_handleStartAppOnPeer);
  ("stopAppOnPeer", H_handleStopAppOnPeer);
  ("installAppServices", H_handleInstallAppServices);
  ("setPeerConfig", H_handleSetPeerConfig);
  ("getPeerStatus", H_handleGetPeerStatus);
  ("registerPeer", H_handleRegisterPeer);
  ("listPeers", H_handleListPeers);
  ("deletePeer", H_handleDeletePeer);
  ("getPeerInfo", H_handleGetPeerInfo);
  ("execOnPeer", H_handleExecOnPeer);
  ("execRequest", H_handleExecRequest);
  ("remotePull", H_handleRemotePull);
  ("remoteBd", H_handleRemoteBd);
  ("remoteDeployDaemon", H_handleRemoteDeployDaemon);
  ("dbSanityCheck", H_handleDbSanityCheck);
  ("registerWorker", H_handleRegisterWorker);
  ("updatePeerMac", H_handleUpdatePeerMac);
  ("updatePeerMacInternal", H_handleUpdatePeerMacInternal);
  ("setupWireGuardPeer", H_handleSetupWireGuardPeer);
  ("listWireGuardPeers", H_handleListWireGuardPeers);
  ("getWireGuardIp", H_handleGetWireGuardIp);
  ("setupRdp", H_handleSetupRdp)
].
