(* ===== verification/Dispatch.v ===== *)
(** The command dispatcher (src/mainCommand.cpp): validation, dispatch, the
    response, and the thread that runs a slow command.  The handlers are the
    argument [run]: they act on a state [W] of their own, read the global
    g_clientSocket, and may throw. *)

From S2P Require Import Prelude Stdio Types Json Registry.

(** static getCommandLogContext *)
Definition getCommandLogContext (commandName : string) : Z * string :=
  if decide (commandName ∈ ["focusChatGPT"; "setActiveTabUrl"; "focusAck"; "registerNativeHost"])
  then (LOG_CHROME, "[Chrome]")
  else if decide (commandName ∈ ["updateDirHistory"; "openedTty"; "closedTty"; "cdForward";
                                 "cdBackward"; "showTerminalInstance";
                                 "showAllTerminalInstances"])
  then (LOG_TERMINAL, "[Terminal]")
  else if decide (commandName = "activeWindowChanged") then (LOG_WINDOW, "[Window]")
  else (LOG_NETWORK, "[Network]").

(** The first registry entry of a name. *)
Definition find_command (commandName : string) : option CommandSignature :=
  snd <$> list_find (fun c => sig_name c = commandName) COMMAND_REGISTRY.

(** The first required argument a command lacks. *)
Definition first_missing (args : list string) (command : json) : option string :=
  snd <$> list_find (fun a => Json.contains a command = false) args.

Definition validateCommand (command : json) : outcome CmdResult :=
  if negb (Json.contains "command" command) then Ok (mkCmdResult 1 "Missing command key")
  else
    commandName ← Json.string_at "command" command;
    match find_command commandName with
    | None => Ok (mkCmdResult 1 ("Unknown command: " +:+ commandName +:+ eol))
    | Some foundCommand =>
        match first_missing (requiredArgs foundCommand) command with
        | Some arg => Ok (mkCmdResult 1 ("Missing required arg: " +:+ arg +:+ eol))
        | None => Ok (mkCmdResult 0 "")
        end
    end.

(** The first handler of a name. *)
Definition find_handler (commandName : string) : option HandlerId :=
  (fun p => p.2.2) <$> list_find (fun h => h.1 = commandName) COMMAND_HANDLERS.

(** A non-empty message ends with a newline. *)
Definition end_line (message : string) : string :=
  if negb (Str.empty message) && negb (Str.ends_with_char lf message)
  then (message +:+ eol)%string else message.

(** The commands whose socket stays open, and those handed over to a thread. *)
Definition kept_open : list string :=
  ["registerLogListener"; "registerWindowExtension"; "registerNativeHost"].
Definition slow_commands : list string :=
  ["remoteDeployDaemon"; "execOnPeer"; "remotePull"; "remoteBd"; "execRequest";
   "installAppOnPeer"; "uninstallAppOnPeer"; "startAppOnPeer"; "stopAppOnPeer"].

Section Dispatch.
(** A handler, given g_clientSocket *)
Context {W : Type} (run : Z -> HandlerId -> json -> M W CmdResult).
(** nlohmann's dump, and what() of an exception *)
Context (dump : json -> string) (what : exn -> string).

(** The state of the dispatcher: the handlers' state, the messages written to
    each socket, the sockets closed, the threads still to run, and the global
    g_clientSocket. *)
Record DS := mkDS {
  world : W;
  sent : list (Z * string);
  closed : list Z;
  threads : list (json * Z);
  g_clientSocket : Z
}.

Definition write_to (sock : Z) (message : string) (s : DS) : DS :=
  mkDS (world s) (sent s ++ [(sock, message)]) (closed s) (threads s) (g_clientSocket s).

Definition error_result (e : exn) : CmdResult := mkCmdResult 1 ("error: " +:+ what e +:+ eol).

(** The body of the try block. *)
Definition dispatch (sock : Z) (command : json) : M W CmdResult :=
  let! integrityCheck := lift (validateCommand command) in
  if negb (status integrityCheck =? 0) then mret integrityCheck
  else
    let! commandName := lift (Json.string_at "command" command) in
    match find_handler commandName with
    | Some h => run sock h command
    | None => mret (mkCmdResult 1 ("Unhandled command: " +:+ dump command +:+ eol))
    end.

Definition guarded (m : M W CmdResult) : M W CmdResult :=
  try_catch m (fun e => mret (error_result e)).

(** Run a guarded computation on the handlers' state. *)
Definition run_guarded (m : M W CmdResult) (s : DS) : DS * CmdResult :=
  match guarded m (world s) with
  | (w, Ok r) => (mkDS w (sent s) (closed s) (threads s) (g_clientSocket s), r)
  | (w, Throw e) => (mkDS w (sent s) (closed s) (threads s) (g_clientSocket s), error_result e)
  end.

(** The command name read before the try block: it throws when the member is
    not a string. *)
Definition command_name (command : json) : outcome string :=
  if Json.contains "command" command then Json.string_at "command" command else Ok "".

Definition mainCommand (command : json) (client_sock : Z) : M DS Z := fun s =>
  let s := mkDS (world s) (sent s) (closed s) (threads s) client_sock in
  match command_name command with
  | Throw e => (s, Throw e)
  | Ok commandName =>
      let '(s, result) := run_guarded (dispatch (g_clientSocket s) command) s in
      let s := write_to client_sock (end_line (message result)) s in
      if decide (commandName = "closedTty") then (s, Ok 1)
      else if decide (commandName ∈ kept_open) then (s, Ok 0)
      else if decide (commandName ∈ slow_commands) then
        (mkDS (world s) (sent s) (closed s) (threads s ++ [(command, client_sock)])
           (g_clientSocket s), Ok 2)
      else (s, Ok 1)
  end.

(** The detached thread: the name is read again (it is a string there, since it is
    one of the slow commands), and the handler looked up without validation. *)
Definition async_handler (sock : Z) (command : json) : M W CmdResult :=
  let! commandName := lift (Json.string_at "command" command) in
  match find_handler commandName with
  | Some h => run sock h command
  | None => mret (mkCmdResult 1 ("Async handler not found" +:+ eol))
  end.

Definition thread_body (command : json) (client_sock : Z) (s : DS) : DS :=
  let '(s, result) := run_guarded (async_handler (g_clientSocket s) command) s in
  let s := write_to client_sock (end_line (message result)) s in
  mkDS (world s) (sent s) (closed s ++ [client_sock]) (threads s) (g_clientSocket s).

(** The thread [i] runs to its end; threads end in any order. *)
Definition run_thread (i : nat) (s : DS) : DS :=
  match threads s !! i with
  | Some (command, client_sock) =>
      thread_body command client_sock
        (mkDS (world s) (sent s) (closed s) (base.delete i (threads s)) (g_clientSocket s))
  | None => s
  end.

(** ** Responses *)

Definition result_of (o : outcome CmdResult) : CmdResult :=
  match o with Ok r => r | Throw e => error_result e end.

Lemma guarded_eq m w : guarded m w = ((m w).1, Ok (result_of (m w).2)).
Proof using Type. unfold guarded, try_catch. by destruct (m w) as [w' []]. Qed.

Lemma run_guarded_eq m s :
  run_guarded m s =
  (mkDS (m (world s)).1 (sent s) (closed s) (threads s) (g_clientSocket s),
   result_of (m (world s)).2).
Proof using Type. unfold run_guarded. by rewrite guarded_eq. Qed.

Lemma end_line_ends m : Str.empty (end_line m) = true \/ Str.back (end_line m) = Some lf.
Proof using Type.
  unfold end_line. destruct (Str.empty m) eqn:E; simpl; [by left|].
  destruct (Str.ends_with_char lf m) eqn:E2; simpl; right.
  - unfold Str.ends_with_char in E2. destruct (Str.back m); [|done].
    by apply bool_decide_eq_true in E2 as ->.
  - apply Str.back_snoc.
Qed.

(** What mainCommand returns for a name. *)
Definition close_code (commandName : string) : Z :=
  if decide (commandName ∈ kept_open) then 0
  else if decide (commandName ∈ slow_commands) then 2 else 1.

(** Why a command is not run: it has no name, no command has it, or an argument is missing. *)
Definition refusal (name : string) (command : json) : option string :=
  if negb (Json.contains "command" command) then Some "Missing command key"
  else
    match find_command name with
    | None => Some ("Unknown command: " +:+ name +:+ eol)%string
    | Some c => (fun arg => "Missing required arg: " +:+ arg +:+ eol)%string
                  <$> first_missing (requiredArgs c) command
    end.

Lemma dispatch_cases command sock name w : command_name command = Ok name ->
  dispatch sock command w =
  match refusal name command, find_handler name with
  | Some text, _ => (w, Ok (mkCmdResult 1 text))
  | None, Some h => run sock h command w
  | None, None => (w, Ok (mkCmdResult 1 ("Unhandled command: " +:+ dump command +:+ eol)))
  end.
Proof using Type.
  intros En. unfold command_name in En. unfold dispatch, validateCommand, refusal.
  destruct (Json.contains "command" command); [|done].
  cbn [negb]. rewrite En. cbn [mbind]. unfold bindM, M_bind, lift. simpl.
  destruct (find_command name) as [c|]; [|done].
  destruct (first_missing (requiredArgs c) command); [done|]. simpl. by destruct (find_handler name).
Qed.

(** C9: a command whose "command" member is a string or absent is answered by exactly one
    message on its own socket: the text of the refusal when it has no name, an unknown
    name or lacks an argument, and then nothing was run; otherwise what the handler of that
    name, run once on the state, answered, or the text of the exception it threw.  The
    message ends with a newline unless it is empty.  mainCommand returns normally, and
    nothing else changes: 0 keeps the socket (the three register commands), 2 hands it to a
    thread (the slow commands), 1 closes it.  A "command" member that is not a string makes
    mainCommand itself throw, before anything is written. *)
Theorem mainCommand_answers (command : json) (sock : Z) (s : DS) :
  match command_name command with
  | Ok name =>
      let '(w, r) :=
        match refusal name command, find_handler name with
        | Some text, _ => (world s, mkCmdResult 1 text)
        | None, Some h => let '(w, o) := run sock h command (world s) in (w, result_of o)
        | None, None => (world s, mkCmdResult 1 ("Unhandled command: " +:+ dump command +:+ eol))
        end in
      let answer := end_line (message r) in
      mainCommand command sock s =
        (mkDS w (sent s ++ [(sock, answer)]) (closed s)
           (threads s ++ (if decide (close_code name = 2) then [(command, sock)] else [])) sock,
         Ok (close_code name)) /\
      (Str.empty answer = true \/ Str.back answer = Some lf)
  | Throw e => mainCommand command sock s =
      (mkDS (world s) (sent s) (closed s) (threads s) sock, Throw e) /\
      exists v, Json.member "command" command = Some v /\ Json.is_string v = false
  end.
Proof using Type.
  unfold mainCommand. destruct (command_name command) as [name|e] eqn:En.
  - rewrite run_guarded_eq. cbn [world sent closed threads g_clientSocket].
    rewrite (dispatch_cases _ _ _ _ En).
    assert (forall w r, let s' := write_to sock (end_line (message r)) (mkDS w (sent s) (closed s) (threads s) sock) in
      (if decide (name = "closedTty") then (s', Ok 1)
       else if decide (name ∈ kept_open) then (s', Ok 0)
       else if decide (name ∈ slow_commands) then
         (mkDS (world s') (sent s') (closed s') (threads s' ++ [(command, sock)]) (g_clientSocket s'), Ok 2)
       else (s', Ok 1)) =
      (mkDS w (sent s ++ [(sock, end_line (message r))]) (closed s)
         (threads s ++ (if decide (close_code name = 2) then [(command, sock)] else [])) sock,
       Ok (close_code name)) /\
      (Str.empty (end_line (message r)) = true \/ Str.back (end_line (message r)) = Some lf)) as H.
    { intros w r. split; [|apply end_line_ends]. unfold close_code.
      destruct (decide (name = "closedTty")) as [->|Hc]; [|destruct (decide (name ∈ kept_open));
        [|destruct (decide (name ∈ slow_commands))]]; cbn; by rewrite ?app_nil_r. }
    destruct (refusal name command); [apply H|]. destruct (find_handler name); [|apply H].
    destruct (run sock h command (world s)). apply H.
  - split; [done|]. unfold command_name, Json.contains, Json.string_at, Json.at_key in En.
    destruct (Json.member "command" command) as [v|]; [|done].
    exists v. split; [done|]. by destruct v.
Qed.

(** A slow command whose arguments do not validate is refused and still run: the
    thread calls the handler without them. *)
Lemma slow_command_unvalidated (command : json) (name : string) (h : HandlerId) (r : CmdResult)
    (sock : Z) (s : DS) :
  Json.member "command" command = Some (JString name) -> find_handler name = Some h ->
  validateCommand command = Ok r -> status r <> 0 ->
  world (run_guarded (dispatch (g_clientSocket s) command) s).1 = world s /\
  world (thread_body command sock s) = (run (g_clientSocket s) h command (world s)).1.
Proof using Type.
  intros Hn Hh Hv Hr%Z.eqb_neq. split.
  - rewrite run_guarded_eq. unfold dispatch, bindM, M_bind, lift. rewrite Hv, Hr. done.
  - unfold thread_body. rewrite run_guarded_eq. unfold async_handler, bindM, M_bind, lift.
    by rewrite (proj2 (Json.string_at_member _ _ _) Hn), Hh.
Qed.

Lemma slow_not_kept name : name ∈ slow_commands -> name <> "closedTty" /\ name ∉ kept_open.
Proof using Type.
  assert (Forall (fun n => bool_decide (n <> "closedTty" /\ n ∉ kept_open) = true) slow_commands)
    as H by (repeat constructor).
  rewrite Forall_forall in H. intros Hn%H. by apply bool_decide_eq_true in Hn.
Qed.

(** A slow command runs twice: once before mainCommand returns and once more
    in the thread it is handed to, and both answers are written to the socket;
    the thread then closes it. *)
Theorem slow_command_runs_twice (command : json) (name : string) (h : HandlerId) (sock : Z)
    (s : DS) :
  Json.member "command" command = Some (JString name) -> name ∈ slow_commands ->
  validateCommand command = Ok (mkCmdResult 0 "") -> find_handler name = Some h ->
  threads s = [] ->
  let twice := let! _ := guarded (run sock h command) in guarded (run sock h command) in
  let s1 := (mainCommand command sock s).1 in
  let s2 := run_thread 0 s1 in
  world s2 = (twice (world s)).1 /\
  length (sent s2) = (length (sent s) + 2)%nat /\
  threads s1 = [(command, sock)] /\ threads s2 = [] /\ closed s2 = closed s ++ [sock].
Proof using Type.
  intros Hn Hslow Hv Hh Ht. cbv zeta.
  assert (command_name command = Ok name) as En.
  { unfold command_name, Json.contains. by rewrite Hn, (proj2 (Json.string_at_member _ _ _) Hn). }
  assert (forall w, dispatch sock command w = run sock h command w) as Hd.
  { intros w. unfold dispatch, bindM, M_bind, lift. rewrite Hv. simpl.
    rewrite (proj2 (Json.string_at_member _ _ _) Hn). by rewrite Hh. }
  assert (forall w, async_handler sock command w = run sock h command w) as Ha.
  { intros w. unfold async_handler, bindM, M_bind, lift.
    by rewrite (proj2 (Json.string_at_member _ _ _) Hn), Hh. }
  unfold mainCommand. rewrite En.
  assert (name <> "closedTty" /\ name ∉ kept_open) as [H1 H2].
  { by apply slow_not_kept. }
  rewrite run_guarded_eq. cbn [world sent closed threads g_clientSocket].
  rewrite Hd, (decide_False _ _ H1), (decide_False _ _ H2), (decide_True _ _ Hslow).
  cbn [fst snd write_to world sent closed threads g_clientSocket]. rewrite Ht.
  unfold run_thread. cbn [app threads lookup list_lookup].
  unfold thread_body. rewrite run_guarded_eq.
  cbn [fst snd write_to world sent closed threads g_clientSocket]. rewrite Ha.
  split; [|rewrite !length_app; simpl; repeat split; lia].
  unfold bindM, M_bind. pose proof (guarded_eq (run sock h command) (world s)) as ->.
  by rewrite guarded_eq.
Qed.
(** ** What every handler keeps *)

(** The name read inside the handlers is the one read before them. *)
Lemma command_name_string c name :
  Json.string_at "command" c = Ok name -> command_name c = Ok name.
Proof using Type.
  intros H. unfold command_name, Json.contains.
  by rewrite (proj1 (Json.string_at_member _ _ _) H).
Qed.

Section Keeps.
Context (P : W -> Prop) (command : json).

(** The handlers that can run for the command keep [P]. *)
Context (HP : forall name h, command_name command = Ok name -> find_handler name = Some h ->
  forall sock w, P w -> P (run sock h command w).1).

Lemma dispatch_keeps sock w : P w -> P (dispatch sock command w).1.
Proof using HP.
  intros Hw. unfold dispatch, bindM, M_bind, lift.
  destruct (validateCommand command) as [r|]; [|done]. destruct (negb _); [done|].
  destruct (Json.string_at "command" command) as [name|] eqn:En; [|done].
  apply command_name_string in En. destruct (find_handler name) as [h|] eqn:Eh; [|done].
  by eapply HP.
Qed.

Lemma async_keeps sock w : P w -> P (async_handler sock command w).1.
Proof using HP.
  intros Hw. unfold async_handler, bindM, M_bind, lift.
  destruct (Json.string_at "command" command) as [name|] eqn:En; [|done].
  apply command_name_string in En. destruct (find_handler name) as [h|] eqn:Eh; [|done].
  by eapply HP.
Qed.

Lemma mainCommand_keeps sock s :
  P (world s) -> P (world (mainCommand command sock s).1) /\
  (threads (mainCommand command sock s).1 = threads s \/
   threads (mainCommand command sock s).1 = threads s ++ [(command, sock)]).
Proof using HP.
  intros Hs. pose proof (dispatch_keeps sock (world s) Hs) as H. clear HP.
  unfold mainCommand. destruct (command_name command) as [name|]; [|by split; [|left]].
  rewrite run_guarded_eq.
  repeat case_decide; (split; [exact H|]); [by left|by left|by right|by left].
Qed.

Lemma thread_body_keeps sock s :
  P (world s) -> P (world (thread_body command sock s)) /\
  threads (thread_body command sock s) = threads s.
Proof using HP.
  intros Hs. unfold thread_body. rewrite run_guarded_eq. split; [by apply async_keeps|done].
Qed.
End Keeps.
End Dispatch.

(** ** Validation *)

Lemma list_find_first {A} (P : A -> Prop) `{forall x, Decision (P x)} l :
  match list_find P l with
  | Some (i, x) => l !! i = Some x /\ P x /\ forall j y, l !! j = Some y -> (j < i)%nat -> ~ P y
  | None => Forall (fun x => ~ P x) l
  end.
Proof.
  destruct (list_find P l) as [[i x]|] eqn:E; [by apply list_find_Some in E|].
  by apply list_find_None in E.
Qed.

(** Validation accepts a command exactly when its name is in the registry and
    every required argument of the name's first entry is there; otherwise the
    answer names the unknown command or the first missing argument, in the order
    of the registry. *)
Theorem validate_spec (command : json) (name : string) :
  Json.member "command" command = Some (JString name) ->
  match validateCommand command with
  | Ok r =>
      match find_command name with
      | None => (forall c, c ∈ COMMAND_REGISTRY -> sig_name c <> name) /\
                r = mkCmdResult 1 ("Unknown command: " +:+ name +:+ eol)
      | Some c =>
          c ∈ COMMAND_REGISTRY /\ sig_name c = name /\
          ((status r = 0 /\ forall a, a ∈ requiredArgs c -> Json.contains a command = true) \/
           (exists i a, requiredArgs c !! i = Some a /\ Json.contains a command = false /\
              (forall j b, (j < i)%nat -> requiredArgs c !! j = Some b ->
                 Json.contains b command = true) /\
              r = mkCmdResult 1 ("Missing required arg: " +:+ a +:+ eol)))
      end
  | Throw _ => False
  end.
Proof.
  intros Hn. unfold validateCommand.
  assert (Json.contains "command" command = true) as -> by (unfold Json.contains; by rewrite Hn).
  rewrite (proj2 (Json.string_at_member _ _ _) Hn). cbn [negb mbind outcome_bind].
  unfold find_command.
  pose proof (list_find_first (fun c => sig_name c = name) COMMAND_REGISTRY) as Hf.
  destruct (list_find (fun c => sig_name c = name) COMMAND_REGISTRY) as [[i c]|];
    cbn [fmap option_fmap option_map snd].
  2: { split; [|done]. intros c Hc. rewrite Forall_forall in Hf. by apply Hf. }
  destruct Hf as (Hc & Hcn & _). unfold first_missing.
  pose proof (list_find_first (fun a => Json.contains a command = false) (requiredArgs c)) as Hm.
  destruct (list_find _ (requiredArgs c)) as [[k a]|]; cbn [fmap option_fmap option_map snd];
    (split; [by eapply list_elem_of_lookup_2|]); (split; [done|]).
  - right. destruct Hm as (Ha & Hca & Hlow). exists k, a. repeat split; try done.
    intros j b Hj Hb. apply not_false_iff_true. by apply (Hlow j b).
  - left. split; [done|]. intros a Ha. rewrite Forall_forall in Hm.
    apply not_false_iff_true. by apply Hm.
Qed.

Definition tty_only : json := JObject [("command", JString "updateDirHistory"); ("tty", JInt 3)].

Lemma validate_spec_witness :
  exists i a, ["tty"; "pwd"] !! i = Some a /\ Json.contains a tty_only = false /\
    mkCmdResult 1 ("Missing required arg: pwd" +:+ eol) =
    mkCmdResult 1 ("Missing required arg: " +:+ a +:+ eol).
Proof.
  destruct (validate_spec tty_only "updateDirHistory" eq_refl)
    as (_ & _ & [[Hs _]|(i & a & Ha & Hc & _ & Hr)]); [discriminate Hs|].
  exists i, a. exact (conj Ha (conj Hc Hr)).
Defined.

Definition has_handler (n : string) : bool :=
  match find_handler n with Some _ => true | None => false end.
Definition is_registered (n : string) : bool :=
  match find_command n with Some _ => true | None => false end.

(** No name is listed twice in the registry or in the dispatch table; every
    handler is reachable through a registered name; and every registered command
    has a handler but the four log filter commands, which pass validation and are
    answered with "Unhandled command". *)
Theorem registry_handlers :
  NoDup (sig_name <$> COMMAND_REGISTRY) /\ NoDup (fst <$> COMMAND_HANDLERS) /\
  forallb is_registered (fst <$> COMMAND_HANDLERS) = true /\
  List.filter (fun n => negb (has_handler n)) (sig_name <$> COMMAND_REGISTRY) =
    ["addLogFilter"; "removeLogFilter"; "listLogFilters"; "clearLogFilters"].
Proof.
  split; [|split; [|split; vm_compute; reflexivity]].
  - refine (bool_decide_unpack _ _). vm_compute. exact I.
  - refine (bool_decide_unpack _ _). vm_compute. exact I.
Qed.

(** ** A run of the dispatcher *)

(** Handlers that count their calls. *)
Definition counting (sock : Z) (h : HandlerId) (command : json) : M nat CmdResult :=
  let! _ := modify S in mret (mkCmdResult 0 "done").
Definition no_text (e : exn) : string := "".
Definition exec_command : json :=
  JObject [("command", JString "remotePull"); ("peer", JString "p")].
Definition start_state : DS := mkDS 0%nat [] [] [] (-1).

Lemma slow_command_runs_twice_witness :
  world (run_thread counting no_text 0
    (mainCommand counting (fun _ => "") no_text exec_command 7 start_state).1) = 2%nat.
Proof.
  apply (slow_command_runs_twice counting (fun _ => "") no_text exec_command "remotePull"
    H_handleRemotePull 7 start_state);
    [reflexivity|by repeat constructor|vm_compute; reflexivity|vm_compute; reflexivity|reflexivity].
Defined.
