(* ===== verification/Server.v ===== *)
(** The socket server (src/DaemonServer.cpp): the clients and peers of the select
    loop, the framing of their data into lines, and what closes a connection.

    What the server asks of the other components is the class [DaemonWorld]; its
    instance [dispatch_world] is the dispatcher of Dispatch.  A computation that ends
    in [Throw] is an exception nothing catches: the daemon terminates. *)

From S2P Require Import Prelude Stdio Types Json Registry Dispatch.

(** struct PeerClientState, without its unused flag *)
Record PeerClientState := mkPeerState { pc_buffer : string; pc_ip : string; pc_id : string }.

(** The line before the first newline, and what follows it. *)
Fixpoint find_nl (s : string) : option (string * string) :=
  match s with
  | EmptyString => None
  | String c s' =>
      if decide (c = lf) then Some (EmptyString, s')
      else match find_nl s' with
           | Some (a, b) => Some (String c a, b)
           | None => None
           end
  end.

(** A trailing carriage return is dropped. *)
Definition strip_cr (line : string) : string :=
  if Str.ends_with_char "013" line then Str.pop_back line else line.

Definition invalid_json : string := ("ERROR: Invalid JSON" +:+ eol)%string.

(** What the server asks of the rest of the daemon, on a state [W] of its own:
    the dispatcher, the sockets ([opened] is a descriptor accept() gave), the log subscribers, the peer tables (touchLastSeen
    and updateOnlineStatus), the application status of a peer ([None] clears it)
    and the connection of a worker to its leader. *)
Class DaemonWorld (W : Type) := {
  main : json -> Z -> M W Z;
  write_sock : Z -> string -> W -> W;
  opened : Z -> W -> W;
  close_sock : Z -> W -> W;
  unsubscribe : Z -> W -> W;
  touch : string -> option Z -> W -> W;
  offline : string -> W -> W;
  app_status : string -> option json -> W -> W;
  getLeaderSocket : W -> Z;
  isConnectedToLeader : W -> bool;
  disconnectFromLeader : W -> W
}.

Section Server.
Context {W : Type} `{DaemonWorld W}.
(** nlohmann's json::parse *)
Context (parse : string -> outcome json).

Record SS := mkSS {
  world_ : W;
  clients : list (Z * string);
  peer_clients : list (Z * PeerClientState);
  leader_buffer : string
}.

Definition upd_world (f : W -> W) (s : SS) : SS :=
  mkSS (f (world_ s)) (clients s) (peer_clients s) (leader_buffer s).
Definition set_clients (c : list (Z * string)) (s : SS) : SS :=
  mkSS (world_ s) c (peer_clients s) (leader_buffer s).
Definition set_peer_clients (p : list (Z * PeerClientState)) (s : SS) : SS :=
  mkSS (world_ s) (clients s) p (leader_buffer s).
Definition set_leader_buffer (b : string) (s : SS) : SS :=
  mkSS (world_ s) (clients s) (peer_clients s) b.

(** ** Local clients *)

Definition accept_new_client (fd : Z) (s : SS) : SS :=
  set_clients (StdMap.insert fd "" (clients s)) (upd_world (opened fd) s).

(** clients[fd] *)
Definition client_buffer (fd : Z) (s : SS) : string := default "" (StdMap.find fd (clients s)).
Definition set_buffer (fd : Z) (b : string) (s : SS) : SS :=
  set_clients (StdMap.insert fd b (clients s)) s.

(** Stop tracking a client, closing its socket or leaving it to a thread. *)
Definition drop_client (fd : Z) (s : SS) : SS :=
  set_clients (StdMap.erase fd (clients s)) (upd_world (unsubscribe fd) s).
Definition close_client (fd : Z) (s : SS) : SS :=
  set_clients (StdMap.erase fd (clients s))
    (upd_world (fun w => close_sock fd (unsubscribe fd w)) s).

(** The while loop of handle_client_data; [None] when the fuel runs out. *)
Fixpoint client_loop (fuel : nat) (fd : Z) (s : SS) : option (SS * outcome unit) :=
  match fuel with
  | O => None
  | S fuel' =>
      match find_nl (client_buffer fd s) with
      | None => Some (s, Ok tt)
      | Some (command, rest) =>
          let s := set_buffer fd rest s in
          match parse (strip_cr command) with
          | Throw _ => client_loop fuel' fd (upd_world (write_sock fd invalid_json) s)
          | Ok j =>
              match main j fd (world_ s) with
              | (w, Throw e) => Some (upd_world (fun _ => w) s, Throw e)
              | (w, Ok res) =>
                  let s := upd_world (fun _ => w) s in
                  if res =? 1 then Some (close_client fd s, Ok tt)
                  else if res =? 2 then Some (drop_client fd s, Ok tt)
                  else client_loop fuel' fd s
              end
          end
      end
  end.

(** What read() gives: data, or the end of the stream. *)
Definition handle_client_data (fd : Z) (data : option string) (s : SS) : option (SS * outcome unit) :=
  match data with
  | None => Some (close_client fd s, Ok tt)
  | Some chunk =>
      let s := set_buffer fd (client_buffer fd s +:+ c_string chunk)%string s in
      client_loop (S (String.length (client_buffer fd s))) fd s
  end.

(** ** Peers *)

Definition accept_new_peer (fd : Z) (ip : string) (s : SS) : SS :=
  set_peer_clients (StdMap.insert fd (mkPeerState "" ip "") (peer_clients s))
    (upd_world (opened fd) s).

Definition peer_state (fd : Z) (s : SS) : PeerClientState :=
  default (mkPeerState "" "" "") (StdMap.find fd (peer_clients s)).
Definition set_peer (fd : Z) (p : PeerClientState) (s : SS) : SS :=
  set_peer_clients (StdMap.insert fd p (peer_clients s)) s.
Definition set_peer_id (fd : Z) (id : string) (s : SS) : SS :=
  let p := peer_state fd s in set_peer fd (mkPeerState (pc_buffer p) (pc_ip p) id) s.

(** j.contains("command") && j["command"] == name && j.contains("peer_id") *)
Definition peer_message (name : string) (j : json) : bool :=
  match Json.member "command" j with
  | Some (JString c) => bool_decide (c = name) && Json.contains "peer_id" j
  | _ => false
  end.

(** The appStatus member, when it is an object. *)
Definition app_status_of (j : json) : option json :=
  match Json.member "appStatus" j with
  | Some (JObject l) => Some (JObject l)
  | _ => None
  end.
Definition record_status (id : string) (j : json) (s : SS) : SS :=
  match app_status_of j with Some st => upd_world (app_status id (Some st)) s | None => s end.

(** A heartbeat only updates the last-seen time. *)
Definition heartbeat (fd : Z) (j : json) : M SS unit :=
  let! id := lift (Json.string_at "peer_id" j) in
  let! v := lift (match Json.member "daemon_version" j with
                  | Some v => Some <$> Json.get_int32 v
                  | None => Ok None
                  end) in
  modify (fun s =>
    let s := record_status id j (upd_world (touch id v) s) in
    if Str.empty (pc_id (peer_state fd s)) then set_peer_id fd id s else s).

(** registerPeer also names the connection. *)
Definition track_peer_id (fd : Z) (j : json) : M SS unit :=
  if peer_message "registerPeer" j then
    let! id := lift (Json.string_at "peer_id" j) in
    modify (fun s => record_status id j (set_peer_id fd id s))
  else mret tt.

(** Run mainCommand and ignore what it returns. *)
Definition run_main (j : json) (fd : Z) : M SS unit := fun s =>
  match main j fd (world_ s) with
  | (w, Ok _) => (upd_world (fun _ => w) s, Ok tt)
  | (w, Throw e) => (upd_world (fun _ => w) s, Throw e)
  end.

(** One message of a peer. *)
Definition peer_line (fd : Z) (line : string) : M SS unit :=
  match parse (strip_cr line) with
  | Throw _ => modify (upd_world (write_sock fd invalid_json))
  | Ok j =>
      if peer_message "heartbeat" j then heartbeat fd j
      else let! _ := track_peer_id fd j in run_main j fd
  end.

Fixpoint peer_loop (fuel : nat) (fd : Z) (s : SS) : option (SS * outcome unit) :=
  match fuel with
  | O => None
  | S fuel' =>
      let p := peer_state fd s in
      match find_nl (pc_buffer p) with
      | None => Some (s, Ok tt)
      | Some (line, rest) =>
          match peer_line fd line (set_peer fd (mkPeerState rest (pc_ip p) (pc_id p)) s) with
          | (s, Ok _) => peer_loop fuel' fd s
          | (s, Throw e) => Some (s, Throw e)
          end
      end
  end.

Definition handle_peer_data (fd : Z) (data : option string) (s : SS) : option (SS * outcome unit) :=
  let p := peer_state fd s in
  match data with
  | None =>
      let s := if Str.empty (pc_id p) then s
               else upd_world (fun w => app_status (pc_id p) None (offline (pc_id p) w)) s in
      Some (set_peer_clients (StdMap.erase fd (peer_clients s)) (upd_world (close_sock fd) s), Ok tt)
  | Some chunk =>
      let b := (pc_buffer p +:+ c_string chunk)%string in
      peer_loop (S (String.length b)) fd (set_peer fd (mkPeerState b (pc_ip p) (pc_id p)) s)
  end.

(** ** The leader *)

(** Only objects with a command are run; responses are ignored. *)
Definition leader_line (leader_fd : Z) (line : string) : M SS unit :=
  match parse (strip_cr line) with
  | Throw _ => mret tt
  | Ok j =>
      if negb (Json.is_object j) || negb (Json.contains "command" j) then mret tt
      else run_main j leader_fd
  end.

Fixpoint leader_loop (fuel : nat) (leader_fd : Z) (s : SS) : option (SS * outcome unit) :=
  match fuel with
  | O => None
  | S fuel' =>
      match find_nl (leader_buffer s) with
      | None => Some (s, Ok tt)
      | Some (line, rest) =>
          match leader_line leader_fd line (set_leader_buffer rest s) with
          | (s, Ok _) => leader_loop fuel' leader_fd s
          | (s, Throw e) => Some (s, Throw e)
          end
      end
  end.

Definition handle_leader_data (data : option string) (s : SS) : option (SS * outcome unit) :=
  let leader_fd := getLeaderSocket (world_ s) in
  if leader_fd <? 0 then Some (s, Ok tt)
  else match data with
       | None => Some (set_leader_buffer "" (upd_world disconnectFromLeader s), Ok tt)
       | Some chunk =>
           let b := (leader_buffer s +:+ c_string chunk)%string in
           leader_loop (S (String.length b)) leader_fd (set_leader_buffer b s)
       end.

(** ** One round of the select loop *)

(** What select() reported: new connections, and what reading each ready
    descriptor gives. *)
Record Ready := mkReady {
  new_client : option Z;
  new_peer : option (Z * string);
  client_ready : Z -> option (option string);
  peer_ready : Z -> option (option string);
  leader_ready : option (option string)
}.

(** for (int fd : fds) if (FD_ISSET(fd) && still connected) handle(fd) *)
Fixpoint each_fd (handle : Z -> option string -> SS -> option (SS * outcome unit))
    (ready : Z -> option (option string)) (connected : Z -> SS -> bool) (fds : list Z) (s : SS)
    : option (SS * outcome unit) :=
  match fds with
  | [] => Some (s, Ok tt)
  | fd :: rest =>
      match ready fd with
      | Some data =>
          if connected fd s then
            match handle fd data s with
            | Some (s, Ok _) => each_fd handle ready connected rest s
            | other => other
            end
          else each_fd handle ready connected rest s
      | None => each_fd handle ready connected rest s
      end
  end.

Definition is_client (fd : Z) (s : SS) : bool := bool_decide (fd ∈ (clients s).*1).
Definition is_peer (fd : Z) (s : SS) : bool := bool_decide (fd ∈ (peer_clients s).*1).

Definition daemon_round (r : Ready) (s : SS) : option (SS * outcome unit) :=
  let leader_fd := if isConnectedToLeader (world_ s) then getLeaderSocket (world_ s) else -1 in
  let s := match new_client r with Some fd => accept_new_client fd s | None => s end in
  let s := match new_peer r with Some (fd, ip) => accept_new_peer fd ip s | None => s end in
  match each_fd handle_client_data (client_ready r) is_client (clients s).*1 s with
  | Some (s, Ok _) =>
      match each_fd handle_peer_data (peer_ready r) is_peer (peer_clients s).*1 s with
      | Some (s, Ok _) =>
          match leader_ready r with
          | Some data => if 0 <=? leader_fd then handle_leader_data data s else Some (s, Ok tt)
          | None => Some (s, Ok tt)
          end
      | other => other
      end
  | other => other
  end.

(** The connections the loop watches, besides the two listening sockets. *)
Definition watched (s : SS) : list Z :=
  let leader_fd := if isConnectedToLeader (world_ s) then getLeaderSocket (world_ s) else -1 in
  (clients s).*1 ++ (peer_clients s).*1 ++ (if 0 <=? leader_fd then [leader_fd] else []).

(** One turn of the loop: nothing is done when select() fails or times out ([None]). *)
Definition loop_turn (activity : option Ready) (s : SS) : option (SS * outcome unit) :=
  match activity with None => Some (s, Ok tt) | Some r => daemon_round r s end.

(** ** The loops end, and the fuel is enough *)

Lemma find_nl_length s a b : find_nl s = Some (a, b) -> (String.length b < String.length s)%nat.
Proof using Type.
  revert a b. induction s as [|c s IH]; intros a b; simpl; [done|].
  case_decide; [intros [= <- <-]; lia|].
  destruct (find_nl s) as [[a' b']|]; [|done]. intros [= <- <-].
  specialize (IH _ _ eq_refl). lia.
Qed.

Lemma find_nl_append s x a b :
  find_nl s = Some (a, b) -> find_nl (s +:+ x) = Some (a, b +:+ x)%string.
Proof using Type.
  revert a b. induction s as [|c s IH]; intros a b; simpl; [done|].
  case_decide; [by intros [= <- <-]|].
  destruct (find_nl s) as [[a' b']|]; [|done]. intros [= <- <-]. by rewrite (IH _ _ eq_refl).
Qed.

Lemma client_buffer_set fd b s : client_buffer fd (set_buffer fd b s) = b.
Proof using Type. unfold client_buffer, set_buffer. simpl. by rewrite StdMap.find_insert. Qed.

Lemma client_buffer_world fd f s : client_buffer fd (upd_world f s) = client_buffer fd s.
Proof using Type. done. Qed.

Lemma set_buffer_twice fd b b' s : set_buffer fd b (set_buffer fd b' s) = set_buffer fd b s.
Proof using Type. unfold set_buffer, set_clients. simpl. by rewrite insert_insert_same. Qed.

Lemma set_buffer_world fd b f s : set_buffer fd b (upd_world f s) = upd_world f (set_buffer fd b s).
Proof using Type. done. Qed.

Lemma is_client_set fd b s : is_client fd (set_buffer fd b s) = true.
Proof using Type.
  apply bool_decide_eq_true, list_elem_of_fmap. exists (fd, b). split; [done|].
  apply StdMap.find_Some_elem. simpl. apply StdMap.find_insert.
Qed.

Lemma is_client_erase fd c s : clients s = StdMap.erase fd c -> is_client fd s = false.
Proof using Type.
  intros Hs. apply bool_decide_eq_false. rewrite Hs, list_elem_of_fmap.
  intros ([k v] & -> & [Hk _]%list_elem_of_filter). by apply Hk.
Qed.

Lemma close_client_set fd b s : close_client fd (set_buffer fd b s) = close_client fd s.
Proof using Type. unfold close_client, set_clients. simpl. by rewrite erase_insert. Qed.

Lemma drop_client_set fd b s : drop_client fd (set_buffer fd b s) = drop_client fd s.
Proof using Type. unfold drop_client, set_clients. simpl. by rewrite erase_insert. Qed.

(** The rest of the loop is the same whatever fuel is left, when it is enough. *)
Lemma client_loop_fuel n n' fd s :
  (String.length (client_buffer fd s) < n)%nat -> (String.length (client_buffer fd s) < n')%nat ->
  client_loop n fd s = client_loop n' fd s.
Proof using Type.
  revert n' s. induction n as [|n IH]; intros [|n'] s Hn Hn'; [lia..|]. simpl.
  destruct (find_nl (client_buffer fd s)) as [[c r]|] eqn:E; [|done].
  apply find_nl_length in E.
  assert (forall f, client_loop n fd (upd_world f (set_buffer fd r s)) =
                    client_loop n' fd (upd_world f (set_buffer fd r s))) as Hr.
  { intros f. apply IH; rewrite client_buffer_world, client_buffer_set; lia. }
  destruct (parse (strip_cr c)); [|apply Hr].
  destruct (main a fd _) as [w []]; [|done]. by rewrite Hr.
Qed.

(** A run of the loop on everything the buffer holds. *)
Definition drain (fd : Z) (s : SS) : option (SS * outcome unit) :=
  client_loop (S (String.length (client_buffer fd s))) fd s.

(** The buffer with [b] after it. *)
Definition more (fd : Z) (b : string) (s : SS) : SS :=
  set_buffer fd (client_buffer fd s +:+ b)%string s.

(** One turn of the loop. *)
Lemma drain_step fd s :
  drain fd s =
  match find_nl (client_buffer fd s) with
  | None => Some (s, Ok tt)
  | Some (command, rest) =>
      let s := set_buffer fd rest s in
      match parse (strip_cr command) with
      | Throw _ => drain fd (upd_world (write_sock fd invalid_json) s)
      | Ok j =>
          match main j fd (world_ s) with
          | (w, Throw e) => Some (upd_world (fun _ => w) s, Throw e)
          | (w, Ok res) =>
              let s := upd_world (fun _ => w) s in
              if res =? 1 then Some (close_client fd s, Ok tt)
              else if res =? 2 then Some (drop_client fd s, Ok tt)
              else drain fd s
          end
      end
  end.
Proof using Type.
  unfold drain at 1. cbn [client_loop].
  destruct (find_nl (client_buffer fd s)) as [[c r]|] eqn:E; [|done]. cbv zeta.
  apply find_nl_length in E.
  assert (forall f, client_loop (String.length (client_buffer fd s)) fd
                      (upd_world f (set_buffer fd r s)) = drain fd (upd_world f (set_buffer fd r s)))
    as Hr.
  { intros f. apply client_loop_fuel; rewrite client_buffer_world, client_buffer_set; lia. }
  destruct (parse (strip_cr c)); [|apply Hr].
  destruct (main a fd _) as [w []]; [|done]. by rewrite Hr.
Qed.

(** Two results a client cannot tell apart: the same state, or the same exception
    out of the same world (the daemon is gone, its buffers with it). *)
Definition same_result (r r' : option (SS * outcome unit)) : Prop :=
  match r, r' with
  | Some (s, Ok _), Some (s', Ok _) => s = s'
  | Some (s, Throw e), Some (s', Throw e') => world_ s = world_ s' /\ e = e'
  | _, _ => False
  end.

(** The loop, and then what it does when more data is in the buffer. *)
Definition continue (fd : Z) (b : string) (r : option (SS * outcome unit))
    : option (SS * outcome unit) :=
  match r with
  | Some (s, Ok _) => if is_client fd s then drain fd (more fd b s) else Some (s, Ok tt)
  | other => other
  end.

Lemma same_result_trans r1 r2 r3 : same_result r1 r2 -> same_result r2 r3 -> same_result r1 r3.
Proof using Type.
  destruct r1 as [[? []]|], r2 as [[? []]|], r3 as [[? []]|]; simpl; naive_solver congruence.
Qed.

Lemma more_world fd b f s : more fd b (upd_world f s) = upd_world f (more fd b s).
Proof using Type. done. Qed.

Lemma client_loop_total n fd s :
  (String.length (client_buffer fd s) < n)%nat -> exists s' o, client_loop n fd s = Some (s', o).
Proof using Type.
  revert s. induction n as [|n IH]; intros s Hn; [lia|]. simpl.
  destruct (find_nl (client_buffer fd s)) as [[c r]|] eqn:E; [|by eauto].
  apply find_nl_length in E.
  assert (forall f, exists s' o, client_loop n fd (upd_world f (set_buffer fd r s)) = Some (s', o))
    as Hr by (intros f; apply IH; rewrite client_buffer_world, client_buffer_set; lia).
  destruct (parse (strip_cr c)); [|apply Hr].
  destruct (main a fd _) as [w []]; [|by eauto]. repeat case_match; eauto.
Qed.

Lemma same_result_drain fd s : same_result (drain fd s) (drain fd s).
Proof using Type.
  destruct (client_loop_total (S (String.length (client_buffer fd s))) fd s) as (s' & o & E);
    [lia|]. unfold drain. rewrite E. by destruct o.
Qed.

(** Draining a longer buffer is draining the shorter one and going on. *)
Lemma drain_more n fd b s :
  (String.length (client_buffer fd s) < n)%nat -> is_client fd s = true ->
  same_result (drain fd (more fd b s)) (continue fd b (drain fd s)).
Proof using Type.
  revert s. induction n as [|n IH]; intros s Hn Hc; [lia|].
  rewrite (drain_step fd s). destruct (find_nl (client_buffer fd s)) as [[c r]|] eqn:E; cbv zeta.
  2: { simpl. rewrite Hc. apply same_result_drain. }
  rewrite drain_step. unfold more. rewrite client_buffer_set, (find_nl_append _ b _ _ E).
  cbv zeta. rewrite !set_buffer_twice.
  apply find_nl_length in E.
  assert (forall f, same_result (drain fd (upd_world f (set_buffer fd (r +:+ b) s)))
            (continue fd b (drain fd (upd_world f (set_buffer fd r s))))) as Hr.
  { intros f. pose proof (IH (upd_world f (set_buffer fd r s))) as Hi.
    unfold more in Hi. rewrite client_buffer_world, client_buffer_set, set_buffer_world in Hi.
    rewrite set_buffer_twice in Hi. apply Hi; [lia|]. apply is_client_set. }
  destruct (parse (strip_cr c)); [|apply Hr].
  change (world_ (set_buffer fd (r +:+ b) s)) with (world_ (set_buffer fd r s)).
  destruct (main a fd _) as [w [res|e]]; [|done].
  destruct (res =? 1); [|destruct (res =? 2); [|apply Hr]]; cbn [continue].
  - assert (is_client fd (close_client fd (upd_world (fun _ => w) (set_buffer fd r s))) = false)
      as -> by (by eapply is_client_erase).
    simpl. rewrite <- !set_buffer_world. by rewrite !close_client_set.
  - assert (is_client fd (drop_client fd (upd_world (fun _ => w) (set_buffer fd r s))) = false)
      as -> by (by eapply is_client_erase).
    simpl. rewrite <- !set_buffer_world. by rewrite !drop_client_set.
Qed.

(** ** Reading in pieces *)

(** The data of one client, read in the given pieces, as the select loop does: it
    stops reading once the client is gone. *)
Fixpoint deliver (fd : Z) (pieces : list string) (s : SS) : option (SS * outcome unit) :=
  match pieces with
  | [] => Some (s, Ok tt)
  | piece :: rest =>
      if is_client fd s then
        match handle_client_data fd (Some piece) s with
        | Some (s, Ok _) => deliver fd rest s
        | other => other
        end
      else Some (s, Ok tt)
  end.

Lemma deliver_cons fd piece rest s :
  deliver fd (piece :: rest) s =
  if is_client fd s then
    match handle_client_data fd (Some piece) s with
    | Some (s, Ok _) => deliver fd rest s
    | other => other
    end
  else Some (s, Ok tt).
Proof using Type. done. Qed.

Lemma handle_client_drain fd piece s :
  no_nul piece = true -> handle_client_data fd (Some piece) s = drain fd (more fd piece s).
Proof using Type. intros Hp. unfold handle_client_data, drain. by rewrite c_string_no_nul. Qed.

(** C4: how a client's bytes are cut into reads does not matter: reading them in
    pieces has the result of reading them at once, namely the same responses,
    closed sockets, handlers' state and buffer, for any lines and any commands,
    the ones that close the connection in the middle of a read included (as long
    as no byte is NUL); and the loop over the lines always ends. *)
Theorem pieces_do_not_matter (fd : Z) (piece : string) (pieces : list string) (s : SS) :
  is_client fd s = true -> forallb no_nul (piece :: pieces) = true ->
  same_result (deliver fd [foldr String.append "" (piece :: pieces)] s)
    (deliver fd (piece :: pieces) s).
Proof using Type.
  revert piece s. induction pieces as [|next pieces IH]; intros piece s Hc Hp.
  { cbn [forallb] in Hp. rewrite andb_true_r in Hp. cbn [deliver foldr].
    rewrite Str.append_nil_r, Hc, handle_client_drain by done.
    pose proof (same_result_drain fd (more fd piece s)) as H'.
    by destruct (drain _ _) as [[? []]|]. }
  change (foldr String.append "" (piece :: next :: pieces)) with
    (piece +:+ foldr String.append "" (next :: pieces))%string.
  pose (rest := foldr String.append "" (next :: pieces)). fold rest. fold rest in IH.
  rewrite !deliver_cons, Hc.
  assert (no_nul piece = true /\ forallb no_nul (next :: pieces) = true) as [Hp1 Hp2]
    by (by apply andb_true_iff in Hp).
  assert (no_nul rest = true) as Hrest by (by apply no_nul_concat).
  rewrite !handle_client_drain by (rewrite ?no_nul_append, ?Hp1, ?Hrest; done).
  assert (more fd (piece +:+ rest)%string s = more fd rest (more fd piece s)) as ->.
  { unfold more. by rewrite client_buffer_set, set_buffer_twice, Str.append_assoc. }
  pose proof (drain_more _ fd rest (more fd piece s) (Nat.lt_succ_diag_r _) (is_client_set _ _ _)) as Hd.
  destruct (drain fd (more fd piece s)) as [[s1 [[]|e]]|]; simpl in Hd.
  - destruct (is_client fd s1) eqn:Hc1.
    + specialize (IH next s1 Hc1 Hp2).
      eapply same_result_trans; [|exact IH]. rewrite deliver_cons, Hc1.
      rewrite handle_client_drain by done. fold rest. cbn [deliver].
      pose proof (same_result_drain fd (more fd rest s1)) as Hs.
      destruct (drain fd (more fd rest (more fd piece s))) as [[? []]|];
        destruct (drain fd (more fd rest s1)) as [[? []]|]; done.
    + rewrite deliver_cons, Hc1.
      by destruct (drain fd (more fd rest (more fd piece s))) as [[? []]|].
  - by destruct (drain fd (more fd rest (more fd piece s))) as [[? []]|].
  - by destruct (drain fd (more fd rest (more fd piece s))) as [[? []]|].
Qed.
(** ** A round of the select loop ends *)

Lemma peer_state_set fd p s : peer_state fd (set_peer fd p s) = p.
Proof using Type. unfold peer_state, set_peer. simpl. by rewrite StdMap.find_insert. Qed.

Lemma peer_state_world fd f s : peer_state fd (upd_world f s) = peer_state fd s.
Proof using Type. done. Qed.

Lemma record_status_peer fd id j s : peer_state fd (record_status id j s) = peer_state fd s.
Proof using Type. unfold record_status. by destruct (app_status_of j). Qed.

Lemma set_peer_id_buffer fd id s :
  pc_buffer (peer_state fd (set_peer_id fd id s)) = pc_buffer (peer_state fd s).
Proof using Type. unfold set_peer_id. by rewrite peer_state_set. Qed.

Lemma run_main_peer j fd' fd s : peer_state fd (run_main j fd' s).1 = peer_state fd s.
Proof using Type. unfold run_main. by destruct (main j fd' (world_ s)) as [w []]. Qed.

Lemma heartbeat_buffer fd j s :
  pc_buffer (peer_state fd (heartbeat fd j s).1) = pc_buffer (peer_state fd s).
Proof using Type.
  unfold heartbeat, bindM, M_bind, lift. destruct (Json.string_at "peer_id" j); [|done].
  destruct (match Json.member "daemon_version" j with
            | Some v => Some <$> Json.get_int32 v | None => Ok None end); [|done].
  simpl. rewrite record_status_peer. case_match;
    by rewrite ?set_peer_id_buffer, record_status_peer.
Qed.

Lemma track_peer_id_buffer fd j s :
  pc_buffer (peer_state fd (track_peer_id fd j s).1) = pc_buffer (peer_state fd s).
Proof using Type.
  unfold track_peer_id, bindM, M_bind, lift. destruct (peer_message _ j); [|done].
  destruct (Json.string_at "peer_id" j); [|done]. simpl.
  by rewrite record_status_peer, set_peer_id_buffer.
Qed.

(** A message never touches what the peer sent after it. *)
Lemma peer_line_buffer fd line s :
  pc_buffer (peer_state fd (peer_line fd line s).1) = pc_buffer (peer_state fd s).
Proof using Type.
  unfold peer_line. destruct (parse (strip_cr line)) as [j|]; [|done].
  destruct (peer_message "heartbeat" j); [apply heartbeat_buffer|].
  unfold bindM, M_bind. pose proof (track_peer_id_buffer fd j s) as Ht.
  destruct (track_peer_id fd j s) as [s' []]; [|done]. by rewrite run_main_peer.
Qed.

Lemma peer_loop_total n fd s :
  (String.length (pc_buffer (peer_state fd s)) < n)%nat -> exists r, peer_loop n fd s = Some r.
Proof using Type.
  revert s. induction n as [|n IH]; intros s Hn; [lia|]. simpl.
  destruct (find_nl (pc_buffer (peer_state fd s))) as [[c r]|] eqn:E; [|by eauto].
  apply find_nl_length in E.
  match goal with |- context [peer_line fd c ?s0] =>
    pose proof (peer_line_buffer fd c s0) as Hb; destruct (peer_line fd c s0) as [s' []] end;
    [|by eauto].
  apply IH. simpl in Hb. rewrite Hb, peer_state_set. simpl. lia.
Qed.

Lemma leader_line_buffer fd line s : leader_buffer (leader_line fd line s).1 = leader_buffer s.
Proof using Type.
  unfold leader_line. destruct (parse (strip_cr line)) as [j|]; [|done].
  destruct (_ || _)%bool; [done|]. unfold run_main. by destruct (main j fd (world_ s)) as [w []].
Qed.

Lemma leader_loop_total n fd s :
  (String.length (leader_buffer s) < n)%nat -> exists r, leader_loop n fd s = Some r.
Proof using Type.
  revert s. induction n as [|n IH]; intros s Hn; [lia|]. simpl.
  destruct (find_nl (leader_buffer s)) as [[c r]|] eqn:E; [|by eauto].
  apply find_nl_length in E.
  pose proof (leader_line_buffer fd c (set_leader_buffer r s)) as Hb.
  destruct (leader_line fd c (set_leader_buffer r s)) as [s' []]; [|by eauto].
  apply IH. simpl in Hb. rewrite Hb. lia.
Qed.

Lemma handle_client_data_total fd data s : exists r, handle_client_data fd data s = Some r.
Proof using Type.
  destruct data as [c|]; [|by eexists]. unfold handle_client_data.
  edestruct client_loop_total as (s' & o & E); [|eexists; exact E]. lia.
Qed.

Lemma handle_peer_data_total fd data s : exists r, handle_peer_data fd data s = Some r.
Proof using Type.
  destruct data as [c|]; [|by eexists]. apply peer_loop_total. rewrite peer_state_set. simpl. lia.
Qed.

Lemma handle_leader_data_total data s : exists r, handle_leader_data data s = Some r.
Proof using Type.
  unfold handle_leader_data. destruct (_ <? 0); [by eexists|].
  destruct data as [c|]; [|by eexists]. apply leader_loop_total. simpl. lia.
Qed.

Lemma each_fd_total handle ready connected fds s :
  (forall fd data s, exists r, handle fd data s = Some r) ->
  exists r, each_fd handle ready connected fds s = Some r.
Proof using Type.
  intros Hh. revert s. induction fds as [|fd fds IH]; intros s; simpl; [by eexists|].
  destruct (ready fd) as [data|]; [|apply IH]. destruct (connected fd s); [|apply IH].
  destruct (Hh fd data s) as [[s' []] ->]; [apply IH|by eexists].
Qed.

(** C26: every round of the select loop ends, whatever the clients, the peers and
    the leader send: the fuel of the three line loops is enough, and the round ends
    normally or with the exception a handler let out. *)
Theorem daemon_round_total (r : Ready) (s : SS) : exists s' o, daemon_round r s = Some (s', o).
Proof using Type.
  unfold daemon_round. cbv zeta.
  match goal with |- context [each_fd handle_client_data ?r ?c ?f ?s0] =>
    destruct (each_fd_total _ r c f s0 handle_client_data_total) as [[s1 o1] ->] end.
  destruct o1 as [_|e]; [|by eauto].
  match goal with |- context [each_fd handle_peer_data ?r ?c ?f ?s0] =>
    destruct (each_fd_total _ r c f s0 handle_peer_data_total) as [[s2 o2] ->] end.
  destruct o2 as [_|e]; [|by eauto].
  destruct (leader_ready r) as [data|]; [|by eauto]. case_match; [|by eauto].
  destruct (handle_leader_data_total data s2) as [[s3 o3] ->]. by eauto.
Qed.

(** ** What a round keeps *)

(** A property of the rest of the daemon that every call of the server keeps. *)
Record world_keeps (P : W -> Prop) : Prop := mkWorldKeeps {
  keep_main : forall j fd w, P w -> P (main j fd w).1;
  keep_write : forall fd m w, P w -> P (write_sock fd m w);
  keep_opened : forall fd w, P w -> P (opened fd w);
  keep_close : forall fd w, P w -> P (close_sock fd w);
  keep_unsubscribe : forall fd w, P w -> P (unsubscribe fd w);
  keep_touch : forall id v w, P w -> P (touch id v w);
  keep_offline : forall id w, P w -> P (offline id w);
  keep_status : forall id st w, P w -> P (app_status id st w);
  keep_disconnect : forall w, P w -> P (disconnectFromLeader w)
}.

Section Keeps.
Context (P : W -> Prop) (HP : world_keeps P).

(** The result of a step, if there is one, satisfies [P]. *)
Definition result_keeps {A} (r : option (SS * A)) : Prop :=
  match r with Some (s, _) => P (world_ s) | None => True end.

Lemma client_loop_keeps n fd s : P (world_ s) -> result_keeps (client_loop n fd s).
Proof using HP.
  revert s. induction n as [|n IH]; intros s Hs; simpl; [done|].
  destruct (find_nl _) as [[c r]|]; [|done].
  destruct (parse _) as [j|]; [|apply IH; by apply (keep_write _ HP)].
  pose proof (keep_main _ HP j fd (world_ s) Hs) as Hm. change (world_ (set_buffer fd r s)) with (world_ s).
  destruct (main j fd (world_ s)) as [w [res|e]]; [|done]. simpl in Hm.
  destruct (res =? 1); [by apply (keep_close _ HP), (keep_unsubscribe _ HP)|].
  destruct (res =? 2); [by apply (keep_unsubscribe _ HP)|]. by apply IH.
Qed.

Lemma client_keeps fd data s : P (world_ s) -> result_keeps (handle_client_data fd data s).
Proof using HP.
  intros Hs. destruct data as [c|]; [by apply client_loop_keeps|].
  by apply (keep_close _ HP), (keep_unsubscribe _ HP).
Qed.

Lemma record_status_keeps id j s : P (world_ s) -> P (world_ (record_status id j s)).
Proof using HP. intros Hs. unfold record_status. case_match; [by apply (keep_status _ HP)|done]. Qed.

Lemma heartbeat_keeps fd j s : P (world_ s) -> P (world_ (heartbeat fd j s).1).
Proof using HP.
  intros Hs. unfold heartbeat, bindM, M_bind, lift.
  destruct (Json.string_at "peer_id" j) as [id|]; [|done].
  destruct (match Json.member "daemon_version" j with
            | Some v => Some <$> Json.get_int32 v | None => Ok None end) as [v|]; [|done].
  cbn [modify fst]. assert (P (world_ (record_status id j (upd_world (touch id v) s)))) as H1
    by (apply record_status_keeps; by apply (keep_touch _ HP)).
  by case_match.
Qed.

Lemma peer_line_keeps fd line s : P (world_ s) -> P (world_ (peer_line fd line s).1).
Proof using HP.
  intros Hs. unfold peer_line. destruct (parse (strip_cr line)) as [j|]; [|by apply (keep_write _ HP)].
  destruct (peer_message "heartbeat" j); [by apply heartbeat_keeps|].
  assert (P (world_ (track_peer_id fd j s).1)) as Ht.
  { unfold track_peer_id, bindM, M_bind, lift. destruct (peer_message _ j); [|done].
    destruct (Json.string_at "peer_id" j); [|done]. by apply record_status_keeps. }
  unfold bindM, M_bind. destruct (track_peer_id fd j s) as [s1 []]; [|done]. cbn [fst] in Ht.
  unfold run_main. pose proof (keep_main _ HP j fd (world_ s1) Ht) as Hm.
  by destruct (main j fd (world_ s1)) as [w []].
Qed.

Lemma peer_loop_keeps n fd s : P (world_ s) -> result_keeps (peer_loop n fd s).
Proof using HP.
  revert s. induction n as [|n IH]; intros s Hs; simpl; [done|].
  destruct (find_nl _) as [[c r]|]; [|done].
  pose proof (peer_line_keeps fd c
    (set_peer fd (mkPeerState r (pc_ip (peer_state fd s)) (pc_id (peer_state fd s))) s) Hs) as H1.
  destruct (peer_line _ _ _) as [s1 []]; [by apply IH|done].
Qed.

Lemma peer_data_keeps fd data s : P (world_ s) -> result_keeps (handle_peer_data fd data s).
Proof using HP.
  intros Hs. destruct data as [c|]; [by apply peer_loop_keeps|].
  unfold handle_peer_data. cbv zeta. simpl. apply (keep_close _ HP).
  destruct (Str.empty _); [done|]. by apply (keep_status _ HP), (keep_offline _ HP).
Qed.

Lemma leader_loop_keeps n fd s : P (world_ s) -> result_keeps (leader_loop n fd s).
Proof using HP.
  revert s. induction n as [|n IH]; intros s Hs; simpl; [done|].
  destruct (find_nl _) as [[c r]|]; [|done].
  assert (P (world_ (leader_line fd c (set_leader_buffer r s)).1)) as H1.
  { unfold leader_line. destruct (parse _) as [j|]; [|done]. destruct (_ || _)%bool; [done|].
    unfold run_main. pose proof (keep_main _ HP j fd (world_ s) Hs) as Hm.
    change (world_ (set_leader_buffer r s)) with (world_ s).
    by destruct (main j fd (world_ s)) as [w []]. }
  destruct (leader_line _ _ _) as [s1 []]; [by apply IH|done].
Qed.

Lemma leader_data_keeps data s : P (world_ s) -> result_keeps (handle_leader_data data s).
Proof using HP.
  intros Hs. unfold handle_leader_data. destruct (_ <? 0); [done|].
  destruct data as [c|]; [by apply leader_loop_keeps|]. by apply (keep_disconnect _ HP).
Qed.

Lemma each_fd_keeps handle ready connected fds s :
  (forall fd data s, P (world_ s) -> result_keeps (handle fd data s)) ->
  P (world_ s) -> result_keeps (each_fd handle ready connected fds s).
Proof using Type.
  intros Hh. revert s. induction fds as [|fd fds IH]; intros s Hs; simpl; [done|].
  destruct (ready fd) as [data|]; [|by apply IH]. destruct (connected fd s); [|by apply IH].
  pose proof (Hh fd data s Hs) as H1.
  destruct (handle fd data s) as [[s' []]|]; [by apply IH|done|done].
Qed.

Lemma round_keeps r s : P (world_ s) -> result_keeps (daemon_round r s).
Proof using HP.
  intros Hs. unfold daemon_round. cbv zeta.
  match goal with |- context [each_fd handle_client_data ?r ?c ?f ?s0] =>
    assert (P (world_ s0)) as H0; [|pose proof (each_fd_keeps _ r c f s0 client_keeps H0) as H1;
    destruct (each_fd handle_client_data r c f s0) as [[s1 [[]|]]|]; [|done|done]] end.
  { destruct (new_client r), (new_peer r) as [[? ?]|]; try done; repeat apply (keep_opened _ HP); done. }
  match goal with |- context [each_fd handle_peer_data ?r ?c ?f ?s0] =>
    pose proof (each_fd_keeps _ r c f s0 peer_data_keeps H1) as H2;
    destruct (each_fd handle_peer_data r c f s0) as [[s2 [[]|]]|]; [|done|done] end.
  destruct (leader_ready r); [|done]. destruct (0 <=? _); [by apply leader_data_keeps|done].
Qed.
End Keeps.
End Server.

(** ** The server over the dispatcher *)

(** A daemon: the dispatcher, the connection to the leader (PeerManager's
    m_leaderSocket and m_connectedToLeader) and the calls made to the tables. *)
Inductive TableCall :=
  | Unsubscribe (fd : Z)
  | Touch (id : string) (version : option Z)
  | Offline (id : string)
  | AppStatus (id : string) (app : option json).

Record Node (W : Type) := mkNode {
  dispatcher : DS (W := W);
  m_leaderSocket : Z;
  m_connectedToLeader : bool;
  calls : list TableCall
}.
Arguments mkNode {W}.
Arguments dispatcher {W}.
Arguments m_leaderSocket {W}.
Arguments m_connectedToLeader {W}.
Arguments calls {W}.

Section Node.
Context {W : Type} (run : Z -> HandlerId -> json -> M W CmdResult).
Context (dump : json -> string) (what : exn -> string).

Definition on_dispatcher {A} (m : M (DS (W := W)) A) : M (Node W) A := fun n =>
  let '(d, o) := m (dispatcher n) in
  (mkNode d (m_leaderSocket n) (m_connectedToLeader n) (calls n), o).

Definition close_socket (fd : Z) (n : Node W) : Node W :=
  let d := dispatcher n in
  mkNode (mkDS (world d) (sent d) (closed d ++ [fd]) (threads d) (g_clientSocket d))
    (m_leaderSocket n) (m_connectedToLeader n) (calls n).

Definition call (c : TableCall) (n : Node W) : Node W :=
  mkNode (dispatcher n) (m_leaderSocket n) (m_connectedToLeader n) (calls n ++ [c]).

(** PeerManager::disconnectFromLeader *)
Definition disconnect_from_leader (n : Node W) : Node W :=
  let n := if 0 <=? m_leaderSocket n then close_socket (m_leaderSocket n) n else n in
  mkNode (dispatcher n) (-1) false (calls n).

#[export] Instance dispatch_world : DaemonWorld (Node W) := {|
  main := fun j fd => on_dispatcher (mainCommand run dump what j fd);
  write_sock := fun fd m n => (on_dispatcher (modify (write_to fd m)) n).1;
  opened := fun _ n => n;
  close_sock := close_socket;
  unsubscribe := fun fd => call (Unsubscribe fd);
  touch := fun id v => call (Touch id v);
  offline := fun id => call (Offline id);
  app_status := fun id st => call (AppStatus id st);
  getLeaderSocket := m_leaderSocket;
  isConnectedToLeader := m_connectedToLeader;
  disconnectFromLeader := disconnect_from_leader
  |}.
End Node.

(** A daemon connected to its leader on socket 9, with a client on socket 5; the
    handlers count their calls. *)
#[export] Instance counting_world : DaemonWorld (Node nat) :=
  dispatch_world counting (fun _ => "") no_text.
Definition parse_pull (line : string) : outcome json :=
  if decide (line = "pull") then Ok exec_command else Throw JsonParseError.
Definition worker : SS :=
  mkSS (mkNode start_state 9 true []) [(5, "")] [] "".

Lemma pieces_do_not_matter_witness :
  same_result (deliver parse_pull 5 [String.append ("x" +:+ eol +:+ "pu") ("ll" +:+ eol +:+ "pull")]
                 worker)
    (deliver parse_pull 5 ["x" +:+ eol +:+ "pu"; "ll" +:+ eol +:+ "pull"]%string worker).
Proof.
  apply (pieces_do_not_matter parse_pull 5 ("x" +:+ eol +:+ "pu")
    ["ll" +:+ eol +:+ "pull"]%string worker); vm_compute; reflexivity.
Defined.

(** A slow command from the leader is answered twice on the connection to the
    leader, and its thread closes that connection; the daemon still holds it as
    connected and goes on selecting on the closed descriptor. *)
Lemma leader_slow_command_closes :
  match handle_leader_data parse_pull (Some ("pull" +:+ eol)%string) worker with
  | Some (s, Ok _) =>
      let d := run_thread counting no_text 0 (dispatcher (world_ s)) in
      closed d = [9] /\ world d = 2%nat /\
      m_leaderSocket (world_ s) = 9 /\ m_connectedToLeader (world_ s) = true
  | _ => False
  end.
Proof. vm_compute. repeat split. Qed.

(** What a read holds after a NUL byte is dropped. *)
Lemma nul_drops_the_rest (fd : Z) :
  handle_client_data parse_pull fd (Some ("pu" +:+ String "000" ("ll" +:+ eol))%string) worker =
  handle_client_data parse_pull fd (Some "pu") worker.
Proof. reflexivity. Qed.
