(* ===== verification/Peers.v ===== *)
(** The peer network (src/PeerManager.cpp, src/cmdPeer.cpp): the role of this daemon,
    the connection of a worker to its leader, the connections to peers, the heartbeat
    thread, and the handlers of the peer commands.

    The sockets are the operating system's: the record [NetEnv] says what each system
    call returns, as a function of the number of calls made so far, and the state keeps
    the descriptors that are open and the messages written to each, in order.  A write
    that succeeds writes the whole message.  The lines of getPrimaryMacAddress and
    getWgInterfaceIP (src/DaemonServer.cpp) are here too: a peer registers with them. *)

From S2P Require Import Prelude Stdio Types Json Database Registry Dispatch Server.

(** ** What the operating system answers *)

(** read(): data, or the end of the stream or an error; in the last two cases, whether
    errno then says EAGAIN (after the end of a stream it is a left-over). *)
Inductive ReadResult :=
  | ReadData (s : string)
  | ReadEnd (eagain : bool)
  | ReadError (eagain : bool).

(** One turn of the select loop of executeCommandWithTimeout: the seconds elapsed
    before it, and what select and read give. *)
Inductive PipeResult :=
  | PipeData (s : string)
  | PipeClosed
  | SelectInterrupted
  | SelectFailed
  | SelectTimeout.

(** A run of executeCommandWithTimeout: [None] when pipe() or fork() fails. *)
Record ChildRun := mkRun {
  pipe_ok : bool;
  fork_ok : bool;
  turns : list (Z * PipeResult);
  wait_status : option Z       (** the exit status, when the child exited *)
}.

Record NetEnv := mkNetEnv {
  socket_ok : nat -> bool;
  inet_pton : string -> bool;
  connect_ok : nat -> string -> Z -> bool;
  write_ok : nat -> Z -> bool;
  poll_rc : nat -> Z;
  read_rc : nat -> Z -> ReadResult;
  strerror : string;
  run_child : nat -> string -> ChildRun;
  net_interfaces : option (list (string * option string));
  wg_addresses : option (list (string * string));
  gethostname : option string;
  unix_time : Z;
  last_seen_text : Z -> string;
  DAEMON_VERSION : Z
}.

(** The lowest descriptor that is not open: a new socket gets that one. *)
Fixpoint free_from (n : nat) (fd : Z) (open : list Z) : Z :=
  match n with
  | O => fd
  | S n' => if bool_decide (fd ∈ open) then free_from n' (fd + 1) open else fd
  end.
Definition lowest_free (open : list Z) : Z := free_from (length open) 0 open.

(** ** The state *)

Record PeerInfo := mkPeerInfo {
  pi_id : string; pi_ip : string; pi_mac : string; pi_host : string;
  pi_online : bool; pi_fd : Z
}.
Definition noPeer : PeerInfo := mkPeerInfo "" "" "" "" false (-1).

(** The members of PeerManager. *)
Record PeerManager := mkPM {
  m_role : string;
  m_peerId : string;
  m_leaderAddress : string;
  m_leaderSocket : Z;
  m_connectedToLeader : bool;
  m_peers : list (string * PeerInfo);
  m_reconnectRunning : bool
}.

Definition newPeerManager : PeerManager := mkPM "" "" "" (-1) false [] false.

(** The tables, the manager, the open descriptors, what was written to each, and the
    number of system calls made. *)
Record Peers := mkPeers {
  pdb : DB;
  pm : PeerManager;
  open_fds : list Z;
  wire : list (Z * string);
  calls : nat
}.

Definition set_pdb (d : DB) (w : Peers) : Peers :=
  mkPeers d (pm w) (open_fds w) (wire w) (calls w).
Definition set_pm (p : PeerManager) (w : Peers) : Peers :=
  mkPeers (pdb w) p (open_fds w) (wire w) (calls w).
Definition on_pm (f : PeerManager -> PeerManager) : M Peers unit :=
  modify (fun w => set_pm (f (pm w)) w).
Definition on_pdb (f : DB -> DB) : M Peers unit := modify (fun w => set_pdb (f (pdb w)) w).

Definition set_role (r : string) (p : PeerManager) : PeerManager :=
  mkPM r (m_peerId p) (m_leaderAddress p) (m_leaderSocket p) (m_connectedToLeader p)
    (m_peers p) (m_reconnectRunning p).
Definition set_id (i : string) (p : PeerManager) : PeerManager :=
  mkPM (m_role p) i (m_leaderAddress p) (m_leaderSocket p) (m_connectedToLeader p)
    (m_peers p) (m_reconnectRunning p).
Definition set_address (a : string) (p : PeerManager) : PeerManager :=
  mkPM (m_role p) (m_peerId p) a (m_leaderSocket p) (m_connectedToLeader p)
    (m_peers p) (m_reconnectRunning p).
Definition set_socket (s : Z) (p : PeerManager) : PeerManager :=
  mkPM (m_role p) (m_peerId p) (m_leaderAddress p) s (m_connectedToLeader p)
    (m_peers p) (m_reconnectRunning p).
Definition set_connected (c : bool) (p : PeerManager) : PeerManager :=
  mkPM (m_role p) (m_peerId p) (m_leaderAddress p) (m_leaderSocket p) c
    (m_peers p) (m_reconnectRunning p).
Definition set_m_peers (l : list (string * PeerInfo)) (p : PeerManager) : PeerManager :=
  mkPM (m_role p) (m_peerId p) (m_leaderAddress p) (m_leaderSocket p) (m_connectedToLeader p)
    l (m_reconnectRunning p).
Definition set_reconnect (r : bool) (p : PeerManager) : PeerManager :=
  mkPM (m_role p) (m_peerId p) (m_leaderAddress p) (m_leaderSocket p) (m_connectedToLeader p)
    (m_peers p) r.

(** Constants.h *)
Definition PEER_ROLE_LEADER : string := "leader".
Definition PEER_ROLE_WORKER : string := "worker".
Definition PEER_TCP_PORT : Z := 3502.
Definition MANAGER_PORT : Z := 3505.
Definition WG_LEADER_IP : string := "10.0.0.1".

(** A nlohmann::json object keeps its members in key order, an ordered_json object in
    the order of insertion (it is written [JObject] below). *)
Definition obj (l : list (string * json)) : json :=
  JObject (foldl (fun m p => StdMap.insert p.1 p.2 m) [] l).

(** ** This machine *)

(** The interfaces whose name starts with a prefix, in the order of the directory:
    the first address that is there and is not zero. *)
Fixpoint first_mac (wanted : string -> bool) (entries : list (string * option string)) : string :=
  match entries with
  | [] => ""
  | (ifname, address) :: rest =>
      if wanted ifname then
        match address with
        | Some a => if negb (Str.empty a) && bool_decide (a <> "00:00:00:00:00:00") then a
                    else first_mac wanted rest
        | None => first_mac wanted rest
        end
      else first_mac wanted rest
  end.

(** The second pass leaves out loopback, WireGuard, Docker and bridge interfaces. *)
Definition physical (ifname : string) : bool :=
  bool_decide (ifname <> "." /\ ifname <> ".." /\ ifname <> "lo") &&
  negb (Str.starts_with "wg" ifname) && negb (Str.starts_with "veth" ifname) &&
  negb (Str.starts_with "docker" ifname) && negb (Str.starts_with "br-" ifname).

Definition mac_prefixes : list string := ["eth"; "en"; "wlan"].

Definition getPrimaryMacAddress (interfaces : option (list (string * option string))) : string :=
  match interfaces with
  | None => ""
  | Some entries =>
      let preferred := foldl (fun r p => if Str.empty r then first_mac (Str.starts_with p) entries
                                         else r) "" mac_prefixes in
      if Str.empty preferred then first_mac physical entries else preferred
  end.

(** The IPv4 addresses getifaddrs reports, with their interfaces. *)
Definition getWgInterfaceIP (addresses : option (list (string * string))) : string :=
  match addresses with
  | None => ""
  | Some l => match list_find (fun a => a.1 = "wg0") l with Some (_, a) => a.2 | None => "" end
  end.

Section Peers.
Context (env : NetEnv).
(** nlohmann's dump() and dump(2), and its parse *)
Context (dump dump2 : json -> string) (parse : string -> outcome json).
(** AppManager::getLocalAppStatusAll, as a function of the tables *)
Context (getLocalAppStatusAll : DB -> json).

Definition my_ip : string := getWgInterfaceIP (wg_addresses env).
Definition my_mac : string := getPrimaryMacAddress (net_interfaces env).

(** ** System calls *)

(** The result of one call, which counts as made. *)
Definition syscall {A} (f : nat -> A) : M Peers A := fun w =>
  (mkPeers (pdb w) (pm w) (open_fds w) (wire w) (S (calls w)), Ok (f (calls w))).

(** socket(): the lowest descriptor that is not open, or -1. *)
Definition sys_socket : M Peers Z :=
  let! ok := syscall (socket_ok env) in
  if ok then
    let! fd := gets (fun w => lowest_free (open_fds w)) in
    let! _ := modify (fun w => mkPeers (pdb w) (pm w) (fd :: open_fds w) (wire w) (calls w)) in
    mret fd
  else mret (-1).

Definition sys_close (fd : Z) : M Peers unit :=
  modify (fun w => mkPeers (pdb w) (pm w) (base.filter (fun x => x <> fd) (open_fds w))
                     (wire w) (calls w)).

Definition sys_connect (ip : string) (port : Z) : M Peers bool :=
  syscall (fun n => connect_ok env n ip port).

Definition sys_write (fd : Z) (msg : string) : M Peers bool :=
  let! ok := syscall (fun n => write_ok env n fd) in
  let! _ := modify (fun w => mkPeers (pdb w) (pm w) (open_fds w)
              (if ok then wire w ++ [(fd, msg)] else wire w) (calls w)) in
  mret ok.

Definition sys_read (fd : Z) : M Peers ReadResult := syscall (fun n => read_rc env n fd).
Definition sys_poll : M Peers Z := syscall (poll_rc env).

(** ** PeerManager: configuration *)

Definition isLeader (p : PeerManager) : bool := bool_decide (m_role p = PEER_ROLE_LEADER).

Definition save_field (key value : string) (d : DB) : DB :=
  if Str.empty value then d else SettingsTable.setSetting key value d.

Definition saveConfig : M Peers unit :=
  modify (fun w => set_pdb
    (save_field "peer_leader_address" (m_leaderAddress (pm w))
      (save_field "peer_id" (m_peerId (pm w))
        (save_field "peer_role" (m_role (pm w)) (pdb w)))) w).

Definition loadConfig : M Peers unit :=
  modify (fun w =>
    let p := set_role (SettingsTable.getSetting "peer_role" (pdb w)) (pm w) in
    let p := set_id (SettingsTable.getSetting "peer_id" (pdb w)) p in
    set_pm (set_address (SettingsTable.getSetting "peer_leader_address" (pdb w)) p) w).

Definition setRole (role : string) : M Peers unit :=
  let! _ := on_pm (set_role role) in saveConfig.
Definition setPeerId (id : string) : M Peers unit :=
  let! _ := on_pm (set_id id) in saveConfig.
Definition setLeaderAddress (addr : string) : M Peers unit :=
  let! _ := on_pm (set_address addr) in saveConfig.

(** ** The connection to the leader *)

Definition disconnectFromLeader : M Peers unit :=
  let! p := gets pm in
  let! _ := if 0 <=? m_leaderSocket p then
              let! _ := sys_close (m_leaderSocket p) in on_pm (set_socket (-1))
            else mret tt in
  on_pm (set_connected false).

(** One message: a line of JSON. *)
Definition line_of (j : json) : string := (dump j +:+ eol)%string.

Definition sendToLeader (message : json) : M Peers bool :=
  let! p := gets pm in
  if negb (m_connectedToLeader p) || (m_leaderSocket p <? 0) then mret false
  else
    let! sent := sys_write (m_leaderSocket p) (line_of message) in
    if sent then mret true
    else let! _ := disconnectFromLeader in mret false.

(** [timeoutMs] only bounds the time poll() waits. *)
Definition forwardToLeader (command : json) : M Peers string :=
  let! p := gets pm in
  if negb (m_connectedToLeader p) || (m_leaderSocket p <? 0) then mret ""
  else
    let! sent := sys_write (m_leaderSocket p) (line_of command) in
    if negb sent then let! _ := disconnectFromLeader in mret ""
    else
      let! ready := sys_poll in
      if ready <=? 0 then mret ""
      else
        let! r := sys_read (m_leaderSocket p) in
        mret match r with ReadData s => s | _ => "" end.

Definition registration (p : PeerManager) (d : DB) : json :=
  obj ([("command", JString "registerPeer"); ("peer_id", JString (m_peerId p));
        ("ip", JString my_ip); ("mac", JString my_mac);
        ("daemon_version", JInt (DAEMON_VERSION env));
        ("appStatus", getLocalAppStatusAll d)] ++
       match gethostname env with Some h => [("hostname", JString h)] | None => [] end).

Definition connectToLeader : M Peers bool :=
  let! p := gets pm in
  if isLeader p then mret false
  else if Str.empty (m_leaderAddress p) then mret false
  else
    let! _ := if 0 <=? m_leaderSocket p then
                let! _ := sys_close (m_leaderSocket p) in on_pm (set_socket (-1))
              else mret tt in
    let! fd := sys_socket in
    let! _ := on_pm (set_socket fd) in
    if fd <? 0 then mret false
    else if negb (inet_pton env (m_leaderAddress p)) then
      let! _ := sys_close fd in let! _ := on_pm (set_socket (-1)) in mret false
    else
      let! connected := sys_connect (m_leaderAddress p) PEER_TCP_PORT in
      if negb connected then
        let! _ := sys_close fd in let! _ := on_pm (set_socket (-1)) in mret false
      else
        let! _ := on_pm (set_connected true) in
        let! regMsg := gets (fun w => registration (pm w) (pdb w)) in
        let! _ := sendToLeader regMsg in
        let! sock := gets (fun w => m_leaderSocket (pm w)) in
        let! _ := sys_read sock in
        mret true.

(** ** Peers *)

Definition registerPeer (id ip mac hostname : string) (socket_fd : Z) : M Peers unit :=
  on_pm (fun p => set_m_peers
    (StdMap.insert id (mkPeerInfo id ip mac hostname true socket_fd) (m_peers p)) p).

Definition unregisterPeer (id : string) : M Peers unit :=
  let! p := gets pm in
  match StdMap.find id (m_peers p) with
  | Some info =>
      let! _ := if 0 <=? pi_fd info then sys_close (pi_fd info) else mret tt in
      on_pm (fun p => set_m_peers (StdMap.erase id (m_peers p)) p)
  | None => mret tt
  end.

Definition updatePeerStatus (id : string) (online : bool) : M Peers unit :=
  on_pm (fun p =>
    match StdMap.find id (m_peers p) with
    | Some i => set_m_peers (StdMap.insert id
        (mkPeerInfo (pi_id i) (pi_ip i) (pi_mac i) (pi_host i) online (pi_fd i)) (m_peers p)) p
    | None => p
    end).

Definition listPeers (p : PeerManager) : list PeerInfo := (m_peers p).*2.

Definition getPeerInfo (id : string) (p : PeerManager) : PeerInfo :=
  default noPeer (StdMap.find id (m_peers p)).

(** Is there an entry with a socket? *)
Definition peer_socket (id : string) (p : PeerManager) : option Z :=
  match StdMap.find id (m_peers p) with
  | Some i => if 0 <=? pi_fd i then Some (pi_fd i) else None
  | None => None
  end.

Definition connectToPeer (id ip : string) : M Peers bool :=
  let! p := gets pm in
  match peer_socket id p with
  | Some _ => mret true
  | None =>
      let! sock := sys_socket in
      if sock <? 0 then mret false
      else if negb (inet_pton env ip) then let! _ := sys_close sock in mret false
      else
        let! connected := sys_connect ip PEER_TCP_PORT in
        if negb connected then let! _ := sys_close sock in mret false
        else
          let! _ := on_pm (fun p => set_m_peers
                      (StdMap.insert id (mkPeerInfo id ip "" "" true sock) (m_peers p)) p) in
          mret true
  end.

Definition sendToPeer (id : string) (message : json) : M Peers bool :=
  let! p := gets pm in
  match peer_socket id p with
  | None => mret false
  | Some fd =>
      let! sent := sys_write fd (line_of message) in
      if sent then mret true
      else
        let! _ := sys_close fd in
        let! _ := on_pm (fun p => set_m_peers (StdMap.erase id (m_peers p)) p) in
        mret false
  end.

(** A failed write is only logged. *)
Fixpoint broadcast (msg : string) (peers : list PeerInfo) : M Peers unit :=
  match peers with
  | [] => mret tt
  | i :: rest =>
      let! _ := if (0 <=? pi_fd i) && pi_online i then
                  let! _ := sys_write (pi_fd i) msg in mret tt
                else mret tt in
      broadcast msg rest
  end.

Definition broadcastToWorkers (message : json) : M Peers unit :=
  let! p := gets pm in broadcast (line_of message) (listPeers p).

(** ** The heartbeat thread *)

(** Starting it twice has no effect. *)
Definition startReconnectLoop : M Peers unit :=
  on_pm (fun p =>
    if m_reconnectRunning p then p
    else if isLeader p then set_reconnect true p
    else if Str.empty (m_leaderAddress p) then p
    else set_reconnect true p).

Definition stopReconnectLoop : M Peers unit := on_pm (set_reconnect false).

Definition HEARTBEAT_INTERVAL_SECS : Z := 10.
Definition APP_STATUS_INTERVAL_SECS : Z := 60.

Definition heartbeat_message (withStatus : bool) (p : PeerManager) (d : DB) : json :=
  obj ([("command", JString "heartbeat"); ("peer_id", JString (m_peerId p));
        ("daemon_version", JInt (DAEMON_VERSION env))] ++
       if withStatus then [("appStatus", getLocalAppStatusAll d)] else []).

(** One turn of reconnectLoop that is not interrupted by a stop: [sleeping] is what
    other threads do while it sleeps its ten seconds.  The argument and the result are
    appStatusCounter. *)
Definition reconnect_turn (sleeping : M Peers unit) (appStatusCounter : Z) : M Peers Z :=
  let! p := gets pm in
  if isLeader p then
    let! _ := sleeping in
    let! p := gets pm in
    let! _ := if m_reconnectRunning p && negb (Str.empty (m_peerId p)) then
                on_pdb (PeerTable.touchLastSeenVersion (unix_time env) (m_peerId p)
                          (DAEMON_VERSION env))
              else mret tt in
    mret appStatusCounter
  else
    let! appStatusCounter :=
      if negb (m_connectedToLeader p) then
        let! ok := connectToLeader in mret (if ok then 0 else appStatusCounter)
      else mret appStatusCounter in
    let! _ := sleeping in
    let appStatusCounter := appStatusCounter + HEARTBEAT_INTERVAL_SECS in
    let! p := gets pm in
    if m_connectedToLeader p then
      let due := APP_STATUS_INTERVAL_SECS <=? appStatusCounter in
      let! hb := gets (fun w => heartbeat_message due (pm w) (pdb w)) in
      let! _ := sendToLeader hb in
      mret (if due then 0 else appStatusCounter)
    else mret appStatusCounter.

(** [n] turns, with nothing else going on. *)
Fixpoint reconnect_turns (n : nat) (appStatusCounter : Z) : M Peers Z :=
  match n with
  | O => mret appStatusCounter
  | S n' =>
      let! c := reconnect_turn (mret tt) appStatusCounter in
      reconnect_turns n' c
  end.

(** ** The handlers: shared parts *)

Definition argument (k : string) (command : json) : M Peers string :=
  lift (Json.string_at k command).

(** command.contains(k) ? command[k].get<T>() : d *)
Definition opt_member {A} (get : json -> outcome A) (k : string) (d : A) (command : json)
    : M Peers A :=
  lift match Json.member k command with Some v => get v | None => Ok d end.

(** What the manager answers, as a result: status and output, or the raw text. *)
Definition manager_answer (buffer : string) : CmdResult :=
  match (response ← parse buffer;
         status ← match Json.member "status" response with
                  | Some v => Json.get_int32 v
                  | None => Ok 1
                  end;
         output ← match Json.member "output" response with
                  | Some v => Json.get_string v
                  | None => Ok buffer
                  end;
         mret (mkCmdResult status output)) with
  | Ok r => r
  | Throw _ => mkCmdResult 0 buffer
  end.

Definition sendToManager (ip : string) (command : json) : M Peers CmdResult :=
  let fail (sock : Z) (message : string) : M Peers CmdResult :=
    let! _ := sys_close sock in mret (mkCmdResult 1 message) in
  let! sock := sys_socket in
  if sock <? 0 then mret (mkCmdResult 1 ("Failed to create socket for manager" +:+ eol))
  else if negb (inet_pton env ip) then
    fail sock ("Invalid IP address for manager: " +:+ ip +:+ eol)
  else
    let! connected := sys_connect ip MANAGER_PORT in
    if negb connected then
      fail sock ("Failed to connect to manager at " +:+ ip +:+ ":" +:+
                 Num.to_string MANAGER_PORT +:+ eol)
    else
      let! sent := sys_write sock (line_of command) in
      if negb sent then fail sock ("Failed to send command to manager at " +:+ ip +:+ eol)
      else
        let! r := sys_read sock in
        let! _ := sys_close sock in
        mret match r with
             | ReadData s => manager_answer (c_string s)
             | _ => mkCmdResult 1 ("No response from manager at " +:+ ip +:+ eol)
             end.

(** A worker asks its leader for the address of a peer. *)
Definition address_in (response : string) : string :=
  match parse response with
  | Ok parsed =>
      match Json.member "ip_address" parsed with
      | Some (JString ip) => ip
      | _ => ""
      end
  | Throw _ => ""
  end.

Definition queryLeaderForPeerIP (id : string) : M Peers string :=
  let! p := gets pm in
  if negb (m_connectedToLeader p) then mret ""
  else
    let! response := forwardToLeader (obj [("command", JString "getPeerInfo"); ("peer", JString id)]) in
    mret (if Str.empty response then "" else address_in response).

(** getPeer gives a record with empty fields when there is none. *)
Definition getPeerRow (id : string) (d : DB) : PeerRow :=
  default (mkPeer "" "" "" "" 0 false 0) (PeerTable.getPeer id d).

Definition resolvePeerIP (id : string) : M Peers string :=
  let! w := gets (fun w => w) in
  if isLeader (pm w) then
    let ip := ip_address (getPeerRow id (pdb w)) in
    mret (if negb (Str.empty ip) then ip
          else if decide (id = m_peerId (pm w)) then "127.0.0.1" else "")
  else if decide (id = m_peerId (pm w)) then mret "127.0.0.1"
  else queryLeaderForPeerIP id.

(** A worker that is connected forwards the command; the others handle it. *)
Definition forwarded_or (fwdCmd : json) (k : M Peers CmdResult) : M Peers CmdResult :=
  let! p := gets pm in
  if negb (isLeader p) && m_connectedToLeader p then
    let! response := forwardToLeader fwdCmd in
    mret (if negb (Str.empty response) then mkCmdResult 0 response
          else mkCmdResult 1 ("No response from leader" +:+ eol))
  else k.

(** ** The handlers: configuration *)

Definition set_optional (k : string) (set : string -> M Peers unit) (command : json)
    : M Peers unit :=
  if Json.contains k command then let! v := argument k command in set v else mret tt.

(** The leader is in its own table, and keeps its last-seen time fresh. *)
Definition register_self : M Peers unit :=
  let! p := gets pm in
  if isLeader p && negb (Str.empty (m_peerId p)) then
    let! _ := on_pdb (PeerTable.upsertPeer (unix_time env) (m_peerId p) my_ip my_mac
                        (default "" (gethostname env)) true (DAEMON_VERSION env)) in
    startReconnectLoop
  else mret tt.

Definition handleSetPeerConfig (command : json) : M Peers CmdResult :=
  let rest : M Peers CmdResult :=
    let! _ := set_optional "id" setPeerId command in
    let! _ := set_optional "leader" setLeaderAddress command in
    let! _ := register_self in
    let! p := gets pm in
    if bool_decide (m_role p = PEER_ROLE_WORKER) && negb (Str.empty (m_leaderAddress p)) then
      let! ok := connectToLeader in
      let! addr := gets (fun w => m_leaderAddress (pm w)) in
      mret (mkCmdResult 0
        (if ok then "Peer config saved. Connected to leader at " +:+ addr +:+ eol
         else "Peer config saved. Failed to connect to leader at " +:+ addr +:+
              " (will retry on next command)" +:+ eol)%string)
    else
      mret (mkCmdResult 0 ("Peer config saved. Role: " +:+ m_role p +:+
                           ", ID: " +:+ m_peerId p +:+ eol)) in
  if Json.contains "role" command then
    let! role := argument "role" command in
    if decide (role <> PEER_ROLE_LEADER /\ role <> PEER_ROLE_WORKER) then
      mret (mkCmdResult 1 ("Invalid role. Use 'leader' or 'worker'." +:+ eol))
    else let! _ := setRole role in rest
  else rest.

Definition handleGetPeerStatus (command : json) : M Peers CmdResult :=
  gets (fun w =>
    let p := pm w in
    mkCmdResult 0 (dump2 (JObject
      ([("role", JString (m_role p)); ("peer_id", JString (m_peerId p));
        ("leader_address", JString (m_leaderAddress p)); ("is_leader", JBool (isLeader p));
        ("connected_to_leader", JBool (m_connectedToLeader p))] ++
       (if isLeader p then [("connected_workers", JInt (Z.of_nat (length (listPeers p))))]
        else []))) +:+ eol)).

Definition handleRegisterWorker (command : json) : M Peers CmdResult :=
  match gethostname env with
  | None => mret (mkCmdResult 1 ("Failed to get hostname" +:+ eol))
  | Some id =>
      let! _ := setRole PEER_ROLE_WORKER in
      let! _ := setPeerId id in
      let! _ := setLeaderAddress WG_LEADER_IP in
      let! ok := connectToLeader in
      mret (mkCmdResult 0 ("Registered as worker '" +:+ id +:+
        (if ok then "', connected to leader at " +:+ WG_LEADER_IP +:+ eol
         else "', failed to connect to leader at " +:+ WG_LEADER_IP +:+
              " (will retry on next command)" +:+ eol)%string))
  end.

Definition handleDbSanityCheck (command : json) : M Peers CmdResult :=
  let! w := gets (fun w => w) in
  let role := m_role (pm w) in
  let answer (issues : bool) (actions : list json) (message : string) : CmdResult :=
    mkCmdResult 0 (dump2 (JObject [("role", JString role); ("issues_found", JBool issues);
      ("actions", JArray actions); ("message", JString message)]) +:+ eol) in
  if decide (role <> PEER_ROLE_WORKER) then
    mret (answer false [] ("No sanity check needed for role: " +:+ role))
  else
    match PeerTable.getAllPeers (unix_time env) (pdb w) with
    | [] => mret (answer false [] "Sanity check passed: no issues found")
    | peers =>
        let '(deleted, d) := PeerTable.clearAllPeers (pdb w) in
        let! _ := on_pdb (fun _ => d) in
        mret (answer true [JObject
          [("issue", JString "Worker has peer_registry data (leader-only table)");
           ("peer_count", JInt (Z.of_nat (length peers)));
           ("peer_ids", JArray ((fun r => JString (peer_id r)) <$> peers));
           ("action_taken", JString ("Deleted " +:+ Num.to_string deleted +:+ " peer records"))]]
          "Sanity check completed: issues found and fixed")
    end.

(** ** The handlers: the registry of the leader *)

(** [sock] is g_clientSocket. *)
Definition handleRegisterPeer (sock : Z) (command : json) : M Peers CmdResult :=
  let! p := gets pm in
  if negb (isLeader p) then mret (mkCmdResult 1 ("This daemon is not the leader." +:+ eol))
  else
    let! id := opt_member Json.get_string "peer_id" "unknown" command in
    let! ip := opt_member Json.get_string "ip" "" command in
    let! mac := opt_member Json.get_string "mac" "" command in
    let! hostname := opt_member Json.get_string "hostname" "" command in
    let! version := opt_member Json.get_int32 "daemon_version" 0 command in
    let! _ := on_pdb (PeerTable.upsertPeer (unix_time env) id ip mac hostname true version) in
    let! _ := registerPeer id ip mac hostname sock in
    mret (mkCmdResult 0 ("Peer registered: " +:+ id +:+ eol)).

(** One row, in the order the handlers insert the members. *)
Definition peer_json (r : PeerRow) (online : bool) : json :=
  JObject [("peer_id", JString (peer_id r)); ("ip_address", JString (ip_address r));
           ("mac_address", JString (mac_address r)); ("hostname", JString (hostname r));
           ("last_seen", JString (last_seen_text env (last_seen r)));
           ("is_online", JBool online); ("daemon_version", JInt (daemon_version r))].

(** ip.substr(ip.rfind('.') + 1), when there is a dot *)
Fixpoint after_last_dot (s : string) : option string :=
  match s with
  | EmptyString => None
  | String c s' =>
      match after_last_dot s' with
      | Some t => Some t
      | None => if decide (c = "."%char) then Some s' else None
      end
  end.

Definition getLastOctet (ip : string) : outcome Z :=
  match after_last_dot ip with Some t => Num.stoi t | None => Ok 0 end.

Definition by_octet (a b : Z * PeerRow) : Prop := a.1 <= b.1.
#[local] Instance by_octet_dec a b : Decision (by_octet a b).
Proof. unfold by_octet. apply _. Defined.

Fixpoint with_octets (rows : list PeerRow) : outcome (list (Z * PeerRow)) :=
  match rows with
  | [] => Ok []
  | r :: rest =>
      o ← getLastOctet (ip_address r); l ← with_octets rest; Ok ((o, r) :: l)
  end.

(** std::sort compares nothing when there are fewer than two rows; which of two rows
    with the same octet comes first is left open by the library, and here they stay in
    the order of the table. *)
Definition sort_peers (rows : list PeerRow) : outcome (list PeerRow) :=
  match rows with
  | [] | [_] => Ok rows
  | _ => (fun l => (merge_sort by_octet l).*2) <$> with_octets rows
  end.

(** The stored flag, unless the row is more than two minutes old. *)
Definition listed_online (r : PeerRow) : bool :=
  is_online r && negb (120 <? unix_time env - last_seen r).

Definition handleListPeers (command : json) : M Peers CmdResult :=
  forwarded_or (obj [("command", JString "listPeers")]) (
    let! w := gets (fun w => w) in
    let! peers := lift (sort_peers (PeerTable.getAllPeers (unix_time env) (pdb w))) in
    mret (mkCmdResult 0
      (dump2 (JArray ((fun r => peer_json r (listed_online r)) <$> peers)) +:+ eol))).

Definition peer_not_found (id : string) : CmdResult :=
  mkCmdResult 1 ("Peer not found: " +:+ id +:+ eol).

Definition handleDeletePeer (command : json) : M Peers CmdResult :=
  let! id := argument "peer" command in
  forwarded_or (obj [("command", JString "deletePeer"); ("peer", JString id)]) (
    let! w := gets (fun w => w) in
    if Str.empty (peer_id (getPeerRow id (pdb w))) then mret (peer_not_found id)
    else
      let! _ := on_pdb (PeerTable.deletePeer id) in
      mret (mkCmdResult 0 ("Deleted peer: " +:+ id +:+ eol))).

Definition handleGetPeerInfo (command : json) : M Peers CmdResult :=
  let! id := argument "peer" command in
  forwarded_or (obj [("command", JString "getPeerInfo"); ("peer", JString id)]) (
    let! w := gets (fun w => w) in
    let r := getPeerRow id (pdb w) in
    mret (if Str.empty (peer_id r) then peer_not_found id
          else mkCmdResult 0 (dump2 (peer_json r (is_online r)) +:+ eol))).

(** upsertPeer with another MAC address. *)
Definition update_mac (id mac : string) (missing : string) : M Peers CmdResult :=
  let! w := gets (fun w => w) in
  let r := getPeerRow id (pdb w) in
  if Str.empty (peer_id r) then mret (mkCmdResult 1 (missing +:+ id +:+ eol))
  else
    let! _ := on_pdb (PeerTable.upsertPeer (unix_time env) id (ip_address r) mac (hostname r)
                        (is_online r) (daemon_version r)) in
    mret (mkCmdResult 0 ("Updated MAC for " +:+ id +:+ ": " +:+ mac +:+ eol)).

Definition handleUpdatePeerMac (command : json) : M Peers CmdResult :=
  let! p := gets pm in
  let id := m_peerId p in
  if Str.empty id then
    mret (mkCmdResult 1 ("Peer not configured. Run registerWorker first." +:+ eol))
  else if Str.empty my_mac then mret (mkCmdResult 1 ("Failed to detect MAC address" +:+ eol))
  else if isLeader p then update_mac id my_mac "Peer not found in database: "
  else
    let! connected := if m_connectedToLeader p then mret true else connectToLeader in
    if negb connected then mret (mkCmdResult 1 ("Not connected to leader" +:+ eol))
    else
      let! response := forwardToLeader (obj [("command", JString "updatePeerMacInternal");
                         ("peer_id", JString id); ("mac", JString my_mac)]) in
      mret (mkCmdResult 0
        (if negb (Str.empty response) then response
         else "Sent MAC update to leader: " +:+ my_mac +:+ eol)%string).

Definition handleUpdatePeerMacInternal (command : json) : M Peers CmdResult :=
  let! p := gets pm in
  if negb (isLeader p) then
    mret (mkCmdResult 1 ("This command should only be received by the leader" +:+ eol))
  else
    let! id := argument "peer_id" command in
    let! mac := argument "mac" command in
    update_mac id mac "Peer not found: ".

(** ** The handlers: commands on other peers *)

Definition EXEC_ATTEMPTS : nat := 2.

(** The address to connect to, or the answer that ends the handler. *)
Definition exec_address (id : string) : M Peers (string + CmdResult) :=
  let! w := gets (fun w => w) in
  if isLeader (pm w) then
    let r := getPeerRow id (pdb w) in
    mret (if Str.empty (peer_id r) then inr (peer_not_found id)
          else if Str.empty (ip_address r) then
            inr (mkCmdResult 1 ("Peer has no IP address: " +:+ id +:+ eol))
          else inl (ip_address r))
  else if negb (m_connectedToLeader (pm w)) then
    mret (inr (mkCmdResult 1 ("Not connected to leader" +:+ eol)))
  else
    let! ip := queryLeaderForPeerIP id in
    mret (if Str.empty ip then
            inr (mkCmdResult 1 ("Peer not found or leader unavailable: " +:+ id +:+ eol))
          else inl ip).

(** The connection to a peer: its descriptor; [None] when this attempt failed in a way
    the next may not, and the answer that ends the handler otherwise. *)
Definition exec_connection (last : bool) (id : string) : M Peers (option Z + CmdResult) :=
  let! p := gets pm in
  let peer := getPeerInfo id p in
  if Str.empty (pi_id peer) || (pi_fd peer <? 0) then
    let! address := exec_address id in
    match address with
    | inr r => mret (inr r)
    | inl ip =>
        let! ok := connectToPeer id ip in
        if negb ok then
          mret (if last then inr (mkCmdResult 1 ("Failed to connect to peer: " +:+ id +:+
                                                 " (" +:+ ip +:+ ")" +:+ eol))
                else inl None)
        else let! p := gets pm in mret (inl (Some (pi_fd (getPeerInfo id p))))
    end
  else mret (inl (Some (pi_fd peer))).

(** What the handler does with a failed read. *)
Definition exec_read_failed (last ended eagain : bool) (id : string) : M Peers (option CmdResult) :=
  let failure :=
    if eagain then mkCmdResult 1 ("Timeout waiting for response from " +:+ id +:+ eol)
    else mkCmdResult 1 ("Failed to read response from " +:+ id +:+ ": " +:+ strerror env +:+ eol) in
  if ended || negb eagain then
    let! _ := unregisterPeer id in
    mret (if last then Some failure else None)
  else mret (Some failure).

(** One attempt: [None] goes on to the next. *)
Definition exec_attempt (last : bool) (id : string) (execRequest : json)
    : M Peers (option CmdResult) :=
  let! connection := exec_connection last id in
  match connection with
  | inr r => mret (Some r)
  | inl None => mret None
  | inl (Some fd) =>
      let! sent := sendToPeer id execRequest in
      if negb sent then
        mret (if last then Some (mkCmdResult 1 ("Failed to send command to peer: " +:+ id +:+ eol))
              else None)
      else
        let! r := sys_read fd in
        match r with
        | ReadData s => mret (Some (mkCmdResult 0 (c_string s)))
        | ReadEnd eagain => exec_read_failed last true eagain id
        | ReadError eagain => exec_read_failed last false eagain id
        end
  end.

(** The loop over the attempts, [n] of them left. *)
Fixpoint exec_attempts (n : nat) (id : string) (execRequest : json) : M Peers CmdResult :=
  match n with
  | O => mret (mkCmdResult 1 ("Unknown error in handleExecOnPeer" +:+ eol))
  | S n' =>
      let! r := exec_attempt (Nat.eqb n' 0) id execRequest in
      match r with
      | Some r => mret r
      | None => exec_attempts n' id execRequest
      end
  end.

Definition exec_request (directory cmd : string) : json :=
  obj [("command", JString "execRequest"); ("directory", JString directory);
       ("shellCmd", JString cmd)].

Definition handleExecOnPeer (command : json) : M Peers CmdResult :=
  let! id := argument "peer" command in
  let! directory := argument "directory" command in
  let! cmd := argument "shellCmd" command in
  exec_attempts EXEC_ATTEMPTS id (exec_request directory cmd).

Definition exec_on_peer (id directory cmd : string) : json :=
  obj [("command", JString "execOnPeer"); ("peer", JString id);
       ("directory", JString directory); ("shellCmd", JString cmd)].

Definition handleRemotePull (command : json) : M Peers CmdResult :=
  let! id := argument "peer" command in
  handleExecOnPeer (exec_on_peer id "/opt/automateLinux" "git pull").

Definition handleRemoteBd (command : json) : M Peers CmdResult :=
  let! id := argument "peer" command in
  handleExecOnPeer (exec_on_peer id "/opt/automateLinux/daemon" "bash -c 'source ./build.sh'").

Definition handleRemoteDeployDaemon (command : json) : M Peers CmdResult :=
  let! id := argument "peer" command in
  let! ip := resolvePeerIP id in
  if Str.empty ip then
    mret (mkCmdResult 1 ("Could not find IP for peer: " +:+ id +:+ eol))
  else sendToManager ip (obj [("command", JString "deploy")]).

(** ** The handlers: commands of other peers *)

(** The read loop: the output so far and, when the time ran out, nothing more.  The
    list of turns ends where the pipe does. *)
Definition timed_out (timeout_sec : Z) (output : string) : string :=
  (output +:+ eol +:+ "[TIMEOUT after " +:+ Num.to_string timeout_sec +:+ "s]")%string.

Fixpoint read_child (timeout_sec : Z) (turns : list (Z * PipeResult)) (output : string)
    : string * bool :=
  match turns with
  | [] => (output, false)
  | (elapsed, r) :: rest =>
      if timeout_sec - elapsed <=? 0 then (timed_out timeout_sec output, true)
      else
        match r with
        | SelectInterrupted => read_child timeout_sec rest output
        | SelectFailed | PipeClosed => (output, false)
        | SelectTimeout => (timed_out timeout_sec output, true)
        | PipeData s => read_child timeout_sec rest (output +:+ c_string s)
        end
  end.

(** The output and the exit code. *)
Definition child_result (timeout_sec : Z) (child : ChildRun) : string * Z :=
  if negb (pipe_ok child) then ("Failed to create pipe: " +:+ strerror env, 1)
  else if negb (fork_ok child) then ("Failed to fork: " +:+ strerror env, 1)
  else
    let '(output, killed) := read_child timeout_sec (turns child) "" in
    (output, if killed then 124 else default 1 (wait_status child)).

Definition executeCommandWithTimeout (full_cmd : string) (timeout_sec : Z) : M Peers (string * Z) :=
  let! child := syscall (fun n => run_child env n full_cmd) in
  mret (child_result timeout_sec child).

(** The commands that would come back to this daemon. *)
Definition deadlock_prone (cmd : string) : bool :=
  Str.contains "daemon send" cmd || Str.contains "daemon daemon" cmd ||
  Str.contains "/daemon send" cmd || Str.contains " d " cmd || Str.starts_with "d " cmd.

Definition deadlock_message : string :=
  ("Error: Cannot run daemon commands via execOnPeer (would cause deadlock). Use direct " +:+
   "daemon commands instead (e.g., 'd listPorts' locally forwards to leader)." +:+ eol)%string.

Definition handleExecRequest (command : json) : M Peers CmdResult :=
  let! directory := argument "directory" command in
  let! cmd := argument "shellCmd" command in
  if deadlock_prone cmd then mret (mkCmdResult 1 deadlock_message)
  else
    let full_cmd := ("cd " +:+ directory +:+ " && " +:+ cmd +:+ " 2>&1")%string in
    let! r := executeCommandWithTimeout full_cmd 60 in
    mret (mkCmdResult r.2 r.1).

(** ** The handlers by name *)

(** [sock] is g_clientSocket. *)
Definition peer_handler (sock : Z) (h : HandlerId) : option (json -> M Peers CmdResult) :=
  match h with
  | H_handleSetPeerConfig => Some handleSetPeerConfig
  | H_handleGetPeerStatus => Some handleGetPeerStatus
  | H_handleRegisterPeer => Some (handleRegisterPeer sock)
  | H_handleListPeers => Some handleListPeers
  | H_handleDeletePeer => Some handleDeletePeer
  | H_handleGetPeerInfo => Some handleGetPeerInfo
  | H_handleExecOnPeer => Some handleExecOnPeer
  | H_handleExecRequest => Some handleExecRequest
  | H_handleRemotePull => Some handleRemotePull
  | H_handleRemoteBd => Some handleRemoteBd
  | H_handleRemoteDeployDaemon => Some handleRemoteDeployDaemon
  | H_handleDbSanityCheck => Some handleDbSanityCheck
  | H_handleRegisterWorker => Some handleRegisterWorker
  | H_handleUpdatePeerMac => Some handleUpdatePeerMac
  | H_handleUpdatePeerMacInternal => Some handleUpdatePeerMacInternal
  | _ => None
  end.
End Peers.
