(* ===== verification/PeerFacts.v ===== *)
(** Theorems about the peer network: the connection to the leader refines a machine of
    three states, what a command on another peer sends and answers, the registry of the
    leader, and how a worker finds an address. *)

From S2P Require Import Prelude Stdio Types Json Database Settings Registry Dispatch Server Peers.

(** ** Descriptors *)

Lemma free_from_spec n fd open :
  fd <= free_from n fd open /\
  (free_from n fd open ∉ open \/ Forall (fun x => x ∈ open) (seqZ fd (Z.of_nat n))
     /\ free_from n fd open = fd + Z.of_nat n).
Proof.
  revert fd. induction n as [|n IH]; intros fd; simpl.
  { split; [lia|]. right. by split; [constructor|lia]. }
  case_bool_decide as Hin; [|split; [lia|by left]].
  destruct (IH (fd + 1)) as [Hle [Hout|[Hall Heq]]]; (split; [lia|]); [by left|].
  right. rewrite seqZ_cons by lia. split; [|lia]. constructor; [done|].
  replace (Z.pred (Z.of_nat (S n))) with (Z.of_nat n) by lia. exact Hall.
Qed.

(** A new descriptor is not open yet. *)
Lemma lowest_free_fresh open : lowest_free open ∉ open /\ 0 <= lowest_free open.
Proof.
  unfold lowest_free. destruct (free_from_spec (length open) 0 open) as [Hle [Hout|[Hall Heq]]];
    [done|]. split; [|lia]. rewrite Heq. intros Hin.
  assert (seqZ 0 (Z.of_nat (S (length open))) ⊆+ open) as Hsub.
  { apply NoDup_submseteq; [apply NoDup_seqZ|]. intros x Hx%elem_of_seqZ.
    destruct (decide (x = 0 + Z.of_nat (length open))) as [->|]; [done|].
    rewrite Forall_forall in Hall. apply Hall, elem_of_seqZ. lia. }
  apply submseteq_length in Hsub. rewrite length_seqZ in Hsub. lia.
Qed.

(** ** Statements *)

Lemma bindM_syscall {A B} (f : nat -> A) (k : A -> M Peers B) (w : Peers) :
  bindM (syscall f) k w =
  k (f (calls w)) (mkPeers (pdb w) (pm w) (open_fds w) (wire w) (S (calls w))).
Proof. done. Qed.
Lemma bindM_pm {B} (f : PeerManager -> PeerManager) (k : unit -> M Peers B) (w : Peers) :
  bindM (on_pm f) k w = k tt (set_pm (f (pm w)) w).
Proof. done. Qed.
Lemma bindM_pdb {B} (f : DB -> DB) (k : unit -> M Peers B) (w : Peers) :
  bindM (on_pdb f) k w = k tt (set_pdb (f (pdb w)) w).
Proof. done. Qed.
Lemma bindM_close {B} (fd : Z) (k : unit -> M Peers B) (w : Peers) :
  bindM (sys_close fd) k w =
  k tt (mkPeers (pdb w) (pm w) (base.filter (fun x => x <> fd) (open_fds w)) (wire w) (calls w)).
Proof. done. Qed.
#[export] Hint Rewrite @bindM_syscall @bindM_pm @bindM_pdb @bindM_close : handler.

(** ** The connection to the leader, abstractly *)

(** Not connected, connected through a descriptor, or taken for connected without a
    socket. *)
Inductive LeaderLink := Down | Up (fd : Z) | Stale.

#[export] Instance LeaderLink_eq_dec : EqDecision LeaderLink.
Proof. solve_decision. Defined.

(** The state of the manager, read as one of the three. *)
Definition link_is (w : Peers) (l : LeaderLink) : Prop :=
  match l with
  | Down => m_connectedToLeader (pm w) = false /\ m_leaderSocket (pm w) = -1
  | Up fd => m_connectedToLeader (pm w) = true /\ m_leaderSocket (pm w) = fd /\ 0 <= fd
  | Stale => m_connectedToLeader (pm w) = true /\ m_leaderSocket (pm w) = -1
  end.

(** What an operation may do to the link.  [Quiet]: nothing.  [MayLose]: lose it.
    [Reconnects]: connect when it is down, and lose it; the stale link stays.
    [Configures]: connect in any state, and failing when the link is not down leaves it
    stale.  [Disconnects]: take it down. *)
Inductive OpKind := Quiet | MayLose | Reconnects | Configures | Disconnects.

Definition allowed (k : OpKind) (l l' : LeaderLink) : Prop :=
  match k with
  | Quiet => l' = l
  | MayLose => l' = l \/ exists fd, l = Up fd /\ l' = Down
  | Reconnects => l = Stale <-> l' = Stale
  | Configures => l' = l \/ l' <> Stale \/ l <> Down
  | Disconnects => l' = Down
  end.

(** [m] does to the link what the kind [k] allows. *)
Definition follows {A} (k : OpKind) (m : M Peers A) : Prop :=
  forall w l, link_is w l -> exists l', link_is (m w).1 l' /\ allowed k l l'.

(** One of the three readings is still right. *)
Definition link_from (w w' : Peers) : Prop := forall l, link_is w l -> exists l', link_is w' l'.

#[export] Instance link_from_preorder : PreOrder link_from.
Proof.
  split; [intros w l; eauto|]. intros w1 w2 w3 H12 H23 l Hl.
  destruct (H12 l Hl) as [l' Hl']. by apply (H23 l').
Qed.

Lemma follows_link_from {A} k (m : M Peers A) : follows k m -> forall w, link_from w (m w).1.
Proof. intros Hm w l Hl. destruct (Hm w l Hl) as (l' & H & _). by exists l'. Qed.

Lemma link_is_functional w l l' : link_is w l -> link_is w l' -> l = l'.
Proof. destruct l, l'; simpl; intros; destruct_and?; congruence || (f_equal; congruence) || lia. Qed.

Lemma allowed_quiet k l : k <> Disconnects -> allowed k l l.
Proof. destruct k; simpl; tauto. Qed.

Lemma follows_same {A} k (m : M Peers A) : k <> Disconnects ->
  (forall w, m_connectedToLeader (pm (m w).1) = m_connectedToLeader (pm w) /\
             m_leaderSocket (pm (m w).1) = m_leaderSocket (pm w)) -> follows k m.
Proof.
  intros Hk H w l Hl. exists l. split; [|by apply allowed_quiet].
  destruct (H w) as [Hc Hs]. destruct l; simpl in *; by rewrite Hc, Hs.
Qed.

(** Sequences.  A quiet part changes nothing; losing and reconnecting compose. *)
Lemma follows_bind_quiet {A B} k (m : M Peers A) (f : A -> M Peers B) : k <> Disconnects ->
  follows Quiet m -> (forall a, follows k (f a)) -> follows k (bindM m f).
Proof.
  intros Hk Hm Hf w l Hl. unfold bindM, M_bind. destruct (Hm w l Hl) as (l1 & H1 & E).
  simpl in E. subst l1. destruct (m w) as [w1 []]; [by apply Hf|].
  exists l. by split; [|apply allowed_quiet].
Qed.

Lemma follows_then_quiet {A B} k (m : M Peers A) (f : A -> M Peers B) :
  follows k m -> (forall a, follows Quiet (f a)) -> follows k (bindM m f).
Proof.
  intros Hm Hf w l Hl. unfold bindM, M_bind. destruct (Hm w l Hl) as (l1 & H1 & E).
  destruct (m w) as [w1 []]; [|by exists l1].
  destruct (Hf a w1 l1 H1) as (l2 & H2 & ->). by exists l1.
Qed.

Definition composes (k : OpKind) : Prop := k = Quiet \/ k = MayLose \/ k = Reconnects.

Lemma allowed_trans k l1 l2 l3 :
  composes k -> allowed k l1 l2 -> allowed k l2 l3 -> allowed k l1 l3.
Proof. intros [->|[->| ->]]; simpl; naive_solver. Qed.

Lemma follows_bind {A B} k (m : M Peers A) (f : A -> M Peers B) : composes k ->
  follows k m -> (forall a, follows k (f a)) -> follows k (bindM m f).
Proof.
  intros Hk Hm Hf w l Hl. unfold bindM, M_bind. destruct (Hm w l Hl) as (l1 & H1 & E1).
  destruct (m w) as [w1 []]; [|by exists l1].
  destruct (Hf a w1 l1 H1) as (l2 & H2 & E2). exists l2. split; [done|].
  by eapply allowed_trans.
Qed.

Lemma follows_weaken {A} k k' (m : M Peers A) :
  (forall l l', allowed k l l' -> allowed k' l l') -> follows k m -> follows k' m.
Proof. intros H Hm w l Hl. destruct (Hm w l Hl) as (l' & H1 & H2). eauto. Qed.

Lemma quiet_is {A} k (m : M Peers A) : k <> Disconnects -> follows Quiet m -> follows k m.
Proof. intros Hk. apply follows_weaken. intros l l' ->. by apply allowed_quiet. Qed.

Lemma lose_is_reconnects {A} (m : M Peers A) : follows MayLose m -> follows Reconnects m.
Proof. apply follows_weaken. simpl. naive_solver. Qed.

Lemma follows_if {A} k (b : bool) (m n : M Peers A) :
  follows k m -> follows k n -> follows k (if b then m else n).
Proof. by destruct b. Qed.

(** A sum of two updates of the state that the link does not see. *)
Ltac unseen :=
  apply follows_same; [done|]; intros ?; unfold bindM, M_bind, syscall; simpl;
  repeat case_match; simplify_eq/=; by split.

(** Go through a computation of kind [k] that composes. *)
Create HintDb link discriminated.
#[export] Hint Extern 1 (composes _) => unfold composes; tauto : link.
#[export] Hint Extern 1 (_ <> Disconnects) => discriminate : link.

Ltac follow :=
  repeat first
    [ solve [eauto with link] | apply follows_if
    | apply follows_bind; [solve [eauto with link]| |intros] | case_match | unseen ].

(** ** Computations that throw nothing *)

Definition returns {A} (m : M Peers A) : Prop := forall w, exists a, (m w).2 = Ok a.

Lemma returns_bind {A B} (m : M Peers A) (f : A -> M Peers B) :
  returns m -> (forall a, returns (f a)) -> returns (bindM m f).
Proof.
  intros Hm Hf w. unfold bindM, M_bind. destruct (Hm w) as [a Ha].
  destruct (m w) as [w' o]. simpl in Ha. subst. apply Hf.
Qed.

Lemma returns_if {A} (b : bool) (m n : M Peers A) :
  returns m -> returns n -> returns (if b then m else n).
Proof. by destruct b. Qed.

Ltac returning :=
  repeat first
    [ solve [auto with link] | apply returns_if | apply returns_bind; [|intros]
    | case_match | solve [intros ?; eexists; reflexivity] ].

Section Link.
Context (env : NetEnv).

Lemma ret_quiet {A} (a : A) : follows Quiet (mret a : M Peers A).
Proof using Type. unseen. Qed.
Lemma lift_quiet {A} (o : outcome A) : follows Quiet (lift o : M Peers A).
Proof using Type. unseen. Qed.
Lemma gets_quiet {A} (f : Peers -> A) : follows Quiet (gets f).
Proof using Type. unseen. Qed.
Lemma pdb_quiet f : follows Quiet (on_pdb f).
Proof using Type. unseen. Qed.
Lemma socket_quiet : follows Quiet (sys_socket env).
Proof using Type. unfold sys_socket, syscall. unseen. Qed.
Lemma close_quiet fd : follows Quiet (sys_close fd).
Proof using Type. unseen. Qed.
Lemma connect_quiet ip port : follows Quiet (sys_connect env ip port).
Proof using Type. unseen. Qed.
Lemma write_quiet fd msg : follows Quiet (sys_write env fd msg).
Proof using Type. unfold sys_write, syscall. unseen. Qed.
Lemma read_quiet fd : follows Quiet (sys_read env fd).
Proof using Type. unseen. Qed.
Lemma poll_quiet : follows Quiet (sys_poll env).
Proof using Type. unseen. Qed.
Lemma pm_quiet f :
  (forall p, m_connectedToLeader (f p) = m_connectedToLeader p /\
             m_leaderSocket (f p) = m_leaderSocket p) -> follows Quiet (on_pm f).
Proof using Type. intros H. apply follows_same; [done|]. intros w. apply H. Qed.
End Link.

#[export] Hint Resolve ret_quiet lift_quiet gets_quiet pdb_quiet socket_quiet close_quiet
  connect_quiet write_quiet read_quiet poll_quiet : link.
#[export] Hint Extern 2 (follows Quiet (on_pm _)) =>
  apply pm_quiet; intros ?; simpl; repeat case_match; by split : link.
#[export] Hint Extern 5 (follows MayLose _) => apply quiet_is; [discriminate|] : link.
#[export] Hint Extern 5 (follows Reconnects _) => apply quiet_is; [discriminate|] : link.

(** ** Every operation follows its kind *)

Section Operations.
Context (env : NetEnv) (dump : json -> string).
Context (getLocalAppStatusAll : DB -> json).

Abbreviation sendToLeader := (sendToLeader env dump).
Abbreviation forwardToLeader := (forwardToLeader env dump).
Abbreviation connectToLeader := (connectToLeader env dump getLocalAppStatusAll).

(** Closing the old socket keeps the flag. *)
Lemma close_old w l : link_is w l -> exists w1,
  (if 0 <=? m_leaderSocket (pm w) then
     let! _ := sys_close (m_leaderSocket (pm w)) in on_pm (set_socket (-1))
   else mret tt) w = (w1, Ok tt) /\
  m_connectedToLeader (pm w1) = m_connectedToLeader (pm w) /\ m_leaderSocket (pm w1) = -1.
Proof using Type.
  intros Hl. destruct (0 <=? m_leaderSocket (pm w)) eqn:E; [by eexists|].
  exists w. destruct l; simpl in Hl; naive_solver lia.
Qed.

Lemma disconnect_down w l : link_is w l -> link_is (disconnectFromLeader w).1 Down.
Proof using Type.
  intros Hl. destruct (close_old w l Hl) as (w1 & E & Hc & Hs).
  unfold disconnectFromLeader. unfold bindM at 1, M_bind, gets, bindM at 1, M_bind.
  rewrite E. by split.
Qed.

Lemma write_link fd msg w l : link_is w l -> link_is (sys_write env fd msg w).1 l.
Proof using Type. intros Hl. by destruct (write_quiet env fd msg w l Hl) as (l' & H & ->). Qed.

(** From a link that is up: it stays or is lost. *)
Definition from_up {A} (m : M Peers A) : Prop :=
  forall w fd, link_is w (Up fd) -> exists l', link_is (m w).1 l' /\ (l' = Up fd \/ l' = Down).

Lemma guarded_loses {A} (no : A) (body : PeerManager -> M Peers A) :
  (forall p, from_up (body p)) ->
  follows MayLose (let! p := gets pm in
    if negb (m_connectedToLeader p) || (m_leaderSocket p <? 0) then mret no else body p).
Proof using Type.
  intros Hb w l Hl. unfold bindM, M_bind, gets.
  destruct (negb _ || _) eqn:E; [exists l; split; [done|by left]|].
  apply orb_false_iff in E as [Ec%negb_false_iff Es%Z.ltb_ge].
  assert (exists fd, l = Up fd) as [fd ->].
  { destruct l; simpl in Hl; destruct_and?; [congruence|eauto|lia]. }
  destruct (Hb (pm w) w fd Hl) as (l' & H & [->| ->]); eexists; (split; [done|]); simpl; eauto.
Qed.

Lemma up_quiet {A} (m : M Peers A) : follows Quiet m -> from_up m.
Proof using Type. intros H w fd Hl. destruct (H w _ Hl) as (l' & H1 & ->). eauto. Qed.

Lemma up_bind {A B} (m : M Peers A) (f : A -> M Peers B) :
  follows Quiet m -> (forall a, from_up (f a)) -> from_up (bindM m f).
Proof using Type.
  intros Hm Hf w fd Hl. unfold bindM, M_bind. destruct (Hm w _ Hl) as (l' & H & ->).
  destruct (m w) as [w1 []]; [by apply Hf|eauto].
Qed.

Lemma up_disconnect {A} (a : A) : from_up (let! _ := disconnectFromLeader in mret a).
Proof using Type.
  intros w fd Hl. exists Down. split; [|by right]. pose proof (disconnect_down w _ Hl) as H.
  unfold bindM, M_bind. by destruct (disconnectFromLeader w) as [? []].
Qed.

Lemma up_if {A} (b : bool) (m n : M Peers A) : from_up m -> from_up n -> from_up (if b then m else n).
Proof using Type. by destruct b. Qed.

Ltac up :=
  repeat first [ apply up_disconnect | apply up_if | apply up_bind; [solve [auto with link]|intros]
               | solve [apply up_quiet; auto with link] | case_match ].

Lemma sendToLeader_loses message : follows MayLose (sendToLeader message).
Proof using Type. apply guarded_loses. intros p. up. Qed.

Lemma forwardToLeader_loses command : follows MayLose (forwardToLeader command).
Proof using Type. apply guarded_loses. intros p. up. Qed.

Lemma disconnect_returns : returns disconnectFromLeader.
Proof using Type. unfold disconnectFromLeader. returning. Qed.

Lemma sendToLeader_returns message : returns (sendToLeader message).
Proof using Type. unfold Peers.sendToLeader. pose proof disconnect_returns. returning. Qed.

(** The end of a connection that was made. *)
Lemma registered_link w fd :
  link_is w (Up fd) -> exists l,
  link_is ((let! regMsg := gets (fun w => registration env getLocalAppStatusAll (pm w) (pdb w)) in
            let! _ := sendToLeader regMsg in
            let! sock := gets (fun w => m_leaderSocket (pm w)) in
            let! _ := sys_read env sock in
            mret true) w).1 l /\ l <> Stale.
Proof using Type.
  intros Hl. set (m := bindM _ _).
  assert (follows MayLose m) as Hm.
  { unfold m. apply follows_bind; [auto with link..|intros regMsg].
    apply follows_bind; [auto with link|apply sendToLeader_loses|intros]. follow. }
  destruct (Hm w _ Hl) as (l & H & E). exists l. split; [done|].
  simpl in E. naive_solver.
Qed.

Lemma registered_true w :
  ((let! regMsg := gets (fun w => registration env getLocalAppStatusAll (pm w) (pdb w)) in
    let! _ := sendToLeader regMsg in
    let! sock := gets (fun w => m_leaderSocket (pm w)) in
    let! _ := sys_read env sock in
    mret true) w).2 = Ok true.
Proof using Type.
  unfold bindM, M_bind, gets. destruct (sendToLeader _ w) as [w1 o] eqn:E.
  destruct (sendToLeader_returns (registration env getLocalAppStatusAll (pm w) (pdb w)) w) as [b Hb].
  rewrite E in Hb. by simpl in Hb; subst.
Qed.

Lemma sys_socket_run w w' o : sys_socket env w = (w', o) ->
  exists fd, o = Ok fd /\ pm w' = pm w /\ -1 <= fd.
Proof using Type.
  unfold sys_socket, syscall, bindM, M_bind, gets, modify. simpl.
  destruct (socket_ok env (calls w)); intros [= <- <-]; eexists; (split; [done|split; [done|]]).
  - pose proof (lowest_free_fresh (open_fds w)). lia.
  - lia.
Qed.

(** Connecting: the link is up or lost at once afterwards when it succeeds, and when it
    fails it is as it was, except that a link that was up is stale. *)
Lemma connectToLeader_link w l : link_is w l ->
  exists l', link_is (connectToLeader w).1 l' /\
    match (connectToLeader w).2 with
    | Ok true => l' <> Stale
    | _ => l' = l \/ (l <> Down /\ l' = Stale)
    end.
Proof using Type.
  intros Hl.
  assert (forall w', m_connectedToLeader (pm w') = m_connectedToLeader (pm w) ->
    m_leaderSocket (pm w') = -1 -> exists l', link_is w' l' /\ (l' = l \/ (l <> Down /\ l' = Stale)))
    as Hfail.
  { intros w' Hc' Hs'. destruct l; simpl in Hl; destruct_and?;
      [exists Down|exists Stale|exists Stale]; simpl; (split; [split; congruence|]); auto. }
  unfold Peers.connectToLeader. rewrite bindM_gets.
  destruct (isLeader (pm w)); [exists l; split; [done|by left]|].
  destruct (Str.empty _); [exists l; split; [done|by left]|].
  destruct (close_old w l Hl) as (w1 & E & Hc & Hs). rewrite (bindM_ok _ _ _ _ _ E). clear E.
  destruct (sys_socket env w1) as [w2 o2] eqn:E.
  destruct (sys_socket_run _ _ _ E) as (fd & -> & Hp2 & Hfd). rewrite (bindM_ok _ _ _ _ _ E). clear E.
  rewrite bindM_pm.
  destruct (fd <? 0) eqn:Efd; [apply Hfail; simpl; rewrite ?Hp2; [exact Hc|lia]|].
  destruct (negb (inet_pton env _)).
  { unfold sys_close. rewrite bindM_modify, bindM_pm. by apply Hfail; simpl; rewrite ?Hp2. }
  unfold sys_connect. rewrite bindM_syscall.
  destruct (negb (connect_ok _ _ _ _)).
  { unfold sys_close. rewrite bindM_modify, bindM_pm. by apply Hfail; simpl; rewrite ?Hp2. }
  rewrite bindM_pm.
  set (w3 := set_pm _ _).
  assert (link_is w3 (Up fd)) as H3 by (simpl; lia).
  destruct (registered_link w3 fd H3) as (l' & H & Hne). exists l'. split; [done|].
  by rewrite (registered_true w3).
Qed.

Lemma connectToLeader_configures : follows Configures connectToLeader.
Proof using Type.
  intros w l Hl. destruct (connectToLeader_link w l Hl) as (l' & H & E). exists l'.
  split; [done|]. simpl. destruct (connectToLeader w).2 as [[]|]; naive_solver.
Qed.

(** Connecting only when the manager says it is not connected. *)
Lemma connect_if_down {A} (f : bool -> A) (other : A) (w : Peers) (l : LeaderLink) :
  link_is w l -> exists l',
  link_is ((if m_connectedToLeader (pm w) then mret other
            else let! ok := connectToLeader in mret (f ok)) w).1 l' /\ allowed Reconnects l l'.
Proof using Type.
  intros Hl. destruct (m_connectedToLeader (pm w)) eqn:E; [exists l; by split|].
  assert (l = Down) as -> by (destruct l; simpl in Hl; naive_solver congruence).
  destruct (connectToLeader_link w Down Hl) as (l' & H & E').
  exists l'. split; [unfold bindM, M_bind; by destruct (connectToLeader w) as [? []]|].
  destruct (connectToLeader w).2 as [[]|]; simpl; naive_solver.
Qed.

(** A computation that starts by reading the manager. *)
Lemma follows_at {A B} k (m : M Peers A) (f : A -> M Peers B) (w : Peers) (l : LeaderLink) :
  composes k -> (exists l', link_is (m w).1 l' /\ allowed k l l') -> (forall a, follows k (f a)) ->
  exists l', link_is (bindM m f w).1 l' /\ allowed k l l'.
Proof using Type.
  intros Hk (l1 & H1 & E1) Hf. unfold bindM, M_bind. destruct (m w) as [w1 []]; [|by exists l1].
  destruct (Hf a w1 l1 H1) as (l2 & H2 & E2). exists l2. split; [done|]. by eapply allowed_trans.
Qed.
End Operations.

#[export] Hint Resolve sendToLeader_loses forwardToLeader_loses connectToLeader_configures : link.
#[export] Hint Extern 6 (follows Reconnects _) => apply lose_is_reconnects : link.

Lemma save_quiet : follows Quiet saveConfig.
Proof. unseen. Qed.
Lemma role_quiet r : follows Quiet (setRole r).
Proof. unseen. Qed.
Lemma id_quiet i : follows Quiet (setPeerId i).
Proof. unseen. Qed.
Lemma address_quiet a : follows Quiet (setLeaderAddress a).
Proof. unseen. Qed.

Lemma query_loses env dump parse id : follows MayLose (queryLeaderForPeerIP env dump parse id).
Proof. unfold queryLeaderForPeerIP. follow. Qed.

Lemma manager_quiet env dump parse ip c : follows Quiet (sendToManager env dump parse ip c).
Proof. unfold sendToManager. follow. Qed.

Lemma connectToPeer_quiet env id ip : follows Quiet (connectToPeer env id ip).
Proof. unfold connectToPeer. follow. Qed.

Lemma sendToPeer_quiet env dump id m : follows Quiet (sendToPeer env dump id m).
Proof. unfold sendToPeer. follow. Qed.

Lemma unregister_quiet id : follows Quiet (unregisterPeer id).
Proof. unfold unregisterPeer. follow. Qed.

Lemma forwarded_loses env dump c k :
  follows MayLose k -> follows MayLose (forwarded_or env dump c k).
Proof. intros H. unfold forwarded_or. follow. Qed.
#[export] Hint Resolve save_quiet role_quiet id_quiet address_quiet query_loses manager_quiet
  connectToPeer_quiet sendToPeer_quiet unregister_quiet forwarded_loses : link.

(** The operations of the component: the handlers, a turn of the heartbeat thread, and
    what the server calls. *)
Inductive PeerOp :=
  | OpSetPeerConfig (c : json) | OpGetPeerStatus (c : json) | OpRegisterWorker (c : json)
  | OpDbSanityCheck (c : json) | OpRegisterPeer (sock : Z) (c : json) | OpListPeers (c : json)
  | OpDeletePeer (c : json) | OpGetPeerInfo (c : json) | OpUpdatePeerMac (c : json)
  | OpUpdatePeerMacInternal (c : json) | OpExecOnPeer (c : json) | OpRemotePull (c : json)
  | OpRemoteBd (c : json) | OpRemoteDeployDaemon (c : json) | OpExecRequest (c : json)
  | OpReconnectTurn (counter : Z) | OpStartReconnectLoop | OpStopReconnectLoop
  | OpBroadcast (message : json) | OpLoadConfig | OpUpdatePeerStatus (id : string) (online : bool)
  | OpDisconnect | OpClosePeer (fd : Z).

Definition kind_of (op : PeerOp) : OpKind :=
  match op with
  | OpSetPeerConfig _ | OpRegisterWorker _ => Configures
  | OpUpdatePeerMac _ | OpReconnectTurn _ => Reconnects
  | OpListPeers _ | OpDeletePeer _ | OpGetPeerInfo _ | OpExecOnPeer _ | OpRemotePull _
  | OpRemoteBd _ | OpRemoteDeployDaemon _ => MayLose
  | OpDisconnect => Disconnects
  | _ => Quiet
  end.

Definition ignore {A} (m : M Peers A) : M Peers unit := let! _ := m in mret tt.

Section Machine.
Context (env : NetEnv) (dump dump2 : json -> string) (parse : string -> outcome json).
Context (getLocalAppStatusAll : DB -> json).

Definition run_op (op : PeerOp) : M Peers unit :=
  match op with
  | OpSetPeerConfig c => ignore (handleSetPeerConfig env dump getLocalAppStatusAll c)
  | OpGetPeerStatus c => ignore (handleGetPeerStatus dump2 c)
  | OpRegisterWorker c => ignore (handleRegisterWorker env dump getLocalAppStatusAll c)
  | OpDbSanityCheck c => ignore (handleDbSanityCheck env dump2 c)
  | OpRegisterPeer sock c => ignore (handleRegisterPeer env sock c)
  | OpListPeers c => ignore (handleListPeers env dump dump2 c)
  | OpDeletePeer c => ignore (handleDeletePeer env dump c)
  | OpGetPeerInfo c => ignore (handleGetPeerInfo env dump dump2 c)
  | OpUpdatePeerMac c => ignore (handleUpdatePeerMac env dump getLocalAppStatusAll c)
  | OpUpdatePeerMacInternal c => ignore (handleUpdatePeerMacInternal env c)
  | OpExecOnPeer c => ignore (handleExecOnPeer env dump parse c)
  | OpRemotePull c => ignore (handleRemotePull env dump parse c)
  | OpRemoteBd c => ignore (handleRemoteBd env dump parse c)
  | OpRemoteDeployDaemon c => ignore (handleRemoteDeployDaemon env dump parse c)
  | OpExecRequest c => ignore (handleExecRequest env c)
  | OpReconnectTurn n => ignore (reconnect_turn env dump getLocalAppStatusAll (mret tt) n)
  | OpStartReconnectLoop => startReconnectLoop
  | OpStopReconnectLoop => stopReconnectLoop
  | OpBroadcast m => broadcastToWorkers env dump m
  | OpLoadConfig => loadConfig
  | OpUpdatePeerStatus id online => updatePeerStatus id online
  | OpDisconnect => disconnectFromLeader
  | OpClosePeer fd => sys_close fd
  end.
End Machine.

Lemma start_quiet : follows Quiet startReconnectLoop.
Proof. unfold startReconnectLoop. auto with link. Qed.
#[export] Hint Resolve start_quiet : link.

Lemma self_quiet env : follows Quiet (register_self env).
Proof. unfold register_self. follow. Qed.
#[export] Hint Resolve self_quiet : link.

Lemma optional_quiet k set c :
  (forall v, follows Quiet (set v)) -> follows Quiet (set_optional k set c).
Proof. intros H. unfold set_optional, argument. follow. Qed.
#[export] Hint Resolve optional_quiet : link.

Lemma broadcast_quiet env msg l : follows Quiet (broadcast env msg l).
Proof. induction l; simpl; follow. Qed.
#[export] Hint Resolve broadcast_quiet : link.

Lemma update_mac_quiet env id mac e : follows Quiet (update_mac env id mac e).
Proof. unfold update_mac. follow. Qed.
#[export] Hint Resolve update_mac_quiet : link.

Lemma setPeerConfig_configures env dump getLocalAppStatusAll c :
  follows Configures (handleSetPeerConfig env dump getLocalAppStatusAll c).
Proof.
  assert (follows Configures (A:=CmdResult) (
    let! _ := set_optional "id" setPeerId c in
    let! _ := set_optional "leader" setLeaderAddress c in
    let! _ := register_self env in
    let! p := gets pm in
    if bool_decide (m_role p = PEER_ROLE_WORKER) && negb (Str.empty (m_leaderAddress p)) then
      let! ok := connectToLeader env dump getLocalAppStatusAll in
      let! addr := gets (fun w => m_leaderAddress (pm w)) in
      mret (mkCmdResult 0
        (if ok then "Peer config saved. Connected to leader at " +:+ addr +:+ eol
         else "Peer config saved. Failed to connect to leader at " +:+ addr +:+
              " (will retry on next command)" +:+ eol)%string)
    else
      mret (mkCmdResult 0 ("Peer config saved. Role: " +:+ m_role p +:+
                           ", ID: " +:+ m_peerId p +:+ eol)))) as Hrest.
  { do 4 (apply follows_bind_quiet; [done|auto with link|intros]).
    apply follows_if; [|by apply quiet_is; auto with link].
    apply follows_then_quiet; [auto with link|intros; follow]. }
  unfold handleSetPeerConfig. apply follows_if; [|exact Hrest].
  unfold argument. apply follows_bind_quiet; [done|auto with link|intros role].
  destruct (decide _); [by apply quiet_is; auto with link|].
  by apply follows_bind_quiet; [|auto with link|].
Qed.

Lemma registerWorker_configures env dump getLocalAppStatusAll c :
  follows Configures (handleRegisterWorker env dump getLocalAppStatusAll c).
Proof.
  unfold handleRegisterWorker. destruct (gethostname env); [|by apply quiet_is; auto with link].
  do 3 (apply follows_bind_quiet; [done|auto with link|intros]).
  apply follows_then_quiet; [auto with link|intros; follow].
Qed.

Lemma turn_reconnects env dump getLocalAppStatusAll n :
  follows Reconnects (reconnect_turn env dump getLocalAppStatusAll (mret tt) n).
Proof.
  unfold reconnect_turn. intros w l Hl. rewrite bindM_gets. destruct (isLeader (pm w)).
  - revert l Hl. apply (quiet_is Reconnects (bindM _ _)); [done|]. follow.
  - apply follows_at; [auto with link| |intros; follow].
    rewrite if_negb. by apply connect_if_down.
Qed.

Lemma updateMac_reconnects env dump getLocalAppStatusAll c :
  follows Reconnects (handleUpdatePeerMac env dump getLocalAppStatusAll c).
Proof.
  unfold handleUpdatePeerMac. intros w l Hl. rewrite bindM_gets.
  destruct (Str.empty (m_peerId (pm w))); [exists l; by split|].
  destruct (Str.empty (my_mac env)); [exists l; by split|].
  destruct (isLeader (pm w)).
  - destruct (update_mac_quiet env (m_peerId (pm w)) (my_mac env)
                "Peer not found in database: " w l Hl) as (l' & H & ->). by exists l.
  - apply follows_at; [auto with link| |intros; follow].
    destruct (connect_if_down env dump getLocalAppStatusAll id true w l Hl) as (l' & H & E).
    exists l'. split; [|done]. destruct (m_connectedToLeader (pm w)); [done|].
    revert H. unfold bindM, M_bind. by destruct (connectToLeader _ _ _ w) as [? []].
Qed.

Lemma exec_address_loses env dump parse id : follows MayLose (exec_address env dump parse id).
Proof. unfold exec_address. follow. Qed.
#[export] Hint Resolve exec_address_loses : link.

Lemma exec_connection_loses env dump parse last id :
  follows MayLose (exec_connection env dump parse last id).
Proof. unfold exec_connection. follow. Qed.
#[export] Hint Resolve exec_connection_loses : link.

Lemma exec_read_quiet env last ended eagain id :
  follows Quiet (exec_read_failed env last ended eagain id).
Proof. unfold exec_read_failed. follow. Qed.
#[export] Hint Resolve exec_read_quiet : link.

Lemma exec_attempts_lose env dump parse n id r :
  follows MayLose (exec_attempts env dump parse n id r).
Proof. induction n; simpl; [auto with link|]. unfold exec_attempt. follow. Qed.
#[export] Hint Resolve exec_attempts_lose : link.

Lemma exec_loses env dump parse c : follows MayLose (handleExecOnPeer env dump parse c).
Proof. unfold handleExecOnPeer, argument. follow. Qed.
#[export] Hint Resolve exec_loses : link.

Lemma resolve_loses env dump parse id : follows MayLose (resolvePeerIP env dump parse id).
Proof. unfold resolvePeerIP. follow. Qed.
#[export] Hint Resolve resolve_loses : link.

(** ** The refinement *)

Lemma ignore_follows {A} k (m : M Peers A) : follows k m -> follows k (ignore m).
Proof. intros H. apply follows_then_quiet; [done|auto with link]. Qed.

Lemma op_follows env dump dump2 parse status (op : PeerOp) :
  follows (kind_of op) (run_op env dump dump2 parse status op).
Proof.
  destruct op; simpl; try apply ignore_follows;
    first [ solve [auto using setPeerConfig_configures, registerWorker_configures,
              turn_reconnects, updateMac_reconnects with link] | idtac ].
  - unfold handleDbSanityCheck. follow.
  - unfold handleRegisterPeer, opt_member, registerPeer. follow.
  - unfold handleListPeers. apply forwarded_loses. follow.
  - unfold handleDeletePeer, argument. follow.
  - unfold handleGetPeerInfo, argument. follow.
  - unfold handleUpdatePeerMacInternal, argument. follow.
  - unfold handleRemotePull, argument. follow.
  - unfold handleRemoteBd, argument. follow.
  - unfold handleRemoteDeployDaemon, argument. follow.
  - unfold handleExecRequest, argument. follow.
  - unfold broadcastToWorkers. follow.
  - unseen.
  - intros w l Hl. exists Down. split; [by eapply disconnect_down|done].
Qed.

Section Machine.
Context (env : NetEnv) (dump dump2 : json -> string) (parse : string -> outcome json).
Context (getLocalAppStatusAll : DB -> json).

Abbreviation run_op := (run_op env dump dump2 parse getLocalAppStatusAll).

Fixpoint run_ops (ops : list PeerOp) (w : Peers) : Peers :=
  match ops with
  | [] => w
  | op :: rest => run_ops rest (run_op op w).1
  end.

(** The runs of the abstract machine. *)
Inductive link_path : list PeerOp -> LeaderLink -> LeaderLink -> Prop :=
  | path_done l : link_path [] l l
  | path_step op ops l1 l2 l3 :
      allowed (kind_of op) l1 l2 -> link_path ops l2 l3 -> link_path (op :: ops) l1 l3.

(** C2: The connection to the leader refines a machine with three states: down, up
    through a descriptor, or stale (the manager believes it is connected and has no
    socket).  Whatever the operating system answers, each handler, each turn of the
    heartbeat thread and each call of the server does to it only what its kind allows:
    the registry handlers nothing, the forwarding ones and execOnPeer at most lose a
    link that is up, updatePeerMac and the heartbeat thread also bring a link up that
    is down, and only setPeerConfig and registerWorker can make a link stale. *)
Theorem leader_link_refinement (ops : list PeerOp) (w : Peers) (l : LeaderLink) :
  link_is w l -> exists l', link_is (run_ops ops w) l' /\ link_path ops l l'.
Proof using Type.
  revert w l. induction ops as [|op ops IH]; intros w l Hl; [exists l; split; [done|constructor]|].
  destruct (op_follows env dump dump2 parse getLocalAppStatusAll op w l Hl) as (l1 & H1 & E1).
  destruct (IH _ l1 H1) as (l2 & H2 & E2). exists l2. split; [done|]. by econstructor.
Qed.

(** The operations that can end a stale link. *)
Definition mends (op : PeerOp) : bool :=
  match kind_of op with Configures | Disconnects => true | _ => false end.

(** A stale link stays stale: no number of turns of the heartbeat thread, and no
    command other than setPeerConfig and registerWorker, reconnects, although the
    thread exists to do so; only those two commands and an end of the connection the
    server sees can. *)
Theorem stale_link_persists (ops : list PeerOp) (w : Peers) :
  link_is w Stale -> Forall (fun op => mends op = false) ops ->
  link_is (run_ops ops w) Stale.
Proof using Type.
  intros Hw Hops. revert w Hw. induction Hops as [|op ops Hm _ IH]; intros w Hw; [done|]. apply IH.
  destruct (op_follows env dump dump2 parse getLocalAppStatusAll op w Stale Hw) as (l & Hl & Ha).
  assert (l = Stale) as ->; [|done]. unfold mends in Hm. destruct (kind_of op); simpl in Ha; naive_solver.
Qed.
End Machine.

(** ** What a computation writes *)

(** [m] throws nothing, and what it writes and returns satisfies [P]. *)
Definition writes {A} (m : M Peers A) (P : list (Z * string) -> A -> Prop) : Prop :=
  forall w, exists t a, wire (m w).1 = wire w ++ t /\ (m w).2 = Ok a /\ P t a.

Lemma writes_bind {A B} (m : M Peers A) (f : A -> M Peers B) P Q :
  writes m P -> (forall t a, P t a -> writes (f a) (fun t' b => Q (t ++ t') b)) ->
  writes (bindM m f) Q.
Proof.
  intros Hm Hf w. destruct (Hm w) as (t & a & Ht & Ha & HP). unfold bindM, M_bind.
  destruct (m w) as [w1 o]. simpl in Ht, Ha. subst o.
  destruct (Hf t a HP w1) as (t' & b & Ht' & Hb & HQ). exists (t ++ t'), b.
  by rewrite Ht', Ht, app_assoc.
Qed.

Lemma writes_impl {A} (m : M Peers A) (P Q : list (Z * string) -> A -> Prop) :
  writes m P -> (forall t a, P t a -> Q t a) -> writes m Q.
Proof. intros Hm HPQ w. destruct (Hm w) as (t & a & H1 & H2 & H3). eauto 6. Qed.

Lemma writes_ret {A} (a : A) P : P [] a -> writes (mret a) P.
Proof. intros HP w. exists [], a. by rewrite app_nil_r. Qed.

Lemma writes_silent {A} (m : M Peers A) (P : list (Z * string) -> A -> Prop) :
  (forall w, exists a, wire (m w).1 = wire w /\ (m w).2 = Ok a /\ P [] a) -> writes m P.
Proof.
  intros H w. destruct (H w) as (a & H1 & H2 & H3). exists [], a. by rewrite app_nil_r.
Qed.

Lemma writes_gets {A B} (f : Peers -> A) (k : A -> M Peers B) Q :
  (forall a, writes (k a) Q) -> writes (bindM (gets f) k) Q.
Proof. intros H w. rewrite bindM_gets. apply H. Qed.

Lemma writes_if {A} (b : bool) (m n : M Peers A) Q :
  (b = true -> writes m Q) -> (b = false -> writes n Q) -> writes (if b then m else n) Q.
Proof. destruct b; auto. Qed.

(** A statement that writes nothing. *)
Lemma writes_skip {A B} (m : M Peers A) (f : A -> M Peers B) Q :
  writes m (fun t _ => t = []) -> (forall a, writes (f a) Q) -> writes (bindM m f) Q.
Proof. intros Hm Hf. eapply writes_bind; [exact Hm|]. intros t a ->. apply Hf. Qed.

Ltac silent := apply writes_silent; intros ?; unfold bindM, M_bind; simpl;
  repeat case_match; eexists; repeat split.

Section Writes.
Context (env : NetEnv) (dump : json -> string) (parse : string -> outcome json).

Lemma write_writes fd msg :
  writes (sys_write env fd msg) (fun t ok => t = if ok then [(fd, msg)] else []).
Proof using Type.
  intros w. unfold sys_write. rewrite bindM_syscall, bindM_modify.
  eexists _, _. split; [|split; [reflexivity|reflexivity]].
  simpl. destruct (write_ok _ _ _); [done|by rewrite app_nil_r].
Qed.

Lemma disconnect_silent : writes disconnectFromLeader (fun t _ => t = []).
Proof using Type.
  apply writes_gets. intros p. apply writes_skip; [|intros; silent].
  apply writes_if; intros _; silent.
Qed.

(** A message to the leader: at most one, whole. *)
Lemma forward_writes command :
  writes (forwardToLeader env dump command)
    (fun t r => t = [] \/ exists fd, t = [(fd, line_of dump command)]).
Proof using Type.
  apply writes_gets. intros p. apply writes_if; intros _; [by apply writes_ret; left|].
  eapply writes_bind; [apply write_writes|]. intros t ok Ht.
  apply writes_if; intros Hok.
  - apply writes_skip; [apply disconnect_silent|intros _]. apply writes_ret.
    apply negb_true_iff in Hok. rewrite Hok in Ht. subst t. by left.
  - apply negb_false_iff in Hok. rewrite Hok in Ht. subst t.
    apply writes_skip; [silent|intros ready]. apply writes_if; intros _; [apply writes_ret; eauto|].
    apply writes_skip; [silent|intros r]. apply writes_ret. eauto.
Qed.

Definition address_query (id : string) : json := obj [("command", JString "getPeerInfo"); ("peer", JString id)].

(** Nothing, or the query for the address of a peer. *)
Definition maybe_query (id : string) (t : list (Z * string)) : Prop :=
  t = [] \/ exists fd, t = [(fd, line_of dump (address_query id))].

Lemma query_writes id :
  writes (queryLeaderForPeerIP env dump parse id) (fun t _ => maybe_query id t).
Proof using Type.
  apply writes_gets. intros p. apply writes_if; intros _; [by apply writes_ret; left|].
  eapply writes_bind; [apply forward_writes|]. intros t r Ht. apply writes_ret. by rewrite app_nil_r.
Qed.

(** A query at most; an answer that ends the handler here reports a failure. *)
Definition query_or_failure {A} (id : string) (t : list (Z * string)) (r : A + CmdResult) : Prop :=
  maybe_query id t /\ forall c, r = inr c -> status c <> 0.

Lemma exec_address_writes id : writes (exec_address env dump parse id) (query_or_failure id).
Proof using Type.
  apply writes_gets. intros w. apply writes_if; intros _.
  { apply writes_ret. split; [by left|]. intros c.
    do 2 (destruct (Str.empty _); [by intros [= <-]|]). done. }
  apply writes_if; intros _; [apply writes_ret; split; [by left|]; by intros c [= <-]|].
  eapply writes_bind; [apply query_writes|]. intros t ip Ht. apply writes_ret. rewrite app_nil_r.
  split; [done|]. intros c. destruct (Str.empty ip); [by intros [= <-]|done].
Qed.

Lemma connectToPeer_silent id ip : writes (connectToPeer env id ip) (fun t _ => t = []).
Proof using Type.
  apply writes_gets. intros p. destruct (peer_socket id p); [by apply writes_ret|].
  apply writes_skip.
  { apply writes_silent. intros w. unfold sys_socket. rewrite bindM_syscall.
    case_match; rewrite ?bindM_gets, ?bindM_modify; eexists; repeat split. }
  intros sock. apply writes_if; intros _; [by apply writes_ret|].
  apply writes_if; intros _; [apply writes_skip; [silent|intros; by apply writes_ret]|].
  apply writes_skip; [silent|intros ok].
  apply writes_if; intros _; apply writes_skip; try silent; intros; by apply writes_ret.
Qed.

Lemma exec_connection_writes last id :
  writes (exec_connection env dump parse last id) (query_or_failure id).
Proof using Type.
  apply writes_gets. intros p. apply writes_if; intros _; [|by apply writes_ret; split; [left|]].
  eapply writes_bind; [apply exec_address_writes|]. intros t [ip|r] [Ht Hr].
  - apply writes_skip; [apply connectToPeer_silent|intros ok].
    apply writes_if; intros _; [|apply writes_gets; intros p']; apply writes_ret; rewrite app_nil_r;
      (split; [done|]); intros c; [|done]. destruct last; [by intros [= <-]|done].
  - apply writes_ret. rewrite app_nil_r. split; [done|]. intros c [= <-]. by apply Hr.
Qed.

Lemma getPeerInfo_socket id p :
  Str.empty (pi_id (getPeerInfo id p)) || (pi_fd (getPeerInfo id p) <? 0) = false ->
  peer_socket id p = Some (pi_fd (getPeerInfo id p)).
Proof using Type.
  unfold getPeerInfo, peer_socket. destruct (StdMap.find id (m_peers p)); simpl; [|done].
  intros [_ H%Z.ltb_ge]%orb_false_iff. by rewrite (proj2 (Z.leb_le _ _)).
Qed.

Lemma connectToPeer_socket id ip w w' :
  connectToPeer env id ip w = (w', Ok true) ->
  exists fd, peer_socket id (pm w') = Some fd /\ pi_fd (getPeerInfo id (pm w')) = fd.
Proof using Type.
  unfold connectToPeer. rewrite bindM_gets.
  destruct (peer_socket id (pm w)) as [fd|] eqn:E.
  { intros [= <-]. exists fd. split; [done|]. unfold peer_socket, getPeerInfo in *.
    destruct (StdMap.find id _); simpl; [case_match; congruence|done]. }
  destruct (sys_socket env w) as [w1 o] eqn:Es.
  destruct (sys_socket_run _ _ _ _ Es) as (fd & -> & Hp & Hfd). rewrite (bindM_ok _ _ _ _ _ Es).
  destruct (fd <? 0) eqn:Efd; [done|]. destruct (negb (inet_pton env ip)); [done|].
  unfold sys_connect. rewrite bindM_syscall. destruct (negb _); [done|]. rewrite bindM_pm.
  intros [= <-]. unfold peer_socket, getPeerInfo. simpl. rewrite StdMap.find_insert. simpl.
  exists fd. rewrite (proj2 (Z.leb_le _ _)) by lia. done.
Qed.

(** The descriptor is the one the next message to the peer is written to. *)
Lemma exec_connection_socket last id w w' fd :
  exec_connection env dump parse last id w = (w', Ok (inl (Some fd))) ->
  peer_socket id (pm w') = Some fd.
Proof using Type.
  unfold exec_connection. rewrite bindM_gets. destruct (_ || _) eqn:E.
  - destruct (exec_address env dump parse id w) as [w1 [a|e]] eqn:Ea;
      [rewrite (bindM_ok _ _ _ _ _ Ea)|by rewrite (bindM_throw _ _ _ _ _ Ea)].
    destruct a as [ip|r]; [|done].
    destruct (connectToPeer env id ip w1) as [w2 [ok|e]] eqn:Ec;
      [rewrite (bindM_ok _ _ _ _ _ Ec)|by rewrite (bindM_throw _ _ _ _ _ Ec)].
    destruct ok; simpl; [|by destruct last]. rewrite bindM_gets. intros [= <- <-].
    destruct (connectToPeer_socket _ _ _ _ Ec) as (fd & H & ->). done.
  - intros [= <- <-]. by apply getPeerInfo_socket.
Qed.

Lemma sendToPeer_at id m fd w : peer_socket id (pm w) = Some fd ->
  exists w', sendToPeer env dump id m w = (w', Ok (write_ok env (calls w) fd)) /\
    wire w' = wire w ++ (if write_ok env (calls w) fd then [(fd, line_of dump m)] else []) /\
    (write_ok env (calls w) fd = true -> pm w' = pm w /\ calls w' = S (calls w)).
Proof using Type.
  intros E. unfold sendToPeer. rewrite bindM_gets, E. unfold sys_write.
  rewrite bindM_assoc, bindM_syscall, bindM_assoc, bindM_modify, bindM_ret.
  destruct (write_ok env (calls w) fd); [by eexists|].
  rewrite bindM_close, bindM_pm. eexists. split; [done|]. simpl. by rewrite app_nil_r.
Qed.

(** ** Commands on a peer *)

(** One attempt: at most a query and the request, in that order. *)
Definition attempt_trace (id : string) (request : json) (t : list (Z * string)) : Prop :=
  exists q, maybe_query id q /\ (t = q \/ exists fd, t = q ++ [(fd, line_of dump request)]).

(** When it ends with status 0, in the state [w'], then its last two system calls were the
    write of the request, as the last thing written, to the descriptor [w'] has for the
    peer, and a read of that descriptor, which gave the answer. *)
Definition answered (id : string) (request : json) (w' : Peers) (t : list (Z * string)) (r : CmdResult)
    : Prop :=
  exists q fd s n, t = q ++ [(fd, line_of dump request)] /\ peer_socket id (pm w') = Some fd /\
    calls w' = S (S n) /\ write_ok env n fd = true /\ read_rc env (S n) fd = ReadData s /\
    message r = c_string s.

Lemma read_failed_silent last ended eagain id :
  writes (exec_read_failed env last ended eagain id)
    (fun t r => t = [] /\ forall r', r = Some r' -> status r' <> 0).
Proof using Type.
  unfold exec_read_failed. cbv zeta. apply writes_if; intros _.
  - apply writes_skip.
    { apply writes_gets. intros p. destruct (StdMap.find id _); [|by apply writes_ret].
      apply writes_skip; [|intros; silent]. apply writes_if; intros _; silent. }
    intros _. apply writes_ret. split; [done|]. destruct last; [|done].
    destruct eagain; by intros r' [= <-].
  - apply writes_ret. split; [done|]. destruct eagain; by intros r' [= <-].
Qed.

Lemma exec_send_writes (last : bool) id request fd t w w1 :
  maybe_query id t -> wire w1 = wire w ++ t -> peer_socket id (pm w1) = Some fd ->
  exists t' (r : option CmdResult),
  let m : M Peers (option CmdResult) := let! sent := sendToPeer env dump id request in
    if negb sent then
      mret (if last then Some (mkCmdResult 1 ("Failed to send command to peer: " +:+ id +:+ eol))
            else None)
    else
      let! r := sys_read env fd in
      match r with
      | ReadData s => mret (Some (mkCmdResult 0 (c_string s)))
      | ReadEnd eagain => exec_read_failed env last true eagain id
      | ReadError eagain => exec_read_failed env last false eagain id
      end in
  wire (m w1).1 = wire w ++ t' /\ (m w1).2 = Ok r /\ attempt_trace id request t' /\
  forall r', r = Some r' -> status r' = 0 -> answered id request (m w1).1 t' r'.
Proof using Type.
  intros Hq Ht Hfd. cbv zeta.
  destruct (sendToPeer_at id request fd w1 Hfd) as (w2 & Es & Hw2 & Hsame).
  rewrite (bindM_ok _ _ _ _ _ Es). destruct (write_ok env (calls w1) fd) eqn:Ew.
  2:{ exists t. eexists. split; [simpl; by rewrite Hw2, app_nil_r|]. split; [reflexivity|].
      split; [exists t; eauto|]. destruct last; [|done]. by intros r' [= <-]. }
  set (t' := t ++ [(fd, line_of dump request)]).
  assert (attempt_trace id request t') as Htr by (exists t; eauto).
  cbn [negb]. unfold sys_read. rewrite bindM_syscall. set (w3 := mkPeers _ _ _ _ _).
  assert (wire w3 = wire w ++ t') as Hw3 by (unfold t'; simpl; by rewrite Hw2, Ht, app_assoc).
  assert (forall ended eagain, exists t'' r,
    wire (exec_read_failed env last ended eagain id w3).1 = wire w ++ t'' /\
    (exec_read_failed env last ended eagain id w3).2 = Ok r /\ attempt_trace id request t'' /\
    forall r', r = Some r' -> status r' = 0 ->
      answered id request (exec_read_failed env last ended eagain id w3).1 t'' r') as Hfailed.
  { intros ended eagain. destruct (read_failed_silent last ended eagain id w3)
      as (t'' & r & Ht'' & Hr & -> & Hs). exists t', r. rewrite Ht'', Hw3, app_nil_r.
    do 3 (split; [done|]). intros r' Er' H0. by destruct (Hs r' Er'). }
  destruct (read_rc env (calls w2) fd) as [s|e|e] eqn:Er; [|apply Hfailed..].
  eexists t', _. split; [exact Hw3|]. split; [reflexivity|]. split; [done|].
  intros r' [= <-] _. destruct (Hsame eq_refl) as [Hpm Hcalls].
  exists t, fd, s, (calls w1). unfold w3. cbn. rewrite <- Hcalls. by rewrite Hpm.
Qed.

Lemma exec_attempt_writes last id request w :
  exists t r, let m := exec_attempt env dump parse last id request w in
    wire m.1 = wire w ++ t /\ m.2 = Ok r /\ attempt_trace id request t /\
    forall r', r = Some r' -> status r' = 0 -> answered id request m.1 t r'.
Proof using Type.
  destruct (exec_connection_writes last id w) as (t & c & Ht & Hc & Hq & Hf).
  destruct (exec_connection env dump parse last id w) as [w1 o] eqn:Ex. simpl in Ht, Hc. subst o.
  unfold exec_attempt. rewrite (bindM_ok _ _ _ _ _ Ex).
  assert (attempt_trace id request t) as Htr by (exists t; eauto).
  destruct c as [[fd|]|r].
  - apply (exec_send_writes last id request fd t w w1 Hq Ht).
    by apply (exec_connection_socket last id w).
  - exists t, None. done.
  - exists t, (Some r). split; [done|]. split; [done|]. split; [done|].
    intros r' [= <-] H0. by destruct (Hf r).
Qed.

(** C12: A command on another peer (handleExecOnPeer) always ends with an answer, after at
    most two attempts.  Each attempt writes at most the query for the peer's address to
    the leader and then the request, once, to the peer; the request is never written
    before the address is known.  When the answer has status 0, the last two system calls
    were the write of the request, the last thing written, to the descriptor that the
    manager has for the peer, and the read of that same descriptor that gave the answer. *)
Theorem remote_command_answered (id directory cmd : string) (w : Peers) :
  exists t1 t2 r,
    let command := exec_on_peer id directory cmd in
    let request := exec_request directory cmd in
    (handleExecOnPeer env dump parse command w).2 = Ok r /\
    wire (handleExecOnPeer env dump parse command w).1 = wire w ++ t1 ++ t2 /\
    attempt_trace id request t1 /\ attempt_trace id request t2 /\
    (status r = 0 -> answered id request (handleExecOnPeer env dump parse command w).1 (t1 ++ t2) r).
Proof using Type.
  cbv zeta. unfold handleExecOnPeer, argument, exec_on_peer.
  rewrite !(bindM_ok _ _ w w _ eq_refl). simpl exec_attempts.
  set (request := exec_request directory cmd).
  assert (attempt_trace id request []) as Hnil by (exists []; split; left; done).
  destruct (exec_attempt_writes false id request w) as (t1 & r1 & Hw1 & Hr1 & Ht1 & Ha1).
  destruct (exec_attempt env dump parse false id request w) as [w1 o1] eqn:E1.
  simpl in Hw1, Hr1. subst o1. rewrite (bindM_ok _ _ _ _ _ E1).
  destruct r1 as [r1|].
  { exists t1, [], r1. rewrite !app_nil_r. eauto 6. }
  destruct (exec_attempt_writes true id request w1) as (t2 & r2 & Hw2 & Hr2 & Ht2 & Ha2).
  destruct (exec_attempt env dump parse true id request w1) as [w2 o2] eqn:E2.
  simpl in Hw2, Hr2. subst o2. rewrite (bindM_ok _ _ _ _ _ E2).
  destruct r2 as [r2|]; eexists t1, t2, _; (split; [reflexivity|]);
    (split; [simpl; by rewrite Hw2, Hw1, app_assoc|]); (do 2 (split; [done|])); [|done].
  intros H0. destruct (Ha2 r2 eq_refl H0) as (q & fd & s & n & -> & Hread).
  exists (t1 ++ q), fd, s, n. by rewrite app_assoc.
Qed.
End Writes.

(** ** Descriptors that outlive their connection *)

Section Descriptors.
Context (env : NetEnv) (dump : json -> string).

(** When a worker's connection ends, the server closes its descriptor and the
    manager keeps it in its table.  If that descriptor is then the lowest free one, the
    next peer the leader connects to gets it, and from then on a command for the first
    peer is written to the second. *)
Theorem closed_descriptor_is_reused (a b ip : string) (fd : Z) (message : json) (w : Peers) :
  a <> b -> peer_socket a (pm w) = Some fd -> peer_socket b (pm w) = None ->
  lowest_free (base.filter (fun x => x <> fd) (open_fds w)) = fd ->
  socket_ok env (calls w) = true -> inet_pton env ip = true ->
  connect_ok env (S (calls w)) ip PEER_TCP_PORT = true ->
  write_ok env (S (S (calls w))) fd = true ->
  exists w', (let! _ := sys_close fd in connectToPeer env b ip) w = (w', Ok true) /\
    peer_socket b (pm w') = Some fd /\
    (sendToPeer env dump a message w').2 = Ok true /\
    wire (sendToPeer env dump a message w').1 = wire w ++ [(fd, line_of dump message)].
Proof using Type.
  intros Hab Ha Hb Hfd Hsock Hip Hconn Hw.
  assert (0 <= fd) as Hge by (unfold peer_socket in Ha; repeat case_match; simplify_eq; lia).
  rewrite bindM_close. unfold connectToPeer. rewrite bindM_gets. cbn [pm]. rewrite Hb.
  unfold sys_socket. rewrite bindM_assoc, bindM_syscall. cbn [calls]. rewrite Hsock.
  rewrite bindM_assoc, bindM_gets, bindM_assoc, bindM_modify, bindM_ret. cbn [open_fds].
  rewrite Hfd. rewrite (proj2 (Z.ltb_ge _ _)), Hip by lia. cbn [negb].
  unfold sys_connect. rewrite bindM_syscall. cbn [calls]. rewrite Hconn. cbn [negb].
  rewrite bindM_pm. eexists. split; [reflexivity|].
  assert (forall p, peer_socket a (set_m_peers
    (StdMap.insert b (mkPeerInfo b ip "" "" true fd) (m_peers p)) p) = peer_socket a p) as Hother.
  { intros p. unfold peer_socket. simpl. by rewrite StdMap.find_insert_ne by congruence. }
  split.
  { unfold peer_socket. simpl. rewrite StdMap.find_insert. simpl.
    by rewrite (proj2 (Z.leb_le _ _)). }
  match goal with |- context [sendToPeer _ _ _ _ ?w'] => set (w1 := w') end.
  destruct (sendToPeer_at env dump a message fd w1) as (w2 & E & Hw2 & _).
  { unfold w1. simpl. by rewrite Hother. }
  replace (write_ok env (calls w1) fd) with true in * by done. rewrite E. simpl. by rewrite Hw2.
Qed.
End Descriptors.

(** ** The registry *)

Section Registry.
Context (env : NetEnv) (dump dump2 : json -> string) (parse : string -> outcome json).

Lemma getPeer_upsert d now id ip mac host online v id' : connected d = true ->
  PeerTable.getPeer id' (PeerTable.upsertPeer now id ip mac host online v d) =
  if decide (id' = id) then Some (mkPeer id ip mac host now online v) else PeerTable.getPeer id' d.
Proof using Type.
  intros Hc. unfold PeerTable.getPeer, PeerTable.upsertPeer, query, with_con. rewrite !Hc. simpl.
  rewrite ?Hc. destruct (decide (id' = id)) as [->|]; [by rewrite StdMap.find_insert|].
  by rewrite StdMap.find_insert_ne by done.
Qed.

Lemma getPeer_delete d id id' : connected d = true ->
  PeerTable.getPeer id' (PeerTable.deletePeer id d) =
  if decide (id' = id) then None else PeerTable.getPeer id' d.
Proof using Type.
  intros Hc. unfold PeerTable.getPeer, PeerTable.deletePeer, query, with_con. rewrite !Hc. simpl.
  rewrite ?Hc. destruct (decide (id' = id)) as [->|]; [by rewrite StdMap.find_erase|].
  by rewrite StdMap.find_erase_ne by done.
Qed.

(** The message a worker registers with, as its connectToLeader builds it. *)
Definition registration_of (id ip mac host : string) (version : Z) (appStatus : json) : json :=
  obj [("command", JString "registerPeer"); ("peer_id", JString id); ("ip", JString ip);
       ("mac", JString mac); ("daemon_version", JInt version); ("appStatus", appStatus);
       ("hostname", JString host)].

Lemma register_run id ip mac host version sock appStatus w :
  isLeader (pm w) = true -> is_int32 version = true ->
  handleRegisterPeer env sock (registration_of id ip mac host version appStatus) w =
  (set_pm (set_m_peers (StdMap.insert id (mkPeerInfo id ip mac host true sock) (m_peers (pm w))) (pm w))
     (set_pdb (PeerTable.upsertPeer (unix_time env) id ip mac host true version (pdb w)) w),
   Ok (mkCmdResult 0 ("Peer registered: " +:+ id +:+ eol))).
Proof using Type.
  intros Hl Hv. unfold handleRegisterPeer. rewrite bindM_gets, Hl. cbn [negb].
  unfold opt_member. do 4 rewrite (bindM_ok _ _ w w _ eq_refl).
  assert (Json.get_int32 (JInt version) = Ok version) as Hint.
  { unfold Json.get_int32. simpl. f_equal. unfold to_int32, is_int32, INT_MIN, INT_MAX in *.
    bool_prop. rewrite Z.mod_small by lia. lia. }
  by rewrite (bindM_ok (lift _) _ w w version) by (unfold lift; by rewrite <- Hint).
Qed.

(** Without a leader to forward to, the handlers do the work. *)
Lemma delete_run id w : isLeader (pm w) = true ->
  handleDeletePeer env dump (obj [("command", JString "deletePeer"); ("peer", JString id)]) w =
  (if Str.empty (peer_id (getPeerRow id (pdb w))) then mret (peer_not_found id)
   else let! _ := on_pdb (PeerTable.deletePeer id) in
        mret (mkCmdResult 0 ("Deleted peer: " +:+ id +:+ eol))) w.
Proof using Type.
  intros Hl. unfold handleDeletePeer, argument. rewrite (bindM_ok _ _ w w _ eq_refl).
  unfold forwarded_or. rewrite bindM_gets, Hl. cbn [negb andb]. by rewrite bindM_gets.
Qed.

(** C18: On the leader the registry is a map from peers to rows.  Registering a peer binds
    it to what the registration says, online and seen now, in the table and (with the
    socket of the command) in memory; updating a MAC address changes that and the time
    seen; deleting unbinds; and none of them touches another peer. *)
Theorem peer_registry_map (id ip mac host : string) (version sock : Z) (appStatus : json)
    (w : Peers) (id' : string) :
  isLeader (pm w) = true -> connected (pdb w) = true -> is_int32 version = true -> id <> "" ->
  let register := handleRegisterPeer env sock (registration_of id ip mac host version appStatus) in
  let delete := handleDeletePeer env dump (obj [("command", JString "deletePeer"); ("peer", JString id)]) in
  let update mac := handleUpdatePeerMacInternal env
    (obj [("command", JString "updatePeerMacInternal"); ("mac", JString mac); ("peer_id", JString id)]) in
  let row := PeerTable.getPeer in
  row id' (pdb (register w).1) =
    (if decide (id' = id) then Some (mkPeer id ip mac host (unix_time env) true version)
     else row id' (pdb w)) /\
  getPeerInfo id (pm (register w).1) = mkPeerInfo id ip mac host true sock /\
  (forall r, row id (pdb w) = Some r -> peer_id r = id -> forall mac',
    (update mac' w).2 = Ok (mkCmdResult 0 ("Updated MAC for " +:+ id +:+ ": " +:+ mac' +:+ eol)) /\
    row id' (pdb (update mac' w).1) =
      (if decide (id' = id) then Some (mkPeer id (ip_address r) mac' (hostname r) (unix_time env)
                                         (is_online r) (daemon_version r))
       else row id' (pdb w))) /\
  (forall r, row id (pdb w) = Some r -> peer_id r = id ->
    (delete w).2 = Ok (mkCmdResult 0 ("Deleted peer: " +:+ id +:+ eol)) /\
    row id' (pdb (delete w).1) = if decide (id' = id) then None else row id' (pdb w)) /\
  (row id (pdb w) = None ->
    (delete w).2 = Ok (peer_not_found id) /\ (delete w).1 = w).
Proof using Type.
  intros Hl Hc Hv Hid. cbv zeta.
  assert (Hid' : Str.empty id = false) by by destruct id.
  split; [|split; [|split; [|split]]].
  - rewrite register_run by done. by apply getPeer_upsert.
  - rewrite register_run by done. unfold getPeerInfo. simpl. by rewrite StdMap.find_insert.
  - intros r Hr Hrid mac'. unfold handleUpdatePeerMacInternal. rewrite bindM_gets, Hl.
    cbn [negb]. unfold argument. rewrite !(bindM_ok _ _ w w _ eq_refl).
    unfold update_mac. rewrite bindM_gets. unfold getPeerRow. rewrite Hr. cbn [from_option]. unfold Datatypes.id.
    rewrite Hrid, Hid', bindM_pdb. split; [done|]. by apply getPeer_upsert.
  - intros r Hr Hrid. rewrite delete_run by done. unfold getPeerRow. rewrite Hr. simpl.
    rewrite Hrid, Hid', bindM_pdb. split; [done|]. by apply getPeer_delete.
  - intros Hr. rewrite delete_run by done. unfold getPeerRow. by rewrite Hr.
Qed.

(** ** A worker and its leader *)

(** The leader's answer to the query of a worker. *)
Lemma leader_answers id w : isLeader (pm w) = true ->
  (handleGetPeerInfo env dump dump2 (address_query id) w).2 =
  Ok (let r := getPeerRow id (pdb w) in
      if Str.empty (peer_id r) then peer_not_found id
      else mkCmdResult 0 (dump2 (peer_json env r (is_online r)) +:+ eol)).
Proof using Type.
  intros Hl. unfold handleGetPeerInfo, argument. rewrite (bindM_ok _ _ w w _ eq_refl).
  unfold forwarded_or. rewrite bindM_gets, Hl. cbn [negb andb]. by rewrite bindM_gets.
Qed.
End Registry.

(** What the two daemons have in common: the JSON library, and a connection on which the
    query is written and the leader's answer is read. *)
Section WorkerAndLeader.
Context (envW envL : NetEnv) (dump dump2 : json -> string) (parse : string -> outcome json).

Definition carried (id : string) (worker leader : Peers) : Prop :=
  exists fd m, link_is worker (Up fd) /\ write_ok envW (calls worker) fd = true /\
    0 < poll_rc envW (S (calls worker)) /\
    handleGetPeerInfo envL dump dump2 (address_query id) leader =
      ((handleGetPeerInfo envL dump dump2 (address_query id) leader).1, Ok m) /\
    read_rc envW (S (S (calls worker))) fd = ReadData (message m).

Lemma forward_carried id worker leader : carried id worker leader ->
  exists m, (handleGetPeerInfo envL dump dump2 (address_query id) leader).2 = Ok m /\
  (forwardToLeader envW dump (address_query id) worker).2 = Ok (message m).
Proof using Type.
  intros (fd & m & (Hc & Hs & Hfd) & Hw & Hp & Hm & Hr). exists m.
  split; [by rewrite Hm|]. unfold forwardToLeader. rewrite bindM_gets, Hc, Hs.
  rewrite (proj2 (Z.ltb_ge _ _)) by lia. cbn [negb orb].
  unfold sys_write. rewrite bindM_assoc, bindM_syscall, bindM_assoc, bindM_modify, bindM_ret, Hw.
  cbn [negb]. unfold sys_poll. rewrite bindM_syscall. cbn [calls].
  rewrite (proj2 (Z.leb_gt _ _)) by lia. unfold sys_read. rewrite bindM_syscall. cbn [calls].
  by rewrite Hr.
Qed.

Lemma ends_nonempty s : Str.empty (s +:+ eol) = false.
Proof using Type. by destruct s. Qed.

(** C23: A worker finds the address of a peer as its leader does: whatever row the leader
    has for another peer, the worker's resolvePeerIP gives the address in it, and the
    empty string when the leader has no row, provided the leader's answer arrives. *)
Theorem worker_resolves_as_leader (id : string) (worker leader : Peers) :
  isLeader (pm worker) = false -> isLeader (pm leader) = true -> id <> m_peerId (pm worker) ->
  carried id worker leader -> connected (pdb leader) = true ->
  (forall r, PeerTable.getPeer id (pdb leader) = Some r -> peer_id r = id /\ id <> "" /\
     parse (dump2 (peer_json envL r (is_online r)) +:+ eol) = Ok (peer_json envL r (is_online r))) ->
  (exists e, parse (message (peer_not_found id)) = Throw e) ->
  (resolvePeerIP envW dump parse id worker).2 = Ok (PeerTable.getIpAddress id (pdb leader)).
Proof using Type.
  intros Hw Hl Hid Hcarried Hc Hrow [e Hnone].
  destruct (forward_carried id worker leader Hcarried) as (m & Hm & Hf).
  rewrite leader_answers in Hm by done.
  unfold resolvePeerIP. rewrite bindM_gets, Hw, decide_False by done.
  destruct Hcarried as (fd & _ & (Hconn & _) & _).
  unfold queryLeaderForPeerIP. rewrite bindM_gets, Hconn. cbn [negb].
  destruct (forwardToLeader envW dump (address_query id) worker) as [w' o] eqn:E.
  simpl in Hf. subst o. rewrite (bindM_ok _ _ _ _ _ E). cbn [mret M_ret snd]. f_equal.
  unfold PeerTable.getIpAddress, Database.query. rewrite Hc.
  unfold getPeerRow in Hm. destruct (PeerTable.getPeer id (pdb leader)) as [r|] eqn:Er.
  - destruct (Hrow r eq_refl) as (Hrid & Hne & Hparse). cbn in Hm.
    rewrite Hrid in Hm. assert (Str.empty id = false) as Hemp by by destruct id.
    rewrite Hemp in Hm. injection Hm as <-. cbn [message].
    unfold address_in. rewrite Hparse, ends_nonempty.
    unfold PeerTable.getPeer, Database.query in Er. rewrite Hc in Er. rewrite Er. done.
  - cbn in Hm. injection Hm as <-. unfold address_in. rewrite Hnone.
    unfold PeerTable.getPeer, Database.query in Er. rewrite Hc in Er. rewrite Er.
    by destruct (Str.empty _).
Qed.
End WorkerAndLeader.

(** ** The heartbeat *)

Section Heartbeat.
Context (env : NetEnv) (dump : json -> string) (getLocalAppStatusAll : DB -> json).

Definition heartbeat_line (w : Peers) (withStatus : bool) : string :=
  line_of dump (heartbeat_message env getLocalAppStatusAll withStatus (pm w) (pdb w)).

(** The heartbeats of [n] turns, the first of them number [k]: each sixth has the status
    of the applications. *)
Definition heartbeats (fd : Z) (w : Peers) (k n : nat) : list (Z * string) :=
  (fun i => (fd, heartbeat_line w (Nat.eqb (Nat.modulo i 6) 0))) <$> seq k n.

Lemma turn_up (w : Peers) (fd : Z) (counter : Z) :
  isLeader (pm w) = false -> link_is w (Up fd) -> (forall n, write_ok env n fd = true) ->
  exists w', reconnect_turn env dump getLocalAppStatusAll (mret tt) counter w =
    (w', Ok (if 60 <=? counter + 10 then 0 else counter + 10)) /\
    pm w' = pm w /\ pdb w' = pdb w /\
    wire w' = wire w ++ [(fd, heartbeat_line w (60 <=? counter + 10))].
Proof using Type.
  intros Hl (Hc & Hs & Hfd) Hw. unfold reconnect_turn. rewrite bindM_gets, Hl, Hc. cbn [negb].
  rewrite bindM_ret, bindM_ret, bindM_gets, Hc, bindM_gets.
  unfold sendToLeader. rewrite bindM_assoc, bindM_gets, Hc, Hs.
  rewrite (proj2 (Z.ltb_ge _ _)) by lia. cbn [negb orb].
  unfold sys_write. rewrite bindM_assoc, bindM_assoc, bindM_syscall, Hw, bindM_assoc, bindM_modify.
  rewrite bindM_ret, bindM_ret. eexists. split; [reflexivity|]. done.
Qed.

Lemma sixth (k : nat) : (k < 6)%nat ->
  (60 <=? 10 * Z.of_nat k + 10) = Nat.eqb (Nat.modulo (S k) 6) 0.
Proof using Type.
  intros H. do 6 (destruct k as [|k]; [reflexivity|]). lia.
Qed.

Lemma heartbeats_shift fd w k n : heartbeats fd w (k + 6) n = heartbeats fd w k n.
Proof using Type.
  unfold heartbeats. revert k. induction n as [|n IH]; intros k; [done|].
  cbn [seq fmap list_fmap]. change (S (k + 6)) with (S k + 6)%nat. rewrite IH.
  replace (Nat.modulo (k + 6) 6) with (Nat.modulo k 6) by (symmetry; apply (Nat.Div0.mod_add k 1 6)). done.
Qed.

(** While the connection to the leader holds, each turn of the heartbeat thread
    writes exactly one heartbeat, and each sixth of them carries the status of the
    applications: the intervals of ten and sixty seconds of the code. *)
Theorem heartbeat_cadence (n : nat) (w : Peers) (fd : Z) :
  isLeader (pm w) = false -> link_is w (Up fd) -> (forall k, write_ok env k fd = true) ->
  exists w', reconnect_turns env dump getLocalAppStatusAll n 0 w =
    (w', Ok (10 * Z.of_nat (Nat.modulo n 6))) /\ link_is w' (Up fd) /\
    wire w' = wire w ++ heartbeats fd w 1 n.
Proof using Type.
  intros Hl Hup Hw.
  assert (forall k w0, (k < 6)%nat -> pm w0 = pm w -> pdb w0 = pdb w -> exists w',
    reconnect_turns env dump getLocalAppStatusAll n (10 * Z.of_nat k) w0 =
      (w', Ok (10 * Z.of_nat (Nat.modulo (k + n) 6))) /\ pm w' = pm w /\
    wire w' = wire w0 ++ heartbeats fd w (S k) n) as H.
  { induction n as [|m IH]; intros k w0 Hk Hpm Hdb.
    - exists w0. rewrite Nat.add_0_r, Nat.mod_small by done. simpl. by rewrite app_nil_r.
    - destruct (turn_up w0 fd (10 * Z.of_nat k)) as (w1 & E & Hpm1 & Hdb1 & Hw1);
        [by rewrite Hpm|by unfold link_is; rewrite Hpm|done|].
      cbn [reconnect_turns]. rewrite (bindM_ok _ _ _ _ _ E).
      assert (heartbeats fd w (S k) (S m) =
        (fd, heartbeat_line w0 (60 <=? 10 * Z.of_nat k + 10)) :: heartbeats fd w (S (S k)) m) as Hh.
      { unfold heartbeats, heartbeat_line. rewrite Hpm, Hdb. cbn [seq fmap list_fmap].
        by rewrite sixth. }
      rewrite Hh, cons_middle, app_assoc, <- Hw1, (sixth k Hk).
      destruct (Nat.eqb (Nat.modulo (S k) 6) 0) eqn:E6.
      + apply Nat.eqb_eq in E6. assert (k = 5%nat) as -> by
          (clear -Hk E6; do 6 (destruct k as [|k]; [simpl in E6; lia|]); lia).
        destruct (IH 0%nat w1) as (w2 & E2 & H2); [lia|congruence..|].
        exists w2. rewrite (heartbeats_shift fd w 1). split; [|done].
        replace (5 + S m)%nat with (m + 1 * 6)%nat by lia. by rewrite Nat.Div0.mod_add.
      + assert (S k < 6)%nat.
        { apply Nat.eqb_neq in E6. destruct (decide (k = 5%nat)) as [->|]; [done|lia]. }
        destruct (IH (S k) w1) as (w2 & E2 & H2); [lia|congruence..|].
        exists w2. split; [|done].
        replace (10 * Z.of_nat k + 10) with (10 * Z.of_nat (S k)) by lia. rewrite E2.
        by rewrite Nat.add_succ_r. }
  destruct (H 0%nat w) as (w' & E & Hpm & Hwire); [lia|done..|].
  exists w'. split; [exact E|]. split; [by unfold link_is; rewrite Hpm|done].
Qed.
End Heartbeat.

(** ** The configuration *)

Lemma save_field_get k k' v d : connected d = true ->
  SettingsTable.getSetting k (save_field k' v d) =
  if decide (k = k' /\ Str.empty v = false) then v else SettingsTable.getSetting k d.
Proof.
  intros Hc. unfold save_field. destruct (Str.empty v) eqn:E.
  - by rewrite decide_False by (by intros [_ ?]).
  - destruct (decide (k = k')) as [->|Hne].
    + rewrite decide_True by done. exact (get_set_eq (W := DB) d k' v Hc).
    + rewrite decide_False by (by intros [? _]).
      refine (get_set_ne (W := DB) d k' k v _). congruence.
Qed.

Lemma save_field_connected k v d : connected d = true -> connected (save_field k v d) = true.
Proof.
  intros Hc. unfold save_field. destruct (Str.empty v); [done|].
  exact (set_available (W := DB) d k v Hc).
Qed.

(** A configuration without empty fields survives a restart of the daemon: the three
    settings are stored when they are set, and loadConfig reads them back. *)
Theorem peer_config_persists (role id address : string) (w : Peers) :
  connected (pdb w) = true -> role <> "" -> id <> "" -> address <> "" ->
  let w' := ((let! _ := setRole role in let! _ := setPeerId id in setLeaderAddress address) w).1 in
  let restarted := (loadConfig (set_pm newPeerManager w')).1 in
  m_role (pm restarted) = role /\ m_peerId (pm restarted) = id /\
  m_leaderAddress (pm restarted) = address.
Proof.
  intros Hc Hr Hi Ha. cbv zeta.
  assert (forall s : string, s <> "" -> Str.empty s = false) as Hne by (by intros []).
  unfold setRole, setPeerId, setLeaderAddress, on_pm, saveConfig.
  rewrite !bindM_assoc, !bindM_modify. rewrite !bindM_assoc, !bindM_modify. unfold modify. cbn.
  set (d := save_field "peer_leader_address" (m_leaderAddress (pm w)) _).
  assert (connected d = true) as Hd by (unfold d; auto 10 using save_field_connected).
  repeat split; repeat (rewrite save_field_get by auto using save_field_connected;
    first [rewrite decide_True by auto; done | rewrite decide_False by (by intros [? _])]).
Qed.

(** ** The theorems at work *)

(** A machine whose first connection succeeds and whose later ones fail. *)
Definition demo_env (connects : nat) (answer : string) : NetEnv :=
  mkNetEnv (fun _ => true) (fun _ => true) (fun n _ _ => Nat.ltb n connects) (fun _ _ => true)
    (fun _ => 1) (fun _ _ => ReadData answer) "" (fun _ _ => mkRun true true [] (Some 0)) None
    (Some [("wg0", "10.0.0.2")]) (Some "laptop") 1000 (fun _ => "now") 7.
Definition demo_dump (j : json) : string := "{}".
Definition demo_parse (s : string) : outcome json := Throw JsonParseError.
Definition demo_status (d : DB) : json := JObject [].
Definition demo_db : DB := mkDB true [] [] ∅ ∅ ∅ [] [].
Definition demo_peers : Peers := mkPeers demo_db newPeerManager [0; 1; 2] [] 0.

Definition worker_config : json :=
  obj [("command", JString "setPeerConfig"); ("role", JString "worker"); ("id", JString "laptop");
       ("leader", JString "10.0.0.1")].

(** setPeerConfig twice, the leader going away in between. *)
Definition reconfigured : Peers :=
  run_ops (demo_env 3 "") demo_dump demo_dump demo_parse demo_status
    [OpSetPeerConfig worker_config; OpSetPeerConfig worker_config] demo_peers.

Lemma leader_link_refinement_witness :
  exists l', link_is reconfigured l' /\
    link_path [OpSetPeerConfig worker_config; OpSetPeerConfig worker_config] Down l'.
Proof.
  apply (leader_link_refinement (demo_env 3 "") demo_dump demo_dump demo_parse demo_status
           _ demo_peers Down). split; reflexivity.
Defined.

(** The second attempt left the link stale, and the heartbeat thread leaves it so. *)
Lemma stale_link_persists_witness :
  link_is (run_ops (demo_env 3 "") demo_dump demo_dump demo_parse demo_status
             [OpReconnectTurn 0; OpReconnectTurn 10; OpUpdatePeerMac JNull] reconfigured) Stale.
Proof.
  apply stale_link_persists; [split; vm_compute; reflexivity|].
  repeat constructor.
Defined.

(** Two workers; the first one's connection has ended. *)
Definition demo_leader : Peers :=
  mkPeers demo_db
    (mkPM "leader" "hub" "" (-1) false
       [("desktop", mkPeerInfo "desktop" "10.0.0.3" "" "" true 3)] true) [3; 0; 1; 2] [] 0.

Lemma closed_descriptor_is_reused_witness : exists w',
  (let! _ := sys_close 3 in connectToPeer (demo_env 9 "") "server" "10.0.0.4") demo_leader
    = (w', Ok true) /\
  peer_socket "server" (pm w') = Some 3 /\
  (sendToPeer (demo_env 9 "") demo_dump "desktop" JNull w').2 = Ok true /\
  wire (sendToPeer (demo_env 9 "") demo_dump "desktop" JNull w').1 = [] ++ [(3, line_of demo_dump JNull)].
Proof.
  apply (closed_descriptor_is_reused (demo_env 9 "") demo_dump "desktop" "server" "10.0.0.4" 3
           JNull demo_leader); vm_compute; try reflexivity. discriminate.
Defined.

Lemma peer_registry_map_witness :
  PeerTable.getPeer "nas" (pdb (handleRegisterPeer (demo_env 9 "") 5
    (registration_of "nas" "10.0.0.9" "aa" "nas" 7 (JObject [])) demo_leader).1) =
  Some (mkPeer "nas" "10.0.0.9" "aa" "nas" 1000 true 7).
Proof.
  etransitivity;
    [refine (proj1 (peer_registry_map (demo_env 9 "") demo_dump "nas" "10.0.0.9" "aa" "nas" 7 5
                      (JObject []) demo_leader "nas" _ _ _ _))|];
    [reflexivity|reflexivity|reflexivity|discriminate|vm_compute; reflexivity].
Defined.

Definition nas_row : PeerRow := mkPeer "nas" "10.0.0.9" "aa" "nas" 1000 true 7.
Definition leader_with_nas : Peers :=
  mkPeers (set_peers [("nas", nas_row)] demo_db) (pm demo_leader) [0; 1; 2] [] 0.
Definition nas_parse (s : string) : outcome json :=
  if decide (s = ("{}" +:+ eol)%string)
  then Ok (peer_json (demo_env 9 "") nas_row true) else Throw JsonParseError.
Definition demo_worker : Peers :=
  mkPeers demo_db (mkPM "worker" "laptop" "10.0.0.1" 3 true [] true) [3; 0; 1; 2] [] 0.

Lemma worker_resolves_as_leader_witness :
  (resolvePeerIP (demo_env 9 ("{}" +:+ eol)) demo_dump nas_parse "nas" demo_worker).2 =
  Ok "10.0.0.9".
Proof.
  etransitivity;
    [apply (worker_resolves_as_leader (demo_env 9 ("{}" +:+ eol)) (demo_env 9 "") demo_dump demo_dump
              nas_parse "nas" demo_worker leader_with_nas)|vm_compute; reflexivity].
  - vm_compute. reflexivity.
  - vm_compute. reflexivity.
  - discriminate.
  - exists 3. eexists. split; [vm_compute; repeat split; discriminate|].
    split; [reflexivity|]. split; [vm_compute; reflexivity|].
    split; vm_compute; reflexivity.
  - reflexivity.
  - intros r H. vm_compute in H. injection H as <-. split; [reflexivity|]. split; [discriminate|].
    vm_compute. reflexivity.
  - exists JsonParseError. vm_compute. reflexivity.
Defined.

Lemma heartbeat_cadence_witness : exists w',
  reconnect_turns (demo_env 9 "") demo_dump demo_status 8 0 demo_worker = (w', Ok 20) /\
  link_is w' (Up 3) /\
  wire w' = [] ++ heartbeats (demo_env 9 "") demo_dump demo_status 3 demo_worker 1 8.
Proof.
  apply (heartbeat_cadence (demo_env 9 "") demo_dump demo_status 8 demo_worker 3);
    [reflexivity|by split|reflexivity].
Defined.

Lemma peer_config_persists_witness :
  m_role (pm (loadConfig (set_pm newPeerManager ((let! _ := setRole "worker" in
    let! _ := setPeerId "laptop" in setLeaderAddress "10.0.0.1") demo_peers).1)).1) = "worker".
Proof.
  apply (peer_config_persists "worker" "laptop" "10.0.0.1" demo_peers); [reflexivity|discriminate..].
Defined.
