(* ===== verification/Apps.v ===== *)
(** The application manager (src/cmdApp.cpp): the applications and their services, ports
    and directories, building and deploying them, and the applications of other peers.

    A shell command is recorded with how it was run, in order; [AppEnv] says what
    std::system returns and executeCommand gives, as functions of the number of actions
    before it, and which paths exist.  The peer network and the tables are those of
    Peers. *)

From S2P Require Import Prelude Stdio Types Json Database Settings Ports Registry Dispatch Server Peers.

(** ** The world of the handlers *)

(** What the handlers do outside the daemon. *)
Inductive Act :=
  | System (cmd : string)                  (** std::system *)
  | Execute (cmd : string)                 (** executeCommand *)
  | WriteFile (path content : string)
  | SleepMs (n : Z).

Record AppEnv := mkAppEnv {
  system_rc : nat -> string -> Z;
  command_output : nat -> string -> string;
  path_exists : string -> bool;
  fopen_ok : string -> bool;
  leader_chunks : list string       (** what read() gives, until it gives nothing *)
}.

(** peerAppStatusCache is the global of cmdApp.cpp. *)
Record Apps := mkApps {
  network : Peers;
  acts : list Act;
  peerAppStatusCache : list (string * json)
}.

Definition set_network (p : Peers) (w : Apps) : Apps := mkApps p (acts w) (peerAppStatusCache w).
Definition adb (w : Apps) : DB := pdb (network w).
Definition set_adb (d : DB) (w : Apps) : Apps := set_network (set_pdb d (network w)) w.

Definition on_network {A} (m : M Peers A) : M Apps A := fun w =>
  let '(p, o) := m (network w) in (set_network p w, o).
Definition on_adb (f : DB -> DB) : M Apps unit := modify (fun w => set_adb (f (adb w)) w).
Definition setting (key : string) : M Apps string := gets (fun w => SettingsTable.getSetting key (adb w)).

Definition ln (s : string) : string := (s +:+ eol)%string.

(** A line of the answer, when there is one. *)
Definition lines (l : list string) : string := foldr (fun s t => (s +:+ t)%string) "" l.

(** s.replace(s.find(pat), pat.size(), rep), when there is one *)
Definition replace_first (pat rep s : string) : string :=
  match String.index 0 pat s with
  | Some i => (Str.take i s +:+ rep +:+ Str.drop (i + String.length pat) s)%string
  | None => s
  end.

(** s.erase(s.find_last_not_of(" \n\r\t") + 1) *)
Definition blank (c : ascii) : bool :=
  bool_decide (c ∈ [" "%char; "010"%char; "013"%char; "009"%char]).
Fixpoint rtrim (s : string) : string :=
  match s with
  | EmptyString => EmptyString
  | String c s' =>
      match rtrim s' with
      | EmptyString => if blank c then EmptyString else String c EmptyString
      | t => String c t
      end
  end.

(** ** Applications *)

Record AppConfig := mkConfig {
  appId : string; displayName : string; hasServerComponent : bool;
  serverServiceTemplate : string; clientServiceTemplate : string;
  portKeyClient : string; portKeyServer : string;
  devPath : string; prodPath : string;
  serverBuildSubdir : string; clientSubdir : string
}.
Definition noConfig : AppConfig := mkConfig "" "" false "" "" "" "" "" "" "" "".

Definition APP_CONFIGS : list AppConfig :=
  [mkConfig "cad" "CAD Application" true "" "cad-{mode}" "cad" "" "/opt/dev/cad" "/opt/prod/cad"
     "." "web";
   mkConfig "pt" "Public Transportation" false "" "pt-{mode}" "pt" ""
     "/opt/dev/publicTransportation" "/opt/prod/publicTransportation" ""
     "frontend/public-transportation";
   mkConfig "dashboard" "Dashboard" true "dashboard-bridge" "dashboard-{mode}" "dashboard"
     "dashboard-bridge" "/opt/dev/dashboard" "/opt/prod/dashboard" "" ""].

Definition DEV_APPS_DIR : string := "/opt/dev/".
Definition PROD_APPS_DIR : string := "/opt/prod/".

Definition recordToConfig (r : ExtraAppRecord) : AppConfig :=
  mkConfig (app_id r) (display_name r) (has_server_component r) (server_service_template r)
    (client_service_template r) (port_key_client r) (port_key_server r) (dev_path r)
    (prod_path r) (server_build_subdir r) (client_subdir r).

Definition hardcoded (id : string) : option AppConfig :=
  snd <$> list_find (fun c => appId c = id) APP_CONFIGS.

Definition getAppConfig (id : string) (d : DB) : AppConfig :=
  match hardcoded id with
  | Some cfg => cfg
  | None =>
      let record := ExtraAppTable.getApp id d in
      if negb (Str.empty (app_id record)) then recordToConfig record else noConfig
  end.

(** The records whose identity is already listed are left out. *)
Definition add_app (allApps : list AppConfig) (r : ExtraAppRecord) : list AppConfig :=
  if bool_decide (app_id r ∈ appId <$> allApps) then allApps
  else allApps ++ [recordToConfig r].
Definition getAllApps (d : DB) : list AppConfig :=
  foldl add_app APP_CONFIGS (ExtraAppTable.getAllApps d).

Definition resolveServiceName (templateStr id mode : string) : string :=
  replace_first "{mode}" mode (replace_first "{app}" id templateStr).

Definition getAppPath (id mode : string) (d : DB) : string :=
  let cfg := getAppConfig id d in
  if Str.empty (appId cfg) then ""
  else if decide (mode = "prod") then prodPath cfg else devPath cfg.

Section Apps.
Context (env : AppEnv) (net : NetEnv).
(** nlohmann's dump() and dump(2), and its parse *)
Context (dump dump2 : json -> string) (parse : string -> outcome json).

(** ** The shell *)

Definition record (a : Act) : M Apps unit :=
  modify (fun w => mkApps (network w) (acts w ++ [a]) (peerAppStatusCache w)).

Definition system (cmd : string) : M Apps Z :=
  let! n := gets (fun w => length (acts w)) in
  let! _ := record (System cmd) in mret (system_rc env n cmd).

Definition executeCommand (cmd : string) : M Apps string :=
  let! n := gets (fun w => length (acts w)) in
  let! _ := record (Execute cmd) in mret (command_output env n cmd).

(** ** Services and ports *)

Definition systemctl (verb serviceName : string) : M Apps bool :=
  let! rc := system ("/usr/bin/systemctl " +:+ verb +:+ " " +:+ serviceName +:+ " 2>/dev/null") in
  mret (rc =? 0).

Definition startService : string -> M Apps bool := systemctl "start".
Definition restartService : string -> M Apps bool := systemctl "restart".
Definition enableService : string -> M Apps bool := systemctl "enable".
Definition disableService : string -> M Apps bool := systemctl "disable".
Definition isServiceActive : string -> M Apps bool := systemctl "is-active --quiet".

(** The result of systemctl is not looked at. *)
Definition stopService (serviceName : string) : M Apps bool :=
  let! _ := systemctl "stop" serviceName in
  let! _ := systemctl "reset-failed" serviceName in mret true.

Definition isPortListening (port : Z) : M Apps bool :=
  let! out := executeCommand ("/usr/bin/ss -tlnH sport = :" +:+ Num.to_string port) in
  mret (negb (Str.empty out)).

Definition killProcessOnPort (port : Z) : M Apps unit :=
  let! _ := system ("/usr/bin/fuser -k -9 " +:+ Num.to_string port +:+ "/tcp 2>/dev/null") in
  mret tt.

Definition POLL_INTERVAL_MS : Z := 200.
Definition WAIT_TIMEOUT_MS : Z := 10000.

(** The polling loop; [None] when the fuel runs out. *)
Fixpoint wait_loop (fuel : nat) (port timeoutMs elapsedMs : Z) : M Apps (option unit) :=
  match fuel with
  | O => mret None
  | S fuel' =>
      let! listening := isPortListening port in
      if listening && (elapsedMs <? timeoutMs) then
        let! _ := if 2500 <? elapsedMs then killProcessOnPort port else mret tt in
        let! _ := record (SleepMs POLL_INTERVAL_MS) in
        wait_loop fuel' port timeoutMs (elapsedMs + POLL_INTERVAL_MS)
      else mret (Some tt)
  end.

(** One turn for each interval that fits in the timeout, and the last test. *)
Definition wait_fuel (timeoutMs : Z) : nat := S (Z.to_nat (timeoutMs / POLL_INTERVAL_MS + 1)).

Definition waitForPortRelease (port timeoutMs : Z) : M Apps bool :=
  let! _ := wait_loop (wait_fuel timeoutMs) port timeoutMs 0 in
  let! listening := isPortListening port in mret (negb listening).

(** ** Building and installing *)

Definition buildCppComponent (path : string) : M Apps string :=
  let buildDir := (path +:+ "/build")%string in
  let result := ln ("  Path: " +:+ path) in
  let! rc := system ("/usr/bin/rm -rf " +:+ buildDir) in
  let result := ((if (rc =? 0)%Z then result
                  else result +:+ ln "  Warning: Failed to remove old build directory")
                 +:+ ln "  Clean: OK")%string in
  let! rc := system ("/usr/bin/mkdir -p " +:+ buildDir) in
  if negb (rc =? 0) then mret (result +:+ ln "Error: Failed to create build directory")%string
  else
    let! out := executeCommand ("cd " +:+ buildDir +:+ " && /usr/bin/cmake .. 2>&1") in
    if Str.contains "Error" out || Str.contains "error" out then
      mret (result +:+ ln "CMake output:" +:+ ln out)%string
    else
      let result := (result +:+ ln "  CMake: OK")%string in
      let! out := executeCommand ("cd " +:+ buildDir +:+ " && /usr/bin/make -j$(nproc) 2>&1") in
      if Str.contains "Error" out || Str.contains "error:" out then
        mret (result +:+ ln "Make output:" +:+ ln out)%string
      else mret (result +:+ ln "  Make: OK" +:+ ln "Build complete.")%string.

Definition buildServerComponent (id mode : string) : M Apps string :=
  let! d := gets adb in
  let cfg := getAppConfig id d in
  if Str.empty (appId cfg) then mret (ln ("Error: Unknown app: " +:+ id))
  else if negb (hasServerComponent cfg) || Str.empty (serverBuildSubdir cfg) then
    mret (ln ("Error: App " +:+ id +:+ " has no server component to build"))
  else
    let serverPath := (getAppPath id mode d +:+ "/" +:+ serverBuildSubdir cfg)%string in
    let! built := buildCppComponent serverPath in
    mret (ln ("Building " +:+ id +:+ " server (" +:+ mode +:+ ")...") +:+ built)%string.

(** npm install in one directory *)
Definition npm_install (id mode component targetDir : string) : M Apps string :=
  let result := (ln ("Installing dependencies for " +:+ id +:+ " " +:+ component +:+ " (" +:+
                     mode +:+ ")...") +:+ ln ("  Path: " +:+ targetDir))%string in
  let! rc := system ("/usr/bin/test -f " +:+ targetDir +:+ "/package.json") in
  if negb (rc =? 0) then mret (result +:+ ln "  No package.json found, skipping.")%string
  else
    let! out := executeCommand ("cd " +:+ targetDir +:+ " && /usr/bin/npm install 2>&1") in
    if Str.contains "ERR!" out || Str.contains "error" out then
      mret (result +:+ ln "npm output:" +:+ ln out)%string
    else mret (result +:+ ln "  npm install: OK")%string.

(** The component "client" or "server" *)
Definition install_component (cfg : AppConfig) (id mode component : string) : M Apps string :=
  let! appPath := gets (fun w => getAppPath id mode (adb w)) in
  let subdir := if decide (component = "client") then clientSubdir cfg else serverBuildSubdir cfg in
  if Str.empty subdir then mret (ln ("Error: App " +:+ id +:+ " has no " +:+ component +:+ " component"))
  else npm_install id mode component (appPath +:+ "/" +:+ subdir).

Definition installDependencies (id mode component : string) : M Apps string :=
  let! d := gets adb in
  let cfg := getAppConfig id d in
  if Str.empty (appId cfg) then mret (ln ("Error: Unknown app: " +:+ id))
  else if decide (component = "client" \/ component = "server") then
    install_component cfg id mode component
  else if decide (component = "all" \/ component = "") then
    let! client := if Str.empty (clientSubdir cfg) then mret ""
                   else install_component cfg id mode "client" in
    let! server := if Str.empty (serverBuildSubdir cfg) then mret ""
                   else install_component cfg id mode "server" in
    mret (client +:+ server)%string
  else mret (ln ("Error: Unknown component: " +:+ component +:+
                 " (use 'client', 'server', or 'all')")).

Definition isServiceEnabled : string -> M Apps bool := systemctl "is-enabled --quiet".
Definition getServiceStatus (serviceName : string) : M Apps string :=
  executeCommand ("/usr/bin/systemctl status " +:+ serviceName +:+
                  " --no-pager -l 2>/dev/null | head -10").

(** ** The status of the applications of a peer *)

Definition updatePeerAppStatus (peerId : string) (appStatus : json) (w : Apps) : Apps :=
  mkApps (network w) (acts w) (StdMap.insert peerId appStatus (peerAppStatusCache w)).
Definition clearPeerAppStatus (peerId : string) (w : Apps) : Apps :=
  mkApps (network w) (acts w) (StdMap.erase peerId (peerAppStatusCache w)).

(** ** The handlers: shared parts *)

Definition app_argument (k : string) (command : json) : M Apps string :=
  lift (Json.string_at k command).
Definition app_optional (k d : string) (command : json) : M Apps string :=
  if Json.contains k command then app_argument k command else mret d.

(** The application a command names. *)
Definition with_app (command : json) (k : string -> M Apps CmdResult) : M Apps CmdResult :=
  if negb (Json.contains "app" command) then
    mret (mkCmdResult 1 (ln "Missing required argument: --app"))
  else let! id := app_argument "app" command in k id.

Definition unknown_app (id : string) : CmdResult := mkCmdResult 1 (ln ("Unknown app: " +:+ id)).

Definition with_config (id : string) (k : AppConfig -> M Apps CmdResult) : M Apps CmdResult :=
  let! config := gets (fun w => getAppConfig id (adb w)) in
  if Str.empty (appId config) then mret (unknown_app id) else k config.

Definition dev_only (config : AppConfig) (mode : string) : bool :=
  bool_decide (mode = "prod") && Str.empty (prodPath config).

Definition dev_only_answer (id : string) : CmdResult :=
  mkCmdResult 1 (ln (id +:+ " is dev-only (no prod mode available)")).

(** One mode, which the application has. *)
Definition in_mode (command : json) (k : string -> string -> AppConfig -> M Apps CmdResult)
    : M Apps CmdResult :=
  with_app command (fun id =>
    let! mode := app_optional "mode" "dev" command in
    with_config id (fun config =>
      if dev_only config mode then mret (dev_only_answer id) else k id mode config)).

(** One mode, or all the application has. *)
Definition in_modes (command : json) (k : string -> AppConfig -> list string -> M Apps CmdResult)
    : M Apps CmdResult :=
  with_app command (fun id =>
    let! mode := app_optional "mode" "all" command in
    with_config id (fun config =>
      if decide (mode = "all") then
        k id config (if Str.empty (prodPath config) then ["dev"] else ["prod"; "dev"])
      else if dev_only config mode then mret (dev_only_answer id)
      else k id config [mode])).

Definition has_server_service (config : AppConfig) : bool :=
  hasServerComponent config && negb (Str.empty (serverServiceTemplate config)).
Definition has_client_service (config : AppConfig) : bool :=
  negb (Str.empty (clientServiceTemplate config)).
Definition server_service (config : AppConfig) (id mode : string) : string :=
  resolveServiceName (serverServiceTemplate config) id mode.
Definition client_service (config : AppConfig) (id mode : string) : string :=
  resolveServiceName (clientServiceTemplate config) id mode.

(** Do something to a service the application has: the lines of the answer. *)
Definition when_service (has : bool) (f : M Apps string) : M Apps string :=
  if has then f else mret "".

Definition report (yes no : string) (act : string -> M Apps bool) (service : string)
    : M Apps string :=
  let! ok := act service in
  mret (ln ((if ok then yes else no) +:+ " " +:+ service)).

(** ** Starting and stopping *)

Definition handleStartApp (command : json) : M Apps CmdResult :=
  in_mode command (fun id mode config =>
    let start := report "Started" "Failed to start" startService in
    let! server := when_service (has_server_service config) (start (server_service config id mode)) in
    let! client := when_service (has_client_service config) (start (client_service config id mode)) in
    mret (mkCmdResult 0 (server +:+ client))).

(** The port stored under a key, given to [f]; a value that is not a number throws. *)
Definition with_port (key : string) (f : Z -> M Apps unit) : M Apps unit :=
  let! portStr := setting key in
  if Str.empty portStr then mret tt
  else let! port := lift (Num.stoi portStr) in f port.

Definition client_port_key (config : AppConfig) (mode : string) : string :=
  ("port_" +:+ portKeyClient config +:+ "-" +:+ mode)%string.
Definition server_port_key (config : AppConfig) (mode : string) : string :=
  ("port_" +:+ portKeyServer config +:+ (if decide (mode = "dev") then "-dev" else ""))%string.
Definition has_server_port (config : AppConfig) : bool :=
  hasServerComponent config && negb (Str.empty (portKeyServer config)).

(** The client's port, then the server's. *)
Definition on_ports (config : AppConfig) (mode : string) (f : Z -> M Apps unit) : M Apps unit :=
  let! _ := with_port (client_port_key config mode) f in
  if has_server_port config then with_port (server_port_key config mode) f else mret tt.

Definition stop_mode (id : string) (config : AppConfig) (mode : string) : M Apps string :=
  let stop := report "Stopped" "Stopped" stopService in
  let! client := when_service (has_client_service config) (stop (client_service config id mode)) in
  let! server := when_service (has_server_service config) (stop (server_service config id mode)) in
  let! _ := on_ports config mode killProcessOnPort in
  mret (client +:+ server)%string.

Fixpoint for_modes (f : string -> M Apps string) (modes : list string) : M Apps string :=
  match modes with
  | [] => mret ""
  | m :: rest =>
      let! s := f m in
      let! t := for_modes f rest in
      mret (s +:+ t)%string
  end.

Definition handleStopApp (command : json) : M Apps CmdResult :=
  in_modes command (fun id config modes =>
    let! result := for_modes (stop_mode id config) modes in
    mret (mkCmdResult 0 result)).

Definition stop_quietly (has : bool) (service : string) : M Apps unit :=
  if has then let! _ := stopService service in mret tt else mret tt.
Definition wait_quietly (port : Z) : M Apps unit :=
  let! _ := waitForPortRelease port WAIT_TIMEOUT_MS in mret tt.

Definition handleRestartApp (command : json) : M Apps CmdResult :=
  in_mode command (fun id mode config =>
    let restart := report "Restarted" "Failed to restart" restartService in
    let! _ := stop_quietly (has_client_service config) (client_service config id mode) in
    let! _ := stop_quietly (has_server_service config) (server_service config id mode) in
    let! _ := on_ports config mode wait_quietly in
    let! server := when_service (has_server_service config) (restart (server_service config id mode)) in
    let! client := when_service (has_client_service config) (restart (client_service config id mode)) in
    mret (mkCmdResult 0 (server +:+ client))).

(** The status is 1 when one of the services could not be enabled. *)
Definition enable_one (has : bool) (service : string) : M Apps (string * bool) :=
  if has then
    let! ok := enableService service in
    mret (ln ((if ok then "Enabled" else "Failed to enable") +:+ " " +:+ service), ok)
  else mret ("", true).

Definition handleEnableApp (command : json) : M Apps CmdResult :=
  in_mode command (fun id mode config =>
    let! server := enable_one (has_server_service config) (server_service config id mode) in
    let! client := enable_one (has_client_service config) (client_service config id mode) in
    mret (mkCmdResult (if server.2 && client.2 then 0 else 1) (server.1 +:+ client.1))).

Definition disable_mode (id : string) (config : AppConfig) (mode : string) : M Apps string :=
  let disable := report "Disabled" "Disabled" disableService in
  let! client := when_service (has_client_service config) (disable (client_service config id mode)) in
  let! server := when_service (has_server_service config) (disable (server_service config id mode)) in
  mret (client +:+ server)%string.

Definition handleDisableApp (command : json) : M Apps CmdResult :=
  in_modes command (fun id config modes =>
    let! result := for_modes (disable_mode id config) modes in
    mret (mkCmdResult 0 result)).

(** ** Status and lists *)

Definition running (active : bool) : string := if active then "RUNNING" else "STOPPED".

Definition status_line (what service : string) : M Apps string :=
  let! active := isServiceActive service in
  mret (ln ("    " +:+ what +:+ " (" +:+ service +:+ "): " +:+ running active)).

Definition status_mode (app : AppConfig) (mode : string) : M Apps string :=
  if dev_only app mode then mret ""
  else
    let! server := when_service (has_server_service app)
                     (status_line "Server" (server_service app (appId app) mode)) in
    let! client := when_service (has_client_service app)
                     (status_line "Client" (client_service app (appId app) mode)) in
    let! portStr := setting (client_port_key app mode) in
    let! port :=
      if Str.empty portStr then mret ""
      else
        let! port := lift (Num.stoi portStr) in
        let! listening := isPortListening port in
        mret (ln ("    Port " +:+ Num.to_string port +:+ ": " +:+
                  (if listening then "LISTENING" else "NOT LISTENING"))) in
    mret (ln ("  [" +:+ mode +:+ "]") +:+ server +:+ client +:+ port)%string.

Fixpoint status_apps (apps : list AppConfig) : M Apps string :=
  match apps with
  | [] => mret ""
  | app :: rest =>
      let! modes := for_modes (status_mode app) ["prod"; "dev"] in
      let! s := status_apps rest in
      mret (ln ("=== " +:+ displayName app +:+ " (" +:+ appId app +:+ ") ===") +:+ modes +:+ s)%string
  end.

Definition handleAppStatus (command : json) : M Apps CmdResult :=
  let! id := app_optional "app" "" command in
  let! d := gets adb in
  let show (apps : list AppConfig) : M Apps CmdResult :=
    let! s := status_apps apps in mret (mkCmdResult 0 s) in
  if Str.empty id then show (getAllApps d)
  else
    let cfg := getAppConfig id d in
    if negb (Str.empty (appId cfg)) then show [cfg] else mret (unknown_app id).

Definition handleListApps (command : json) : M Apps CmdResult :=
  gets (fun w => mkCmdResult 0
    (lines (ln "Registered Apps:" ::
       ((fun app => ln ("  - " +:+ appId app +:+ ": " +:+ displayName app +:+
                        (if hasServerComponent app then " (has server)" else ""))%string)
        <$> getAllApps (adb w))))).

(** ** Building *)

Definition build_dir (id mode component path : string) : M Apps CmdResult :=
  let! rc := system ("/usr/bin/test -d " +:+ path) in
  if negb (rc =? 0) then
    mret (mkCmdResult 1 (ln ("No " +:+ component +:+ " directory found at: " +:+ path)))
  else
    let! built := buildCppComponent path in
    let result := (ln ("Building " +:+ id +:+ " " +:+ component +:+ " (" +:+ mode +:+ ")...") +:+
                   built)%string in
    mret (mkCmdResult (if Str.contains "Build complete" result then 0 else 1) result).

(** The component "native-client" is a directory like the others. *)
Definition handleBuildApp (command : json) : M Apps CmdResult :=
  with_app command (fun id =>
    let! mode := app_optional "mode" "dev" command in
    let! component := app_optional "component" "server" command in
    with_config id (fun config =>
      if dev_only config mode then mret (dev_only_answer id)
      else
        let! appPath := gets (fun w => getAppPath id mode (adb w)) in
        if decide (component = "server") then
          if negb (hasServerComponent config) then
            mret (mkCmdResult 1 (ln ("App " +:+ id +:+ " has no server component to build")))
          else
            let! result := buildServerComponent id mode in
            mret (mkCmdResult (if Str.contains "Build complete" result then 0 else 1) result)
        else build_dir id mode component (appPath +:+ "/" +:+ component))).

Definition handleInstallAppDeps (command : json) : M Apps CmdResult :=
  with_app command (fun id =>
    let! mode := app_optional "mode" "dev" command in
    let! component := app_optional "component" "all" command in
    with_config id (fun config =>
      if dev_only config mode then mret (dev_only_answer id)
      else
        let! result := installDependencies id mode component in
        mret (mkCmdResult
          (if negb (Str.contains "Error" result) && negb (Str.contains "ERR!" result) then 0 else 1)
          result))).

(** ** Applications added at run time *)

(** What follows the last slash; "" when there is none. *)
Fixpoint after_last_slash (s : string) : option string :=
  match s with
  | EmptyString => None
  | String c s' =>
      match after_last_slash s' with
      | Some t => Some t
      | None => if decide (c = "/"%char) then Some s' else None
      end
  end.

Definition extractAppNameFromUrl (repoUrl : string) : string :=
  match after_last_slash repoUrl with
  | None => ""
  | Some name => if Str.has_suffix ".git" name then Str.take (String.length name - 4) name else name
  end.

(** test -d path, and then test -f path/file *)
Definition directory_with (path file : string) : M Apps bool :=
  let! rc := system ("/usr/bin/test -d " +:+ path) in
  if rc =? 0 then
    let! rc := system ("/usr/bin/test -f " +:+ path +:+ "/" +:+ file) in mret (rc =? 0)
  else mret false.

(** The first of the directories that has the file. *)
Fixpoint first_directory (appPath file : string) (dirs : list string) : M Apps (option string) :=
  match dirs with
  | [] => mret None
  | dir :: rest =>
      let! found := directory_with (appPath +:+ "/" +:+ dir) file in
      if found : bool then mret (Some dir) else first_directory appPath file rest
  end.

Definition detectAppStructure (appPath : string) : M Apps (bool * string * string) :=
  let! server := first_directory appPath "CMakeLists.txt" ["server"; "backend"; "api"] in
  let! client := first_directory appPath "package.json" ["client"; "web"; "frontend"; "app"] in
  let! _ := match client with
            | None => let! _ := system ("/usr/bin/test -f " +:+ appPath +:+ "/package.json") in mret tt
            | Some _ => mret tt
            end in
  mret (match server with Some _ => true | None => false end, default "" server, default "" client).

(** What the command says instead. *)
Definition override_structure (command : json) (detected : bool * string * string)
    : M Apps (bool * string * string) :=
  let '(hasServer, serverSubdir, clientSubdir) := detected in
  let! hasServer := match Json.member "hasServer" command with
                    | Some v => lift (Json.get_bool v)
                    | None => mret hasServer
                    end in
  let! serverSubdir := app_optional "serverSubdir" serverSubdir command in
  let hasServer := if Json.contains "serverSubdir" command && negb (Str.empty serverSubdir)
                   then true else hasServer in
  let! clientSubdir := app_optional "clientSubdir" clientSubdir command in
  mret (hasServer, serverSubdir, clientSubdir).

(** Cloning; the answer that ends the handler when it fails. *)
Definition clone_repository (repoUrl devPath : string) : M Apps (string + CmdResult) :=
  let! rc := system ("/usr/bin/test -d " +:+ devPath) in
  if negb (rc =? 0) then
    let! out := executeCommand ("/usr/bin/git clone " +:+ repoUrl +:+ " " +:+ devPath +:+ " 2>&1") in
    mret (if Str.contains "fatal" out || Str.contains "error" out then
            inr (mkCmdResult 1 (ln "Failed to clone repository:" +:+ ln out))
          else inl (ln ("  Cloning repository to " +:+ devPath +:+ "...") +:+ ln "  Clone: OK")%string)
  else mret (inl (ln ("  Directory already exists: " +:+ devPath))).

(** A worktree at the commit of the clone; a failure is only reported. *)
Definition prod_worktree (devPath prodPath : string) : M Apps string :=
  let! rc := system ("/usr/bin/test -d " +:+ prodPath) in
  if negb (rc =? 0) then
    let! _ := system "/usr/bin/mkdir -p /opt/prod" in
    let! hash := executeCommand ("cd " +:+ devPath +:+ " && /usr/bin/git rev-parse HEAD") in
    let! out := executeCommand ("cd " +:+ devPath +:+ " && /usr/bin/git worktree add --detach " +:+
                                prodPath +:+ " " +:+ rtrim hash +:+ " 2>&1") in
    mret (ln ("  Creating prod worktree at " +:+ prodPath +:+ "...") +:+
          (if Str.contains "fatal" out then ln ("  Warning: Could not create worktree: " +:+ out)
           else ln "  Worktree: OK"))%string
  else mret (ln ("  Prod worktree already exists: " +:+ prodPath)).

Definition root_if_empty (s : string) : string := if Str.empty s then "(root)" else s.

(** The record of an added application. *)
Definition extra_record (id name repoUrl : string) (structure : bool * string * string)
    : ExtraAppRecord :=
  let '(hasServer, serverSubdir, clientSubdir) := structure in
  mkApp id name repoUrl hasServer
    (if hasServer then id +:+ "-server-{mode}" else "")%string
    (id +:+ "-{mode}")%string id
    (if hasServer then id +:+ "-server" else "")%string
    (DEV_APPS_DIR +:+ id)%string (PROD_APPS_DIR +:+ id)%string serverSubdir clientSubdir.

(** The ports of a new application, or the answer that ends the handler. *)
Definition allocate_ports (hasServer : bool) (d : DB) : (Z * Z * Z) + CmdResult :=
  let '(prodPort, devPort) := findNextAvailablePortPair d in
  if prodPort <? 0 then inr (mkCmdResult 1 (ln "No available ports in 3000-3499 range"))
  else if hasServer then
    let serverPort := findNextAvailableServerPort d in
    if serverPort <? 0 then inr (mkCmdResult 1 (ln "No available server ports in 3500+ range"))
    else inl (prodPort, devPort, serverPort)
  else inl (prodPort, devPort, -1).

Definition port_setting (id suffix : string) : string := ("port_" +:+ id +:+ suffix)%string.

Definition save_ports (id : string) (hasServer : bool) (ports : Z * Z * Z) (d : DB) : DB :=
  let '(prodPort, devPort, serverPort) := ports in
  let d := SettingsTable.setSetting (port_setting id "-prod") (Num.to_string prodPort) d in
  let d := SettingsTable.setSetting (port_setting id "-dev") (Num.to_string devPort) d in
  if hasServer then SettingsTable.setSetting (port_setting id "-server") (Num.to_string serverPort) d
  else d.

Definition added_message (id devPath prodPath cloned worktree : string)
    (structure : bool * string * string) (ports : Z * Z * Z) : string :=
  let '(hasServer, serverSubdir, clientSubdir) := structure in
  let '(prodPort, devPort, serverPort) := ports in
  let when (s : string) := if hasServer then s else "" in
  lines
    [ln ("Adding extra app: " +:+ id); cloned; worktree;
     ln "  Structure detected:"; ln ("    Has server: " +:+ (if hasServer then "yes" else "no"));
     when (ln ("    Server subdir: " +:+ serverSubdir));
     ln ("    Client subdir: " +:+ root_if_empty clientSubdir);
     ln "  Ports allocated:"; ln ("    " +:+ id +:+ "-prod: " +:+ Num.to_string prodPort);
     ln ("    " +:+ id +:+ "-dev: " +:+ Num.to_string devPort);
     when (ln ("    " +:+ id +:+ "-server: " +:+ Num.to_string serverPort));
     ln "  Database entry: OK"; ln ""; ln "App added successfully!"; ln "Next steps:";
     ln ("  1. Install dependencies: d installAppDeps --app " +:+ id);
     when (ln ("  2. Build server: d buildApp --app " +:+ id +:+ " --mode dev"));
     ln ("  3. Create systemd services for " +:+ id +:+ "-dev and " +:+ id +:+ "-prod");
     ln ("  4. Start app: d startApp --app " +:+ id +:+ " --mode dev")].

(** The steps after the checks: clone, worktree, structure, ports, record, permissions. *)
Definition install_extra (id repoUrl : string) (command : json) : M Apps CmdResult :=
  let devPath := (DEV_APPS_DIR +:+ id)%string in
  let prodPath := (PROD_APPS_DIR +:+ id)%string in
  let! cloned := clone_repository repoUrl devPath in
  match cloned with
  | inr r => mret r
  | inl cloned =>
      let! worktree := prod_worktree devPath prodPath in
      let! detected := detectAppStructure devPath in
      let! structure := override_structure command detected in
      let hasServer := structure.1.1 in
      let! allocated := gets (fun w => allocate_ports hasServer (adb w)) in
      match allocated with
      | inr r => mret r
      | inl ports =>
          let! _ := on_adb (save_ports id hasServer ports) in
          let! name := app_optional "displayName" id command in
          let! _ := on_adb (ExtraAppTable.upsertApp (extra_record id name repoUrl structure)) in
          let! _ := system ("fixAutoLinuxPerms " +:+ devPath +:+ " 2>/dev/null") in
          let! _ := system ("fixAutoLinuxPerms " +:+ prodPath +:+ " 2>/dev/null") in
          mret (mkCmdResult 0 (added_message id devPath prodPath cloned worktree structure ports))
      end
  end.

Definition handleAddExtraApp (command : json) : M Apps CmdResult :=
  if negb (Json.contains "repoUrl" command) then
    mret (mkCmdResult 1 (ln "Missing required argument: --repoUrl"))
  else
    let! repoUrl := app_argument "repoUrl" command in
    let id := extractAppNameFromUrl repoUrl in
    let! d := gets adb in
    if Str.empty id then
      mret (mkCmdResult 1 (ln ("Could not extract app name from URL: " +:+ repoUrl)))
    else
      match hardcoded id with
      | Some _ => mret (mkCmdResult 1 (ln ("App already exists in hardcoded config: " +:+ id)))
      | None =>
          if ExtraAppTable.appExists id d then
            mret (mkCmdResult 1 (ln ("App already registered in database: " +:+ id)))
          else install_extra id repoUrl command
      end.

Definition drop_setting (key : string) (d : DB) : DB := (SettingsTable.deleteSetting key d).2.

Definition handleRemoveExtraApp (command : json) : M Apps CmdResult :=
  with_app command (fun id =>
    let! d := gets adb in
    if negb (ExtraAppTable.appExists id d) then
      mret (mkCmdResult 1 (ln ("App not found in database: " +:+ id)))
    else
      let app := ExtraAppTable.getApp id d in
      let! _ := on_adb (drop_setting (port_setting id "-prod")) in
      let! _ := on_adb (drop_setting (port_setting id "-dev")) in
      let! _ := if has_server_component app then on_adb (drop_setting (port_setting id "-server"))
                else mret tt in
      let! _ := on_adb (ExtraAppTable.deleteApp id) in
      mret (mkCmdResult 0 (lines
        [ln ("Removing extra app: " +:+ id); ln "  Removed port assignments";
         ln "  Removed database entry"; ln ""; ln "App removed from registry.";
         ln ("Note: Files at " +:+ dev_path app +:+ " and " +:+ prod_path app +:+ " were NOT deleted.");
         ln "To fully remove, manually delete these directories and any systemd services."]))).

(** One application of handleListExtraApps. *)
Definition extra_app_lines (d : DB) (app : ExtraAppRecord) : string :=
  let port suffix := SettingsTable.getSetting (port_setting (app_id app) suffix) d in
  let when (s : string) := if has_server_component app then s else "" in
  lines
    [ln ""; ln (app_id app +:+ ":"); ln ("  Display Name: " +:+ display_name app);
     ln ("  Repo URL: " +:+ repo_url app); ln ("  Dev Path: " +:+ dev_path app);
     ln ("  Prod Path: " +:+ prod_path app);
     ln ("  Has Server: " +:+ (if has_server_component app then "yes" else "no"));
     when (ln ("  Server Subdir: " +:+ server_build_subdir app));
     ln ("  Client Subdir: " +:+ root_if_empty (client_subdir app));
     ln ("  Ports: prod=" +:+ port "-prod" +:+ ", dev=" +:+ port "-dev" +:+
         when (", server=" +:+ port "-server"))%string].

Definition handleListExtraApps (command : json) : M Apps CmdResult :=
  gets (fun w => mkCmdResult 0
    match ExtraAppTable.getAllApps (adb w) with
    | [] => ln "No extra apps registered in database."
    | apps => (ln "Extra Apps (from database):" +:+ ln "==========================" +:+
               lines (extra_app_lines (adb w) <$> apps))%string
    end).

(** ** Production *)

Definition no_prod (id : string) : CmdResult :=
  mkCmdResult 1 (ln ("App " +:+ id +:+ " has no prod path configured")).

Definition in_prod (command : json) (k : string -> AppConfig -> M Apps CmdResult) : M Apps CmdResult :=
  with_app command (fun id =>
    with_config id (fun config =>
      if Str.empty (prodPath config) then mret (no_prod id) else k id config)).

Definition in_directory (path cmd : string) : string := ("cd " +:+ path +:+ " && " +:+ cmd)%string.

Definition handleProdStatus (command : json) : M Apps CmdResult :=
  in_prod command (fun id config =>
    let! commit := executeCommand (in_directory (prodPath config)
                                     "/usr/bin/git rev-parse --short HEAD 2>&1") in
    let! out := executeCommand (in_directory (prodPath config)
                                  "/usr/bin/git status --porcelain 2>&1") in
    mret (mkCmdResult 0 (lines
      ([ln ("Prod status for " +:+ id +:+ ":"); ln ("  Path: " +:+ prodPath config);
        ln ("  Commit: " +:+ rtrim commit)] ++
       if Str.empty out then [ln "  Status: CLEAN"]
       else [ln "  Status: DIRTY (has uncommitted changes)"; ln "  Changes:"] ++
            ((fun l => ln ("    " +:+ l)) <$> Str.split_lines out))))).

Definition handleCleanProd (command : json) : M Apps CmdResult :=
  in_prod command (fun id config =>
    let! out := executeCommand (in_directory (prodPath config)
                  "/usr/bin/git checkout -- . && /usr/bin/git clean -fd 2>&1") in
    mret (if Str.contains "fatal" out || Str.contains "error" out then
            mkCmdResult 1 (ln "Failed to clean prod:" +:+ ln out)
          else mkCmdResult 0 (lines
            [ln ("Cleaning prod for " +:+ id +:+ "..."); ln "  Discarded uncommitted changes";
             ln "Prod is now clean."]))).

(** The commit to deploy: the one given, or the head of the development tree. *)
Definition deploy_commit (config : AppConfig) (given : string) : M Apps (string * string + CmdResult) :=
  if Str.empty given then
    let! out := executeCommand (in_directory (devPath config) "/usr/bin/git rev-parse HEAD 2>&1") in
    let commit := rtrim out in
    mret (if Str.empty commit || Str.contains "fatal" commit then
            inr (mkCmdResult 1 (ln ("Failed to get commit from dev: " +:+ commit)))
          else inl (commit, ln ("  Using latest dev commit: " +:+ Str.take 7 commit)))
  else mret (inl (given, ln ("  Using specified commit: " +:+ Str.take 7 given))).

(** The server of the production tree, when it has one to build. *)
Definition deploy_build (id : string) (config : AppConfig) : M Apps (string + CmdResult) :=
  if hasServerComponent config && negb (Str.empty (serverBuildSubdir config)) then
    let! built := buildServerComponent id "prod" in
    mret (if Str.contains "Build complete" built then
            inl (ln "  Rebuilding server..." +:+ ln "  Build: OK")%string
          else inr (mkCmdResult 1 (ln "Build failed:" +:+ built)))
  else mret (inl "").

(** The services are stopped, the client's port is waited for, and they are started;
    what systemctl start returns is not looked at. *)
Definition deploy_restart (id : string) (config : AppConfig) : M Apps string :=
  let! _ := stop_quietly (has_client_service config) (client_service config id "prod") in
  let! _ := stop_quietly (has_server_service config) (server_service config id "prod") in
  let! _ := with_port (client_port_key config "prod") wait_quietly in
  let start := report "  Started" "  Started" startService in
  let! server := when_service (has_server_service config) (start (server_service config id "prod")) in
  let! client := when_service (has_client_service config) (start (client_service config id "prod")) in
  mret (server +:+ client)%string.

Definition handleDeployToProd (command : json) : M Apps CmdResult :=
  with_app command (fun id =>
    let! given := app_optional "commit" "" command in
    with_config id (fun config =>
      if Str.empty (prodPath config) then mret (no_prod id)
      else
        let! commit := deploy_commit config given in
        match commit with
        | inr r => mret r
        | inl (commit, chosen) =>
            let! status := executeCommand (in_directory (prodPath config)
                                             "/usr/bin/git status --porcelain 2>&1") in
            if negb (Str.empty status) && negb (Str.contains "fatal" status) then
              mret (mkCmdResult 1 (ln "Prod worktree has uncommitted changes. Aborting." +:+
                                   ln ("Run: git -C " +:+ prodPath config +:+ " status")))
            else
              let! out := executeCommand (in_directory (prodPath config)
                            ("/usr/bin/git checkout " +:+ commit +:+ " 2>&1")) in
              if Str.contains "fatal" out || Str.contains "error" out then
                mret (mkCmdResult 1 (ln "Failed to checkout commit:" +:+ ln out))
              else
                let! built := deploy_build id config in
                match built with
                | inr r => mret r
                | inl built =>
                    let! restarted := deploy_restart id config in
                    mret (mkCmdResult 0 (lines
                      [ln ("Deploying " +:+ id +:+ " to prod..."); chosen; ln "  Checkout: OK"; built;
                       ln "  Restarting services..."; restarted; ln ""; ln "Deploy complete!"]))
                end
        end)).

(** ** The applications of the peers *)

(** The read loop of a forwarded getAppPeers: until a chunk ends with a newline. *)
Fixpoint read_response (chunks : list string) (response : string) : string :=
  match chunks with
  | [] => response
  | chunk :: rest =>
      let response := (response +:+ c_string chunk)%string in
      if Str.ends_with_char lf response then response else read_response rest response
  end.

Definition forward_app_peers (command : json) : M Apps CmdResult :=
  let! leaderFd := gets (fun w => m_leaderSocket (pm (network w))) in
  let! sent := on_network (sys_write net leaderFd (line_of dump command)) in
  mret (if negb sent then mkCmdResult 1 (ln "Failed to forward getAppPeers to leader")
        else
          let response := read_response (leader_chunks env) "" in
          if Str.empty response then mkCmdResult 1 (ln "No response from leader")
          else mkCmdResult 0 response).

Definition peer_app_json (id : string) (online : bool) (devInstalled prodInstalled devRunning
    prodRunning : json) (error : json) : json :=
  obj [("peer_id", JString id); ("is_online", JBool online); ("dev_installed", devInstalled);
       ("prod_installed", prodInstalled); ("dev_running", devRunning); ("prod_running", prodRunning);
       ("error", error)].

Definition no_app_data (id : string) (online : bool) (error : string) : json :=
  peer_app_json id online JNull JNull JNull JNull (JString error).

Definition service_running (template id mode : string) : M Apps bool :=
  let service := if Str.empty template then "" else resolveServiceName template id mode in
  if Str.empty service then mret false else isServiceActive service.

Definition local_app (config : AppConfig) (appId : string) (peer : PeerRow) : M Apps json :=
  let! dev := service_running (clientServiceTemplate config) appId "dev" in
  let! prod := service_running (clientServiceTemplate config) appId "prod" in
  mret (peer_app_json (peer_id peer) (is_online peer)
    (JBool (path_exists env (devPath config)))
    (JBool (negb (Str.empty (prodPath config)) && path_exists env (prodPath config)))
    (JBool dev) (JBool prod) JNull).

(** The cached status of a peer that is online. *)
Definition cached_app (appId : string) (cache : list (string * json)) (peer : PeerRow)
    : outcome json :=
  match StdMap.find (peer_id peer) cache with
  | Some status =>
      match Json.member appId status with
      | Some appData =>
          di ← Json.value Json.get_bool "dev_installed" false appData;
          pi ← Json.value Json.get_bool "prod_installed" false appData;
          dr ← Json.value Json.get_bool "dev_running" false appData;
          pr ← Json.value Json.get_bool "prod_running" false appData;
          mret (peer_app_json (peer_id peer) (is_online peer) (JBool di) (JBool pi) (JBool dr)
                  (JBool pr) JNull)
      | None => Ok (no_app_data (peer_id peer) (is_online peer) "awaiting heartbeat")
      end
  | None => Ok (no_app_data (peer_id peer) (is_online peer) "awaiting heartbeat")
  end.

Definition peer_app (config : AppConfig) (appId localPeerId : string) (cache : list (string * json))
    (peer : PeerRow) : M Apps json :=
  if decide (peer_id peer = localPeerId) then local_app config appId peer
  else if negb (is_online peer) then
    mret (no_app_data (peer_id peer) (is_online peer) "peer offline")
  else lift (cached_app appId cache peer).

Fixpoint peer_apps (config : AppConfig) (appId localPeerId : string) (cache : list (string * json))
    (peers : list PeerRow) : M Apps (list json) :=
  match peers with
  | [] => mret []
  | p :: rest =>
      let! j := peer_app config appId localPeerId cache p in
      let! l := peer_apps config appId localPeerId cache rest in
      mret (j :: l)
  end.

Definition handleGetAppPeers (command : json) : M Apps CmdResult :=
  let! id := app_argument "app" command in
  with_config id (fun config =>
    let! p := gets (fun w => pm (network w)) in
    if negb (Peers.isLeader p) && m_connectedToLeader p then forward_app_peers command
    else
      let! w := gets (fun w => w) in
      let! peers := peer_apps config id (m_peerId p) (peerAppStatusCache w)
                      (PeerTable.getAllPeers (unix_time net) (adb w)) in
      mret (mkCmdResult 0
        (dump2 (obj [("app", JString id); ("peers", JArray peers)]) +:+ eol))).

(** ** Commands for the manager of a peer *)

Definition getRepoUrl (config : AppConfig) : M Apps string :=
  let! url := executeCommand ("/usr/bin/git -C " +:+ devPath config +:+
                              " remote get-url origin 2>/dev/null") in
  mret (rtrim url).

Definition port_member (key : string) (d : DB) : outcome (list (string * json)) :=
  let v := SettingsTable.getSetting ("port_" +:+ key) d in
  if Str.empty v then Ok [] else z ← Num.stoi v; Ok [(key, JInt z)].

Definition getAppPorts (config : AppConfig) (d : DB) : outcome json :=
  prod ← port_member (portKeyClient config +:+ "-prod") d;
  dev ← port_member (portKeyClient config +:+ "-dev") d;
  server ← (if has_server_port config then port_member (portKeyServer config) d else Ok []);
  mret (obj (prod ++ dev ++ server)).

Definition peer_arguments (command : json) (k : string -> string -> M Apps CmdResult)
    : M Apps CmdResult :=
  if negb (Json.contains "app" command) || negb (Json.contains "peer" command) then
    mret (mkCmdResult 1 (ln "Missing required arguments: --app --peer"))
  else
    let! id := app_argument "app" command in
    let! peer := app_argument "peer" command in
    k id peer.

(** Send to the manager of a peer, when its address is known. *)
Definition to_manager (peer : string) (mgrCmd : json) : M Apps CmdResult :=
  let! ip := on_network (resolvePeerIP net dump parse peer) in
  if Str.empty ip then
    mret (mkCmdResult 1 (ln ("Could not find IP for peer: " +:+ peer)))
  else on_network (sendToManager net dump parse ip mgrCmd).

Definition handleInstallAppOnPeer (command : json) : M Apps CmdResult :=
  peer_arguments command (fun id peer =>
    let! mode := app_optional "mode" "all" command in
    with_config id (fun config =>
      let! repoUrl := getRepoUrl config in
      if Str.empty repoUrl then mret (mkCmdResult 1 (ln ("Could not get repo URL for " +:+ id)))
      else
        let! d := gets adb in
        let! ports := lift (getAppPorts config d) in
        to_manager peer (obj
          [("command", JString "install-app"); ("app_id", JString id);
           ("display_name", JString (displayName config)); ("repo_url", JString repoUrl);
           ("has_server", JBool (hasServerComponent config));
           ("server_build_subdir", JString (serverBuildSubdir config));
           ("client_subdir", JString (clientSubdir config));
           ("client_service_template", JString (clientServiceTemplate config));
           ("server_service_template", JString (serverServiceTemplate config));
           ("dev_path", JString (devPath config)); ("prod_path", JString (prodPath config));
           ("ports", ports); ("mode", JString mode)]))).

Definition handleUninstallAppOnPeer (command : json) : M Apps CmdResult :=
  peer_arguments command (fun id peer =>
    with_config id (fun config =>
      to_manager peer (obj
        [("command", JString "uninstall-app"); ("app_id", JString id);
         ("dev_path", JString (devPath config)); ("prod_path", JString (prodPath config));
         ("client_service_template", JString (clientServiceTemplate config));
         ("server_service_template", JString (serverServiceTemplate config));
         ("has_server", JBool (hasServerComponent config));
         ("port_key_client", JString (portKeyClient config));
         ("port_key_server", JString (portKeyServer config))]))).

Definition app_control (action id mode : string) : json :=
  obj [("command", JString "app-control"); ("action", JString action); ("app_id", JString id);
       ("mode", JString mode)].

Definition handleStartAppOnPeer (command : json) : M Apps CmdResult :=
  if negb (Json.contains "app" command) || negb (Json.contains "peer" command)
     || negb (Json.contains "mode" command) then
    mret (mkCmdResult 1 (ln "Missing required arguments: --app --peer --mode"))
  else
    let! id := app_argument "app" command in
    let! peer := app_argument "peer" command in
    let! mode := app_argument "mode" command in
    to_manager peer (app_control "start" id mode).

Definition handleStopAppOnPeer (command : json) : M Apps CmdResult :=
  peer_arguments command (fun id peer =>
    let! mode := app_optional "mode" "all" command in
    to_manager peer (app_control "stop" id mode)).

(** ** Service files *)

Definition service_names (id : string) (config : AppConfig) : list string :=
  let both (template : string) : list string :=
    resolveServiceName template id "dev" ::
    (if Str.empty (prodPath config) then [] else [resolveServiceName template id "prod"]) in
  (if has_client_service config then both (clientServiceTemplate config) else []) ++
  (if has_server_service config then both (serverServiceTemplate config) else []).

(** A name with "-dev" anywhere is taken for the development service. *)
Definition is_dev_service (svcName : string) : bool := Str.contains "-dev" svcName.

Definition service_content (config : AppConfig) (isDev : bool) (portStr : string) : string :=
  let appPath := if isDev then devPath config else prodPath config in
  let workDir := (if Str.empty (clientSubdir config) then appPath
                  else appPath +:+ "/" +:+ clientSubdir config)%string in
  lines
    [ln "[Unit]"; ln ("Description=" +:+ displayName config +:+ " (" +:+
                      (if isDev then "dev" else "prod") +:+ ")");
     ln "After=network.target daemon.service"; ln "Wants=daemon.service"; ln ""; ln "[Service]";
     ln "Type=simple"; ln ("WorkingDirectory=" +:+ workDir);
     ln ("ExecStart=/usr/bin/npm run " +:+ (if isDev then "dev" else "start") +:+
         (if Str.empty portStr then "" else " -- -p " +:+ portStr));
     ln "Restart=on-failure"; ln "RestartSec=5s"; ln "User=root"; ln "Group=root";
     ln ("Environment=NODE_ENV=" +:+ (if isDev then "development" else "production"));
     ln "StandardOutput=journal"; ln "StandardError=journal"; ln ""; ln "[Install]";
     ln "WantedBy=multi-user.target"].

Definition servicesDir : string := "/opt/automateLinux/services/system/".
Definition generatedDir : string := (servicesDir +:+ "generated/")%string.
Definition systemDir : string := "/etc/systemd/system/".

Definition link_service (from svcFile : string) : M Apps unit :=
  let! _ := system ("/usr/bin/ln -sf " +:+ from +:+ " " +:+ systemDir +:+ svcFile) in mret tt.

Definition install_service (config : AppConfig) (svcName : string) : M Apps string :=
  let svcFile := (svcName +:+ ".service")%string in
  let handWritten := (servicesDir +:+ svcFile)%string in
  let generated := (generatedDir +:+ svcFile)%string in
  let! rc := system ("/usr/bin/test -f " +:+ handWritten) in
  if rc =? 0 then
    let! _ := link_service handWritten svcFile in
    mret (ln ("  " +:+ svcFile +:+ " -> linked (hand-written)"))
  else
    let isDev := is_dev_service svcName in
    let! portStr := setting (client_port_key config (if isDev then "dev" else "prod")) in
    if fopen_ok env generated then
      let! _ := record (WriteFile generated (service_content config isDev portStr)) in
      let! _ := link_service generated svcFile in
      mret (ln ("  " +:+ svcFile +:+ " -> linked (generated)"))
    else mret (ln ("  " +:+ svcFile +:+ " -> FAILED to write generated file")).

Definition handleInstallAppServices (command : json) : M Apps CmdResult :=
  with_app command (fun id =>
    with_config id (fun config =>
      let! installed := for_modes (install_service config) (service_names id config) in
      let! _ := system "/usr/bin/systemctl daemon-reload" in
      mret (mkCmdResult 0 (ln ("Installing service files for " +:+ id +:+ "...") +:+ installed +:+
                           ln "  systemctl daemon-reload: OK")))).

(** ** The handlers by name *)

Definition app_handler (h : HandlerId) : option (json -> M Apps CmdResult) :=
  match h with
  | H_handleStartApp => Some handleStartApp
  | H_handleStopApp => Some handleStopApp
  | H_handleRestartApp => Some handleRestartApp
  | H_handleAppStatus => Some handleAppStatus
  | H_handleListApps => Some handleListApps
  | H_handleBuildApp => Some handleBuildApp
  | H_handleInstallAppDeps => Some handleInstallAppDeps
  | H_handleEnableApp => Some handleEnableApp
  | H_handleDisableApp => Some handleDisableApp
  | H_handleAddExtraApp => Some handleAddExtraApp
  | H_handleRemoveExtraApp => Some handleRemoveExtraApp
  | H_handleListExtraApps => Some handleListExtraApps
  | H_handleDeployToProd => Some handleDeployToProd
  | H_handleProdStatus => Some handleProdStatus
  | H_handleCleanProd => Some handleCleanProd
  | H_handleGetAppPeers => Some handleGetAppPeers
  | H_handleInstallAppOnPeer => Some handleInstallAppOnPeer
  | H_handleUninstallAppOnPeer => Some handleUninstallAppOnPeer
  | H_handleStartAppOnPeer => Some handleStartAppOnPeer
  | H_handleStopAppOnPeer => Some handleStopAppOnPeer
  | H_handleInstallAppServices => Some handleInstallAppServices
  | _ => None
  end.
End Apps.

(** ** What a daemon tells its leader *)

(** getLocalAppStatusAll, over what systemctl is-active and access() say. *)
Definition app_status (active path_exists : string -> bool) (app : AppConfig) : json :=
  let service mode := resolveServiceName (clientServiceTemplate app) (appId app) mode in
  let has_prod := negb (Str.empty (prodPath app)) in
  obj [("dev_installed", JBool (path_exists (devPath app)));
       ("prod_installed", JBool (has_prod && path_exists (prodPath app)));
       ("dev_running", JBool (has_client_service app && active (service "dev")));
       ("prod_running", JBool (has_client_service app && has_prod && active (service "prod")))].

Definition getLocalAppStatusAll (active path_exists : string -> bool) (d : DB) : json :=
  obj ((fun app => (appId app, app_status active path_exists app)) <$> getAllApps d).
