(* ===== verification/AppFacts.v ===== *)
(** Theorems about the application manager: the registry of applications stays well
    formed, adding and removing an application, starting, stopping and deploying, and the
    waiting for ports. *)

From S2P Require Import Prelude Types Json Database Settings Ports Registry Dispatch Server Peers.
From S2P Require Import PeerFacts Apps.

(** ** Computations that leave the tables alone *)

(** Nothing but shell commands: the tables stay, what was done stays done, and the
    connection to the leader is still one of the three of [link_is]. *)
Definition same_tables {A} (m : M Apps A) : Prop :=
  forall w, adb (m w).1 = adb w /\ acts w `prefix_of` acts (m w).1 /\
            link_from (network w) (network (m w).1).
Definition same_pdb {A} (m : M Peers A) : Prop :=
  forall w, pdb (m w).1 = pdb w /\ link_from w (m w).1.

Lemma same_bind {A B} (m : M Apps A) (f : A -> M Apps B) :
  same_tables m -> (forall a, same_tables (f a)) -> same_tables (bindM m f).
Proof.
  intros Hm Hf w. unfold bindM, M_bind. specialize (Hm w). destruct (m w) as [w1 []]; [|done].
  destruct Hm as (Hm & Ha & Hl), (Hf a w1) as (Hf1 & Hf2 & Hf3).
  split; [by rewrite Hf1|]. split; by etrans.
Qed.
Lemma pdb_bind {A B} (m : M Peers A) (f : A -> M Peers B) :
  same_pdb m -> (forall a, same_pdb (f a)) -> same_pdb (bindM m f).
Proof.
  intros Hm Hf w. unfold bindM, M_bind. specialize (Hm w). destruct (m w) as [w1 []]; [|done].
  destruct Hm as [Hm Hl], (Hf a w1) as [Hf1 Hf2]. split; [by rewrite Hf1|by etrans].
Qed.
Lemma same_network {A} (m : M Peers A) : same_pdb m -> same_tables (on_network m).
Proof.
  intros Hm w. unfold on_network, adb. specialize (Hm (network w)).
  destruct (m (network w)) as [p o]. by destruct Hm as [H1 H2].
Qed.
Lemma same_gets {A} (f : Apps -> A) : same_tables (gets f).
Proof. intros w. by split_and!. Qed.
Lemma same_lift {A} (o : outcome A) : same_tables (lift o).
Proof. intros w. by split_and!. Qed.
Lemma same_ret {A} (a : A) : same_tables (mret a).
Proof. intros w. by split_and!. Qed.
Lemma same_record a : same_tables (record a).
Proof. split; [done|]. split; [by apply prefix_app_r|reflexivity]. Qed.
Lemma same_if {A} (b : bool) (m n : M Apps A) :
  same_tables m -> same_tables n -> same_tables (if b then m else n).
Proof. by destruct b. Qed.
Lemma pdb_if {A} (b : bool) (m n : M Peers A) :
  same_pdb m -> same_pdb n -> same_pdb (if b then m else n).
Proof. by destruct b. Qed.
Lemma pdb_follows {A} k (m : M Peers A) :
  (forall w, pdb (m w).1 = pdb w) -> follows k m -> same_pdb m.
Proof. intros Hd Hm w. split; [done|]. by apply (follows_link_from k). Qed.

Create HintDb tables discriminated.
#[export] Hint Resolve same_gets same_lift same_ret same_record : tables.

Ltac same :=
  intros; repeat first
    [ solve [auto with tables] | apply same_if | apply same_network
    | apply same_bind; [|intros] | case_match ].
Ltac same_peers :=
  repeat first
    [ solve [auto with tables] | apply pdb_if | apply pdb_bind; [|intros] | case_match
    | solve [apply (pdb_follows Quiet); [intros ?; simpl; repeat case_match; done|eauto with link]] ].

Lemma disconnect_link : follows Disconnects disconnectFromLeader.
Proof. intros w l Hl. exists Down. split; [by apply (disconnect_down w l)|done]. Qed.

Lemma pdb_disconnect : same_pdb disconnectFromLeader.
Proof.
  apply (pdb_follows Disconnects); [|apply disconnect_link].
  intros w. unfold disconnectFromLeader. rewrite bindM_gets. by destruct (0 <=? _).
Qed.
#[export] Hint Resolve pdb_disconnect : tables.

Section Network.
Context (net : NetEnv) (dump : json -> string).

Lemma pdb_write fd msg : same_pdb (sys_write net fd msg).
Proof using Type. by apply (pdb_follows Quiet); [intros w|apply write_quiet]. Qed.
Lemma pdb_socket : same_pdb (sys_socket net).
Proof using Type.
  apply (pdb_follows Quiet); [|apply socket_quiet].
  intros w. unfold sys_socket. rewrite bindM_syscall. case_match; [|done].
  by rewrite bindM_gets, bindM_modify.
Qed.
#[local] Hint Resolve pdb_write pdb_socket : tables.

Lemma pdb_forward c : same_pdb (Peers.forwardToLeader net dump c).
Proof using Type. unfold Peers.forwardToLeader. same_peers. Qed.
End Network.
#[export] Hint Resolve pdb_write pdb_socket pdb_forward : tables.

Lemma pdb_resolve net dump parse id : same_pdb (resolvePeerIP net dump parse id).
Proof. unfold resolvePeerIP, queryLeaderForPeerIP. same_peers. Qed.
Lemma pdb_manager net dump parse ip c : same_pdb (sendToManager net dump parse ip c).
Proof. unfold sendToManager. same_peers. Qed.
#[export] Hint Resolve pdb_resolve pdb_manager : tables.

Section Handlers.
Context (env : AppEnv) (net : NetEnv) (dump dump2 : json -> string).
Context (parse : string -> outcome json).

Lemma same_system cmd : same_tables (system env cmd).
Proof using Type. unfold system. same. Qed.
Lemma same_execute cmd : same_tables (executeCommand env cmd).
Proof using Type. unfold executeCommand. same. Qed.
#[local] Hint Resolve same_system same_execute : tables.

Lemma same_systemctl verb s : same_tables (systemctl env verb s).
Proof using Type. unfold systemctl. same. Qed.
#[local] Hint Resolve same_systemctl : tables.

Lemma same_stop s : same_tables (stopService env s).
Proof using Type. unfold stopService. same. Qed.
Lemma same_listening p : same_tables (isPortListening env p).
Proof using Type. unfold isPortListening. same. Qed.
Lemma same_kill p : same_tables (killProcessOnPort env p).
Proof using Type. unfold killProcessOnPort. same. Qed.
#[local] Hint Resolve same_stop same_listening same_kill : tables.

Lemma same_wait n p t e : same_tables (wait_loop env n p t e).
Proof using Type. revert e. induction n; intros e; simpl; same. Qed.
#[local] Hint Resolve same_wait : tables.
Lemma same_release p t : same_tables (waitForPortRelease env p t).
Proof using Type. unfold waitForPortRelease. same. Qed.
#[local] Hint Resolve same_release : tables.

Lemma same_build path : same_tables (buildCppComponent env path).
Proof using Type. unfold buildCppComponent. same. Qed.
#[local] Hint Resolve same_build : tables.
Lemma same_build_server id mode : same_tables (buildServerComponent env id mode).
Proof using Type. unfold buildServerComponent. same. Qed.
#[local] Hint Resolve same_build_server : tables.
Lemma same_install_one cfg id mode c : same_tables (install_component env cfg id mode c).
Proof using Type. unfold install_component, npm_install. same. Qed.
#[local] Hint Resolve same_install_one : tables.
Lemma same_install id mode c : same_tables (installDependencies env id mode c).
Proof using Type. unfold installDependencies. same. Qed.
#[local] Hint Resolve same_install : tables.

Lemma same_with_app c k : (forall id, same_tables (k id)) -> same_tables (with_app c k).
Proof using Type. intros H. unfold with_app, app_argument. same. Qed.
Lemma same_with_config id k : (forall cfg, same_tables (k cfg)) -> same_tables (with_config id k).
Proof using Type. intros H. unfold with_config. same. Qed.
Lemma same_optional k d c : same_tables (app_optional k d c).
Proof using Type. unfold app_optional, app_argument. same. Qed.
#[local] Hint Resolve same_optional : tables.
Lemma same_in_mode c k : (forall id m cfg, same_tables (k id m cfg)) -> same_tables (in_mode c k).
Proof using Type. intros H. unfold in_mode. apply same_with_app. intros. apply same_bind; [same|intros]. apply same_with_config. same. Qed.
Lemma same_in_modes c k : (forall id cfg l, same_tables (k id cfg l)) -> same_tables (in_modes c k).
Proof using Type. intros H. unfold in_modes. apply same_with_app. intros. apply same_bind; [same|intros]. apply same_with_config. same. Qed.
Lemma same_in_prod c k : (forall id cfg, same_tables (k id cfg)) -> same_tables (in_prod c k).
Proof using Type. intros H. unfold in_prod. apply same_with_app. intros. apply same_with_config. same. Qed.
Lemma same_service b f : same_tables f -> same_tables (when_service b f).
Proof using Type. unfold when_service. same. Qed.
Lemma same_report y n act s : same_tables (act s) -> same_tables (report y n act s).
Proof using Type. unfold report. same. Qed.
Lemma same_port k f : (forall p, same_tables (f p)) -> same_tables (with_port k f).
Proof using Type. intros H. unfold with_port, setting. same. Qed.
#[local] Hint Resolve same_port : tables.
Lemma same_ports cfg m f : (forall p, same_tables (f p)) -> same_tables (on_ports cfg m f).
Proof using Type. intros H. unfold on_ports. same. Qed.
Lemma same_modes f l : (forall m, same_tables (f m)) -> same_tables (for_modes f l).
Proof using Type. intros H. induction l; simpl; same. Qed.
Lemma same_quietly b s : same_tables (stop_quietly env b s).
Proof using Type. unfold stop_quietly. same. Qed.
Lemma same_wait_quietly p : same_tables (wait_quietly env p).
Proof using Type. unfold wait_quietly. same. Qed.
#[local] Hint Resolve same_in_mode same_in_modes same_in_prod same_service same_report same_port
  same_ports same_modes same_quietly same_wait_quietly same_with_app same_with_config : tables.

#[local] Hint Unfold startService restartService enableService disableService isServiceActive : tables.

Lemma same_start id : same_tables (handleStartApp env id).
Proof using Type. unfold handleStartApp. apply same_in_mode. same. Qed.
Lemma same_stop_mode id cfg m : same_tables (stop_mode env id cfg m).
Proof using Type. unfold stop_mode. same. Qed.
Lemma same_disable_mode id cfg m : same_tables (disable_mode env id cfg m).
Proof using Type. unfold disable_mode. same. Qed.
Lemma same_status_mode cfg m : same_tables (status_mode env cfg m).
Proof using Type. unfold status_mode, status_line, setting. same. Qed.
#[local] Hint Resolve same_stop_mode same_disable_mode same_status_mode : tables.
Lemma same_stopApp c : same_tables (handleStopApp env c).
Proof using Type. unfold handleStopApp. apply same_in_modes. same. Qed.
Lemma same_restart c : same_tables (handleRestartApp env c).
Proof using Type. unfold handleRestartApp. apply same_in_mode. same. Qed.
Lemma same_enable c : same_tables (handleEnableApp env c).
Proof using Type. unfold handleEnableApp, enable_one. apply same_in_mode. intros. same. Qed.
Lemma same_disable c : same_tables (handleDisableApp env c).
Proof using Type. unfold handleDisableApp. apply same_in_modes. same. Qed.
Lemma same_statusApps l : same_tables (status_apps env l).
Proof using Type. induction l; simpl; same. Qed.
#[local] Hint Resolve same_statusApps : tables.
Lemma same_status c : same_tables (handleAppStatus env c).
Proof using Type. unfold handleAppStatus. same. Qed.
Lemma same_buildApp c : same_tables (handleBuildApp env c).
Proof using Type.
  unfold handleBuildApp, build_dir. apply same_with_app. same.
Qed.
Lemma same_deps c : same_tables (handleInstallAppDeps env c).
Proof using Type.
  unfold handleInstallAppDeps. apply same_with_app. same.
Qed.
Lemma same_deploy c : same_tables (handleDeployToProd env c).
Proof using Type.
  unfold handleDeployToProd, deploy_commit, deploy_build, deploy_restart. apply same_with_app. same.
Qed.
Lemma same_prod c : same_tables (handleProdStatus env c) /\ same_tables (handleCleanProd env c).
Proof using Type. unfold handleProdStatus, handleCleanProd. split; apply same_in_prod; same. Qed.
Lemma same_to_manager peer c : same_tables (to_manager net dump parse peer c).
Proof using Type. unfold to_manager. same. Qed.
#[local] Hint Resolve same_to_manager : tables.
Lemma same_peer_arguments c k : (forall a b, same_tables (k a b)) -> same_tables (peer_arguments c k).
Proof using Type. intros H. unfold peer_arguments, app_argument. same. Qed.
Lemma same_on_peer c :
  same_tables (handleInstallAppOnPeer env net dump parse c) /\
  same_tables (handleUninstallAppOnPeer net dump parse c) /\
  same_tables (handleStartAppOnPeer net dump parse c) /\
  same_tables (handleStopAppOnPeer net dump parse c).
Proof using Type.
  unfold handleInstallAppOnPeer, handleUninstallAppOnPeer, handleStartAppOnPeer,
    handleStopAppOnPeer, getRepoUrl, app_argument.
  split; [apply same_peer_arguments; same|].
  split; [apply same_peer_arguments; same|].
  split; [same|apply same_peer_arguments; same].
Qed.

Lemma same_peer_apps cfg id local cache l : same_tables (peer_apps env cfg id local cache l).
Proof using Type.
  induction l; simpl; [same|]. unfold peer_app, local_app, service_running. same.
Qed.
#[local] Hint Resolve same_peer_apps : tables.
Lemma same_getAppPeers c : same_tables (handleGetAppPeers env net dump dump2 c).
Proof using Type.
  unfold handleGetAppPeers, app_argument. apply same_bind; [same|]. intros id.
  apply same_with_config. unfold forward_app_peers. same.
Qed.
Lemma same_install_service cfg n : same_tables (install_service env cfg n).
Proof using Type. unfold install_service, setting, link_service. same. Qed.
#[local] Hint Resolve same_install_service : tables.
Lemma same_services c : same_tables (handleInstallAppServices env c).
Proof using Type. unfold handleInstallAppServices. apply same_with_app. same. Qed.

Lemma same_clone url path : same_tables (clone_repository env url path).
Proof using Type. unfold clone_repository. same. Qed.
Lemma same_worktree a b : same_tables (prod_worktree env a b).
Proof using Type. unfold prod_worktree. same. Qed.
Lemma same_first path file l : same_tables (first_directory env path file l).
Proof using Type. induction l; simpl; unfold directory_with; same. Qed.
#[local] Hint Resolve same_first : tables.
Lemma same_detect path : same_tables (detectAppStructure env path).
Proof using Type. unfold detectAppStructure. same. Qed.
Lemma same_override c d : same_tables (override_structure c d).
Proof using Type. unfold override_structure. same. Qed.
#[local] Hint Resolve same_clone same_worktree same_detect same_override : tables.

(** ** The registry of applications *)

(** What a record of the table promises the handlers that use it. *)
Definition record_ok (k : string) (r : ExtraAppRecord) : Prop :=
  app_id r = k /\ k <> "" /\ hardcoded k = None /\
  client_service_template r = (k +:+ "-{mode}")%string /\ port_key_client r = k /\
  dev_path r = (DEV_APPS_DIR +:+ k)%string /\ prod_path r = (PROD_APPS_DIR +:+ k)%string /\
  server_service_template r = (if has_server_component r then k +:+ "-server-{mode}" else "")%string /\
  port_key_server r = (if has_server_component r then k +:+ "-server" else "")%string.

Definition apps_ok (d : DB) : Prop :=
  StdMap.sorted (extra_apps d) /\ Forall (fun p => record_ok p.1 p.2) (extra_apps d).

Definition keeps_apps {A} (m : M Apps A) : Prop := forall w, apps_ok (adb w) -> apps_ok (adb (m w).1).

Lemma keeps_apps_same {A} (m : M Apps A) : same_tables m -> keeps_apps m.
Proof using Type. intros H w Hw. by rewrite (proj1 (H w)). Qed.

Lemma keeps_apps_bind {A B} (m : M Apps A) (f : A -> M Apps B) :
  keeps_apps m -> (forall a, keeps_apps (f a)) -> keeps_apps (bindM m f).
Proof using Type.
  intros Hm Hf w Hw. unfold bindM, M_bind. specialize (Hm w Hw).
  destruct (m w) as [w1 []]; [by apply Hf|done].
Qed.

Lemma apps_ok_same d d' : extra_apps d' = extra_apps d -> apps_ok d -> apps_ok d'.
Proof using Type. unfold apps_ok. by intros ->. Qed.

Lemma keeps_adb f : (forall d, apps_ok d -> apps_ok (f d)) -> keeps_apps (on_adb f).
Proof using Type. intros H w Hw. by apply H. Qed.

Lemma setting_apps k v d : extra_apps (SettingsTable.setSetting k v d) = extra_apps d.
Proof using Type. unfold SettingsTable.setSetting, with_con. by destruct (connected d). Qed.
Lemma drop_apps k d : extra_apps (drop_setting k d) = extra_apps d.
Proof using Type. unfold drop_setting, SettingsTable.deleteSetting. by destruct (connected d). Qed.
Lemma ports_apps id b p d : extra_apps (save_ports id b p d) = extra_apps d.
Proof using Type.
  destruct p as [[a c] s]. unfold save_ports. cbv zeta. destruct b; by rewrite !setting_apps.
Qed.

Lemma upsert_apps r d : record_ok (app_id r) r -> apps_ok d -> apps_ok (ExtraAppTable.upsertApp r d).
Proof using Type.
  intros Hr [Hs Hf]. unfold ExtraAppTable.upsertApp, with_con. destruct (connected d); [|by split].
  split; simpl; [by apply StdMap.sorted_insert|by apply StdMap.Forall_insert].
Qed.

Lemma delete_apps k d : apps_ok d -> apps_ok (ExtraAppTable.deleteApp k d).
Proof using Type.
  intros [Hs Hf]. unfold ExtraAppTable.deleteApp, with_con. destruct (connected d); [|by split].
  split; simpl; [by apply StdMap.sorted_erase|].
  rewrite Forall_forall in Hf |- *. intros p [_ Hp]%list_elem_of_filter. by apply Hf.
Qed.

Lemma extra_record_ok id name url structure :
  id <> "" -> hardcoded id = None -> record_ok id (extra_record id name url structure).
Proof using Type.
  intros Hid Hh. destruct structure as [[h s] c]. unfold extra_record, record_ok. simpl.
  by destruct h; repeat split.
Qed.

Lemma install_extra_keeps id url c :
  id <> "" -> hardcoded id = None -> keeps_apps (install_extra env id url c).
Proof using Type.
  intros Hid Hh. unfold install_extra. cbv zeta.
  apply keeps_apps_bind; [apply keeps_apps_same; auto with tables|]. intros [cloned|r];
    [|by apply keeps_apps_same, same_ret].
  do 3 (apply keeps_apps_bind; [apply keeps_apps_same; auto with tables|intros]).
  apply keeps_apps_bind; [apply keeps_apps_same; auto with tables|]. intros [ports|r];
    [|by apply keeps_apps_same, same_ret].
  apply keeps_apps_bind; [apply keeps_adb; intros d; apply apps_ok_same, ports_apps|intros].
  apply keeps_apps_bind; [apply keeps_apps_same; auto with tables|intros].
  apply keeps_apps_bind; [|intros; apply keeps_apps_same; same].
  apply keeps_adb. intros d. apply upsert_apps.
  destruct a1 as [[h s] cl]. by apply (extra_record_ok id).
Qed.

Lemma add_keeps c : keeps_apps (handleAddExtraApp env c).
Proof using Type.
  unfold handleAddExtraApp. destruct (negb _); [apply keeps_apps_same; same|].
  apply keeps_apps_bind; [apply keeps_apps_same; unfold app_argument; same|intros url].
  apply keeps_apps_bind; [apply keeps_apps_same; same|intros d].
  destruct (Str.empty (extractAppNameFromUrl url)) eqn:E; [apply keeps_apps_same; same|].
  destruct (hardcoded _) eqn:Eh; [apply keeps_apps_same; same|].
  destruct (ExtraAppTable.appExists _ _); [apply keeps_apps_same; same|].
  apply install_extra_keeps; [|done]. intros Hn. by rewrite Hn in E.
Qed.

Lemma remove_keeps c : keeps_apps (handleRemoveExtraApp c).
Proof using Type.
  unfold handleRemoveExtraApp, with_app. destruct (negb _); [apply keeps_apps_same; same|].
  apply keeps_apps_bind; [apply keeps_apps_same; unfold app_argument; same|intros id].
  apply keeps_apps_bind; [apply keeps_apps_same; same|intros d].
  destruct (negb _); [apply keeps_apps_same; same|].
  do 2 (apply keeps_apps_bind; [apply keeps_adb; intros; by eapply apps_ok_same, H; apply drop_apps|intros]).
  apply keeps_apps_bind; [|intros].
  { destruct (has_server_component _); [|apply keeps_apps_same; same].
    apply keeps_adb; intros; by eapply apps_ok_same, H; apply drop_apps. }
  apply keeps_apps_bind; [apply keeps_adb; intros; by apply delete_apps|intros].
  apply keeps_apps_same; same.
Qed.

(** Only two handlers write the tables. *)
Lemma same_handler h f c :
  app_handler env net dump dump2 parse h = Some f ->
  h <> H_handleAddExtraApp -> h <> H_handleRemoveExtraApp -> same_tables (f c).
Proof using Type.
  pose proof (same_prod c) as [? ?]. pose proof (same_on_peer c) as (? & ? & ? & ?).
  destruct h; simpl; try discriminate; intros [= <-] ? ?; try done;
    solve [ auto using same_start, same_stopApp, same_restart, same_enable, same_disable,
              same_status, same_buildApp, same_deps, same_deploy, same_getAppPeers, same_services
          | done ].
Qed.

Lemma handler_keeps_apps h f c : app_handler env net dump dump2 parse h = Some f -> keeps_apps (f c).
Proof using Type.
  intros H. destruct (decide (h = H_handleAddExtraApp)) as [->|].
  { injection H as <-. apply add_keeps. }
  destruct (decide (h = H_handleRemoveExtraApp)) as [->|].
  { injection H as <-. apply remove_keeps. }
  by eapply keeps_apps_same, same_handler.
Qed.

(** A command for the application manager. *)
Definition run_app (hc : HandlerId * json) (w : Apps) : Apps :=
  match app_handler env net dump dump2 parse hc.1 with
  | Some f => (f hc.2 w).1
  | None => w
  end.
End Handlers.

#[export] Hint Resolve same_system same_execute same_systemctl same_stop same_listening same_kill
  same_release same_build same_build_server same_install same_service same_report same_port
  same_ports same_modes same_quietly same_wait_quietly : tables.
#[export] Hint Unfold startService restartService enableService disableService isServiceActive : tables.

(** ** Looking up applications *)

Lemma sorted_keys {K V} `{OrdKey K} (m : list (K * V)) : StdMap.sorted m -> NoDup m.*1.
Proof.
  induction m as [|[k v] m IH]; simpl; [constructor|]. intros [Hf Hs]. constructor; [|by apply IH].
  intros (p & E & Hp)%list_elem_of_fmap. rewrite Forall_forall in Hf. specialize (Hf p Hp).
  by rewrite <- E, key_irrefl in Hf.
Qed.

Lemma find_elem {K V} `{OrdKey K} (m : list (K * V)) k v :
  NoDup m.*1 -> (k, v) ∈ m -> StdMap.find k m = Some v.
Proof.
  induction m as [|[k' v'] m IH]; simpl; [by intros _ ?%elem_of_nil|].
  intros [Hn Hd]%NoDup_cons [[= <- <-]|Hin]%elem_of_cons; [by rewrite decide_True|].
  rewrite decide_False; [by apply IH|]. intros ->. apply Hn.
  apply list_elem_of_fmap. by exists (k', v).
Qed.

Lemma add_apps_new acc rs :
  NoDup ((appId <$> acc) ++ (app_id <$> rs)) -> foldl add_app acc rs = acc ++ (recordToConfig <$> rs).
Proof.
  revert acc. induction rs as [|r rs IH]; intros acc Hd; simpl; [by rewrite app_nil_r|].
  unfold add_app at 2. simpl in Hd. rewrite bool_decide_eq_false_2.
  - rewrite IH, <- app_assoc; [done|]. rewrite fmap_app, <- app_assoc. exact Hd.
  - intros Hin. apply NoDup_app in Hd as (_ & Hd & _). apply (Hd _ Hin). by constructor.
Qed.

Lemma hardcoded_none k : hardcoded k = None <-> k ∉ appId <$> APP_CONFIGS.
Proof.
  unfold hardcoded. rewrite fmap_None, list_find_None, Forall_forall. split.
  - intros H (c & -> & Hc)%list_elem_of_fmap. by apply (H c).
  - intros H c Hc <-. apply H. by apply list_elem_of_fmap_2.
Qed.

Lemma ids_distinct : NoDup (appId <$> APP_CONFIGS).
Proof. refine (bool_decide_unpack _ _). vm_compute. exact I. Qed.

Lemma registry_ids d : apps_ok d ->
  NoDup ((appId <$> APP_CONFIGS) ++ (app_id <$> ExtraAppTable.getAllApps d)) /\
  forall r, r ∈ ExtraAppTable.getAllApps d ->
    record_ok (app_id r) r /\ ExtraAppTable.getApp (app_id r) d = r.
Proof.
  intros [Hs Hf]. unfold ExtraAppTable.getAllApps, ExtraAppTable.getApp, query.
  destruct (connected d); [|split; [rewrite app_nil_r; exact ids_distinct|by intros ? ?%elem_of_nil]].
  rewrite Forall_forall in Hf.
  assert (app_id <$> (extra_apps d).*2 = (extra_apps d).*1) as Hids.
  { rewrite <- list_fmap_compose. apply list_fmap_ext. intros i [k r] Hi. simpl.
    by destruct (Hf (k, r) (list_elem_of_lookup_2 _ _ _ Hi)). }
  split.
  - rewrite Hids. apply NoDup_app. split; [exact ids_distinct|].
    split; [|by apply sorted_keys]. intros k Hk (p & -> & Hp)%list_elem_of_fmap.
    destruct (Hf p Hp) as (_ & _ & Hh & _). by apply hardcoded_none in Hh.
  - intros r (p & -> & Hp)%list_elem_of_fmap. pose proof (Hf p Hp) as Hr.
    destruct p as [k r]. simpl in *. destruct Hr as (E & Hrest). rewrite E.
    split; [by split|]. by rewrite (find_elem _ k r (sorted_keys _ Hs) Hp).
Qed.

(** What a listed application has. *)
Definition config_ok (cfg : AppConfig) : Prop :=
  appId cfg <> "" /\ portKeyClient cfg = appId cfg /\ clientServiceTemplate cfg = (appId cfg +:+ "-{mode}")%string /\
  devPath cfg <> "" /\ prodPath cfg <> "" /\
  (hasServerComponent cfg = false -> serverServiceTemplate cfg = "" /\ portKeyServer cfg = "").

(** The built-in applications: dashboard and cad have a server without a template of the
    usual form, but the client's templates, keys and paths are. *)
Lemma builtin_ok d cfg : cfg ∈ APP_CONFIGS -> getAppConfig (appId cfg) d = cfg /\ config_ok cfg.
Proof.
  intros Hc. unfold config_ok, getAppConfig.
  repeat (apply elem_of_cons in Hc as [->|Hc]; [vm_compute; repeat split; discriminate|]).
  by apply elem_of_nil in Hc.
Qed.

(** What a well-formed table lists. *)
Lemma registry_listed d : apps_ok d ->
  NoDup (appId <$> getAllApps d) /\
  forall cfg, cfg ∈ getAllApps d -> getAppConfig (appId cfg) d = cfg /\ config_ok cfg.
Proof.
  intros Hok. destruct (registry_ids _ Hok) as [Hnd Hrec].
  unfold getAllApps. rewrite add_apps_new by done. split.
  { by rewrite fmap_app, <- list_fmap_compose. }
  intros cfg [Hc|Hc]%elem_of_app.
  - by apply builtin_ok.
  - apply list_elem_of_fmap in Hc as (r & -> & Hr).
    destruct (Hrec r Hr) as [Hrk Hget]. destruct Hrk as (_ & Hne & Hh & Hcl & Hpk & Hdev & Hprod & Hst & Hps).
    simpl. split.
    + unfold getAppConfig. rewrite Hh, Hget. destruct (app_id r) eqn:E; [done|]. done.
    + unfold config_ok. simpl. rewrite Hdev, Hprod. split_and!; try done.
      intros Hs. by rewrite Hst, Hps, Hs.
Qed.

(** The registry of applications keeps its type: after any sequence of application
    commands, with any arguments and whatever the shell answers, every record of the
    table is keyed by its own identity, is not one of the built-in applications and has
    the templates, port keys and paths of that identity.  So the applications listed
    have distinct identities, looking one up by its identity gives the one listed, and
    each has a client service, a client port and both directories. *)
Theorem app_registry_typed (env : AppEnv) (net : NetEnv) (dump dump2 : json -> string)
    (parse : string -> outcome json) (cmds : list (HandlerId * json)) (w : Apps) :
  apps_ok (adb w) ->
  let d := adb (foldl (fun w hc => run_app env net dump dump2 parse hc w) w cmds) in
  apps_ok d /\ NoDup (appId <$> getAllApps d) /\
  forall cfg, cfg ∈ getAllApps d -> getAppConfig (appId cfg) d = cfg /\ config_ok cfg.
Proof.
  intros Hw. cbv zeta. set (w' := foldl _ w cmds).
  assert (apps_ok (adb w')) as Hok.
  { subst w'. revert w Hw. induction cmds as [|[h c] cmds IH]; intros w Hw; [done|].
    apply IH. unfold run_app. simpl. destruct (app_handler _ _ _ _ _ h) eqn:E; [|done].
    by apply (handler_keeps_apps _ _ _ _ _ _ _ _ E). }
  split; [done|]. by apply registry_listed.
Qed.

(** ** Statements *)

Definition push (a : Act) (w : Apps) : Apps := mkApps (network w) (acts w ++ [a]) (peerAppStatusCache w).

Lemma bindM_system {B} env cmd (k : Z -> M Apps B) w :
  bindM (system env cmd) k w = k (system_rc env (length (acts w)) cmd) (push (System cmd) w).
Proof. done. Qed.
Lemma bindM_execute {B} env cmd (k : string -> M Apps B) w :
  bindM (executeCommand env cmd) k w =
  k (command_output env (length (acts w)) cmd) (push (Execute cmd) w).
Proof. done. Qed.
Lemma bindM_record {B} a (k : unit -> M Apps B) w : bindM (record a) k w = k tt (push a w).
Proof. done. Qed.
Lemma bindM_adb {B} (f : DB -> DB) (k : unit -> M Apps B) w :
  bindM (on_adb f) k w = k tt (set_adb (f (adb w)) w).
Proof. done. Qed.
#[export] Hint Rewrite @bindM_adb @bindM_system @bindM_execute @bindM_record : handler.

(** ** Adding and removing an application *)

(** [P] holds of what a run from [w] ends with. *)
Definition ends {A} (m : M Apps A) (w : Apps) (P : Apps -> outcome A -> Prop) : Prop :=
  P (m w).1 (m w).2.

(** A statement that leaves the tables alone: it throws, or the rest runs on them. *)
Lemma ends_same {A B} (m : M Apps A) (k : A -> M Apps B) w P :
  same_tables m -> (forall w1 e, adb w1 = adb w -> P w1 (Throw e)) ->
  (forall w1 a, m w = (w1, Ok a) -> adb w1 = adb w -> ends (k a) w1 P) -> ends (bindM m k) w P.
Proof.
  intros Hm Ht Hk. specialize (Hm w). destruct Hm as [Hm _]. unfold ends in *. unfold bindM, M_bind.
  destruct (m w) as [w1 [a|e]]; [by apply Hk|by apply Ht].
Qed.

Lemma ends_adb {B} f (k : unit -> M Apps B) w P :
  ends (k tt) (set_adb (f (adb w)) w) P -> ends (bindM (on_adb f) k) w P.
Proof. done. Qed.

Definition added_db (id name url : string) (structure : bool * string * string) (ports : Z * Z * Z)
    (d : DB) : DB :=
  ExtraAppTable.upsertApp (extra_record id name url structure) (save_ports id structure.1.1 ports d).

(** What adding does to the tables: nothing, and then it reports a failure or throws;
    the ports without a record, when displayName is not a string; or everything. *)
Inductive added (id url : string) (d d' : DB) : outcome CmdResult -> Prop :=
  | added_not o : d' = d -> (forall r, o = Ok r -> status r <> 0) -> added id url d d' o
  | added_ports (structure : bool * string * string) (ports : Z * Z * Z) e :
      allocate_ports structure.1.1 d = inl ports ->
      d' = save_ports id structure.1.1 ports d -> added id url d d' (Throw e)
  | added_all (structure : bool * string * string) (ports : Z * Z * Z) name r :
      allocate_ports structure.1.1 d = inl ports -> d' = added_db id name url structure ports d ->
      status r = 0 -> added id url d d' (Ok r).

Section Adding.
Context (env : AppEnv).

Lemma set_adb_adb d w : adb (set_adb d w) = d.
Proof using Type. done. Qed.

Lemma optional_run k dflt c w :
  (exists v, app_optional k dflt c w = (w, Ok v)) \/ (exists e, app_optional k dflt c w = (w, Throw e)).
Proof using Type.
  unfold app_optional, app_argument, lift. destruct (Json.contains k c); [|by left; eexists].
  destruct (Json.string_at k c); [left|right]; by eexists.
Qed.

Lemma clone_fails url path w w1 r : clone_repository env url path w = (w1, Ok (inr r)) -> status r <> 0.
Proof using Type.
  unfold clone_repository. rewrite bindM_system. destruct (negb _); [|done].
  rewrite bindM_execute. intros [= _ E]. by destruct (_ || _); simplify_eq.
Qed.

Lemma allocate_fails has d r : allocate_ports has d = inr r -> status r <> 0.
Proof using Type.
  unfold allocate_ports. destruct (findNextAvailablePortPair d) as [a b].
  destruct (a <? 0); [by intros [= <-]|]. destruct has; [|done]. cbv zeta.
  destruct (_ <? 0); [by intros [= <-]|done].
Qed.

Lemma install_extra_added id url c w :
  ends (install_extra env id url c) w (fun w' o => added id url (adb w) (adb w') o).
Proof using Type.
  assert (forall w1 (o : outcome CmdResult), adb w1 = adb w -> (forall r, o = Ok r -> status r <> 0) ->
    added id url (adb w) (adb w1) o) as Hnot by (intros; by apply added_not).
  unfold install_extra. cbv zeta.
  apply ends_same; [apply same_clone|intros; by apply Hnot|intros w1 [cloned|r] Ec E1].
  2:{ apply Hnot; [done|]. intros r' [= <-]. by eapply clone_fails. }
  apply ends_same; [apply same_worktree|intros; apply Hnot; congruence|intros w2 worktree _ E2].
  apply ends_same; [apply same_detect|intros; apply Hnot; congruence|intros w3 detected _ E3].
  apply ends_same; [apply same_override|intros; apply Hnot; congruence|intros w4 structure _ E4].
  assert (adb w4 = adb w) as Ew by congruence. clear E1 E2 E3 E4 Ec.
  unfold ends. rewrite bindM_gets, Ew.
  destruct (allocate_ports structure.1.1 (adb w)) as [ports|r] eqn:Ea.
  2:{ apply Hnot; [done|]. intros r' [= <-]. by eapply allocate_fails. }
  rewrite bindM_adb, Ew.
  set (w5 := set_adb _ w4).
  destruct (optional_run "displayName" id c w5) as [[name E]|[e E]].
  2:{ rewrite (bindM_throw _ _ _ _ _ E). by eapply added_ports. }
  rewrite (bindM_ok _ _ _ _ _ E), bindM_adb.
  by eapply added_all.
Qed.

Lemma add_extra_added c w url :
  Json.member "repoUrl" c = Some (JString url) ->
  let id := extractAppNameFromUrl url in
  ends (handleAddExtraApp env c) w (fun w' o =>
    added id url (adb w) (adb w') o /\
    forall r, o = Ok r -> status r = 0 ->
      id <> "" /\ hardcoded id = None /\ ExtraAppTable.appExists id (adb w) = false).
Proof using Type.
  intros Hurl. cbv zeta. unfold handleAddExtraApp, ends.
  assert (Json.contains "repoUrl" c = true) as -> by (apply Json.contains_member; eauto).
  cbn [negb]. unfold app_argument. rewrite (bindM_ok _ _ w w url), bindM_gets
    by (unfold lift; by rewrite (proj2 (Json.string_at_member _ _ _) Hurl)).
  set (id := extractAppNameFromUrl url).
  assert (forall P s, (added id url (adb w) (adb w) (Ok (mkCmdResult 1 s))) /\
    forall r, Ok (mkCmdResult 1 s) = Ok r -> status r = 0 -> P) as Hno.
  { intros P s. split; [|by intros r [= <-]]. apply added_not; [done|]. by intros r [= <-]. }
  destruct (Str.empty id) eqn:Eid; [apply Hno|].
  destruct (hardcoded id) eqn:Eh; [apply Hno|].
  destruct (ExtraAppTable.appExists id (adb w)) eqn:Ex; [apply Hno|].
  split; [apply install_extra_added|]. intros r _ _. split; [|done]. intros Hn. by rewrite Hn in Eid.
Qed.
End Adding.

(** ** The tables after adding *)

Lemma append_inj_l (a b c : string) : (a +:+ b = a +:+ c)%string -> b = c.
Proof. induction a as [|x a IH]; simpl; [done|]. intros [= E]. by apply IH. Qed.

Lemma port_setting_inj id s s' : port_setting id s = port_setting id s' -> s = s'.
Proof. unfold port_setting. by intros H%append_inj_l%append_inj_l. Qed.

Lemma get_set k k' v d : connected d = true ->
  SettingsTable.getSetting k (SettingsTable.setSetting k' v d) =
  if decide (k = k') then v else SettingsTable.getSetting k d.
Proof.
  intros Hc. destruct (decide (k = k')) as [->|Hne]; [exact (get_set_eq (W := DB) d k' v Hc)|].
  refine (get_set_ne (W := DB) d k' k v _). congruence.
Qed.

Lemma get_drop k k' d : connected d = true ->
  SettingsTable.getSetting k (drop_setting k' d) =
  if decide (k = k') then "" else SettingsTable.getSetting k d.
Proof.
  intros Hc. destruct (decide (k = k')) as [->|Hne]; [exact (get_delete_eq (W := DB) d k' Hc)|].
  refine (get_delete_ne (W := DB) d k' k _). congruence.
Qed.

Lemma set_connected_db k v d : connected (SettingsTable.setSetting k v d) = connected d.
Proof. unfold SettingsTable.setSetting, with_con. by destruct (connected d) eqn:E; simpl. Qed.
Lemma drop_connected k d : connected (drop_setting k d) = connected d.
Proof. unfold drop_setting, SettingsTable.deleteSetting. by destruct (connected d) eqn:E; simpl. Qed.
Lemma app_upsert_connected r d : connected (ExtraAppTable.upsertApp r d) = connected d.
Proof. unfold ExtraAppTable.upsertApp, with_con. by destruct (connected d) eqn:E; simpl. Qed.
Lemma get_upsert k r d :
  SettingsTable.getSetting k (ExtraAppTable.upsertApp r d) = SettingsTable.getSetting k d.
Proof.
  unfold SettingsTable.getSetting, Database.query, ExtraAppTable.upsertApp, with_con.
  by destruct (connected d) eqn:E; simpl; rewrite ?E.
Qed.
Lemma get_deleteApp k i d :
  SettingsTable.getSetting k (ExtraAppTable.deleteApp i d) = SettingsTable.getSetting k d.
Proof.
  unfold SettingsTable.getSetting, Database.query, ExtraAppTable.deleteApp, with_con.
  by destruct (connected d) eqn:E; simpl; rewrite ?E.
Qed.

Lemma app_upsert r d i : connected d = true ->
  StdMap.find i (extra_apps (ExtraAppTable.upsertApp r d)) =
  if decide (i = app_id r) then Some r else StdMap.find i (extra_apps d).
Proof.
  intros Hc. unfold ExtraAppTable.upsertApp, with_con. rewrite Hc. simpl.
  destruct (decide (i = app_id r)) as [->|]; [by rewrite StdMap.find_insert|].
  by rewrite StdMap.find_insert_ne by congruence.
Qed.
Lemma app_delete k d i : connected d = true ->
  StdMap.find i (extra_apps (ExtraAppTable.deleteApp k d)) =
  if decide (i = k) then None else StdMap.find i (extra_apps d).
Proof.
  intros Hc. unfold ExtraAppTable.deleteApp, with_con. rewrite Hc. simpl.
  destruct (decide (i = k)) as [->|]; [by rewrite StdMap.find_erase|].
  by rewrite StdMap.find_erase_ne by congruence.
Qed.

(** The keys an application's ports are stored under. *)
Definition port_keys (id : string) (hasServer : bool) : list string :=
  [port_setting id "-prod"; port_setting id "-dev"] ++
  (if hasServer then [port_setting id "-server"] else []).

Lemma get_ports id has a b s d k : connected d = true ->
  SettingsTable.getSetting k (save_ports id has (a, b, s) d) =
  if decide (k = port_setting id "-prod") then Num.to_string a
  else if decide (k = port_setting id "-dev") then Num.to_string b
  else if decide (has = true /\ k = port_setting id "-server") then Num.to_string s
  else SettingsTable.getSetting k d.
Proof.
  intros Hc. unfold save_ports. cbv zeta.
  assert (forall s s', s <> s' -> port_setting id s <> port_setting id s') as Hne
    by (intros ?? H E; by apply H, (port_setting_inj id)).
  destruct has; rewrite !get_set by (rewrite ?set_connected_db; done);
    repeat case_decide; naive_solver.
Qed.

Lemma ports_connected id has p d : connected (save_ports id has p d) = connected d.
Proof.
  destruct p as [[a b] s]. unfold save_ports. cbv zeta. destruct has; by rewrite !set_connected_db.
Qed.

Section AddRemove.
Context (env : AppEnv).

(** A command that adds the application of a repository, and one that removes it. *)
Definition added_ok (command : json) (w : Apps) : Prop :=
  exists r, (handleAddExtraApp env command w).2 = Ok r /\ status r = 0.

Lemma server_range has d a b s : allocate_ports has d = inl (a, b, s) -> has = true ->
  3500 <= s < 4000 /\ is_used d s = false.
Proof using Type.
  unfold allocate_ports. intros H ->. destruct (findNextAvailablePortPair d) as [x y].
  destruct (x <? 0); [done|]. cbv zeta in H. destruct (_ <? 0) eqn:E; [done|].
  injection H as _ _ <-. unfold findNextAvailableServerPort in *.
  assert (forall n p, first_free_port d p n = -1 \/
    (p <= first_free_port d p n < p + Z.of_nat n /\ is_used d (first_free_port d p n) = false)) as Hf.
  { clear. induction n as [|n IH]; intros p; cbn [first_free_port]; [by left|].
    destruct (is_used d p) eqn:E; cbn [negb]; [destruct (IH (p + 1)) as [|[? ?]]; [by left|right; split; [lia|done]]|].
    right. split; [lia|done]. }
  destruct (Hf 500%nat 3500) as [Hm|[Hr Hu]]; [rewrite Hm in E; done|]. split; [lia|done].
Qed.

Lemma pair_range has d a b s : allocate_ports has d = inl (a, b, s) ->
  3000 <= a /\ a + 1 < 3500 /\ b = a + 1 /\ is_used d a = false /\ is_used d b = false.
Proof using Type.
  unfold allocate_ports. pose proof (port_pair_range d) as Hp.
  destruct (findNextAvailablePortPair d) as [x y]. intros H.
  destruct Hp as [(Hr & Hev & -> & Hu & Hv & _)|(-> & -> & _)]; [|done].
  assert (x + 1 < 3500) by (apply Z.even_spec in Hev as [i ->]; lia).
  destruct (x <? 0); [done|]. destruct has; [cbv zeta in H; destruct (_ <? 0); [done|]|];
    simplify_eq; repeat split; (done || lia).
Qed.

Lemma extra_id id name url structure : app_id (extra_record id name url structure) = id.
Proof using Type. by destruct structure as [[? ?] ?]. Qed.

(** C17: Adding an application that succeeds records it under the name of its repository,
    with a pair of adjacent ports for production and development and, when it has a
    server, a port for that, all unused before; and it changes no other setting and no
    other application. *)
Theorem add_extra_app_spec (command : json) (url : string) (w : Apps) :
  connected (adb w) = true -> Json.member "repoUrl" command = Some (JString url) ->
  added_ok command w ->
  let id := extractAppNameFromUrl url in
  let d := adb w in let d' := adb (handleAddExtraApp env command w).1 in
  exists structure name port server,
    getAppConfig id d' = recordToConfig (extra_record id name url structure) /\
    SettingsTable.getSetting (port_setting id "-prod") d' = Num.to_string port /\
    SettingsTable.getSetting (port_setting id "-dev") d' = Num.to_string (port + 1) /\
    3000 <= port /\ port + 1 < 3500 /\ is_used d port = false /\ is_used d (port + 1) = false /\
    (structure.1.1 = true ->
     SettingsTable.getSetting (port_setting id "-server") d' = Num.to_string server /\
     3500 <= server < 4000 /\ is_used d server = false) /\
    (forall k, k ∉ port_keys id structure.1.1 ->
     SettingsTable.getSetting k d' = SettingsTable.getSetting k d) /\
    (forall i, i <> id -> getAppConfig i d' = getAppConfig i d).
Proof using Type.
  intros Hc Hurl (r & Hr & H0). cbv zeta.
  destruct (add_extra_added env command w url Hurl) as [Hadd Hnew].
  destruct (Hnew r Hr H0) as (Hid & Hh & _). clear Hnew.
  set (id := extractAppNameFromUrl url) in *. rewrite Hr in Hadd.
  inversion Hadd as [o Hd Hf| |structure ports name r' Ha Hd Hs]; subst; [by destruct (Hf r)|].
  destruct ports as [[a b] s]. destruct (pair_range _ _ _ _ _ Ha) as (Hlo & Hhi & -> & Hua & Hub).
  assert (connected (save_ports id structure.1.1 (a, a + 1, s) (adb w)) = true) as Hc'
    by by rewrite ports_connected.
  exists structure, name, a, s. rewrite Hd. unfold added_db.
  assert (forall s s', s <> s' -> port_setting id s <> port_setting id s') as Hne
    by (intros ?? Hss E; by apply Hss, (port_setting_inj id)).
  split.
  { unfold getAppConfig. rewrite Hh. unfold ExtraAppTable.getApp, Database.query.
    rewrite app_upsert_connected, Hc', app_upsert, extra_id, decide_True by done.
    cbn [from_option]. unfold Datatypes.id. rewrite extra_id. by destruct id. }
  rewrite !get_upsert, !get_ports by done.
  split; [by rewrite decide_True|].
  split; [by rewrite decide_False, decide_True by auto|].
  do 4 (split; [done|]). split; [|split].
  - intros Hhas. rewrite !decide_False, decide_True by auto.
    split; [done|]. by apply (server_range structure.1.1 _ a (a + 1)).
  - intros k Hk. rewrite get_upsert, get_ports by done. unfold port_keys in Hk.
    rewrite !decide_False; [done|..]; intros; destruct structure.1.1; set_solver.
  - intros i Hi. unfold getAppConfig, ExtraAppTable.getApp, Database.query.
    by rewrite app_upsert_connected, Hc', Hc, app_upsert, extra_id, decide_False, ports_apps by done.
Qed.

Definition remove_command (id : string) : json :=
  obj [("command", JString "removeExtraApp"); ("app", JString id)].

Definition removed_db (id : string) (has : bool) (d : DB) : DB :=
  let d := drop_setting (port_setting id "-dev") (drop_setting (port_setting id "-prod") d) in
  let d := if has then drop_setting (port_setting id "-server") d else d in
  ExtraAppTable.deleteApp id d.

Lemma remove_run id w : ExtraAppTable.appExists id (adb w) = true ->
  exists m, (handleRemoveExtraApp (remove_command id) w).2 = Ok (mkCmdResult 0 m) /\
  adb (handleRemoveExtraApp (remove_command id) w).1 =
  removed_db id (has_server_component (ExtraAppTable.getApp id (adb w))) (adb w).
Proof using Type.
  intros Hex. unfold handleRemoveExtraApp, with_app.
  change (Json.contains "app" (remove_command id)) with true. cbn [negb].
  unfold app_argument. rewrite (bindM_ok _ _ w w id) by reflexivity.
  rewrite bindM_gets, Hex. cbn [negb]. rewrite !bindM_adb.
  destruct (has_server_component _); rewrite ?bindM_adb, ?bindM_ret, ?bindM_adb; by eexists.
Qed.

Lemma get_removed id has d k : connected d = true ->
  SettingsTable.getSetting k (removed_db id has d) =
  if decide (k ∈ port_keys id has) then "" else SettingsTable.getSetting k d.
Proof using Type.
  intros Hc. unfold removed_db, port_keys. cbv zeta. rewrite get_deleteApp.
  destruct has; rewrite !get_drop by (rewrite ?drop_connected; done);
    repeat case_decide; set_solver.
Qed.

Lemma find_removed id has d i : connected d = true ->
  StdMap.find i (extra_apps (removed_db id has d)) =
  if decide (i = id) then None else StdMap.find i (extra_apps d).
Proof using Type.
  intros Hc. unfold removed_db. cbv zeta.
  destruct has; rewrite app_delete, !drop_apps by (rewrite !drop_connected; done); done.
Qed.

Lemma removed_connected id has d : connected (removed_db id has d) = connected d.
Proof using Type.
  unfold removed_db, ExtraAppTable.deleteApp, with_con. cbv zeta.
  destruct has; rewrite !drop_connected; destruct (connected d) eqn:E; simpl;
    by rewrite !drop_connected.
Qed.

Lemma get_added id name url (structure : bool * string * string) ports d k :
  connected d = true -> k ∉ port_keys id structure.1.1 ->
  SettingsTable.getSetting k (added_db id name url structure ports d) = SettingsTable.getSetting k d.
Proof using Type.
  intros Hc Hk. destruct ports as [[a b] s]. unfold added_db. rewrite get_upsert, get_ports by done.
  unfold port_keys in Hk. rewrite !decide_False; [done|..]; intros; destruct structure.1.1; set_solver.
Qed.

Lemma port_keys_mono id has k : k ∈ port_keys id has -> k ∈ port_keys id true.
Proof using Type. unfold port_keys. destruct has; set_solver. Qed.

Lemma server_key id : port_setting id "-server" ∉ port_keys id false.
Proof using Type.
  unfold port_keys. rewrite app_nil_r, !elem_of_cons, elem_of_nil.
  intros [H|[H|[]]]; by apply port_setting_inj in H.
Qed.

(** C20: Removing an application that was just added undoes it: the answer has status 0,
    every application is as it was before the addition, the three port settings are gone
    and every other setting is as it was. *)
Theorem add_remove_roundtrip (command : json) (url : string) (w : Apps) :
  connected (adb w) = true -> Json.member "repoUrl" command = Some (JString url) ->
  added_ok command w ->
  let id := extractAppNameFromUrl url in
  let w1 := (handleAddExtraApp env command w).1 in
  let remove := handleRemoveExtraApp (remove_command id) w1 in
  (exists m, remove.2 = Ok (mkCmdResult 0 m)) /\
  (forall i, getAppConfig i (adb remove.1) = getAppConfig i (adb w)) /\
  (forall k, k ∉ port_keys id true ->
     SettingsTable.getSetting k (adb remove.1) = SettingsTable.getSetting k (adb w)) /\
  (exists has, (has = false -> SettingsTable.getSetting (port_setting id "-server") (adb remove.1) =
                              SettingsTable.getSetting (port_setting id "-server") (adb w)) /\
     forall k, k ∈ port_keys id has -> SettingsTable.getSetting k (adb remove.1) = "").
Proof using Type.
  intros Hc Hurl (r & Hr & H0). cbv zeta.
  destruct (add_extra_added env command w url Hurl) as [Hadd Hnew].
  destruct (Hnew r Hr H0) as (Hid & Hh & Hex). clear Hnew.
  set (id := extractAppNameFromUrl url) in *. rewrite Hr in Hadd.
  inversion Hadd as [o Hd Hf| |structure ports name r' Ha Hd Hs]; subst; [by destruct (Hf r)|].
  set (w1 := (handleAddExtraApp env command w).1) in *. set (has := structure.1.1) in *.
  assert (connected (adb w1) = true) as Hc1
    by by rewrite Hd; unfold added_db; rewrite app_upsert_connected, ports_connected.
  assert (StdMap.find id (extra_apps (adb w1)) = Some (extra_record id name url structure)) as Hfind.
  { rewrite Hd. unfold added_db. by rewrite app_upsert, extra_id, decide_True
      by (rewrite ?ports_connected; done). }
  assert (ExtraAppTable.getApp id (adb w1) = extra_record id name url structure) as Hget
    by by unfold ExtraAppTable.getApp, Database.query; rewrite Hc1, Hfind.
  destruct (remove_run id w1) as (m & Hm & Hdb).
  { unfold ExtraAppTable.appExists, Database.query. by rewrite Hc1, Hfind. }
  assert (has_server_component (extra_record id name url structure) = has) as Hhas
    by by subst has; destruct structure as [[? ?] ?].
  rewrite Hget, Hhas in Hdb. rewrite Hdb.
  split; [eauto|]. split; [|split].
  - intros i. unfold getAppConfig, ExtraAppTable.getApp, Database.query.
    rewrite removed_connected, Hc1, Hc, find_removed by done.
    unfold ExtraAppTable.appExists, Database.query in Hex. rewrite Hc in Hex.
    destruct (decide (i = id)) as [->|Hne]; [by destruct (StdMap.find id (extra_apps (adb w)))|].
    rewrite Hd. unfold added_db.
    by rewrite app_upsert, extra_id, decide_False, ports_apps by (rewrite ?ports_connected; done).
  - intros k Hk. rewrite get_removed by done. rewrite decide_False.
    + rewrite Hd. apply get_added; [done|]. by intros ?%port_keys_mono.
    + by intros ?%port_keys_mono.
  - exists has. split.
    + intros Hno. rewrite get_removed, decide_False; [|by rewrite Hno; apply server_key|done].
      rewrite Hd. apply get_added; [done|]. fold has. rewrite Hno. apply server_key.
    + intros k Hk. rewrite get_removed, decide_True by done. done.
Qed.
End AddRemove.

(** ** Waiting for a port *)

Section Waiting.
Context (env : AppEnv) (port : Z).

Definition sleeps (l : list Act) : Z :=
  foldr (fun a n => match a with SleepMs m => m + n | _ => n end) 0 l.
Definition poll : Act := Execute ("/usr/bin/ss -tlnH sport = :" +:+ Num.to_string port)%string.
Definition kill : Act :=
  System ("/usr/bin/fuser -k -9 " +:+ Num.to_string port +:+ "/tcp 2>/dev/null")%string.

(** The actions of the loop: each turn polls, kills when more than 2.5 s have passed,
    and sleeps; and a last poll. *)
Inductive turns_from (timeoutMs : Z) : Z -> list Act -> Prop :=
  | turn_last e : turns_from timeoutMs e [poll]
  | turn_more e l : e < timeoutMs -> turns_from timeoutMs (e + POLL_INTERVAL_MS) l ->
      turns_from timeoutMs e
        ([poll] ++ (if 2500 <? e then [kill] else []) ++ [SleepMs POLL_INTERVAL_MS] ++ l).

Lemma sleeps_app l1 l2 : sleeps (l1 ++ l2) = sleeps l1 + sleeps l2.
Proof using Type. unfold sleeps. induction l1 as [|[] l1 IH]; simpl; lia. Qed.

Lemma turns_sleep t e l : e < t + POLL_INTERVAL_MS -> turns_from t e l ->
  0 <= sleeps l /\ e + sleeps l < t + POLL_INTERVAL_MS.
Proof using Type.
  intros He H. induction H as [e|e l Hlt H IH]; [simpl; lia|].
  rewrite !sleeps_app. unfold POLL_INTERVAL_MS in *. destruct (2500 <? e); simpl; lia.
Qed.

Lemma bindM_listening {B} (k : bool -> M Apps B) w :
  bindM (isPortListening env port) k w =
  k (negb (Str.empty (command_output env (length (acts w))
       ("/usr/bin/ss -tlnH sport = :" +:+ Num.to_string port)))) (push poll w).
Proof using Type. done. Qed.

Lemma bindM_kill {B} (k : unit -> M Apps B) w :
  bindM (killProcessOnPort env port) k w = k tt (push kill w).
Proof using Type. done. Qed.

Lemma acts_push a w : acts (push a w) = acts w ++ [a].
Proof using Type. done. Qed.

(** [S n] turns are enough when the time left is at most [n] intervals. *)
Lemma wait_loop_ends n t e w :
  t <= e + POLL_INTERVAL_MS * Z.of_nat n ->
  exists w' l, wait_loop env (S n) port t e w = (w', Ok (Some tt)) /\
    acts w' = acts w ++ l /\ turns_from t e l.
Proof using Type.
  revert e w. induction n as [|n IH]; intros e w Hn; cbn [wait_loop];
    rewrite bindM_listening; destruct (negb _ && (e <? t)) eqn:E;
    try (eexists _, [poll]; split; [reflexivity|]; split; [done|constructor]);
    apply andb_true_iff in E as [_ E%Z.ltb_lt]; [lia|].
  assert (exists w1, (let! _ := if 2500 <? e then killProcessOnPort env port else mret tt in
      let! _ := record (SleepMs POLL_INTERVAL_MS) in
      wait_loop env (S n) port t (e + POLL_INTERVAL_MS)) (push poll w) =
    wait_loop env (S n) port t (e + POLL_INTERVAL_MS) w1 /\
    acts w1 = acts w ++ [poll] ++ (if 2500 <? e then [kill] else []) ++ [SleepMs POLL_INTERVAL_MS])
    as (w1 & Ew & Ha).
  { destruct (2500 <? e); rewrite ?bindM_kill, ?bindM_ret, bindM_record; eexists;
      (split; [reflexivity|]); rewrite !acts_push; by rewrite <- ?app_assoc. }
  cbn [wait_loop] in Ew. rewrite Ew.
  destruct (IH (e + POLL_INTERVAL_MS) w1) as (w' & l & El & Hl & Ht); [lia|].
  cbn [wait_loop] in El. rewrite El. eexists _, _. split; [reflexivity|].
  split; [|by apply (turn_more t e l)]. by rewrite Hl, Ha, <- !app_assoc.
Qed.

(** C22: Waiting for a port ends: within the timeout rounded up to the polling interval
    (10 s and 200 ms in the code), polling once a turn and killing what holds the port
    in each turn after 2.5 s, whatever the shell answers; and the result says whether
    the port was free when it was last looked at. *)
Theorem wait_for_port_ends (timeoutMs : Z) (w : Apps) :
  0 <= timeoutMs -> exists w' l free,
  waitForPortRelease env port timeoutMs w = (w', Ok free) /\
  acts w' = acts w ++ l ++ [poll] /\ turns_from timeoutMs 0 l /\
  sleeps l < timeoutMs + POLL_INTERVAL_MS /\
  free = Str.empty (command_output env (length (acts w ++ l))
           ("/usr/bin/ss -tlnH sport = :" +:+ Num.to_string port)).
Proof using Type.
  intros Ht. unfold waitForPortRelease, wait_fuel.
  destruct (wait_loop_ends (Z.to_nat (timeoutMs / POLL_INTERVAL_MS + 1)) timeoutMs 0 w)
    as (w1 & l & E & Ha & Hl).
  { unfold POLL_INTERVAL_MS. pose proof (Z.div_pos timeoutMs 200). rewrite Z2Nat.id by lia.
    pose proof (Z.mod_pos_bound timeoutMs 200). pose proof (Z.div_mod timeoutMs 200). lia. }
  rewrite (bindM_ok _ _ _ _ _ E), bindM_listening. eexists _, l, _. split; [reflexivity|].
  rewrite acts_push, Ha, <- app_assoc. split; [done|]. split; [done|].
  split; [|by rewrite negb_involutive].
  destruct (turns_sleep timeoutMs 0 l) as [_ H]; [unfold POLL_INTERVAL_MS; lia|done|]. lia.
Qed.
End Waiting.

(** ** Deploying *)

Section Deploying.
Context (env : AppEnv).

Definition status_query (config : AppConfig) : string :=
  in_directory (prodPath config) "/usr/bin/git status --porcelain 2>&1".
Definition head_query (config : AppConfig) : string :=
  in_directory (devPath config) "/usr/bin/git rev-parse HEAD 2>&1".

(** Is the answer of git status taken for a clean tree? *)
Definition taken_for_clean (out : string) : bool := Str.empty out || Str.contains "fatal" out.

Definition deploy_command (id commit : string) : json :=
  obj [("command", JString "deployToProd"); ("app", JString id); ("commit", JString commit)].

(** The deployment of a commit. *)
Definition deploy_from (id : string) (config : AppConfig) (commit chosen : string)
    : M Apps CmdResult :=
  let! status := executeCommand env (status_query config) in
  if negb (Str.empty status) && negb (Str.contains "fatal" status) then
    mret (mkCmdResult 1 (ln "Prod worktree has uncommitted changes. Aborting." +:+
                         ln ("Run: git -C " +:+ prodPath config +:+ " status")))
  else
    let! out := executeCommand env (in_directory (prodPath config)
                  ("/usr/bin/git checkout " +:+ commit +:+ " 2>&1")) in
    if Str.contains "fatal" out || Str.contains "error" out then
      mret (mkCmdResult 1 (ln "Failed to checkout commit:" +:+ ln out))
    else
      let! built := deploy_build env id config in
      match built with
      | inr r => mret r
      | inl built =>
          let! restarted := deploy_restart env id config in
          mret (mkCmdResult 0 (lines
            [ln ("Deploying " +:+ id +:+ " to prod..."); chosen; ln "  Checkout: OK"; built;
             ln "  Restarting services..."; restarted; ln ""; ln "Deploy complete!"]))
      end.

Lemma deploy_run id commit w :
  let config := getAppConfig id (adb w) in
  appId config <> "" -> prodPath config <> "" ->
  handleDeployToProd env (deploy_command id commit) w =
  (let! c := deploy_commit env config commit in
   match c with
   | inr r => mret r
   | inl (commit, chosen) => deploy_from id config commit chosen
   end) w.
Proof using Type.
  cbv zeta. intros Hid Hprod. unfold handleDeployToProd, with_app.
  change (Json.contains "app" (deploy_command id commit)) with true. cbn [negb].
  unfold app_argument. rewrite (bindM_ok _ _ w w id) by reflexivity.
  rewrite (bindM_ok _ _ w w commit) by reflexivity.
  unfold with_config. rewrite bindM_gets.
  destruct (Str.empty (appId _)) eqn:E; [by destruct (appId _)|].
  destruct (Str.empty (prodPath _)) eqn:E'; [by destruct (prodPath _)|]. done.
Qed.

Lemma deploy_from_looks id config commit chosen w :
  exists after, acts (deploy_from id config commit chosen w).1 =
    acts w ++ Execute (status_query config) :: after /\
  (taken_for_clean (command_output env (length (acts w)) (status_query config)) = false ->
   after = [] /\ exists r, (deploy_from id config commit chosen w).2 = Ok r /\ status r = 1).
Proof using Type.
  unfold deploy_from. rewrite bindM_execute. unfold taken_for_clean. rewrite <- negb_orb.
  destruct (_ || _) eqn:E; cbn [negb].
  - set (m := bindM _ _). assert (same_tables m) as Hm.
    { unfold m, deploy_build, deploy_restart. same. }
    destruct (Hm (push (Execute (status_query config)) w)) as (_ & [after Ha] & _).
    exists after. rewrite Ha, acts_push, <- app_assoc. by split.
  - exists []. split; [done|]. intros _. by split; [|eexists].
Qed.

(** Deploying changes nothing before the production tree was looked at and taken for
    clean: up to the query of its status only the commit of the development tree is
    asked for; and when the tree is not clean the deployment ends there, with status 1. *)
Theorem deploy_looks_first (id commit : string) (w : Apps) :
  let config := getAppConfig id (adb w) in
  let run := handleDeployToProd env (deploy_command id commit) w in
  appId config <> "" -> prodPath config <> "" ->
  exists before rest,
    acts run.1 = acts w ++ before ++ rest /\
    (before = [] \/ before = [Execute (head_query config)]) /\
    (rest = [] \/
     exists after, rest = Execute (status_query config) :: after /\
       let out := command_output env (length (acts w ++ before)) (status_query config) in
       (taken_for_clean out = false -> after = [] /\ exists r, run.2 = Ok r /\ status r = 1)) /\
    adb run.1 = adb w.
Proof using Type.
  cbv zeta. intros Hid Hprod.
  pose proof (proj1 (same_deploy env (deploy_command id commit) w)) as Hdb.
  enough (exists before rest, acts (handleDeployToProd env (deploy_command id commit) w).1 =
    acts w ++ before ++ rest /\ _ /\ _) as (before & rest & H1 & H2 & H3)
    by (exists before, rest; split_and!; [exact H1|exact H2|exact H3|exact Hdb]).
  clear Hdb. rewrite deploy_run by done. set (config := getAppConfig id (adb w)).
  unfold deploy_commit. destruct (Str.empty commit).
  - rewrite bindM_assoc, bindM_execute, bindM_ret. fold (head_query config).
    set (w1 := push (Execute (head_query config)) w).
    destruct (Str.empty _ || Str.contains _ _).
    { exists [Execute (head_query config)], []. rewrite app_nil_r. split; [done|].
      split; [by right|]. by left. }
    match goal with |- context [deploy_from id config ?c ?s] =>
      destruct (deploy_from_looks id config c s w1) as (after & Ha & Hs) end.
    exists [Execute (head_query config)], (Execute (status_query config) :: after).
    split; [by rewrite Ha; unfold w1; rewrite acts_push, <- app_assoc|].
    split; [by right|]. right. by exists after.
  - rewrite bindM_ret.
    destruct (deploy_from_looks id config commit
                (ln ("  Using specified commit: " +:+ Str.take 7 commit)) w) as (after & Ha & Hs).
    exists [], (Execute (status_query config) :: after). rewrite app_nil_r. split; [exact Ha|].
    split; [by left|]. right. by exists after.
Qed.
End Deploying.

(** ** Starting and stopping *)

Section Stopping.
Context (env : AppEnv).

Definition ctl (verb service : string) : Act :=
  System ("/usr/bin/systemctl " +:+ verb +:+ " " +:+ service +:+ " 2>/dev/null").
Definition stopped (service : string) : list Act := [ctl "stop" service; ctl "reset-failed" service].

Definition app_command (name id mode : string) : json :=
  obj [("command", JString name); ("app", JString id); ("mode", JString mode)].

Lemma in_mode_run name id mode k w :
  appId (getAppConfig id (adb w)) <> "" -> prodPath (getAppConfig id (adb w)) <> "" ->
  in_mode (app_command name id mode) k w = k id mode (getAppConfig id (adb w)) w.
Proof using Type.
  intros Hid Hp. unfold in_mode, with_app.
  change (Json.contains "app" (app_command name id mode)) with true. cbn [negb].
  unfold app_argument. rewrite (bindM_ok _ _ w w id) by reflexivity.
  rewrite (bindM_ok _ _ w w mode) by reflexivity.
  unfold with_config. rewrite bindM_gets. unfold dev_only.
  destruct (appId (getAppConfig id (adb w))); [done|]. cbn [Str.empty].
  destruct (prodPath (getAppConfig id (adb w))); [done|]. by rewrite andb_false_r.
Qed.

(** Starting an application starts its server before its client, each once and only
    when it has one, and answers with status 0 whatever systemctl returns. *)
Theorem start_server_first (id mode : string) (w : Apps) :
  let config := getAppConfig id (adb w) in
  appId config <> "" -> prodPath config <> "" ->
  let run := handleStartApp env (app_command "startApp" id mode) w in
  acts run.1 = acts w ++
    (if has_server_service config then [ctl "start" (server_service config id mode)] else []) ++
    (if has_client_service config then [ctl "start" (client_service config id mode)] else []) /\
  exists m, run.2 = Ok (mkCmdResult 0 m).
Proof using Type.
  cbv zeta. intros Hid Hp. unfold handleStartApp. rewrite in_mode_run by done.
  unfold when_service. destruct (has_server_service _), (has_client_service _);
    (split; [|by eexists]); simpl; by rewrite <- ?app_assoc, ?app_nil_r.
Qed.

Lemma bindM_setting {B} key (k : string -> M Apps B) w :
  bindM (setting key) k w = k (SettingsTable.getSetting key (adb w)) w.
Proof using Type. done. Qed.

Lemma bindM_stop {B} y n service (k : string -> M Apps B) w :
  bindM (report y n (stopService env) service) k w =
  k (ln (y +:+ " " +:+ service)) (push (ctl "reset-failed" service) (push (ctl "stop" service) w)).
Proof using Type. done. Qed.

(** What is done about the port stored under a key. *)
Definition kill_stored (key : string) (d : DB) : list Act :=
  match Num.stoi (SettingsTable.getSetting key d) with Ok p => [kill p] | Throw _ => [] end.

Lemma with_port_kill key w :
  (SettingsTable.getSetting key (adb w) = "" \/
   exists p, is_int32 p = true /\ SettingsTable.getSetting key (adb w) = Num.to_string p) ->
  exists w', with_port key (killProcessOnPort env) w = (w', Ok tt) /\ adb w' = adb w /\
    acts w' = acts w ++ kill_stored key (adb w).
Proof using Type.
  unfold with_port, kill_stored. rewrite bindM_setting. intros [->|(p & Hp & ->)].
  - exists w. by rewrite app_nil_r.
  - rewrite Num.to_string_nonempty, Num.stoi_to_string by done. by eexists.
Qed.

(** A key that holds nothing or a port. *)
Definition port_or_empty (key : string) (d : DB) : Prop :=
  SettingsTable.getSetting key d = "" \/
  exists p, is_int32 p = true /\ SettingsTable.getSetting key d = Num.to_string p.

Lemma stop_mode_run id config mode w :
  has_client_service config = true -> has_server_service config = true ->
  has_server_port config = true ->
  port_or_empty (client_port_key config mode) (adb w) ->
  port_or_empty (server_port_key config mode) (adb w) ->
  exists w' s, stop_mode env id config mode w = (w', Ok s) /\
  acts w' = acts w ++ stopped (client_service config id mode) ++
    stopped (server_service config id mode) ++
    kill_stored (client_port_key config mode) (adb w) ++
    kill_stored (server_port_key config mode) (adb w).
Proof using Type.
  intros Hc Hs Hsp Hck Hsk. unfold stop_mode. rewrite Hc, Hs. cbn [when_service].
  rewrite !bindM_stop. unfold on_ports. rewrite bindM_assoc.
  match goal with |- context [bindM _ _ ?w0] => set (w1 := w0) end.
  destruct (with_port_kill (client_port_key config mode) w1) as (w2 & E2 & Hd2 & Ha2); [done|].
  rewrite (bindM_ok _ _ _ _ _ E2), Hsp.
  destruct (with_port_kill (server_port_key config mode) w2) as (w3 & E3 & _ & Ha3).
  { by rewrite Hd2. }
  rewrite (bindM_ok _ _ _ _ _ E3). eexists w3, _. split; [reflexivity|].
  rewrite Ha3, Ha2, Hd2. unfold w1. rewrite !acts_push, <- !app_assoc. done.
Qed.

(** Stopping one mode of an application with a server and a client stops the client
    and then the server, each with its failure reset, and then kills what holds the
    client's port and what holds the port under the server's key for that mode.  For an
    application added at run time that last key, in development, is not the one its
    server port was stored under: when nothing else stored a value there, the
    development server's port is left alone. *)
Theorem stop_kills_ports (id mode : string) (w : Apps) :
  let config := getAppConfig id (adb w) in
  appId config <> "" -> prodPath config <> "" -> mode <> "all" ->
  has_client_service config = true -> has_server_service config = true ->
  has_server_port config = true ->
  port_or_empty (client_port_key config mode) (adb w) ->
  port_or_empty (server_port_key config mode) (adb w) ->
  let run := handleStopApp env (app_command "stopApp" id mode) w in
  acts run.1 = acts w ++ stopped (client_service config id mode) ++
    stopped (server_service config id mode) ++
    kill_stored (client_port_key config mode) (adb w) ++
    kill_stored (server_port_key config mode) (adb w) /\
  (forall name url server client, config = recordToConfig (extra_record id name url (true, server, client)) ->
    server_port_key config "prod" = port_setting id "-server" /\
    server_port_key config "dev" = port_setting id "-server-dev").
Proof using Type.
  cbv zeta. set (config := getAppConfig id (adb w)).
  intros Hid Hp Hm Hc Hs Hsp Hck Hsk. split.
  - unfold handleStopApp, in_modes, with_app.
    change (Json.contains "app" (app_command "stopApp" id mode)) with true. cbn [negb].
    unfold app_argument. rewrite (bindM_ok _ _ w w id) by reflexivity.
    rewrite (bindM_ok _ _ w w mode) by reflexivity.
    unfold with_config. rewrite bindM_gets, decide_False by done. fold config.
    unfold dev_only.
    destruct (appId config); [done|]. destruct (prodPath config); [done|].
    cbn [Str.empty]. rewrite andb_false_r. cbn [for_modes].
    destruct (stop_mode_run id config mode w Hc Hs Hsp Hck Hsk) as (w' & out & E & Ha).
    rewrite bindM_assoc, (bindM_ok _ _ _ _ _ E). exact Ha.
  - intros name url server client ->. unfold server_port_key, port_setting. simpl.
    by rewrite !Str.append_assoc.
Qed.
End Stopping.

(** ** Corner cases *)

(** The unit file generated for a server is the one generated for its client: npm in the
    client's directory, on the client's port. *)
Lemma server_unit_is_client_unit env config svc svc' w :
  is_dev_service svc = is_dev_service svc' ->
  let unit s := service_content config (is_dev_service s)
    (SettingsTable.getSetting (client_port_key config (if is_dev_service s then "dev" else "prod")) (adb w)) in
  unit svc = unit svc' /\
  (system_rc env (length (acts w)) ("/usr/bin/test -f " +:+ servicesDir +:+ svc +:+ ".service")%string <> 0 ->
   fopen_ok env (generatedDir +:+ svc +:+ ".service")%string = true ->
   WriteFile (generatedDir +:+ svc +:+ ".service")%string (unit svc)
     ∈ acts (install_service env config svc w).1).
Proof.
  intros E. cbv zeta. split; [by rewrite E|]. intros Hrc Hopen. unfold install_service. cbv zeta.
  rewrite bindM_system. rewrite (proj2 (Z.eqb_neq _ _)) by exact Hrc. rewrite bindM_setting, Hopen.
  rewrite bindM_record. simpl. set_solver.
Qed.

(** A production service of an application named "my-devtools" gets a development unit. *)
Example devtools_prod_is_dev : is_dev_service "my-devtools-prod" = true.
Proof. reflexivity. Qed.

(** The client of an application "x-server" and the server of "x" have the same service. *)
Example services_collide :
  resolveServiceName (client_service_template (extra_record "x-server" "" "" (false, "", "")))
    "x-server" "dev" =
  resolveServiceName (server_service_template (extra_record "x" "" "" (true, "", ""))) "x" "dev".
Proof. reflexivity. Qed.

(** With 3500 and 3501 taken, the next server port is the one the daemon itself listens
    on for peers. *)
Example server_port_is_peer_port :
  findNextAvailableServerPort (SettingsTable.setSetting "port_a-server" "3500"
    (SettingsTable.setSetting "port_b-server" "3501" demo_db)) = PEER_TCP_PORT.
Proof. vm_compute. reflexivity. Qed.

(** A changed file called fatal.txt hides that the tree is not clean. *)
Example fatal_hides_changes : taken_for_clean " M notes/fatal.txt" = true.
Proof. reflexivity. Qed.

(** ** Witnesses *)

Definition demo_app_env : AppEnv :=
  mkAppEnv (fun _ cmd => if Str.contains "test -d /opt/dev/shop/server" cmd then 0
                         else if Str.contains "CMakeLists" cmd then 0 else 1)
    (fun _ cmd => if Str.contains "status --porcelain" cmd then " M index.js" else "") (fun _ => false)
    (fun _ => true) [].
Definition demo_apps : Apps := mkApps (mkPeers demo_db newPeerManager [] [] 0) [] [].
Definition add_shop : json := obj [("repoUrl", JString "https://github.com/user/shop.git")].
Definition with_shop : Apps := (handleAddExtraApp demo_app_env add_shop demo_apps).1.

Lemma shop_added : added_ok demo_app_env add_shop demo_apps.
Proof.
  eexists. split; [vm_compute; reflexivity|reflexivity].
Qed.

Lemma app_registry_typed_witness :
  NoDup (appId <$> getAllApps (adb (foldl (fun w hc =>
    run_app demo_app_env (demo_env 0 "") demo_dump demo_dump demo_parse hc w) demo_apps
    [(H_handleAddExtraApp, add_shop); (H_handleStartApp, JNull)]))).
Proof.
  apply (app_registry_typed demo_app_env (demo_env 0 "") demo_dump demo_dump demo_parse
    [(H_handleAddExtraApp, add_shop); (H_handleStartApp, JNull)] demo_apps).
  split; [exact I|constructor].
Defined.

Lemma add_extra_app_spec_witness : exists structure name port server,
  getAppConfig "shop" (adb with_shop) =
    recordToConfig (extra_record "shop" name "https://github.com/user/shop.git" structure) /\
  SettingsTable.getSetting "port_shop-prod" (adb with_shop) = Num.to_string port /\
  (structure.1.1 = true -> 3500 <= server < 4000).
Proof.
  destruct (add_extra_app_spec demo_app_env add_shop "https://github.com/user/shop.git" demo_apps
    eq_refl eq_refl shop_added) as (structure & name & port & server & H1 & H2 & _ & _ & _ & _ & _ & H3 & _).
  exists structure, name, port, server. split; [exact H1|]. split; [exact H2|].
  intros H. destruct (H3 H) as (_ & H4 & _). exact H4.
Defined.

Lemma add_remove_roundtrip_witness :
  getAppConfig "shop" (adb (handleRemoveExtraApp (remove_command "shop") with_shop).1) = noConfig.
Proof.
  destruct (add_remove_roundtrip demo_app_env add_shop "https://github.com/user/shop.git" demo_apps
    eq_refl eq_refl shop_added) as (_ & H & _).
  exact (H "shop").
Defined.

Lemma wait_for_port_ends_witness : exists w' l free,
  waitForPortRelease demo_app_env 3000 10000 demo_apps = (w', Ok free) /\ sleeps l < 10200.
Proof.
  destruct (wait_for_port_ends demo_app_env 3000 10000 demo_apps) as (w' & l & free & H1 & _ & _ & H2 & _);
    [lia|]. exists w', l, free. split; [exact H1|exact H2].
Defined.

Lemma deploy_looks_first_witness : exists before rest,
  acts (handleDeployToProd demo_app_env (deploy_command "cad" "abc123") demo_apps).1 =
  [] ++ before ++ rest /\ (before = [] \/ before = [Execute (head_query (getAppConfig "cad" demo_db))]).
Proof.
  destruct (deploy_looks_first demo_app_env "cad" "abc123" demo_apps) as (b & r & H1 & H2 & _);
    [discriminate|discriminate|]. exists b, r. split; [exact H1|exact H2].
Defined.

Lemma start_server_first_witness :
  acts (handleStartApp demo_app_env (app_command "startApp" "dashboard" "prod") demo_apps).1 =
  [ctl "start" "dashboard-bridge"; ctl "start" "dashboard-prod"].
Proof.
  destruct (start_server_first demo_app_env "dashboard" "prod" demo_apps) as [H _];
    [discriminate|discriminate|]. etransitivity; [exact H|]. vm_compute. reflexivity.
Defined.

(** The development server of the shop keeps its port: only the client's is freed. *)
Lemma stop_kills_ports_witness :
  acts (handleStopApp demo_app_env (app_command "stopApp" "shop" "dev") with_shop).1 =
  acts with_shop ++ stopped "shop-dev" ++ stopped "shop-server-dev" ++ [kill 3001].
Proof.
  destruct (stop_kills_ports demo_app_env "shop" "dev" with_shop) as [H _].
  1-6: vm_compute; (discriminate || reflexivity).
  - right. exists 3001. split; [reflexivity|]. vm_compute. reflexivity.
  - left. vm_compute. reflexivity.
  - etransitivity; [exact H|]. vm_compute. reflexivity.
Defined.
