(* ===== verification/PortLink.v ===== *)
(** The port commands (src/cmdPort.cpp) on the peer network: the static forwardToLeader
    of that file as system calls on the connection of the peer manager, and what it found
    as the [Link] the handlers of Ports take. *)

From S2P Require Import Prelude Stdio Types Json Database Settings Ports Registry Dispatch Server Peers PeerFacts.

(** fwdCmd["command"] = name; a command that got here is an object. *)
Definition forwarded_command (name : string) (command : json) : json :=
  match command with
  | JObject l => JObject (StdMap.insert "command" (JString name) l)
  | _ => command
  end.

Section Link.
Context (net : NetEnv) (dump : json -> string) (getLocalAppStatusAll : DB -> json).

(** string(buffer) after a read of at most 8191 bytes into a cleared buffer *)
Definition reply_text (r : ReadResult) : option string :=
  match r with ReadData s => Some (c_string s) | _ => None end.

(** What the handler finds; a write that fails leaves the connection alone. *)
Definition port_link (fwdCmd : json) : M Peers Link :=
  let! p := gets pm in
  if Peers.isLeader p then mret leader_link
  else
    let! connected := if m_connectedToLeader p then mret true
                      else let! ok := connectToLeader net dump getLocalAppStatusAll in mret ok in
    if negb connected then mret (mkLink false false false false None)
    else
      let! leaderFd := gets (fun w => m_leaderSocket (pm w)) in
      let! sent := sys_write net leaderFd (line_of dump fwdCmd) in
      if negb sent then mret (mkLink false true true false None)
      else let! r := sys_read net leaderFd in
           mret (mkLink false true true true (reply_text r)).

(** Forwarding reconnects a link that is down, and does nothing else to it. *)
Lemma port_link_reconnects c : follows Reconnects (port_link c).
Proof using Type.
  intros w l Hl. unfold port_link. rewrite bindM_gets.
  destruct (Peers.isLeader (pm w)); [exists l; split; [done|by apply allowed_quiet]|].
  apply follows_at; [auto with link| |intros connected; follow].
  by apply (connect_if_down net dump getLocalAppStatusAll (fun ok => ok)).
Qed.
End Link.
