(* ===== verification/Frames.v ===== *)
(** Which tables of the database a computation writes.  Every handler of the peers and
    of the applications is given the tables it may write here; Daemon does the same for
    the whole dispatch table, and the invariants of a table follow from the handlers that
    write it. *)

From S2P Require Import Prelude Types Json Database Settings Ports Registry Dispatch Server.
From S2P Require Import Terminal TerminalFacts MacroJson InputMapper Peers PeerFacts Apps AppFacts PortLink.

(** ** Tables *)

Inductive Table := Terminals | Configs | Devices | SystemSettings | PeerRegistry | ExtraApps.

#[export] Instance Table_eq_dec : EqDecision Table.
Proof. solve_decision. Defined.

Definition same_table (T : Table) (d d' : DB) : Prop :=
  match T with
  | Terminals => terminal_history d' = terminal_history d /\ terminal_sessions d' = terminal_sessions d
  | Configs => automation_configs d' = automation_configs d
  | Devices => device_registry d' = device_registry d
  | SystemSettings => system_settings d' = system_settings d
  | PeerRegistry => peer_registry d' = peer_registry d
  | ExtraApps => extra_apps d' = extra_apps d
  end.

(** [d'] is [d] but for the tables in [S]; the connection is the same. *)
Definition changes_only (S : list Table) (d d' : DB) : Prop :=
  connected d' = connected d /\ forall T, T ∉ S -> same_table T d d'.

#[export] Instance same_table_preorder T : PreOrder (same_table T).
Proof.
  split; [by destruct T|]. intros d1 d2 d3 H12 H23.
  destruct T; simpl in *; destruct_and?; repeat split; congruence.
Qed.

#[export] Instance changes_only_preorder S : PreOrder (changes_only S).
Proof.
  split; [by split|]. intros d1 d2 d3 [C1 H1] [C2 H2]. split; [congruence|].
  intros T HT. etrans; [by apply H1|by apply H2].
Qed.

Lemma changes_more S S' d d' : S ⊆ S' -> changes_only S d d' -> changes_only S' d d'.
Proof. intros HS [C H]. split; [done|]. intros T HT. apply H. set_solver. Qed.

(** ** Computations on a state that has the tables *)

Class HasTables (W : Type) := get_tables : W -> DB.
#[export] Instance tables_DB : HasTables DB := fun d => d.
#[export] Instance tables_Peers : HasTables Peers := pdb.
#[export] Instance tables_Apps : HasTables Apps := adb.
#[export] Instance tables_TS : HasTables TS := db.
#[export] Instance tables_macros : HasTables (IM * DB) := snd.
#[export] Instance tables_shell : HasTables (DB * list string) := fst.

Definition touches {W A} `{HasTables W} (S : list Table) (m : M W A) : Prop :=
  forall w, changes_only S (get_tables w) (get_tables (m w).1).

Section Touches.
Context {W : Type} `{HasTables W}.

Lemma touches_bind {A B} S (m : M W A) (k : A -> M W B) :
  touches S m -> (forall a, touches S (k a)) -> touches S (bindM m k).
Proof.
  intros Hm Hk w. unfold bindM, M_bind. specialize (Hm w).
  destruct (m w) as [w' []]; [by etrans; [|apply Hk]|done].
Qed.

Lemma touches_try {A} S (m : M W A) h :
  touches S m -> (forall e, touches S (h e)) -> touches S (try_catch m h).
Proof.
  intros Hm Hh w. unfold try_catch. specialize (Hm w).
  destruct (m w) as [w' []]; [done|by etrans; [|apply Hh]].
Qed.

Lemma touches_if {A} S (b : bool) (m n : M W A) :
  touches S m -> touches S n -> touches S (if b then m else n).
Proof. by destruct b. Qed.

Lemma touches_more {A} S S' (m : M W A) : S ⊆ S' -> touches S m -> touches S' m.
Proof. intros HS Hm w. by eapply changes_more. Qed.
Lemma touches_nil {A} S (m : M W A) : touches [] m -> touches S m.
Proof. apply touches_more. set_solver. Qed.

(** The tables are not written at all. *)
Lemma touches_same {A} S (m : M W A) :
  (forall w, get_tables (m w).1 = get_tables w) -> touches S m.
Proof. intros Hm w. by rewrite Hm. Qed.

Lemma touches_ret {A} S (a : A) : touches S (mret a : M W A).
Proof. by apply touches_same. Qed.
Lemma touches_lift {A} S (o : outcome A) : touches S (lift o : M W A).
Proof. by apply touches_same. Qed.
Lemma touches_gets {A} S (f : W -> A) : touches S (gets f).
Proof. by apply touches_same. Qed.
Lemma touches_modify S (f : W -> W) :
  (forall w, changes_only S (get_tables w) (get_tables (f w))) -> touches S (modify f).
Proof. intros Hf w. apply Hf. Qed.
End Touches.

Create HintDb frames discriminated.
#[export] Hint Resolve touches_ret touches_lift touches_gets : frames.

(** Go through a computation, statement by statement. *)
Ltac touch :=
  intros; repeat first
    [ solve [auto with frames] | apply touches_if | apply touches_bind; [|intros]
    | apply touches_try; [|intros] | case_match ].

(** ** The operations of the tables *)

Lemma with_con_changes S (f : DB -> DB) d :
  changes_only S d (f d) -> changes_only S d (with_con f d).
Proof. unfold with_con. by destruct (connected d). Qed.

(** Membership in a list of tables that is written out. *)
Definition writes (T : Table) (S : list Table) : bool := bool_decide (T ∈ S).

Lemma update_changes T S d d' :
  writes T S = true -> connected d' = connected d -> (forall U, U <> T -> same_table U d d') ->
  changes_only S d d'.
Proof.
  intros HT%bool_decide_eq_true Hc Hs. split; [done|]. intros U HU. apply Hs. by intros ->.
Qed.

(** An update of the fields of one table. *)
Ltac one_table T :=
  intros; try apply with_con_changes; apply (update_changes T); [done|done|];
  let U := fresh in intros U ?; by destruct U.

Lemma setSetting_changes S k v d :
  writes SystemSettings S = true -> changes_only S d (SettingsTable.setSetting k v d).
Proof. unfold SettingsTable.setSetting. one_table SystemSettings. Qed.
Lemma deleteSetting_changes S k d :
  writes SystemSettings S = true -> changes_only S d (SettingsTable.deleteSetting k d).2.
Proof.
  unfold SettingsTable.deleteSetting. intros H. destruct (connected d); [|reflexivity].
  one_table SystemSettings.
Qed.
Lemma setConfig_changes S k v d :
  writes Configs S = true -> changes_only S d (ConfigTable.setConfig k v d).
Proof. unfold ConfigTable.setConfig. one_table Configs. Qed.
Lemma upsertPeer_changes S now id ip mac host online v d :
  writes PeerRegistry S = true ->
  changes_only S d (PeerTable.upsertPeer now id ip mac host online v d).
Proof. unfold PeerTable.upsertPeer. one_table PeerRegistry. Qed.
Lemma update_peer_changes S id f d :
  writes PeerRegistry S = true -> changes_only S d (PeerTable.update_peer id f d).
Proof.
  intros H. unfold PeerTable.update_peer. apply with_con_changes.
  destruct (StdMap.find id (peer_registry d)); [one_table PeerRegistry|reflexivity].
Qed.
Lemma deletePeer_changes S id d :
  writes PeerRegistry S = true -> changes_only S d (PeerTable.deletePeer id d).
Proof. unfold PeerTable.deletePeer. one_table PeerRegistry. Qed.
Lemma clearAllPeers_changes S d :
  writes PeerRegistry S = true -> changes_only S d (PeerTable.clearAllPeers d).2.
Proof.
  intros H. unfold PeerTable.clearAllPeers. destruct (connected d); [|reflexivity].
  one_table PeerRegistry.
Qed.
Lemma upsertApp_changes S r d :
  writes ExtraApps S = true -> changes_only S d (ExtraAppTable.upsertApp r d).
Proof. unfold ExtraAppTable.upsertApp. one_table ExtraApps. Qed.
Lemma deleteApp_changes S id d :
  writes ExtraApps S = true -> changes_only S d (ExtraAppTable.deleteApp id d).
Proof. unfold ExtraAppTable.deleteApp. one_table ExtraApps. Qed.
Lemma session_changes S tty i d :
  writes Terminals S = true -> changes_only S d (TerminalTable.setSessionPointer tty i d).
Proof. unfold TerminalTable.setSessionPointer. one_table Terminals. Qed.
Lemma deleteSession_changes S tty d :
  writes Terminals S = true -> changes_only S d (TerminalTable.deleteSession tty d).
Proof. unfold TerminalTable.deleteSession. one_table Terminals. Qed.
Lemma upsertHistory_changes S i path d :
  writes Terminals S = true -> changes_only S d (TerminalTable.upsertHistory i path d).
Proof. unfold TerminalTable.upsertHistory. one_table Terminals. Qed.
Lemma emptyHistory_changes S d :
  writes Terminals S = true -> changes_only S d (empty_terminal_history d).
Proof. unfold empty_terminal_history. one_table Terminals. Qed.

Lemma two_tables T1 T2 S d d' :
  writes T1 S = true -> writes T2 S = true -> connected d' = connected d ->
  (forall U, U <> T1 -> U <> T2 -> same_table U d d') -> changes_only S d d'.
Proof.
  intros H1%bool_decide_eq_true H2%bool_decide_eq_true Hc Hs. split; [done|].
  intros U HU. apply Hs; by intros ->.
Qed.

(** Pruning also rebases the index kept in the settings. *)
Lemma pruneHistory_changes S max d :
  writes Terminals S = true -> writes SystemSettings S = true ->
  changes_only S d (TerminalTable.pruneHistory max d).
Proof.
  intros H1 H2. unfold TerminalTable.pruneHistory, TerminalTable.rebase_last_touched.
  apply with_con_changes. cbv zeta.
  repeat case_match; try reflexivity; apply (two_tables Terminals SystemSettings); try done;
    by intros [].
Qed.

(** ** The peers *)

Section PeerPrimitives.
Context (env : NetEnv) (dump : json -> string) (S : list Table).

Lemma pm_touches f : touches S (on_pm f).
Proof using Type. by apply touches_same. Qed.
Lemma close_touches fd : touches S (sys_close fd).
Proof using Type. by apply touches_same. Qed.
Lemma syscall_touches {A} (f : nat -> A) : touches S (syscall f).
Proof using Type. by apply touches_same. Qed.
Lemma opened_touches fd :
  touches S (modify (fun w => mkPeers (pdb w) (pm w) (fd :: open_fds w) (wire w) (calls w))).
Proof using Type. by apply touches_same. Qed.
Lemma write_touches fd msg : touches S (sys_write env fd msg).
Proof using Type. by apply touches_same. Qed.
Lemma connect_touches ip port : touches S (sys_connect env ip port).
Proof using Type. apply syscall_touches. Qed.
Lemma read_touches fd : touches S (sys_read env fd).
Proof using Type. apply syscall_touches. Qed.
Lemma poll_touches : touches S (sys_poll env).
Proof using Type. apply syscall_touches. Qed.
Lemma pdb_touches f : (forall d, changes_only S d (f d)) -> touches S (on_pdb f).
Proof using Type. intros H w. apply H. Qed.
End PeerPrimitives.
#[export] Hint Resolve pm_touches close_touches syscall_touches opened_touches write_touches
  connect_touches read_touches poll_touches : frames.

(** An update of a table of a list that is written out. *)
#[export] Hint Extern 3 (touches _ (on_pdb _)) => apply pdb_touches; intros ? : frames.
#[export] Hint Resolve upsertPeer_changes update_peer_changes deletePeer_changes
  setSetting_changes upsertApp_changes deleteApp_changes deleteSetting_changes : frames.
#[export] Hint Extern 1 (writes _ _ = true) => reflexivity : frames.

Section PeerParts.
Context (env : NetEnv) (dump dump2 : json -> string) (parse : string -> outcome json).
Context (status : DB -> json) (S : list Table).

Lemma socket_touches : touches S (sys_socket env).
Proof using Type. unfold sys_socket. touch. Qed.
#[local] Hint Resolve socket_touches : frames.
Lemma disconnect_touches : touches S disconnectFromLeader.
Proof using Type. unfold disconnectFromLeader. touch. Qed.
#[local] Hint Resolve disconnect_touches : frames.
Lemma sendToLeader_touches m : touches S (sendToLeader env dump m).
Proof using Type. unfold sendToLeader. touch. Qed.
Lemma forward_touches c : touches S (Peers.forwardToLeader env dump c).
Proof using Type. unfold Peers.forwardToLeader. touch. Qed.
#[local] Hint Resolve sendToLeader_touches forward_touches : frames.
Lemma connectToLeader_touches : touches S (connectToLeader env dump status).
Proof using Type. unfold connectToLeader. touch. Qed.
Lemma query_touches id : touches S (queryLeaderForPeerIP env dump parse id).
Proof using Type. unfold queryLeaderForPeerIP. touch. Qed.
#[local] Hint Resolve connectToLeader_touches query_touches : frames.
Lemma resolve_touches id : touches S (resolvePeerIP env dump parse id).
Proof using Type. unfold resolvePeerIP. touch. Qed.
Lemma forwarded_touches c k : touches S k -> touches S (forwarded_or env dump c k).
Proof using Type. intros H. unfold forwarded_or. touch. Qed.
Lemma manager_touches ip c : touches S (sendToManager env dump parse ip c).
Proof using Type. unfold sendToManager. touch. Qed.
Lemma connectToPeer_touches id ip : touches S (connectToPeer env id ip).
Proof using Type. unfold connectToPeer. touch. Qed.
Lemma sendToPeer_touches id m : touches S (sendToPeer env dump id m).
Proof using Type. unfold sendToPeer. touch. Qed.
Lemma unregister_touches id : touches S (unregisterPeer id).
Proof using Type. unfold unregisterPeer. touch. Qed.
Lemma reconnectLoop_touches : touches S startReconnectLoop.
Proof using Type. apply pm_touches. Qed.
Lemma registered_touches id ip mac host fd : touches S (registerPeer id ip mac host fd).
Proof using Type. apply pm_touches. Qed.
Lemma argument_touches k c : touches S (Peers.argument k c).
Proof using Type. apply touches_lift. Qed.
Lemma opt_member_touches {A} (get : json -> outcome A) k d c : touches S (opt_member get k d c).
Proof using Type. unfold opt_member. touch. Qed.
#[local] Hint Resolve argument_touches resolve_touches forwarded_touches manager_touches
  connectToPeer_touches sendToPeer_touches unregister_touches : frames.

Lemma exec_failed_touches last ended eagain id :
  touches S (exec_read_failed env last ended eagain id).
Proof using Type. unfold exec_read_failed. touch. Qed.
#[local] Hint Resolve exec_failed_touches : frames.
Lemma exec_connection_touches last id : touches S (exec_connection env dump parse last id).
Proof using Type. unfold exec_connection, exec_address. touch. Qed.
#[local] Hint Resolve exec_connection_touches : frames.
Lemma exec_attempt_touches last id r : touches S (exec_attempt env dump parse last id r).
Proof using Type. unfold exec_attempt. touch. Qed.
#[local] Hint Resolve exec_attempt_touches : frames.
Lemma exec_attempts_touches n id r : touches S (exec_attempts env dump parse n id r).
Proof using Type. induction n; simpl; touch. Qed.
#[local] Hint Resolve exec_attempts_touches : frames.
Lemma exec_touches c : touches S (handleExecOnPeer env dump parse c).
Proof using Type. unfold handleExecOnPeer. touch. Qed.
Lemma port_link_touches c : touches S (port_link env dump status c).
Proof using Type. unfold port_link. touch. Qed.
End PeerParts.
#[export] Hint Resolve socket_touches disconnect_touches sendToLeader_touches forward_touches
  connectToLeader_touches query_touches resolve_touches forwarded_touches manager_touches
  connectToPeer_touches sendToPeer_touches unregister_touches reconnectLoop_touches
  registered_touches argument_touches opt_member_touches exec_touches port_link_touches : frames.

Lemma save_field_changes S k v d :
  writes SystemSettings S = true -> changes_only S d (save_field k v d).
Proof. intros H. unfold save_field. destruct (Str.empty v); [reflexivity|]. by apply setSetting_changes. Qed.

Lemma saveConfig_touches S : writes SystemSettings S = true -> touches S saveConfig.
Proof.
  intros H w. unfold saveConfig, modify. cbn.
  etrans; [|by apply save_field_changes]. etrans; by apply save_field_changes.
Qed.
#[export] Hint Resolve saveConfig_touches : frames.

(** The tables a peer command may write. *)
Definition peer_tables (h : HandlerId) : list Table :=
  match h with
  | H_handleSetPeerConfig => [SystemSettings; PeerRegistry]
  | H_handleRegisterWorker => [SystemSettings]
  | H_handleDbSanityCheck | H_handleRegisterPeer | H_handleDeletePeer | H_handleUpdatePeerMac
  | H_handleUpdatePeerMacInternal => [PeerRegistry]
  | _ => []
  end.

Section PeerHandlers.
Context (env : NetEnv) (dump dump2 : json -> string) (parse : string -> outcome json).
Context (status : DB -> json).

Lemma update_mac_touches id mac missing : touches [PeerRegistry] (update_mac env id mac missing).
Proof using Type. unfold update_mac. touch. Qed.
#[local] Hint Resolve update_mac_touches : frames.

Lemma setPeerConfig_touches c :
  touches [SystemSettings; PeerRegistry] (handleSetPeerConfig env dump status c).
Proof using Type.
  unfold handleSetPeerConfig, set_optional, setRole, setPeerId, setLeaderAddress, register_self.
  cbv zeta. touch.
Qed.

Lemma registerWorker_touches c : touches [SystemSettings] (handleRegisterWorker env dump status c).
Proof using Type. unfold handleRegisterWorker, setRole, setPeerId, setLeaderAddress. touch. Qed.

Lemma sanityCheck_touches c : touches [PeerRegistry] (handleDbSanityCheck env dump2 c).
Proof using Type.
  intros w. unfold handleDbSanityCheck. cbv zeta. rewrite bindM_gets.
  destruct (decide _); [reflexivity|]. destruct (PeerTable.getAllPeers _ _); [reflexivity|].
  pose proof (clearAllPeers_changes [PeerRegistry] (pdb w) eq_refl) as Hd.
  destruct (PeerTable.clearAllPeers (pdb w)) as [? ?].
  unfold on_pdb. rewrite bindM_modify. exact Hd.
Qed.
#[local] Hint Resolve setPeerConfig_touches registerWorker_touches sanityCheck_touches : frames.

(** Every handler of the peer commands. *)
Lemma peer_handler_touches sock h f c :
  peer_handler env dump dump2 parse status sock h = Some f -> touches (peer_tables h) (f c).
Proof using Type.
  destruct h; simpl; intros [= <-]; auto with frames; unfold handleGetPeerStatus, handleRegisterPeer,
    handleListPeers, handleDeletePeer, handleGetPeerInfo, handleRemotePull, handleRemoteBd,
    handleRemoteDeployDaemon, handleExecRequest, handleUpdatePeerMac, handleUpdatePeerMacInternal;
    repeat apply forwarded_touches; touch.
Qed.
End PeerHandlers.

(** ** The applications *)

(** The tables an application command may write. *)
Definition app_tables (h : HandlerId) : list Table :=
  match h with
  | H_handleAddExtraApp | H_handleRemoveExtraApp => [SystemSettings; ExtraApps]
  | _ => []
  end.

Lemma same_touches {A} S (m : M Apps A) : same_tables m -> touches S m.
Proof. intros H. apply touches_same. intros w. apply (proj1 (H w)). Qed.

Lemma adb_touches S f : (forall d, changes_only S d (f d)) -> touches S (on_adb f).
Proof. intros H w. apply H. Qed.

Lemma save_ports_changes S id hasServer ports d :
  writes SystemSettings S = true -> changes_only S d (save_ports id hasServer ports d).
Proof.
  intros H. unfold save_ports. destruct ports as [[a b] s]. cbv zeta.
  destruct hasServer; repeat (etrans; [|by apply setSetting_changes]); reflexivity.
Qed.

Section AppHandlers.
Context (env : AppEnv) (net : NetEnv) (dump dump2 : json -> string).
Context (parse : string -> outcome json).

Lemma on_network_touches {A} S (m : M Peers A) : touches S m -> touches S (on_network m).
Proof using Type.
  intros H w. specialize (H (network w)). unfold on_network, get_tables, tables_Apps, adb.
  by destruct (m (network w)).
Qed.

Lemma install_extra_touches id url c :
  touches [SystemSettings; ExtraApps] (install_extra env id url c).
Proof using Type.
  unfold install_extra. cbv zeta.
  apply touches_bind; [apply same_touches, same_clone|intros [cloned|r]]; [|auto with frames].
  apply touches_bind; [apply same_touches, same_worktree|intros].
  apply touches_bind; [apply same_touches, same_detect|intros].
  apply touches_bind; [apply same_touches, same_override|intros].
  apply touches_bind; [auto with frames|intros [ports|r]]; [|auto with frames].
  apply touches_bind; [apply adb_touches; intros; by apply save_ports_changes|intros].
  apply touches_bind; [apply same_touches, same_optional|intros].
  apply touches_bind; [apply adb_touches; intros; by apply upsertApp_changes|intros].
  do 2 (apply touches_bind; [apply same_touches, same_system|intros]). auto with frames.
Qed.

Lemma add_touches c : touches [SystemSettings; ExtraApps] (handleAddExtraApp env c).
Proof using Type.
  unfold handleAddExtraApp, app_argument. pose proof install_extra_touches.
  repeat first [ solve [auto with frames] | apply touches_if | apply touches_bind; [|intros]
               | case_match ].
Qed.

Lemma remove_touches c : touches [SystemSettings; ExtraApps] (handleRemoveExtraApp c).
Proof using Type.
  unfold handleRemoveExtraApp, with_app, app_argument, drop_setting.
  repeat first
    [ solve [auto with frames] | apply touches_if | apply touches_bind; [|intros]
    | apply adb_touches; intros; first [by apply deleteSetting_changes|by apply deleteApp_changes] ].
Qed.

(** Every handler of the application commands. *)
Lemma app_handler_touches h f c :
  app_handler env net dump dump2 parse h = Some f -> touches (app_tables h) (f c).
Proof using Type.
  intros H. destruct (decide (h = H_handleAddExtraApp)) as [->|].
  { injection H as <-. apply add_touches. }
  destruct (decide (h = H_handleRemoveExtraApp)) as [->|].
  { injection H as <-. apply remove_touches. }
  by eapply same_touches, same_handler.
Qed.
End AppHandlers.

(** ** The terminals *)

Definition terminal_tables (h : HandlerId) : list Table :=
  match h with
  | H_handleUpdateDirHistory => [Terminals; SystemSettings]
  | H_handleOpenedTty | H_handleClosedTty | H_handleCdForward | H_handleCdBackward
  | H_handleEmptyDirHistoryTable => [Terminals]
  | _ => []
  end.

#[export] Hint Resolve session_changes deleteSession_changes upsertHistory_changes
  pruneHistory_changes emptyHistory_changes : frames.

(** Chain the updates of the tables, last first. *)
Ltac changes := repeat first [reflexivity | solve [auto with frames] | etrans; [|solve [auto with frames]]].

Section TerminalHandlers.
Context (is_directory : string -> bool).

Lemma construct_changes S tty t :
  writes Terminals S = true -> changes_only S (db t) (db (Terminal.construct is_directory tty t)).
Proof using Type.
  intros H. unfold Terminal.construct, upd_db. cbv zeta. cbn [db instances].
  repeat case_match; simplify_eq/=; changes.
Qed.

Lemma create_changes S tty t :
  writes Terminals S = true -> changes_only S (db t) (db (Terminal.create_if_absent is_directory tty t)).
Proof using Type.
  intros H. unfold Terminal.create_if_absent.
  destruct (Terminal.has_instance tty t); [reflexivity|by apply construct_changes].
Qed.
#[local] Hint Resolve create_changes : frames.

Lemma with_tty_touches S c k : (forall s tty, touches S (k s tty)) -> touches S (Terminal.with_tty c k).
Proof using Type. intros H. unfold Terminal.with_tty. touch. Qed.

Lemma create_touches S tty :
  writes Terminals S = true -> touches S (modify (Terminal.create_if_absent is_directory tty)).
Proof using Type. intros H. apply touches_modify. intros t. by apply create_changes. Qed.
#[local] Hint Resolve create_touches : frames.

Lemma update_changes_tables tty pwd d :
  changes_only [Terminals; SystemSettings] d (Terminal.update_history tty pwd d).1.
Proof using Type.
  unfold Terminal.update_history. cbv zeta. repeat case_match; cbn [fst]; changes.
Qed.

Lemma on_db_touches S f : (forall d, changes_only S d (f d).1) -> touches S (Terminal.on_db f).
Proof using Type.
  intros H t. specialize (H (db t)). unfold Terminal.on_db. by destruct (f (db t)).
Qed.

Lemma opened_touches_tables c : touches [Terminals] (Terminal.openedTty is_directory c).
Proof using Type.
  apply with_tty_touches. intros _ tty t. cbn.
  pose proof (create_changes [Terminals] tty t eq_refl) as H.
  set (t1 := Terminal.create_if_absent is_directory tty t) in *. etrans; [exact H|]. clearbody t1.
  unfold Terminal._openedTty, upd_db, get_tables, tables_TS. cbv zeta.
  repeat case_match; simplify_eq/=; changes.
Qed.

Lemma updateDirHistory_touches c :
  touches [Terminals; SystemSettings] (Terminal.updateDirHistory is_directory c).
Proof using Type.
  apply with_tty_touches. intros _ tty. apply touches_bind; [auto with frames|intros].
  apply touches_bind; [auto with frames|]. intros pwd t.
  pose proof (update_changes_tables tty (Terminal.standardizePath pwd) (db t)) as H.
  by destruct (Terminal.update_history _ _ _).
Qed.

Lemma cd_touches c :
  touches [Terminals] (Terminal.cdForward is_directory c) /\
  touches [Terminals] (Terminal.cdBackward is_directory c).
Proof using Type.
  split; apply with_tty_touches; intros _ tty; (apply touches_bind; [auto with frames|intros]);
    apply on_db_touches; intros d; unfold Terminal.cd_forward, Terminal.cd_backward;
    case_match; cbn [fst]; changes.
Qed.

Lemma closed_touches c : touches [Terminals] (Terminal.closedTty c).
Proof using Type.
  apply with_tty_touches. intros s tty t. unfold get_tables, tables_TS. destruct (Terminal.has_instance tty t); cbn; changes.
Qed.
End TerminalHandlers.
