(* ===== verification/WireGuard.v ===== *)
(** The WireGuard and RDP commands (src/cmdWireGuard.cpp): what they run through popen
    and how they read its output.  The state is the list of the commands run; what a
    command prints and how it exits is an argument. *)

From S2P Require Import Prelude Stdio Types Json Ports Registry Dispatch Server Peers.

(** ** popen and fgets *)

(** The output and the exit status of a command, or the text of errno when popen()
    fails. *)
Definition Popen := string -> (string * Z) + string.

(** s.find_first_not_of(c1 c2): what is left from there, if anything *)
Fixpoint skip_chars (skip : ascii -> bool) (s : string) : option string :=
  match s with
  | EmptyString => None
  | String c s' => if skip c then skip_chars skip s' else Some s
  end.
Definition is_blank (c : ascii) : bool := bool_decide (c = " "%char \/ c = "009"%char).
Definition is_blank_space (c : ascii) : bool := bool_decide (c = " "%char).

(** s.find(c): what is before it and what is after *)
Fixpoint split_at (c : ascii) (s : string) : option (string * string) :=
  match s with
  | EmptyString => None
  | String d s' =>
      if decide (d = c) then Some (EmptyString, s')
      else match split_at c s' with
           | Some (a, b) => Some (String d a, b)
           | None => None
           end
  end.

(** ** The peers of wg0.conf *)

(** The value of a line "Key = value": after the first '=' and the spaces after it. *)
Definition value_of (line : string) : option string :=
  match split_at "=" line with
  | Some (_, value) => skip_chars is_blank_space value
  | None => None
  end.

(** The variables of the loop: peers and current_peer. *)
Record Listing := mkListing { peers : list json; current_peer : list (string * json) }.

(** if (!current_peer.empty()) peers.push_back(current_peer) *)
Definition save_peer (l : Listing) : list json :=
  match current_peer l with [] => peers l | m => peers l ++ [JObject m] end.
Definition set_current (k v : string) (l : Listing) : Listing :=
  mkListing (peers l) (Json.set_ordered k (JString v) (current_peer l)).

Definition list_line (l : Listing) (line : string) : Listing :=
  match skip_chars is_blank line with
  | None => l
  | Some line =>
      if Str.starts_with "[Peer]" line then mkListing (save_peer l) []
      else if Str.starts_with "#" line && Nat.ltb 2 (String.length line) then
        set_current "name" (Str.drop 2 line) l
      else if Str.starts_with "PublicKey" line then
        match value_of line with Some v => set_current "public_key" v l | None => l end
      else if Str.starts_with "AllowedIPs" line then
        match value_of line with
        | Some ip =>
            set_current "vpn_ip" match split_at "/" ip with Some (a, _) => a | None => ip end l
        | None => l
        end
      else l
  end.

Definition list_peers (output : string) : json :=
  JArray (save_peer (foldl list_line (mkListing [] []) (Str.split_lines output))).

Section WireGuard.
Context (popen : Popen) (base : string) (dump2 : json -> string).

(** Run a command. *)
Definition run_popen (cmd : string) : M (list string) ((string * Z) + string) :=
  let! _ := modify (fun w => w ++ [cmd]) in mret (popen cmd).

(** An optional argument of the script. *)
Definition script_option (name value : string) : string :=
  if Str.empty value then "" else (" --" +:+ name +:+ " " +:+ value)%string.

Definition quoted (s : string) : string := ("'" +:+ s +:+ "'")%string.

Definition script_arguments (name vpnIp mac : string) (dualBoot : bool) (privateKey : string) : string :=
  ("--name " +:+ name +:+ script_option "ip" vpnIp +:+ script_option "mac" mac +:+
   (if dualBoot then " --dual-boot" else "") +:+
   (if Str.empty privateKey then "" else " --private-key " +:+ quoted privateKey) +:+
   " --leader-ip " +:+ WG_LEADER_IP)%string.

Definition setup_command (host args : string) : string :=
  let scriptPath := (base +:+ "daemon/scripts/setup_wireguard_peer.sh")%string in
  if Str.empty host then ("bash " +:+ scriptPath +:+ " " +:+ args +:+ " 2>&1")%string
  else ("ssh -o StrictHostKeyChecking=accept-new -o ConnectTimeout=10 root@" +:+ host +:+
        " 'bash -s -- " +:+ args +:+ "' < " +:+ scriptPath +:+ " 2>&1")%string.

Definition handleSetupWireGuardPeer (command : json) : M (list string) CmdResult :=
  let! name := lift (Json.string_at "name" command) in
  let! host := lift (Json.value Json.get_string "host" "" command) in
  let! vpnIp := lift (Json.value Json.get_string "vpnIp" "" command) in
  let! mac := lift (Json.value Json.get_string "mac" "" command) in
  let! dualBoot := lift (Json.value Json.get_bool "dualBoot" false command) in
  let! privateKey := lift (Json.value Json.get_string "privateKey" "" command) in
  if Str.empty name then mret (mkCmdResult 1 ("Name is required (--name)" +:+ eol))
  else
    let! r := run_popen (setup_command host (script_arguments name vpnIp mac dualBoot privateKey)) in
    mret match r with
         | inr error => mkCmdResult 1 ("Failed to execute setup script: " +:+ error +:+ eol)
         | inl (output, exit_code) => mkCmdResult exit_code (read_pipe 255 output)
         end.

Definition list_command : string :=
  let quote := String "034"%char "" in
  ("ssh -o StrictHostKeyChecking=accept-new -o ConnectTimeout=5 root@31.133.102.195 'grep -E " +:+
   quote +:+ "^\[Peer\]|^# |^PublicKey|^AllowedIPs" +:+ quote +:+
   " /etc/wireguard/wg0.conf' 2>&1")%string.

Definition handleListWireGuardPeers (command : json) : M (list string) CmdResult :=
  let! r := run_popen list_command in
  mret match r with
       | inr _ => mkCmdResult 1 ("Failed to connect to WireGuard server" +:+ eol)
       | inl (output, exit_code) =>
           let output := read_pipe 255 output in
           if exit_code =? 0 then mkCmdResult 0 (dump2 (list_peers output) +:+ eol)
           else mkCmdResult exit_code ("Failed to list peers: " +:+ output)
       end.

(** Only the first line is read, up to 63 bytes of it. *)
Definition first_address (output : string) : string :=
  let ip := c_string (fgets 63 output).1 in
  if Str.ends_with_char lf ip then Str.pop_back ip else ip.

Definition handleGetWireGuardIp (command : json) : M (list string) CmdResult :=
  let! r := run_popen
    "ip -4 addr show wg0 2>/dev/null | grep -oP '(?<=inet\s)\d+\.\d+\.\d+\.\d+'" in
  mret match r with
       | inr _ => mkCmdResult 1 ("Failed to query wg0 interface" +:+ eol)
       | inl (output, exit_code) =>
           let ip := first_address output in
           if negb (exit_code =? 0) || Str.empty ip then
             mkCmdResult 1 ("WireGuard interface wg0 not found or has no IP" +:+ eol)
           else mkCmdResult 0 (ip +:+ eol)
       end.

Definition rdp_command (username password : string) : string :=
  ("(grdctl rdp enable && grdctl rdp set-credentials " +:+ quoted username +:+ " " +:+
   quoted password +:+ " && grdctl rdp disable-view-only && echo 'RDP setup complete') 2>&1")%string.

Definition handleSetupRdp (command : json) : M (list string) CmdResult :=
  let! username := lift (Json.value Json.get_string "rdpUsername" "yaniv" command) in
  let! password := lift (Json.value Json.get_string "rdpPassword" "testpass123" command) in
  let! r := run_popen (rdp_command username password) in
  mret match r with
       | inr error => mkCmdResult 1 ("Failed to execute grdctl: " +:+ error +:+ eol)
       | inl (output, exit_code) =>
           if exit_code =? 0 then
             mkCmdResult 0 ("RDP enabled for user '" +:+ username +:+ "' on port 3389" +:+ eol)
           else mkCmdResult exit_code ("RDP setup failed:" +:+ eol +:+ read_pipe 255 output)
       end.

(** The handlers by name. *)
Definition wireguard_handler (h : HandlerId) : option (json -> M (list string) CmdResult) :=
  match h with
  | H_handleSetupWireGuardPeer => Some handleSetupWireGuardPeer
  | H_handleListWireGuardPeers => Some handleListWireGuardPeers
  | H_handleGetWireGuardIp => Some handleGetWireGuardIp
  | H_handleSetupRdp => Some handleSetupRdp
  | _ => None
  end.
End WireGuard.

(** ** What the listing shows *)

(** The lines setup_wireguard_peer.sh appends to wg0.conf for a peer, as the command
    filters them. *)
Record WgPeer := mkWgPeer { wg_name : string; wg_key : string; wg_ip : string }.

Definition conf_lines (p : WgPeer) : list string :=
  ["[Peer]"; "# " +:+ wg_name p; "PublicKey = " +:+ wg_key p;
   "AllowedIPs = " +:+ wg_ip p +:+ "/32"]%string.
Definition conf (l : list WgPeer) : string :=
  foldr (fun line s => (line +:+ eol +:+ s)%string) "" (l ≫= conf_lines).
Definition shown (p : WgPeer) : json :=
  JObject [("name", JString (wg_name p)); ("public_key", JString (wg_key p));
           ("vpn_ip", JString (wg_ip p))].

(** A value that can stand in a line: not empty, no line break, no NUL, no space in
    front. *)
Definition plain_value (s : string) : bool :=
  negb (Str.empty s) && free_of lf s && no_nul s && negb (Str.starts_with " " s).
Definition plain_peer (p : WgPeer) : bool :=
  plain_value (wg_name p) && plain_value (wg_key p) && plain_value (wg_ip p)
  && free_of "/" (wg_ip p).

Lemma split_lines_all l :
  forallb (free_of lf) l = true ->
  Str.split_lines (foldr (fun line s => (line +:+ eol +:+ s)%string) "" l) = l.
Proof.
  induction l as [|x l IH]; [done|]. cbn [forallb foldr]. intros [Hx Hl]%andb_true_iff.
  by rewrite split_lines_line, IH.
Qed.

(** The steps of the listing on the lines of one peer. *)
Lemma split_at_free c a b : free_of c a = true -> split_at c (a +:+ String c b) = Some (a, b).
Proof.
  intros H. induction a as [|d a IH]; cbn [free_of split_at String.append] in *; [by rewrite decide_True|].
  apply andb_true_iff in H as [Hd%bool_decide_eq_true H]. by rewrite decide_False, IH.
Qed.

Lemma value_after pre s :
  free_of "=" pre = true -> plain_value s = true ->
  value_of (pre +:+ "= " +:+ s) = Some s.
Proof.
  intros Hp Hs. unfold value_of.
  change (pre +:+ "= " +:+ s)%string with (pre +:+ String "=" (" " +:+ s))%string.
  rewrite split_at_free by done.
  unfold plain_value in Hs. destruct s as [|c s]; [done|]. cbn.
  unfold is_blank_space at 1. rewrite bool_decide_eq_true_2 by done.
  destruct (is_blank_space c) eqn:E; [|done].
  apply bool_decide_eq_true in E as ->. cbn in Hs.
  destruct s; by rewrite !andb_false_r in Hs.
Qed.

Lemma plain_ip ip : plain_value ip = true -> plain_value (ip +:+ "/32") = true.
Proof.
  unfold plain_value. rewrite free_of_append, no_nul_append, !andb_true_iff.
  intros [[[H1 ->] ->] H4]. destruct ip as [|c ip]; [done|]. split; [by split|].
  cbn in H4 |- *. by destruct (ascii_dec " " c), ip.
Qed.

Lemma list_peer p saved current :
  plain_peer p = true ->
  foldl list_line (mkListing saved current) (conf_lines p) =
  mkListing (save_peer (mkListing saved current))
    [("name", JString (wg_name p)); ("public_key", JString (wg_key p)); ("vpn_ip", JString (wg_ip p))].
Proof.
  destruct p as [name key ip]. unfold plain_peer, conf_lines. cbn [wg_name wg_key wg_ip].
  rewrite !andb_true_iff. intros [[[Hn Hk] Hi] Hs]. cbn [foldl].
  assert (list_line (mkListing saved current) "[Peer]" =
          mkListing (save_peer (mkListing saved current)) []) as -> by reflexivity.
  generalize (save_peer (mkListing saved current)). clear saved current. intros saved.
  assert (list_line (mkListing saved []) ("# " +:+ name) =
          mkListing saved [("name", JString name)]) as ->.
  { destruct name as [|c name]; [done|]. reflexivity. }
  assert (forall cur, list_line (mkListing saved cur) ("PublicKey = " +:+ key) =
          mkListing saved (Json.set_ordered "public_key" (JString key) cur)) as ->.
  { intros cur.
    change (match value_of ("PublicKey = " +:+ key) with
            | Some v => set_current "public_key" v (mkListing saved cur)
            | None => mkListing saved cur
            end = mkListing saved (Json.set_ordered "public_key" (JString key) cur)).
    change ("PublicKey = " +:+ key)%string with ("PublicKey " +:+ "= " +:+ key)%string.
    rewrite value_after by done. reflexivity. }
  assert (forall cur, list_line (mkListing saved cur) ("AllowedIPs = " +:+ ip +:+ "/32") =
          mkListing saved (Json.set_ordered "vpn_ip" (JString ip) cur)) as ->.
  { intros cur.
    change (match value_of ("AllowedIPs = " +:+ ip +:+ "/32") with
            | Some ip => set_current "vpn_ip"
                match split_at "/" ip with Some (a, _) => a | None => ip end (mkListing saved cur)
            | None => mkListing saved cur
            end = mkListing saved (Json.set_ordered "vpn_ip" (JString ip) cur)).
    change ("AllowedIPs = " +:+ ip +:+ "/32")%string
      with ("AllowedIPs " +:+ "= " +:+ (ip +:+ "/32"))%string.
    rewrite value_after by (done || by apply plain_ip). change (ip +:+ "/32")%string with (ip +:+ String "/" "32")%string.
    rewrite split_at_free by done. reflexivity. }
  reflexivity.
Qed.

Lemma list_all l saved current :
  forallb plain_peer l = true ->
  save_peer (foldl list_line (mkListing saved current) (l ≫= conf_lines)) =
  save_peer (mkListing saved current) ++ (shown <$> l).
Proof.
  revert saved current. induction l as [|p l IH]; intros saved current H.
  - by rewrite app_nil_r.
  - cbn in H. apply andb_true_iff in H as [Hp Hl]. rewrite bind_cons, foldl_app, list_peer by done.
    rewrite IH by done. unfold save_peer at 1. cbn. by rewrite <- app_assoc.
Qed.

Lemma conf_line_text p :
  plain_peer p = true -> forallb (fun l => free_of lf l && no_nul l) (conf_lines p) = true.
Proof.
  unfold plain_peer, plain_value. rewrite !andb_true_iff. intros H. destruct_and?.
  unfold conf_lines. cbn [forallb]. rewrite !free_of_append, !no_nul_append.
  repeat (apply andb_true_iff; split); done.
Qed.

Lemma conf_text l :
  forallb plain_peer l = true -> forallb (fun l => free_of lf l && no_nul l) (l ≫= conf_lines) = true.
Proof.
  induction l as [|p l IH]; [done|]. cbn [forallb]. intros [Hp Hl]%andb_true_iff.
  by rewrite bind_cons, forallb_app, conf_line_text, IH.
Qed.

Lemma conf_no_nul lines :
  forallb (fun l => free_of lf l && no_nul l) lines = true ->
  no_nul (foldr (fun line s => (line +:+ eol +:+ s)%string) "" lines) = true /\
  forallb (free_of lf) lines = true.
Proof.
  induction lines as [|x lines IH]; [done|]. cbn [forallb foldr].
  intros [[Hx Hn]%andb_true_iff Hl]%andb_true_iff. destruct (IH Hl) as [H1 H2].
  by rewrite !no_nul_append, Hx, Hn, H1, H2.
Qed.

(** C35: The peers setup_wireguard_peer.sh wrote to wg0.conf are what listWireGuardPeers
    shows, in order, each with its name, key and address, whatever their number and the
    length of their lines, as long as no value is empty, starts with a space or holds a
    line break, and no address a slash. *)
Theorem wireguard_listing (popen : Popen) (dump2 : json -> string) (l : list WgPeer)
    (command : json) (ran : list string) :
  forallb plain_peer l = true -> popen list_command = inl (conf l, 0) ->
  handleListWireGuardPeers popen dump2 command ran =
  (ran ++ [list_command], Ok (mkCmdResult 0 (dump2 (JArray (shown <$> l)) +:+ eol))).
Proof.
  intros Hl Hp. unfold handleListWireGuardPeers, run_popen. rewrite Hp, bindM_assoc, bindM_modify, bindM_ret.
  cbn [Z.eqb]. destruct (conf_no_nul _ (conf_text l Hl)) as [H1 H2].
  rewrite read_pipe_id by exact H1. unfold list_peers, conf.
  rewrite split_lines_all by exact H2. by rewrite list_all.
Qed.

Definition two_peers : list WgPeer :=
  [mkWgPeer "laptop" "abc=" "10.0.0.2"; mkWgPeer "desk top" "def=" "10.0.0.3"].

Lemma wireguard_listing_witness :
  handleListWireGuardPeers (fun _ => inl (conf two_peers, 0)) (fun _ => "out") JNull [] =
  ([list_command], Ok (mkCmdResult 0 ("out" +:+ eol))).
Proof.
  exact (wireguard_listing (fun _ => inl (conf two_peers, 0)) (fun _ => "out") two_peers JNull []
           eq_refl eq_refl).
Defined.

(** A comment before the first peer is listed as a peer of its own, without a key. *)
Example comment_is_a_peer :
  list_peers ("# managed by hand" +:+ eol +:+ conf two_peers) =
  JArray (JObject [("name", JString "managed by hand")] :: (shown <$> two_peers)).
Proof. reflexivity. Qed.
