(* ===== verification/KeySim.v ===== *)
(** Simulated input (src/cmdInput.cpp, include/KeyNames.h): typing a text, named
    keys, application switches, and raw events with their rate limit.

    The simulated events are written to the virtual device of the input mapper.
    What a desktop makes of them is the reference keyboard at the end of the
    definitions: a US layout that knows nothing of the daemon's own table. *)

From S2P Require Import Prelude Types Json Keys InputMapper.

(** ** Characters *)

(** The cases of the switch of typeChar, in order: the key of a character and
    whether it needs Shift. *)
Definition lower_keys : list (ascii * (Z * bool)) := [
  ("a"%char, (KEY_A, false)); ("b"%char, (KEY_B, false)); ("c"%char, (KEY_C, false));
  ("d"%char, (KEY_D, false)); ("e"%char, (KEY_E, false)); ("f"%char, (KEY_F, false));
  ("g"%char, (KEY_G, false)); ("h"%char, (KEY_H, false)); ("i"%char, (KEY_I, false));
  ("j"%char, (KEY_J, false)); ("k"%char, (KEY_K, false)); ("l"%char, (KEY_L, false));
  ("m"%char, (KEY_M, false)); ("n"%char, (KEY_N, false)); ("o"%char, (KEY_O, false));
  ("p"%char, (KEY_P, false)); ("q"%char, (KEY_Q, false)); ("r"%char, (KEY_R, false));
  ("s"%char, (KEY_S, false)); ("t"%char, (KEY_T, false)); ("u"%char, (KEY_U, false));
  ("v"%char, (KEY_V, false)); ("w"%char, (KEY_W, false)); ("x"%char, (KEY_X, false));
  ("y"%char, (KEY_Y, false)); ("z"%char, (KEY_Z, false))
].
Definition upper_keys : list (ascii * (Z * bool)) := [
  ("A"%char, (KEY_A, true)); ("B"%char, (KEY_B, true)); ("C"%char, (KEY_C, true));
  ("D"%char, (KEY_D, true)); ("E"%char, (KEY_E, true)); ("F"%char, (KEY_F, true));
  ("G"%char, (KEY_G, true)); ("H"%char, (KEY_H, true)); ("I"%char, (KEY_I, true));
  ("J"%char, (KEY_J, true)); ("K"%char, (KEY_K, true)); ("L"%char, (KEY_L, true));
  ("M"%char, (KEY_M, true)); ("N"%char, (KEY_N, true)); ("O"%char, (KEY_O, true));
  ("P"%char, (KEY_P, true)); ("Q"%char, (KEY_Q, true)); ("R"%char, (KEY_R, true));
  ("S"%char, (KEY_S, true)); ("T"%char, (KEY_T, true)); ("U"%char, (KEY_U, true));
  ("V"%char, (KEY_V, true)); ("W"%char, (KEY_W, true)); ("X"%char, (KEY_X, true));
  ("Y"%char, (KEY_Y, true)); ("Z"%char, (KEY_Z, true))
].
Definition digit_keys : list (ascii * (Z * bool)) := [
  ("1"%char, (KEY_1, false)); ("2"%char, (KEY_2, false)); ("3"%char, (KEY_3, false));
  ("4"%char, (KEY_4, false)); ("5"%char, (KEY_5, false)); ("6"%char, (KEY_6, false));
  ("7"%char, (KEY_7, false)); ("8"%char, (KEY_8, false)); ("9"%char, (KEY_9, false));
  ("0"%char, (KEY_0, false)); ("!"%char, (KEY_1, true)); ("@"%char, (KEY_2, true));
  ("#"%char, (KEY_3, true)); ("$"%char, (KEY_4, true)); ("%"%char, (KEY_5, true));
  ("^"%char, (KEY_6, true)); ("&"%char, (KEY_7, true)); ("*"%char, (KEY_8, true));
  ("("%char, (KEY_9, true)); (")"%char, (KEY_0, true))
].
Definition symbol_keys : list (ascii * (Z * bool)) := [
  ("-"%char, (KEY_MINUS, false)); ("_"%char, (KEY_MINUS, true)); ("="%char, (KEY_EQUAL, false));
  ("+"%char, (KEY_EQUAL, true)); ("["%char, (KEY_LEFTBRACE, false)); ("{"%char, (KEY_LEFTBRACE, true));
  ("]"%char, (KEY_RIGHTBRACE, false)); ("}"%char, (KEY_RIGHTBRACE, true)); ("\"%char, (KEY_BACKSLASH, false));
  ("|"%char, (KEY_BACKSLASH, true)); (";"%char, (KEY_SEMICOLON, false)); (":"%char, (KEY_SEMICOLON, true));
  ("'"%char, (KEY_APOSTROPHE, false)); ("034"%char, (KEY_APOSTROPHE, true)); (","%char, (KEY_COMMA, false));
  ("<"%char, (KEY_COMMA, true)); ("."%char, (KEY_DOT, false)); (">"%char, (KEY_DOT, true));
  ("/"%char, (KEY_SLASH, false)); ("?"%char, (KEY_SLASH, true)); ("`"%char, (KEY_GRAVE, false));
  ("~"%char, (KEY_GRAVE, true)); (" "%char, (KEY_SPACE, false)); ("010"%char, (KEY_ENTER, false));
  ("009"%char, (KEY_TAB, false))
].
Definition char_keys : list (ascii * (Z * bool)) :=
  lower_keys ++ upper_keys ++ digit_keys ++ symbol_keys.

Fixpoint lookup_char (c : ascii) (l : list (ascii * (Z * bool))) : option (Z * bool) :=
  match l with
  | [] => None
  | (c', k) :: l' => if decide (c = c') then Some k else lookup_char c l'
  end.
Definition char_code (c : ascii) : option (Z * bool) := lookup_char c char_keys.

(** An emit followed by a sync. *)
Definition emit_sync (code value : Z) (s : IM) : IM := sync (emit EV_KEY code value s).

Definition typeChar (c : ascii) (s : IM) : IM :=
  match char_code c with
  | None => s
  | Some (code, shift) =>
      if code =? 0 then s
      else
        let s := if shift then emit_sync KEY_LEFTSHIFT 1 s else s in
        let s := emit_sync code 0 (emit_sync code 1 s) in
        if shift then emit_sync KEY_LEFTSHIFT 0 s else s
  end.

(** for (char c : str) typeChar(c) *)
Fixpoint type_string (str : string) (s : IM) : IM :=
  match str with
  | EmptyString => s
  | String c rest => type_string rest (typeChar c s)
  end.

(** ** Named keys *)

(** KEY_NAME_TO_CODE and APP_NAME_TO_CODE of KeyNames.h, in the order written: the
    map keeps the first of two equal names. *)
Definition KEY_NAME_TO_CODE : list (string * Z) := [
  ("keyA", KEY_A); ("keyB", KEY_B); ("keyC", KEY_C);
  ("keyD", KEY_D); ("keyE", KEY_E); ("keyF", KEY_F);
  ("keyG", KEY_G); ("keyH", KEY_H); ("keyI", KEY_I);
  ("keyJ", KEY_J); ("keyK", KEY_K); ("keyL", KEY_L);
  ("keyM", KEY_M); ("keyN", KEY_N); ("keyO", KEY_O);
  ("keyP", KEY_P); ("keyQ", KEY_Q); ("keyR", KEY_R);
  ("keyS", KEY_S); ("keyT", KEY_T); ("keyU", KEY_U);
  ("keyV", KEY_V); ("keyW", KEY_W); ("keyX", KEY_X);
  ("keyY", KEY_Y); ("keyZ", KEY_Z); ("period", KEY_DOT);
  ("dot", KEY_DOT); ("slash", KEY_SLASH); ("minus", KEY_MINUS);
  ("dash", KEY_MINUS); ("space", KEY_SPACE); ("comma", KEY_COMMA);
  ("equals", KEY_EQUAL); ("equal", KEY_EQUAL); ("backspace", KEY_BACKSPACE);
  ("semicolon", KEY_SEMICOLON); ("apostrophe", KEY_APOSTROPHE); ("quote", KEY_APOSTROPHE);
  ("backslash", KEY_BACKSLASH); ("bracket_left", KEY_LEFTBRACE); ("leftbracket", KEY_LEFTBRACE);
  ("bracket_right", KEY_RIGHTBRACE); ("rightbracket", KEY_RIGHTBRACE); ("backtick", KEY_GRAVE);
  ("grave", KEY_GRAVE); ("enter", KEY_ENTER); ("keyShift", KEY_LEFTSHIFT);
  ("keyCtrl", KEY_LEFTCTRL); ("keyAlt", KEY_LEFTALT); ("keyMeta", KEY_LEFTMETA);
  ("keyTab", KEY_TAB); ("keyCaps", KEY_CAPSLOCK); ("keyEsc", KEY_ESC);
  ("keyF1", KEY_F1); ("keyF2", KEY_F2); ("keyF3", KEY_F3);
  ("keyF4", KEY_F4); ("keyF5", KEY_F5); ("keyF6", KEY_F6);
  ("keyF7", KEY_F7); ("keyF8", KEY_F8); ("keyF9", KEY_F9);
  ("keyF10", KEY_F10); ("keyF11", KEY_F11); ("keyF12", KEY_F12);
  ("keyUp", KEY_UP); ("keyDown", KEY_DOWN); ("keyLeft", KEY_LEFT);
  ("keyRight", KEY_RIGHT); ("keyPageUp", KEY_PAGEUP); ("keyPageDown", KEY_PAGEDOWN);
  ("keyHome", KEY_HOME); ("keyEnd", KEY_END); ("keyInsert", KEY_INSERT);
  ("keyDelete", KEY_DELETE); ("numlock", KEY_NUMLOCK); ("enter", KEY_ENTER);
  ("syn", 0)
].
Definition APP_NAME_TO_CODE : list (string * Z) := [
  ("code", 102); ("gnome-terminal-server", 103); ("google-chrome", 104);
  ("DefaultKeyboard", 101)
].
Definition KEY_CODE_FOR_APP_SWITCH : Z := 100.

Fixpoint named_code (name : string) (l : list (string * Z)) : option Z :=
  match l with
  | [] => None
  | (n, code) :: l' => if decide (name = n) then Some code else named_code name l'
  end.

(** The suffix of a name: Down is a press, Up a release, no suffix (-1) a click. *)
Definition split_suffix (keyName : string) : string * Z :=
  if Str.has_suffix "Down" keyName then (Str.take (String.length keyName - 4) keyName, 1)
  else if Str.has_suffix "Up" keyName then (Str.take (String.length keyName - 2) keyName, 0)
  else (keyName, -1).

Definition emit_scan (code : Z) (s : IM) : IM := emit EV_MSC MSC_SCAN code s.
Definition numlock_event (value : Z) (s : IM) : IM :=
  sync (emit EV_KEY KEY_NUMLOCK value (emit_scan 69 s)).

(** One turn of the loop that announces an application switch. *)
Definition announce_switch (s : IM) (i : Z) : IM :=
  sync (emit_scan (KEY_CODE_FOR_APP_SWITCH + 100 + i) (emit_scan KEY_CODE_FOR_APP_SWITCH s)).

(** The branch of handleSimulateInput for a key name. *)
Definition simulate_key (keyName : string) (s : IM) : IM * CmdResult :=
  let '(baseName, value) := split_suffix keyName in
  if decide (keyName = "syn") then (sync s, mkCmdResult 0 "")
  else if decide (keyName = "numlock") then
    (numlock_event 0 (numlock_event 1 s), mkCmdResult 0 "")
  else if decide (keyName = "numlockDown") then (numlock_event 1 s, mkCmdResult 0 "")
  else if decide (keyName = "numlockUp") then (numlock_event 0 s, mkCmdResult 0 "")
  else
    match named_code keyName APP_NAME_TO_CODE with
    | Some appCode => (sync (emit_scan appCode (foldl announce_switch s [0; 1; 2])), mkCmdResult 0 "")
    | None =>
        match named_code baseName KEY_NAME_TO_CODE with
        | None => (s, mkCmdResult 1 ("Unknown key name: " +:+ keyName +:+ String "010"%char ""))
        | Some keyCode =>
            let code := to_uint16 keyCode in
            (if value =? -1 then emit_sync code 0 (emit_sync code 1 s)
             else emit_sync code value s, mkCmdResult 0 "")
        end
    end.

(** ** Raw events *)

(** The mapper, and the static lastEventTime (in nanoseconds) and eventCount of the
    rate limit. *)
Record Sim := mkSim { mapper : IM; lastEventTime : Z; eventCount : Z }.

Definition on_mapper (f : IM -> IM) (s : Sim) : Sim :=
  mkSim (f (mapper s)) (lastEventTime s) (eventCount s).

(** duration_cast<milliseconds> of a difference of clock readings *)
Definition milliseconds (ns : Z) : Z := Z.quot ns 1000000.

(** The rate limit: is the event let through, and the new counters. *)
Definition rate_limit (now type : Z) (s : Sim) : bool * Sim :=
  if milliseconds (now - lastEventTime s) <? 10 then
    let s := mkSim (mapper s) (lastEventTime s) (eventCount s + 1) in
    (negb ((50 <? eventCount s) && ((type =? EV_ABS) || (type =? EV_REL))), s)
  else (true, mkSim (mapper s) now 1).

Definition write_raw (type code value : Z) (s : IM) : IM :=
  if type =? EV_SYN then sync s
  else if type =? EV_ABS then emitNoSync type code value s
  else emit type code value s.

Definition raw_event (now type code value : Z) (s : Sim) : Sim :=
  let '(pass, s) := rate_limit now type s in
  if pass then on_mapper (write_raw type code value) s else s.

Definition handleSimulateInput (now : Z) (command : json) : M Sim CmdResult :=
  if Json.contains "string" command then
    let! str := lift (Json.string_at "string" command) in
    let! _ := modify (on_mapper (type_string str)) in
    mret (mkCmdResult 0 "")
  else if Json.contains "key" command then
    let! keyName := lift (Json.string_at "key" command) in
    fun s =>
      let '(im, r) := simulate_key keyName (mapper s) in
      (mkSim im (lastEventTime s) (eventCount s), Ok r)
  else if negb (Json.contains "type" command) || negb (Json.contains "code" command)
          || negb (Json.contains "value" command) then
    mret (mkCmdResult 1 ("Missing arguments: type, code, value, string, or key"
                           +:+ String "010"%char ""))
  else
    let! type := lift (v ← Json.at_key "type" command; Json.get_uint16 v) in
    let! code := lift (v ← Json.at_key "code" command; Json.get_uint16 v) in
    let! value := lift (v ← Json.at_key "value" command; Json.get_int32 v) in
    let! _ := modify (raw_event now type code value) in
    mret (mkCmdResult 0 "").

(** ** The reference keyboard *)

(** A US layout: the characters of a row of keys, from a first key code on. *)
Definition us_rows : list (Z * string * string) := [
  (2, "1234567890-=", "!@#$%^&*()_+");
  (16, "qwertyuiop[]", "QWERTYUIOP{}");
  (30, "asdfghjkl;'`", String.append "ASDFGHJKL:" (String "034" "~"));
  (43, "\zxcvbnm,./", "|ZXCVBNM<>?");
  (57, " ", " ");
  (15, String "009" "", String "009" "");
  (28, String "010" "", String "010" "")
].

Fixpoint us_char (code : Z) (shift : bool) (rows : list (Z * string * string)) : option ascii :=
  match rows with
  | [] => None
  | (first, plain, shifted) :: rest =>
      if (first <=? code) && (code <? first + Z.of_nat (String.length plain))
      then String.get (Z.to_nat (code - first)) (if shift then shifted else plain)
      else us_char code shift rest
  end.

(** The keyboard state: is Shift held, and the text so far. *)
Record Screen := mkScreen { shift_held : bool; text : string }.

Definition see (k : Screen) (ev : input_event) : Screen :=
  if negb (ev_type ev =? EV_KEY) then k
  else if ev_code ev =? KEY_LEFTSHIFT then mkScreen (negb (ev_value ev =? 0)) (text k)
  else if ev_value ev =? 1 then
    match us_char (ev_code ev) (shift_held k) us_rows with
    | Some c => mkScreen (shift_held k) (text k +:+ String c "")
    | None => k
    end
  else k.

(** The characters of a text the daemon can type. *)
Fixpoint typable (str : string) : string :=
  match str with
  | EmptyString => EmptyString
  | String c rest =>
      match char_code c with Some _ => String c (typable rest) | None => typable rest end
  end.

(** ** What typing a text shows *)

Lemma write_events_app a b s : write_events b (write_events a s) = write_events (a ++ b) s.
Proof.
  unfold write_events. destruct (uinputDev (dev s)) eqn:E; simpl; [|by rewrite E].
  rewrite E. unfold upd_fx. simpl. by rewrite <- app_assoc.
Qed.

Lemma write_events_nil s : write_events [] s = s.
Proof.
  unfold write_events, upd_fx. destruct (uinputDev (dev s)); [|done].
  destruct s as [? ? ? ? []]; simpl. by rewrite app_nil_r.
Qed.

(** The events of a press or a release, and of a character. *)
Definition key_events (code value : Z) : list input_event := [mkEv EV_KEY code value; SYN; SYN].
Definition char_events (c : ascii) : list input_event :=
  match char_code c with
  | None => []
  | Some (code, shift) =>
      if code =? 0 then []
      else (if shift then key_events KEY_LEFTSHIFT 1 else []) ++ key_events code 1
             ++ key_events code 0 ++ (if shift then key_events KEY_LEFTSHIFT 0 else [])
  end.

Lemma emit_sync_events code value s : emit_sync code value s = write_events (key_events code value) s.
Proof. unfold emit_sync, sync, emit. by rewrite write_events_app. Qed.

Lemma typeChar_events c s : typeChar c s = write_events (char_events c) s.
Proof.
  unfold typeChar, char_events. destruct (char_code c) as [[code []]|]; [| |by rewrite write_events_nil];
    (destruct (code =? 0); [by rewrite write_events_nil|]);
    by rewrite !emit_sync_events, !write_events_app, ?app_nil_r, <- ?app_assoc.
Qed.

Definition string_events (str : string) : list input_event :=
  mjoin (char_events <$> list_ascii_of_string str).

Lemma type_string_events str s : type_string str s = write_events (string_events str) s.
Proof.
  revert s. induction str as [|c str IH]; intros s; simpl; [by rewrite write_events_nil|].
  rewrite IH, typeChar_events. unfold string_events. simpl. by rewrite write_events_app.
Qed.

(** A property of every character, checked on all of them. *)
Lemma all_chars (P : ascii -> bool) :
  forallb P (ascii_of_nat <$> seq 0 256) = true -> forall c, P c = true.
Proof.
  intros H c. rewrite forallb_forall in H. apply H. apply list_elem_of_In, list_elem_of_fmap.
  exists (nat_of_ascii c). split; [by rewrite ascii_nat_embedding|].
  apply elem_of_seq. pose proof (nat_ascii_bounded c). lia.
Qed.

(** What a reference keyboard without Shift held shows of a character. *)
Definition shows (c : ascii) : bool :=
  let k := foldl see (mkScreen false "") (char_events c) in
  negb (shift_held k) &&
  bool_decide (text k = match char_code c with Some _ => String c "" | None => "" end).

Lemma every_char_shows c : shows c = true.
Proof. revert c. apply all_chars. vm_compute. reflexivity. Qed.

(** The text before a run of events does not change what it adds. *)
Lemma see_one e b t :
  see (mkScreen b t) e =
  mkScreen (shift_held (see (mkScreen b "") e)) (t +:+ text (see (mkScreen b "") e)).
Proof.
  unfold see. cbn [shift_held text].
  destruct (ev_type e =? EV_KEY); cbn [negb]; [|by rewrite Str.append_nil_r].
  destruct (ev_code e =? KEY_LEFTSHIFT); [by rewrite Str.append_nil_r|].
  destruct (ev_value e =? 1); [|by rewrite Str.append_nil_r].
  destruct (us_char (ev_code e) b us_rows); [done|by rewrite Str.append_nil_r].
Qed.

Lemma see_text evs b t :
  foldl see (mkScreen b t) evs =
  mkScreen (shift_held (foldl see (mkScreen b "") evs))
    (t +:+ text (foldl see (mkScreen b "") evs)).
Proof.
  revert b t. induction evs as [|e evs IH]; intros b t; [by rewrite Str.append_nil_r|].
  cbn [foldl]. rewrite see_one. destruct (see (mkScreen b "") e) as [b' t'].
  cbn [shift_held text]. rewrite (IH b' (t +:+ t')), (IH b' t'). cbn [shift_held text].
  by rewrite Str.append_assoc.
Qed.

Lemma see_char c t :
  foldl see (mkScreen false t) (char_events c) =
  mkScreen false (t +:+ match char_code c with Some _ => String c "" | None => "" end).
Proof.
  rewrite see_text. pose proof (every_char_shows c) as H. unfold shows in H. cbv zeta in H.
  apply andb_true_iff in H as [H1%negb_true_iff H2%bool_decide_eq_true]. by rewrite H1, H2.
Qed.

Lemma see_string str t :
  foldl see (mkScreen false t) (string_events str) = mkScreen false (t +:+ typable str).
Proof.
  revert t. induction str as [|c str IH]; intros t; simpl; [by rewrite Str.append_nil_r|].
  unfold string_events. simpl. rewrite foldl_app, see_char, IH.
  destruct (char_code c); simpl; by rewrite Str.append_assoc.
Qed.

(** The printable ASCII characters, newline and tab. *)
Definition ascii_text (c : ascii) : bool :=
  let n := nat_of_ascii c in (Nat.leb 32 n && Nat.leb n 126) || Nat.eqb n 10 || Nat.eqb n 9.

(** C25: typing a text writes events that a US keyboard shows as exactly the
    characters of the text the daemon knows, in order, with Shift released at the
    end; those are the printable ASCII characters, newline and tab; and nothing of
    the mapper changes but what was written. *)
Theorem typing_shows_text (str t : string) (s : IM) :
  exists evs, type_string str s = write_events evs s /\
    foldl see (mkScreen false t) evs = mkScreen false (t +:+ typable str) /\
    typable str = string_of_list_ascii (base.filter (fun c => ascii_text c = true)
                                          (list_ascii_of_string str)).
Proof.
  exists (string_events str). split; [apply type_string_events|]. split; [apply see_string|].
  assert (forall c, Bool.eqb (ascii_text c) (match char_code c with Some _ => true | None => false end)
                    = true) as Hc by (apply all_chars; vm_compute; reflexivity).
  induction str as [|c str IH]; simpl; [done|].
  specialize (Hc c). apply Bool.eqb_prop in Hc. rewrite filter_cons.
  destruct (char_code c); rewrite Hc; simpl; by rewrite IH.
Qed.

(** ** Named keys *)

Definition special_names : list string := ["syn"; "numlock"; "numlockDown"; "numlockUp"].

Lemma not_special keyName :
  keyName ∉ special_names ->
  keyName <> "syn" /\ keyName <> "numlock" /\ keyName <> "numlockDown" /\
  keyName <> "numlockUp".
Proof. intros H. repeat split; intros ->; apply H; unfold special_names; set_solver. Qed.

Lemma simulate_key_named keyName base value code s :
  split_suffix keyName = (base, value) -> keyName ∉ special_names ->
  named_code keyName APP_NAME_TO_CODE = None -> named_code base KEY_NAME_TO_CODE = Some code ->
  simulate_key keyName s =
  (if value =? -1 then emit_sync (to_uint16 code) 0 (emit_sync (to_uint16 code) 1 s)
   else emit_sync (to_uint16 code) value s, mkCmdResult 0 "").
Proof.
  intros Hs Hn Ha Hk. unfold simulate_key. rewrite Hs.
  destruct (not_special _ Hn) as (H1 & H2 & H3 & H4).
  rewrite (decide_False _ _ H1), (decide_False _ _ H2), (decide_False _ _ H3),
    (decide_False _ _ H4).
  by rewrite Ha, Hk.
Qed.

Lemma simulate_key_unknown keyName s :
  keyName ∉ special_names -> named_code keyName APP_NAME_TO_CODE = None ->
  named_code (split_suffix keyName).1 KEY_NAME_TO_CODE = None ->
  simulate_key keyName s = (s, mkCmdResult 1 ("Unknown key name: " +:+ keyName +:+ String "010"%char "")).
Proof.
  intros Hn Ha Hk. unfold simulate_key. destruct (split_suffix keyName) as [b v]. cbn [fst] in Hk.
  destruct (not_special _ Hn) as (H1 & H2 & H3 & H4).
  rewrite (decide_False _ _ H1), (decide_False _ _ H2), (decide_False _ _ H3),
    (decide_False _ _ H4).
  by rewrite Ha, Hk.
Qed.

(** The names that end like a suffix. *)
Definition swallowed : list string := ["keyUp"; "keyDown"; "keyPageUp"; "keyPageDown"].

(** The name is neither special nor an application, and its base has the code. *)
Definition names_key (keyName base : string) (value code : Z) : bool :=
  bool_decide (split_suffix keyName = (base, value)) &&
  bool_decide (keyName ∉ special_names) &&
  bool_decide (named_code keyName APP_NAME_TO_CODE = None) &&
  bool_decide (named_code base KEY_NAME_TO_CODE = Some code).

Lemma names_key_simulates keyName base value code s :
  names_key keyName base value code = true ->
  simulate_key keyName s =
  (if value =? -1 then emit_sync (to_uint16 code) 0 (emit_sync (to_uint16 code) 1 s)
   else emit_sync (to_uint16 code) value s, mkCmdResult 0 "").
Proof.
  intros H. unfold names_key in H. bool_prop.
  repeat match goal with H : bool_decide _ = true |- _ => apply bool_decide_eq_true in H end.
  by eapply simulate_key_named.
Qed.

Definition table_ok (p : string * Z) : bool :=
  let '(name, code) := p in
  bool_decide (name ∈ ["syn"; "numlock"]) ||
  ((if decide (name ∈ swallowed)
    then bool_decide (named_code (split_suffix name).1 KEY_NAME_TO_CODE = None) &&
         bool_decide (name ∉ special_names) &&
         bool_decide (named_code name APP_NAME_TO_CODE = None)
    else names_key name name (-1) code) &&
   names_key (name +:+ "Down") name 1 code && names_key (name +:+ "Up") name 0 code).

(** Every key of the table but syn and numlock, which have their own branches,
    is pressed by its name with Down and released by its name with Up; its bare
    name clicks it, except for the four keys whose own names end in Up or Down:
    they are taken for a suffix, and the click is answered with an error. *)
Theorem named_keys (name : string) (code : Z) (s : IM) :
  (name, code) ∈ KEY_NAME_TO_CODE -> name ∉ ["syn"; "numlock"] ->
  simulate_key (name +:+ "Down") s = (emit_sync (to_uint16 code) 1 s, mkCmdResult 0 "") /\
  simulate_key (name +:+ "Up") s = (emit_sync (to_uint16 code) 0 s, mkCmdResult 0 "") /\
  simulate_key name s =
    if decide (name ∈ swallowed)
    then (s, mkCmdResult 1 ("Unknown key name: " +:+ name +:+ String "010"%char ""))
    else (emit_sync (to_uint16 code) 0 (emit_sync (to_uint16 code) 1 s), mkCmdResult 0 "").
Proof.
  intros Hin Hn.
  assert (forallb table_ok KEY_NAME_TO_CODE = true) as Ht by (vm_compute; reflexivity).
  rewrite forallb_forall in Ht. specialize (Ht _ (proj1 (list_elem_of_In _ _) Hin)).
  unfold table_ok in Ht. apply orb_true_iff in Ht as [Ht|Ht].
  { by apply bool_decide_eq_true in Ht. }
  apply andb_true_iff in Ht as [Ht Hup]. apply andb_true_iff in Ht as [Hname Hdown].
  apply names_key_simulates with (s := s) in Hup, Hdown. split; [exact Hdown|].
  split; [exact Hup|]. destruct (decide (name ∈ swallowed)).
  - bool_prop. repeat match goal with H : bool_decide _ = true |- _ => apply bool_decide_eq_true in H end.
    by apply simulate_key_unknown.
  - by apply names_key_simulates with (s := s) in Hname.
Qed.

Lemma named_keys_witness :
  simulate_key "keyUp" initialIM = (initialIM, mkCmdResult 1 ("Unknown key name: keyUp" +:+ String "010"%char "")).
Proof.
  refine (proj2 (proj2 (named_keys "keyUp" KEY_UP initialIM _ _))).
  - refine (bool_decide_unpack _ _). vm_compute. exact I.
  - refine (bool_decide_unpack _ _). vm_compute. exact I.
Defined.

(** ** The rate limit *)

Record RawEvent := mkRaw { raw_time : Z; raw_type : Z; raw_code : Z; raw_value : Z }.

Definition run_raw (s : Sim) (e : RawEvent) : Sim :=
  raw_event (raw_time e) (raw_type e) (raw_code e) (raw_value e) s.
Definition write_one (s : IM) (e : RawEvent) : IM :=
  write_raw (raw_type e) (raw_code e) (raw_value e) s.
Definition is_motion (e : RawEvent) : bool := (raw_type e =? EV_ABS) || (raw_type e =? EV_REL).

(** The events of a window that get through, after [n] of them. *)
Fixpoint let_through (n : Z) (evs : list RawEvent) : list RawEvent :=
  match evs with
  | [] => []
  | e :: evs' =>
      if (50 <=? n) && is_motion e then let_through (n + 1) evs' else e :: let_through (n + 1) evs'
  end.

Lemma in_window_run evs s :
  (forall e, e ∈ evs -> milliseconds (raw_time e - lastEventTime s) < 10) ->
  mapper (foldl run_raw s evs) = foldl write_one (mapper s) (let_through (eventCount s) evs).
Proof.
  revert s. induction evs as [|e evs IH]; intros s Hw; [done|]. cbn [foldl let_through].
  assert ((milliseconds (raw_time e - lastEventTime s) <? 10) = true) as Ht.
  { apply Z.ltb_lt, Hw. by constructor. }
  unfold run_raw at 2, raw_event, rate_limit. rewrite Ht. cbn [eventCount].
  change ((raw_type e =? EV_ABS) || (raw_type e =? EV_REL)) with (is_motion e).
  assert ((50 <? eventCount s + 1) = (50 <=? eventCount s)) as ->.
  { apply eq_true_iff_eq. rewrite Z.ltb_lt, Z.leb_le. lia. }
  destruct ((50 <=? eventCount s) && is_motion e); simpl; rewrite IH; try done;
    simpl; intros e' He'; apply Hw; by constructor.
Qed.

Lemma let_through_motion n evs :
  0 <= n ->
  Z.of_nat (length (List.filter is_motion (let_through n evs))) <= Z.max 0 (50 - n) /\
  List.filter (fun e => negb (is_motion e)) (let_through n evs) =
  List.filter (fun e => negb (is_motion e)) evs.
Proof.
  revert n. induction evs as [|e evs IH]; intros n Hn; [split; [simpl; lia|done]|].
  destruct (IH (n + 1) ltac:(lia)) as [H1 H2]. cbn [let_through List.filter].
  destruct (Z.leb_spec 50 n); cbn [andb]; destruct (is_motion e) eqn:E;
    cbn [List.filter negb length]; rewrite ?E; cbn [List.filter negb length]; rewrite ?H2;
    (split; [lia|done]).
Qed.

(** Of a burst of raw events, the first one ten milliseconds or more after the
    last window opened and the others less than ten after the first, the mapper is
    given exactly the first fifty and the later ones that are not pointer motion, in
    order: no key event is ever dropped and at most fifty motions get through. *)
Theorem burst_rate_limit (first : RawEvent) (rest : list RawEvent) (s : Sim) :
  10 <= milliseconds (raw_time first - lastEventTime s) ->
  (forall e, e ∈ rest -> milliseconds (raw_time e - raw_time first) < 10) ->
  let passed := let_through 0 (first :: rest) in
  mapper (foldl run_raw s (first :: rest)) = foldl write_one (mapper s) passed /\
  Z.of_nat (length (List.filter is_motion passed)) <= 50 /\
  List.filter (fun e => negb (is_motion e)) passed =
  List.filter (fun e => negb (is_motion e)) (first :: rest).
Proof.
  intros Hf Hw passed. split; [|exact (let_through_motion 0 (first :: rest) ltac:(lia))].
  cbn [foldl]. unfold passed. cbn [let_through]. simpl (50 <=? 0). cbn [andb foldl].
  assert (run_raw s first = mkSim (write_one (mapper s) first) (raw_time first) 1) as ->.
  { unfold run_raw, raw_event, rate_limit.
    rewrite (proj2 (Z.ltb_ge _ _) Hf). reflexivity. }
  rewrite in_window_run by exact Hw. reflexivity.
Qed.

Lemma burst_rate_limit_witness :
  Z.of_nat (length (List.filter is_motion
    (let_through 0 (replicate 60 (mkRaw 20000000 EV_REL 0 1))))) <= 50.
Proof.
  refine (proj1 (proj2 (burst_rate_limit (mkRaw 20000000 EV_REL 0 1)
    (replicate 59 (mkRaw 20000000 EV_REL 0 1)) (mkSim initialIM 0 0) _ _))).
  - vm_compute. discriminate.
  - intros e He. apply elem_of_replicate in He as [-> _]. vm_compute. reflexivity.
Defined.
