(* ===== verification/Daemon.v ===== *)
(** The daemon as one state, and the handlers of every component on it: the window
    context (src/AutomationManager.cpp, src/cmdWindow.cpp, src/cmdBrowser.cpp),
    the keyboard (src/KeyboardManager.cpp, src/cmdInput.cpp), logging
    (src/cmdLogging.cpp), the settings (src/cmdDatabase.cpp) and the system commands
    (src/cmdSystem.cpp), together with the handlers of the terminals, ports,
    applications, peers and WireGuard, all dispatched by [run_handler]. *)

From S2P Require Import Prelude Stdio Types Json Database Peers Apps WireGuard PortLink.
From S2P Require Import Keys InputMapper ComboFacts ComboRuns.
From S2P Require Import Terminal TerminalFacts MacroJson Settings Ports Registry Dispatch KeySim.

(** ** The state *)

(** The globals of cmdBrowser.cpp, cmdLogging.cpp, cmdWindow.cpp and Utils.cpp, and
    what the handlers wrote to the sockets of the extensions. *)
Record Extensions := mkExt {
  g_activeTabUrl : string;
  g_nativeHostSocket : Z;
  g_nativeHostSocketForSync : Z;
  g_windowExtensionSocket : Z;
  g_logSubscribers : list Z;
  ext_writes : list (Z * string)
}.

Record Daemon := mkDaemon {
  sim : Sim;
  applications : Apps;       (** with the peer manager and the tables *)
  terminals : list Z;
  g_keyboardEnabled : bool;
  shouldLog : Z;
  running_ : bool;
  exts : Extensions;
  shell : list string
}.

Definition tables (d : Daemon) : DB := adb (applications d).
Definition peers_of (d : Daemon) : Peers := network (applications d).

Definition set_sim (x : Sim) (d : Daemon) : Daemon :=
  mkDaemon x (applications d) (terminals d) (g_keyboardEnabled d) (shouldLog d) (running_ d) (exts d)
    (shell d).
Definition set_applications (x : Apps) (d : Daemon) : Daemon :=
  mkDaemon (sim d) x (terminals d) (g_keyboardEnabled d) (shouldLog d) (running_ d) (exts d)
    (shell d).
Definition set_tables (x : DB) (d : Daemon) : Daemon := set_applications (set_adb x (applications d)) d.
Definition set_network_of (x : Peers) (d : Daemon) : Daemon :=
  set_applications (set_network x (applications d)) d.
Definition set_terminals (x : list Z) (d : Daemon) : Daemon :=
  mkDaemon (sim d) (applications d) x (g_keyboardEnabled d) (shouldLog d) (running_ d) (exts d) (shell d).
Definition set_enabled (x : bool) (d : Daemon) : Daemon :=
  mkDaemon (sim d) (applications d) (terminals d) x (shouldLog d) (running_ d) (exts d) (shell d).
Definition set_log (x : Z) (d : Daemon) : Daemon :=
  mkDaemon (sim d) (applications d) (terminals d) (g_keyboardEnabled d) x (running_ d) (exts d) (shell d).
Definition set_stopped (d : Daemon) : Daemon :=
  mkDaemon (sim d) (applications d) (terminals d) (g_keyboardEnabled d) (shouldLog d) false (exts d)
    (shell d).
Definition set_exts (x : Extensions) (d : Daemon) : Daemon :=
  mkDaemon (sim d) (applications d) (terminals d) (g_keyboardEnabled d) (shouldLog d) (running_ d) x
    (shell d).
Definition set_shell (x : list string) (d : Daemon) : Daemon :=
  mkDaemon (sim d) (applications d) (terminals d) (g_keyboardEnabled d) (shouldLog d) (running_ d)
    (exts d) x.

(** Computations on a part of the state. *)
Definition zoom {P A} (get : Daemon -> P) (set : P -> Daemon -> Daemon) (m : M P A)
    : M Daemon A := fun d => let '(p, o) := m (get d) in (set p d, o).

Definition on_sim {A} : M Sim A -> M Daemon A := zoom sim set_sim.
Definition on_im (f : IM -> IM) : M Daemon unit := on_sim (modify (on_mapper f)).
Definition on_tables {A} : M DB A -> M Daemon A := zoom tables set_tables.
Definition on_exts {A} : M Extensions A -> M Daemon A := zoom exts set_exts.
Definition on_terminal {A} : M TS A -> M Daemon A :=
  zoom (fun d => mkTS (tables d) (terminals d))
    (fun t d => set_terminals (instances t) (set_tables (db t) d)).
Definition on_macros {A} : M (IM * DB) A -> M Daemon A :=
  zoom (fun d => (mapper (sim d), tables d))
    (fun p d => set_tables p.2 (set_sim (mkSim p.1 (lastEventTime (sim d)) (eventCount (sim d))) d)).
Definition on_shell {A} : M (DB * list string) A -> M Daemon A :=
  zoom (fun d => (tables d, shell d)) (fun p d => set_shell p.2 (set_tables p.1 d)).

Definition on_applications {A} : M Apps A -> M Daemon A := zoom applications set_applications.
Definition on_peers {A} : M Peers A -> M Daemon A := zoom peers_of set_network_of.
Definition on_popen {A} : M (list string) A -> M Daemon A := zoom shell set_shell.

(** What the rest of the world answers during one handler: the clock and the
    grabbing of devices, the sockets of the extensions, the tabs Chrome reports
    (type, URL, title), the shell, the file system, systemd, the network, the proxy, and
    the lines the loopback test prints. *)
Record HandlerEnv := mkHEnv {
  input_env : Env;
  ext_writeOk : bool;
  ext_reply : option string;
  devtools : option (list (string * string * string));
  executeCommand : string -> string;
  is_directory : string -> bool;
  app_env : AppEnv;
  service_active : string -> bool;
  net : NetEnv;
  popen : Popen;
  proxy : ProxyEnv;
  chromeRc : Z;
  loopback : option (list string);
  base_dir : string
}.

Section Handlers.
Context (env : HandlerEnv).
(** nlohmann's dump() and dump(2), its parse, and what() of an exception *)
Context (dump dump2 : json -> string) (parse : string -> outcome json) (what : exn -> string).

Definition string_arg (k : string) (command : json) : M Daemon string :=
  lift (Json.string_at k command).

(** ** Windows and the browser *)

(** Utils.cpp, getChromeTabUrl: the loop over the tabs. *)
Definition a_page (type url : string) : bool :=
  bool_decide (type = "page") && negb (Str.contains "chrome-extension://" url)
  && negb (Str.contains "devtools://" url).

Fixpoint pick_tab (preferred fallbackUrl lastRealUrl : string)
    (tabs : list (string * string * string)) : string :=
  match tabs with
  | [] => if Str.empty lastRealUrl then fallbackUrl else lastRealUrl
  | (type, url, title) :: rest =>
      if a_page type url then
        let fallbackUrl := if Str.empty fallbackUrl then url else fallbackUrl in
        let lastRealUrl := if Str.contains "chrome://" url then lastRealUrl else url in
        if negb (Str.empty preferred)
           && (Str.contains title preferred || Str.contains preferred title)
        then url
        else pick_tab preferred fallbackUrl lastRealUrl rest
      else pick_tab preferred fallbackUrl lastRealUrl rest
  end.

Definition isNativeHostConnected (e : Extensions) : bool := negb (g_nativeHostSocket e =? -1).

Definition getChromeTabUrl (preferredTitle : string) (e : Extensions) : string :=
  if isNativeHostConnected e && negb (Str.empty (g_activeTabUrl e)) then g_activeTabUrl e
  else match devtools env with
       | None => ""
       | Some tabs => pick_tab preferredTitle "" "" tabs
       end.

(** The application of a window: by its class, or else by its title. *)
Definition window_app (wmClass windowTitle : string) : AppType :=
  let appType := stringToAppType wmClass in
  let lowerTitle := Str.tolower windowTitle in
  let appType :=
    if bool_decide (appType = OTHER)
       && (Str.contains "antigravity" lowerTitle || Str.contains "chatgpt" lowerTitle)
    then CHROME else appType in
  if bool_decide (appType = OTHER) && Str.contains "terminal" lowerTitle then TERMINAL else appType.

(** get<long>(), which only takes numbers *)
Definition get_long (j : json) : outcome Z :=
  match j with
  | JInt z => Ok z
  | JFloat m e => Ok (Json.trunc m e)
  | _ => Throw JsonTypeError
  end.

Definition onActiveWindowChanged (command : json) : M Daemon CmdResult :=
  let! windowTitle := string_arg "windowTitle" command in
  let! wmClass := string_arg "wmClass" command in
  let! _ := string_arg "wmInstance" command in
  let! _ := lift (v ← Json.at_key "windowId" command; get_long v) in
  let! url := gets (fun d =>
    if decide (wmClass = wmClassChrome \/ wmClass = wmClassAntigravity)
    then getChromeTabUrl windowTitle (exts d) else "") in
  let! _ := on_im (setContext (window_app wmClass windowTitle) url windowTitle) in
  mret (mkCmdResult 0 ("Active window info received and mapping updated." +:+ eol)).

(** write() to an extension: on failure the socket is forgotten by the caller. *)
Definition ext_write (sock : Z) (msg : string) (e : Extensions) : Extensions :=
  mkExt (g_activeTabUrl e) (g_nativeHostSocket e) (g_nativeHostSocketForSync e)
    (g_windowExtensionSocket e) (g_logSubscribers e)
    (if ext_writeOk env then ext_writes e ++ [(sock, msg)] else ext_writes e).
Definition set_native (s : Z) (e : Extensions) : Extensions :=
  mkExt (g_activeTabUrl e) s (g_nativeHostSocketForSync e) (g_windowExtensionSocket e)
    (g_logSubscribers e) (ext_writes e).
Definition set_sync (s : Z) (e : Extensions) : Extensions :=
  mkExt (g_activeTabUrl e) (g_nativeHostSocket e) s (g_windowExtensionSocket e)
    (g_logSubscribers e) (ext_writes e).
Definition set_window (s : Z) (e : Extensions) : Extensions :=
  mkExt (g_activeTabUrl e) (g_nativeHostSocket e) (g_nativeHostSocketForSync e) s
    (g_logSubscribers e) (ext_writes e).
Definition set_tab (url : string) (e : Extensions) : Extensions :=
  mkExt url (g_nativeHostSocket e) (g_nativeHostSocketForSync e) (g_windowExtensionSocket e)
    (g_logSubscribers e) (ext_writes e).
Definition registerLogSubscriber (fd : Z) (e : Extensions) : Extensions :=
  mkExt (g_activeTabUrl e) (g_nativeHostSocket e) (g_nativeHostSocketForSync e)
    (g_windowExtensionSocket e) (StdSet.insert fd (g_logSubscribers e)) (ext_writes e).

Definition quote : string := String "034"%char "".
(** One member of a JSON object, as the messages spell it. *)
Definition quoted (s : string) : string := (quote +:+ s +:+ quote)%string.
Definition registered_message : string :=
  ("{" +:+ quoted "status" +:+ ":" +:+ quoted "registered" +:+ "}" +:+ eol)%string.
Definition ok_message : string :=
  ("{" +:+ quoted "status" +:+ ":" +:+ quoted "ok" +:+ "}" +:+ eol)%string.
Definition action_message (action : string) : string :=
  ("{" +:+ quoted "action" +:+ ":" +:+ quoted action +:+ "}" +:+ eol)%string.
Definition mask_message (mask : Z) : string :=
  ("{" +:+ quoted "action" +:+ ":" +:+ quoted "updateMask" +:+ "," +:+ quoted "mask" +:+ ":" +:+
   Num.to_string mask +:+ "}" +:+ eol)%string.

Definition handleRegisterWindowExtension (sock : Z) (command : json) : M Daemon CmdResult :=
  let! _ := on_exts (modify (set_window sock)) in mret (mkCmdResult 0 registered_message).

(** Send a request to the window extension and read its answer. *)
Definition ask_extension (msg : string) (noReply : CmdResult) : M Daemon CmdResult :=
  on_exts (fun e =>
    if g_windowExtensionSocket e =? -1 then (e, Ok (mkCmdResult 1 "Window extension not registered"))
    else if negb (ext_writeOk env) then
      (set_window (-1) e, Ok (mkCmdResult 1 "Failed to write to extension"))
    else
      (ext_write (g_windowExtensionSocket e) msg e,
       Ok match ext_reply env with Some s => mkCmdResult 0 s | None => noReply end)).

Definition handleListWindows (command : json) : M Daemon CmdResult :=
  ask_extension (action_message "listWindows") (mkCmdResult 1 "No response from extension").

Definition handleActivateWindow (command : json) : M Daemon CmdResult :=
  ask_extension (dump (set_member "action" (JString "activateWindow") command) +:+ eol)
    (mkCmdResult 0 "Command sent (no reply)").

Definition handleGetActiveContext (command : json) : M Daemon CmdResult :=
  gets (fun d => mkCmdResult 0 (dump (getActiveContextJson (mapper (sim d))))).

Definition handleSetActiveTabUrl (command : json) : M Daemon CmdResult :=
  let! url := string_arg "url" command in
  let! _ := on_exts (modify (set_tab url)) in
  let! _ := on_im (setContext CHROME url "") in
  mret (mkCmdResult 0 ok_message).

(** syncLoggingWithBridge of cmdBrowser.cpp and of cmdLogging.cpp, each with its own
    copy of the socket. *)
Definition sync_bridge (sock : Extensions -> Z) : M Daemon unit := fun d =>
  let e := exts d in
  (if sock e =? -1 then d else set_exts (ext_write (sock e) (mask_message (shouldLog d)) e) d, Ok tt).

Definition handleRegisterNativeHost (sock : Z) (command : json) : M Daemon CmdResult :=
  let! _ := on_exts (modify (fun e => set_sync sock (set_native sock e))) in
  let! _ := sync_bridge g_nativeHostSocket in
  mret (mkCmdResult 0 registered_message).

Definition triggerChromeChatGPTFocus (e : Extensions) : Extensions :=
  if g_nativeHostSocket e =? -1 then e
  else if ext_writeOk env then ext_write (g_nativeHostSocket e) (action_message "focusChatGPT") e
  else set_native (-1) e.

Definition handleFocusChatGPT (command : json) : M Daemon CmdResult :=
  let! _ := on_exts (modify triggerChromeChatGPTFocus) in
  mret (mkCmdResult 0 ("Focus request sent" +:+ eol)).

Definition handleFocusAck (command : json) : M Daemon CmdResult :=
  let! _ := on_im onFocusAck in mret (mkCmdResult 0 ok_message).

(** ** The keyboard *)

(** KeyboardManager::setKeyboard *)
Definition setKeyboard (enableKeyboard : bool) : M Daemon CmdResult :=
  let! d := gets (fun d => d) in
  let im := mapper (sim d) in
  if enableKeyboard then
    if running (dev im) then
      let! _ := on_im (grabDevices (input_env env)) in
      mret (mkCmdResult 0 ("Keyboard grab attempted." +:+ eol))
    else if Str.empty (DeviceTable.getDevicePath "keyboard" (tables d)) then
      mret (mkCmdResult 1 ("Keyboard path not found" +:+ eol))
    else mret (mkCmdResult 0 ("Input subsystem is currently disabled in code." +:+ eol))
  else
    let! _ := on_im stop in
    mret (mkCmdResult 0 ("Keyboard disabled" +:+ eol)).

Definition device_path (device missing : string) : M Daemon CmdResult :=
  gets (fun d =>
    let path := DeviceTable.getDevicePath device (tables d) in
    if Str.empty path then mkCmdResult 1 missing else mkCmdResult 0 path).
Definition handleGetKeyboardPath (command : json) : M Daemon CmdResult :=
  device_path "keyboard" "Keyboard path not found".
Definition handleGetMousePath (command : json) : M Daemon CmdResult :=
  device_path "mouse" "Mouse path not found".

Definition handleGetKeyboard (command : json) : M Daemon CmdResult :=
  gets (fun d => mkCmdResult 0 ((if g_keyboardEnabled d then "true" else "false") +:+ eol)).

Definition handleToggleKeyboard (command : json) : M Daemon CmdResult :=
  let! enableStr := string_arg "enable" command in
  let enabled := bool_decide (enableStr = "true") in
  let! _ := modify (set_enabled enabled) in
  setKeyboard enabled.

(** handleDisableKeyboard and handleEnableKeyboard *)
Definition keyboard_feature_disabled (command : json) : M Daemon CmdResult :=
  mret (mkCmdResult 0 ("Keyboard grab feature disabled" +:+ eol)).

Definition handleGetMacros (command : json) : M Daemon CmdResult :=
  gets (fun d => mkCmdResult 0 (dump (getMacrosJson (mapper (sim d))))).

(** The value argument, parsed. *)
Definition parsed_value (command : json) : M Daemon json :=
  let! text := string_arg "value" command in lift (parse text).

Definition handleUpdateMacros (command : json) : M Daemon CmdResult :=
  try_catch
    (let! j := parsed_value command in
     let! _ := on_macros (setMacrosFromJson dump j) in
     mret (mkCmdResult 0 "Macros updated successfully"))
    (fun e => mret (mkCmdResult 1 ("Failed to parse macros: " +:+ what e))).

(** The events handleTestIntegrity writes when the script says READY. *)
Definition loopback_events (s : IM) : IM :=
  emit_sync BTN_LEFT 0 (emit_sync BTN_LEFT 1 (emit_sync KEY_ENTER 0 (emit_sync KEY_ENTER 1 s))).

Fixpoint loopback_lines (readySeen : bool) (lines : list string) (output : string)
    : M Daemon string :=
  match lines with
  | [] => mret output
  | line :: rest =>
      let ready := negb readySeen && Str.contains "READY" line in
      let! _ := if ready then on_im loopback_events else mret tt in
      loopback_lines (readySeen || ready) rest (output +:+ line)
  end.

Definition handleTestIntegrity (command : json) : M Daemon CmdResult :=
  match loopback env with
  | None => mret (mkCmdResult 1 "Failed to run diagnostic script")
  | Some lines =>
      let! output := loopback_lines false lines "" in mret (mkCmdResult 0 (output +:+ eol))
  end.

(** ** Logging *)

(** std::stoul in base 10, converted to unsigned int: a minus sign negates modulo
    2^64. *)
Definition stoul32 (s : string) : outcome Z :=
  match Num.strtol s with
  | None => Throw InvalidArgument
  | Some (v, _) => if Z.abs v <? 2 ^ 64 then Ok (to_uint32 v) else Throw OutOfRange
  end.

(** The mask a shouldLog command asks for, or the error it is answered with. *)
Definition new_log_mask (val : json) : Z + CmdResult :=
  match val with
  | JString enableStr =>
      if decide (enableStr = "true") then inl LOG_ALL
      else if decide (enableStr = "false") then inl LOG_NONE
      else match stoul32 enableStr with
           | Ok mask => inl mask
           | Throw _ => inr (mkCmdResult 1 ("Invalid logging value string." +:+ eol))
           end
  | JInt z => inl (to_uint32 z)
  | JFloat m e => inl (to_uint32 (Json.trunc m e))
  | _ => inr (mkCmdResult 1 ("Invalid logging value type." +:+ eol))
  end.

Definition handleShouldLog (command : json) : M Daemon CmdResult :=
  let! val := lift (Json.at_key "enable" command) in
  match new_log_mask val with
  | inr error => mret error
  | inl newLogMask =>
      let! _ := modify (set_log newLogMask) in
      let! _ := on_tables (modify (SettingsTable.setSetting "shouldLogState"
                                     (Num.to_string newLogMask))) in
      let! _ := sync_bridge g_nativeHostSocketForSync in
      mret (mkCmdResult 0 ("Logging mask set to: " +:+ Num.to_string newLogMask +:+ eol))
  end.

(** initialize_daemon of DaemonServer.cpp: the mask a starting daemon restores. *)
Definition restored_log_mask (d : DB) : Z :=
  let savedLogState := SettingsTable.getSetting "shouldLogState" d in
  if Str.empty savedLogState then LOG_CORE
  else match stoul32 savedLogState with Ok mask => mask | Throw _ => LOG_CORE end.

Definition handleGetShouldLog (command : json) : M Daemon CmdResult :=
  gets (fun d => mkCmdResult 0 (Num.to_string (shouldLog d) +:+ eol)).

Definition handleRegisterLogListener (sock : Z) (command : json) : M Daemon CmdResult :=
  let! _ := on_exts (modify (registerLogSubscriber sock)) in
  mret (mkCmdResult 0 ("Subscribed to logs" +:+ eol)).

Definition handleGetEventFilters (command : json) : M Daemon CmdResult :=
  gets (fun d => mkCmdResult 0 (dump (getEventFiltersJson (mapper (sim d))))).

Definition handleSetEventFilters (command : json) : M Daemon CmdResult :=
  try_catch
    (let! j := parsed_value command in
     let! _ := on_macros (modify (setEventFilters dump j)) in
     mret (mkCmdResult 0 "Event filters updated successfully"))
    (fun e => mret (mkCmdResult 1 ("Failed to parse filters: " +:+ what e))).

(** ** The settings *)

Definition handleUpsertEntry (command : json) : M Daemon CmdResult :=
  let! key := string_arg "key" command in
  let! value := string_arg "value" command in
  let! _ := on_tables (modify (SettingsTable.setSetting key value)) in
  mret (mkCmdResult 0 ("Entry upserted to settings table" +:+ eol)).

Definition handleGetEntry (command : json) : M Daemon CmdResult :=
  let! key := string_arg "key" command in
  let! value := on_tables (gets (SettingsTable.getSetting key)) in
  mret (if Str.empty value then mkCmdResult 1 eol else mkCmdResult 0 (value +:+ eol)).

Definition handleDeleteEntry (command : json) : M Daemon CmdResult :=
  let! key := string_arg "key" command in
  let! rc := on_tables (fun d => let '(rc, d) := SettingsTable.deleteSetting key d in (d, Ok rc)) in
  mret (if 1 <=? rc then mkCmdResult 0 ("Entry deleted from settings table" +:+ eol)
        else mkCmdResult 1 ("Entry not found for key " +:+ key +:+ eol)).

Definition handleShowEntriesByPrefix (command : json) : M Daemon CmdResult :=
  let! _ := string_arg "prefix" command in
  mret (mkCmdResult 1 ("showEntriesByPrefix is deprecated in the new multi-table schema." +:+ eol)).

Definition handleDeleteEntriesByPrefix (command : json) : M Daemon CmdResult :=
  mret (mkCmdResult 1 ("deleteEntriesByPrefix is deprecated." +:+ eol)).

Definition handleShowDb (command : json) : M Daemon CmdResult :=
  on_tables (gets (fun d =>
    let line (s : string) := (s +:+ eol)%string in
    let history := foldl (fun s (p : Z * Z * string) =>
      s +:+ "TTY " +:+ Num.to_string p.1.1 +:+ " Index " +:+ Num.to_string p.1.2 +:+ ": "
        +:+ line p.2)%string (line "--- Terminal History ---") (TerminalTable.getAllHistory d) in
    let sessions := foldl (fun s (p : Z * Z) =>
      s +:+ "TTY " +:+ Num.to_string p.1 +:+ " -> Index " +:+ line (Num.to_string p.2))%string
      (history +:+ line "--- Terminal Sessions ---")%string (TerminalTable.getAllSessions d) in
    mkCmdResult 0 (sessions +:+ line "--- Device Registry ---"
      +:+ "Keyboard: " +:+ line (DeviceTable.getDevicePath "keyboard" d)
      +:+ "Mouse: " +:+ line (DeviceTable.getDevicePath "mouse" d)
      +:+ line "--- System Settings ---"
      +:+ "shouldLogState: " +:+ line (SettingsTable.getSetting "shouldLogState" d))%string)).

(** ** System commands *)

(** HELP_MESSAGE *)
Definition help_lines : list string := [
  "Usage: d <command> [options]";
  "       d <command> --help";
  "";
  "automateLinux daemon - Central service for Linux desktop automation.";
  "";
  "COMMON COMMANDS";
  "  ping                    Check daemon is running (returns 'pong')";
  "  help, --help            Show this help message";
  "  listCommands            List all available commands";
  "";
  "KEYBOARD/INPUT";
  "  enableKeyboard          Enable keyboard input grabbing";
  "  disableKeyboard         Disable keyboard input grabbing";
  "  getKeyboardEnabled      Check if keyboard is enabled";
  "  simulateInput           Simulate input events or type text";
  ("                          --string " +:+ quote +:+ "text" +:+ quote +:+ " OR --type --code --value")%string;
  "";
  "PORT MANAGEMENT";
  "  listPorts               List all port assignments";
  "  getPort --key <app>     Get assigned port for an app";
  "  setPort --key <app> --value <port>";
  "                          Assign port to an app";
  "  deletePort --key <app>  Remove port assignment";
  "";
  "PEER NETWORKING";
  "  setPeerConfig           Configure peer role and identity";
  "                          --role (leader|worker) --id <name>";
  "                          [--leader <ip>] (for workers)";
  "  getPeerStatus           Show peer config and connection status";
  "  listPeers               List all peers in the network";
  "  getPeerInfo --peer <id> Get detailed info about a peer";
  "";
  "APP ASSIGNMENTS (prevents git conflicts)";
  "  claimApp --app <name>   Claim exclusive work on an extraApp";
  "  releaseApp --app <name> Release app assignment";
  "                          [--force true] to override ownership";
  "  listApps                List all app assignments";
  "  getAppOwner --app <name>";
  "                          Check which peer owns an app";
  "";
  "LOGGING";
  "  shouldLog --enable <bool>";
  "                          Enable or disable logging";
  "  registerLogListener     Register for live log streaming";
  "  addLogFilter            Add input event log filter";
  "  listLogFilters          List active log filters";
  "  clearLogFilters         Clear all log filters";
  "";
  "DATABASE";
  "  showDB                  Show database summary";
  "  getEntry --key <k>      Get a setting value";
  "  upsertEntry --key <k> --value <v>";
  "                          Set a setting value";
  "  deleteEntry --key <k>   Delete a setting";
  "";
  "OPTIONS";
  "  --help, -h              Show help for a specific command";
  "  --json                  Output in JSON format (some commands)";
  "";
  "EXAMPLES";
  "  d ping";
  "  d listPeers";
  "  d claimApp --app cad";
  "  d setPeerConfig --role leader --id desktop";
  ("  d simulateInput --string " +:+ quote +:+ "Hello World" +:+ quote +:+ "")%string;
  "  d getPort --key dashboard-dev";
  "";
  "Run 'd <command> --help' for detailed help on any command.";
  "See also: man daemon(1)"
].
Definition unlines (l : list string) : string := foldr (fun s t => s +:+ eol +:+ t)%string "" l.

Definition handleHelp (command : json) : M Daemon CmdResult :=
  mret (mkCmdResult 0 (unlines help_lines)).
Definition handlePing (command : json) : M Daemon CmdResult := mret (mkCmdResult 0 ("pong" +:+ eol)).
Definition handleVersion (command : json) : M Daemon CmdResult :=
  mret (mkCmdResult 0 (Num.to_string (DAEMON_VERSION (net env)) +:+ eol)).
Definition handleQuit (command : json) : M Daemon CmdResult :=
  let! _ := modify set_stopped in mret (mkCmdResult 0 ("Shutting down daemon." +:+ eol)).

Definition handleGetDir (command : json) : M Daemon CmdResult :=
  let! dirName := string_arg "dirName" command in
  mret (if decide (dirName = "base") then mkCmdResult 0 (base_dir env +:+ eol)
        else if decide (dirName = "dev") then mkCmdResult 0 ("/opt/dev/" +:+ eol)
        else if decide (dirName = "data") then mkCmdResult 0 (base_dir env +:+ "data/" +:+ eol)
        else mkCmdResult 1 ("Unknown directory name: " +:+ dirName +:+ eol)).

(** Files::initialize: name and directory *)
Definition files : list (string * string) :=
  let data := (base_dir env +:+ "data/")%string in
  [("chrome.log", data); ("combined.log", data); ("daemon.db", data);
   ("trapErrLogBackground.txt", data); ("trapErrLog.txt", data);
   ("theRealPath.sh", base_dir env +:+ "terminal/")%string].

Definition handleGetFile (command : json) : M Daemon CmdResult :=
  let! fileName := string_arg "fileName" command in
  mret match list_find (fun f => Str.contains fileName f.1 = true) files with
       | Some (_, f) => mkCmdResult 0 (f.2 +:+ f.1 +:+ eol)
       | None => mkCmdResult 1 ("File not found: " +:+ fileName +:+ eol)
       end.

Definition handleGetSocketPath (command : json) : M Daemon CmdResult :=
  mret (mkCmdResult 0 ("/run/automatelinux/automatelinux-daemon.sock" +:+ eol)).

Definition handleListCommands (command : json) : M Daemon CmdResult :=
  mret (mkCmdResult 0
    (unlines (List.filter (fun n => negb (Str.empty n)) (sig_name <$> COMMAND_REGISTRY)))).

(** Run a shell command and answer with its output. *)
Definition shell_output (cmd : string) : M Daemon CmdResult :=
  let! _ := modify (fun d => set_shell (shell d ++ [cmd]) d) in
  mret (mkCmdResult 0 (executeCommand env cmd +:+ eol)).

Definition handleTestLsof (command : json) : M Daemon CmdResult :=
  let! port := lift (v ← Json.at_key "port" command; Json.get_int32 v) in
  shell_output ("/usr/bin/lsof -i :" +:+ Num.to_string port +:+ " 2>&1")%string.
Definition handleTestEcho (command : json) : M Daemon CmdResult :=
  let! message := string_arg "message" command in shell_output ("echo " +:+ message)%string.
Definition handleTestLsofScript (command : json) : M Daemon CmdResult :=
  let! port := string_arg "port" command in
  shell_output (base_dir env +:+ "daemon/scripts/test_lsof.sh " +:+ port)%string.

(** ** The dispatch table *)

(** AppManager::getLocalAppStatusAll *)
Definition status_all : DB -> json :=
  getLocalAppStatusAll (service_active env) (path_exists (app_env env)).

(** A port command: what the connection to the leader gives, and then the handler. *)
Definition on_port (name : string) (handler : Link -> json -> M DB CmdResult) (command : json)
    : M Daemon CmdResult :=
  let! link := on_peers (port_link (net env) dump status_all (forwarded_command name command)) in
  on_tables (handler link command).

(** The handlers of the other components. *)
Definition peer_command (sock : Z) (h : HandlerId) :=
  peer_handler (net env) dump dump2 parse status_all sock h.
Definition app_command (h : HandlerId) :=
  app_handler (app_env env) (net env) dump dump2 parse h.
Definition wireguard_command (h : HandlerId) := wireguard_handler (popen env) (base_dir env) dump2 h.

Definition component_handler (sock : Z) (h : HandlerId) (command : json) : M Daemon CmdResult :=
  match peer_command sock h, app_command h, wireguard_command h with
  | Some f, _, _ => on_peers (f command)
  | None, Some f, _ => on_applications (f command)
  | None, None, Some f => on_popen (f command)
  | None, None, None => mret (mkCmdResult 1 ("Unhandled command" +:+ eol))
  end.

(** The handler functions, given g_clientSocket. *)
Definition run_handler (sock : Z) (h : HandlerId) (command : json) : M Daemon CmdResult :=
  match h with
  | H_handleHelp => handleHelp command
  | H_handlePing => handlePing command
  | H_handleVersion => handleVersion command
  | H_handleQuit => handleQuit command
  | H_handleGetDir => handleGetDir command
  | H_handleGetFile => handleGetFile command
  | H_handleGetSocketPath => handleGetSocketPath command
  | H_handleListCommands => handleListCommands command
  | H_handleTestLsof => handleTestLsof command
  | H_handleTestEcho => handleTestEcho command
  | H_handleTestLsofScript => handleTestLsofScript command
  | H_handleOpenedTty => on_terminal (Terminal.openedTty (is_directory env) command)
  | H_handleClosedTty => on_terminal (Terminal.closedTty command)
  | H_handleUpdateDirHistory => on_terminal (Terminal.updateDirHistory (is_directory env) command)
  | H_handleCdForward => on_terminal (Terminal.cdForward (is_directory env) command)
  | H_handleCdBackward => on_terminal (Terminal.cdBackward (is_directory env) command)
  | H_handleShellSignal => on_terminal (handleShellSignal command)
  | H_handleShowTerminalInstance => on_terminal (Terminal.showTerminalInstance command)
  | H_handleShowAllTerminalInstances => on_terminal (Terminal.showAllTerminalInstances command)
  | H_handlePrintDirHistory => on_terminal (handlePrintDirHistory command)
  | H_handleEmptyDirHistoryTable => on_terminal (handleEmptyDirHistoryTable command)
  | H_handleShowEntriesByPrefix => handleShowEntriesByPrefix command
  | H_handleDeleteEntriesByPrefix => handleDeleteEntriesByPrefix command
  | H_handleShowDb => handleShowDb command
  | H_handleDeleteEntry => handleDeleteEntry command
  | H_handleUpsertEntry => handleUpsertEntry command
  | H_handleGetEntry => handleGetEntry command
  | H_handleGetKeyboardPath => handleGetKeyboardPath command
  | H_handleGetMousePath => handleGetMousePath command
  | H_handleSetKeyboard => onActiveWindowChanged command
  | H_handleGetKeyboard => handleGetKeyboard command
  | H_handleToggleKeyboard => handleToggleKeyboard command
  | H_handleDisableKeyboard => keyboard_feature_disabled command
  | H_handleEnableKeyboard => keyboard_feature_disabled command
  | H_handleSimulateInput => on_sim (handleSimulateInput (now (input_env env)) command)
  | H_handleTestIntegrity => handleTestIntegrity command
  | H_handleGetMacros => handleGetMacros command
  | H_handleUpdateMacros => handleUpdateMacros command
  | H_handleShouldLog => handleShouldLog command
  | H_handleGetShouldLog => handleGetShouldLog command
  | H_handleRegisterLogListener => handleRegisterLogListener sock command
  | H_handleGetEventFilters => handleGetEventFilters command
  | H_handleSetEventFilters => handleSetEventFilters command
  | H_handleRegisterWindowExtension => handleRegisterWindowExtension sock command
  | H_handleListWindows => handleListWindows command
  | H_handleActivateWindow => handleActivateWindow command
  | H_handleActiveWindowChanged => onActiveWindowChanged command
  | H_handleGetActiveContext => handleGetActiveContext command
  | H_handleSetActiveTabUrl => handleSetActiveTabUrl command
  | H_handleRegisterNativeHost => handleRegisterNativeHost sock command
  | H_handleFocusChatGPT => handleFocusChatGPT command
  | H_handleFocusAck => handleFocusAck command
  | H_handleGetPort => on_port "getPort" handleGetPort command
  | H_handleSetPort => on_port "setPort" handleSetPort command
  | H_handleListPorts => on_port "listPorts" (handleListPorts (executeCommand env)) command
  | H_handleDeletePort => on_port "deletePort" handleDeletePort command
  | H_handlePublicTransportationStartProxy =>
      on_shell (handlePublicTransportationStartProxy (proxy env) command)
  | H_handlePublicTransportationOpenApp =>
      on_shell (handlePublicTransportationOpenApp (chromeRc env) command)
  | _ => component_handler sock h command
  end.

(** A client's command, and a slow one's thread, which closes the descriptor. *)
Definition client_command (command : json) (sock : Z) (s : DS (W := Daemon)) : DS :=
  (mainCommand run_handler dump what command sock s).1.
Definition slow_thread (i : nat) (s : DS (W := Daemon)) : DS :=
  let s' := run_thread run_handler what i s in
  match threads s !! i with
  | Some (_, sock) =>
      mkDS (on_peers (sys_close sock) (world s')).1 (sent s') (closed s') (threads s') (g_clientSocket s')
  | None => s'
  end.
End Handlers.
