(* ===== verification/DaemonFacts.v ===== *)
(** Theorems about the whole daemon: the tables each command may write, the invariants
    of the tables through every command a client can send, and the log mask across a
    restart. *)

From S2P Require Import Prelude Stdio Types Json Database Peers PeerFacts Apps AppFacts WireGuard PortLink.
From S2P Require Import Keys InputMapper ComboFacts ComboRuns.
From S2P Require Import Terminal TerminalFacts MacroJson Settings Ports Registry Dispatch KeySim.
From S2P Require Import Frames Daemon.

(** ** The tables of the daemon *)

#[export] Instance tables_Daemon : HasTables Daemon := tables.

Section Zoom.
Context {P : Type} `{HasTables P} {A : Type} (get : Daemon -> P) (set : P -> Daemon -> Daemon).

Lemma zoom_touches S (m : M P A) :
  (forall d, get_tables (get d) = tables d) -> (forall p d, tables (set p d) = get_tables p) ->
  touches S m -> touches S (zoom get set m).
Proof using Type.
  intros Hg Hs Hm d. specialize (Hm (get d)). unfold zoom. rewrite Hg in Hm.
  destruct (m (get d)) as [p o]. cbn in *. unfold tables_Daemon. by rewrite Hs.
Qed.
End Zoom.

Section ZoomQuiet.
Context {P A : Type} (get : Daemon -> P) (set : P -> Daemon -> Daemon).

(** A part of the state without tables. *)
Lemma zoom_quiet S (m : M P A) : (forall p d, tables (set p d) = tables d) -> touches S (zoom get set m).
Proof using Type.
  intros Hs. apply touches_same. intros d. unfold zoom, get_tables, tables_Daemon.
  destruct (m (get d)) as [p o]. apply Hs.
Qed.
End ZoomQuiet.

Lemma on_sim_touches {A} S (m : M Sim A) : touches S (on_sim m).
Proof. by apply zoom_quiet. Qed.
Lemma on_im_touches S f : touches S (on_im f).
Proof. apply on_sim_touches. Qed.
Lemma on_exts_touches {A} S (m : M Extensions A) : touches S (on_exts m).
Proof. by apply zoom_quiet. Qed.
Lemma on_popen_touches {A} S (m : M (list string) A) : touches S (on_popen m).
Proof. by apply zoom_quiet. Qed.
Lemma on_tables_touches {A} S (m : M DB A) : touches S m -> touches S (on_tables m).
Proof. by apply zoom_touches. Qed.
Lemma on_terminal_touches {A} S (m : M TS A) : touches S m -> touches S (on_terminal m).
Proof. by apply zoom_touches. Qed.
Lemma on_macros_touches {A} S (m : M (IM * DB) A) : touches S m -> touches S (on_macros m).
Proof. by apply zoom_touches. Qed.
Lemma on_shell_touches {A} S (m : M (DB * list string) A) : touches S m -> touches S (on_shell m).
Proof. by apply zoom_touches. Qed.
Lemma on_peers_touches {A} S (m : M Peers A) : touches S m -> touches S (on_peers m).
Proof. by apply zoom_touches. Qed.
Lemma on_applications_touches {A} S (m : M Apps A) : touches S m -> touches S (on_applications m).
Proof. by apply zoom_touches. Qed.
Lemma modify_quiet S (f : Daemon -> Daemon) : (forall d, tables (f d) = tables d) -> touches S (modify f).
Proof. intros H. by apply touches_same. Qed.
#[export] Hint Resolve on_sim_touches on_im_touches on_exts_touches on_popen_touches : frames.
#[export] Hint Extern 3 (touches _ (modify _)) => apply modify_quiet; done : frames.

(** ** The settings, the macros and the ports *)

Lemma db_modify_touches S (f : DB -> DB) : (forall d, changes_only S d (f d)) -> touches S (modify f).
Proof. intros H. apply touches_modify. exact H. Qed.

Lemma delete_touches S k :
  writes SystemSettings S = true ->
  touches S (fun d => let '(rc, d) := SettingsTable.deleteSetting k d in (d, Ok rc)).
Proof.
  intros HS d. pose proof (deleteSetting_changes S k d HS) as H.
  by destruct (SettingsTable.deleteSetting k d).
Qed.

Lemma macros_touches dump j : touches [Configs] (setMacrosFromJson dump j).
Proof.
  intros w. unfold setMacrosFromJson, get_tables, tables_macros.
  destruct (setMacrosFromJsonInternal j w.1) as [s []]; [by apply setConfig_changes|reflexivity].
Qed.

Lemma filters_touches dump j : touches [Configs] (modify (setEventFilters dump j)).
Proof. apply touches_modify. intros w. by apply setConfig_changes. Qed.

Lemma forwarded_link_touches S link name (k : M DB CmdResult) :
  touches S k -> touches S (forwarded link name k).
Proof. intros H. unfold forwarded. cbv zeta. destruct (decide _); [done|auto with frames]. Qed.

Lemma ports_touches exec link c :
  touches [] (handleGetPort link c) /\ touches [SystemSettings] (handleSetPort link c) /\
  touches [SystemSettings] (handleDeletePort link c) /\ touches [] (handleListPorts exec link c).
Proof.
  split; [|split; [|split]]; apply forwarded_link_touches; [touch| | |by apply touches_same].
  - do 2 (apply touches_bind; [auto with frames|intros]).
    apply touches_bind; [apply db_modify_touches; intros; by apply setSetting_changes|touch].
  - apply touches_bind; [auto with frames|]. intros key d.
    pose proof (deleteSetting_changes [SystemSettings] (port_key key) d eq_refl) as H.
    cbn [delete_setting DB_settings]. by destruct (SettingsTable.deleteSetting (port_key key) d).
Qed.

Lemma proxy_touches e c : touches [SystemSettings] (handlePublicTransportationStartProxy e c).
Proof.
  intros w. unfold handlePublicTransportationStartProxy. cbv zeta.
  destruct (if Str.empty _ then _ else _) as [port|]; [|reflexivity].
  destruct (port =? 0); [|reflexivity]. repeat (case_match; [reflexivity|]).
  by apply setSetting_changes.
Qed.

Lemma open_app_touches rc c : touches [] (handlePublicTransportationOpenApp rc c).
Proof.
  apply touches_same. intros w. unfold handlePublicTransportationOpenApp, bindM, M_bind, lift, gets.
  cbv zeta. destruct (Json.contains "variant" c); [destruct (Json.string_at "variant" c)|];
    cbv beta iota; repeat (case_match; simplify_eq/=); done.
Qed.

Lemma sync_touches S env sock : touches S (sync_bridge env sock).
Proof. apply touches_same. intros d. unfold sync_bridge. simpl. by case_match. Qed.
#[export] Hint Resolve sync_touches : frames.
#[export] Hint Extern 3 (touches _ (on_macros _)) =>
  apply on_macros_touches; first [apply macros_touches|apply filters_touches] : frames.
#[export] Hint Extern 3 (touches _ (on_tables _)) =>
  apply on_tables_touches; first [ apply touches_gets | by apply delete_touches
    | apply db_modify_touches; intros; by apply setSetting_changes ] : frames.

(** ** Every handler *)

(** The tables a command may write, by its handler. *)
Definition handler_tables (h : HandlerId) : list Table :=
  match h with
  | H_handleUpsertEntry | H_handleDeleteEntry | H_handleSetPort | H_handleDeletePort
  | H_handleShouldLog | H_handlePublicTransportationStartProxy => [SystemSettings]
  | H_handleUpdateMacros | H_handleSetEventFilters => [Configs]
  | _ => terminal_tables h ++ peer_tables h ++ app_tables h
  end.

Section Handlers.
Context (env : HandlerEnv) (dump dump2 : json -> string) (parse : string -> outcome json).
Context (what : exn -> string).

(** The handlers that are more than a few statements. *)
Lemma setKeyboard_touches b : touches [] (setKeyboard env b).
Proof using Type. unfold setKeyboard. touch. Qed.

Lemma loopback_touches seen lines out : touches [] (loopback_lines seen lines out).
Proof using Type.
  revert seen out. induction lines as [|l lines IH]; intros seen out; simpl; [auto with frames|].
  apply touches_bind; [touch|intros; apply IH].
Qed.
#[local] Hint Resolve setKeyboard_touches loopback_touches : frames.

Lemma window_touches c : touches [] (onActiveWindowChanged env c).
Proof using Type. unfold onActiveWindowChanged, string_arg. touch. Qed.

Lemma logging_touches sock c :
  touches [SystemSettings] (handleShouldLog env c) /\ touches [] (handleGetShouldLog c) /\
  touches [] (handleRegisterLogListener sock c) /\ touches [] (handleGetEventFilters dump c) /\
  touches [Configs] (handleSetEventFilters dump parse what c).
Proof using Type.
  unfold handleShouldLog, handleGetShouldLog, handleRegisterLogListener, handleGetEventFilters,
    handleSetEventFilters, parsed_value, string_arg.
  repeat match goal with |- _ /\ _ => split end; touch.
Qed.

Lemma settings_touches c :
  touches [SystemSettings] (handleUpsertEntry c) /\ touches [] (handleGetEntry c) /\
  touches [SystemSettings] (handleDeleteEntry c) /\ touches [] (handleShowEntriesByPrefix c) /\
  touches [] (handleDeleteEntriesByPrefix c) /\ touches [] (handleShowDb c).
Proof using Type.
  unfold handleUpsertEntry, handleGetEntry, handleDeleteEntry, handleShowEntriesByPrefix,
    handleDeleteEntriesByPrefix, handleShowDb, string_arg.
  repeat match goal with |- _ /\ _ => split end; touch.
Qed.

Lemma windows_touches sock c :
  touches [] (handleRegisterWindowExtension sock c) /\ touches [] (handleListWindows env c) /\
  touches [] (handleActivateWindow env dump c) /\ touches [] (handleGetActiveContext dump c) /\
  touches [] (handleSetActiveTabUrl c) /\ touches [] (handleRegisterNativeHost env sock c) /\
  touches [] (handleFocusChatGPT env c) /\ touches [] (handleFocusAck c).
Proof using Type.
  unfold handleRegisterWindowExtension, handleListWindows, handleActivateWindow, ask_extension,
    handleGetActiveContext, handleSetActiveTabUrl, handleRegisterNativeHost, handleFocusChatGPT,
    handleFocusAck, string_arg.
  repeat match goal with |- _ /\ _ => split end; touch.
Qed.

Lemma keyboard_touches c :
  touches [] (handleGetKeyboardPath c) /\ touches [] (handleGetMousePath c) /\
  touches [] (handleGetKeyboard c) /\ touches [] (keyboard_feature_disabled c) /\
  touches [] (handleGetMacros dump c) /\ touches [Configs] (handleUpdateMacros dump parse what c) /\
  touches [] (handleToggleKeyboard env c) /\ touches [] (handleTestIntegrity env c).
Proof using Type.
  unfold handleGetKeyboardPath, handleGetMousePath, device_path, handleGetKeyboard,
    keyboard_feature_disabled, handleGetMacros, handleUpdateMacros, parsed_value,
    handleToggleKeyboard, handleTestIntegrity, string_arg.
  repeat match goal with |- _ /\ _ => split end; touch.
Qed.

Lemma system_touches c :
  touches [] (handleHelp c) /\ touches [] (handlePing c) /\ touches [] (handleVersion env c) /\
  touches [] (handleQuit c) /\ touches [] (handleGetDir env c) /\ touches [] (handleGetFile env c) /\
  touches [] (handleGetSocketPath c) /\ touches [] (handleListCommands c) /\
  touches [] (handleTestLsof env c) /\ touches [] (handleTestEcho env c) /\
  touches [] (handleTestLsofScript env c).
Proof using Type.
  unfold handleHelp, handlePing, handleVersion, handleQuit, handleGetDir, handleGetFile,
    handleGetSocketPath, handleListCommands, handleTestLsof, handleTestEcho, handleTestLsofScript,
    shell_output, string_arg.
  repeat match goal with |- _ /\ _ => split end; touch.
Qed.

Lemma on_port_touches S name handler c :
  (forall link, touches S (handler link c)) -> touches S (on_port env dump name handler c).
Proof using Type.
  intros H. unfold on_port. apply touches_bind; [apply on_peers_touches; auto with frames|].
  intros link. by apply on_tables_touches.
Qed.

Lemma terminal_touches c :
  touches [Terminals] (Terminal.openedTty (is_directory env) c) /\
  touches [Terminals] (Terminal.closedTty c) /\
  touches [Terminals; SystemSettings] (Terminal.updateDirHistory (is_directory env) c) /\
  touches [Terminals] (Terminal.cdForward (is_directory env) c) /\
  touches [Terminals] (Terminal.cdBackward (is_directory env) c) /\
  touches [] (handleShellSignal c) /\ touches [] (Terminal.showTerminalInstance c) /\
  touches [] (Terminal.showAllTerminalInstances c) /\ touches [] (handlePrintDirHistory c) /\
  touches [Terminals] (handleEmptyDirHistoryTable c).
Proof using Type.
  pose proof (cd_touches (is_directory env) c) as [? ?].
  repeat match goal with |- _ /\ _ => split end;
    auto using opened_touches_tables, closed_touches, updateDirHistory_touches.
  - unfold handleShellSignal. touch.
  - apply with_tty_touches. intros s tty. by apply touches_same.
  - by apply touches_same.
  - by apply touches_same.
  - intros t. by apply emptyHistory_changes.
Qed.

(** The handlers of the peers, the applications and WireGuard. *)
Lemma component_touches sock h c :
  touches (peer_tables h ++ app_tables h) (component_handler env dump dump2 parse sock h c).
Proof using Type.
  unfold component_handler.
  destruct (peer_command _ _ _ _ _ _) eqn:Ep.
  { apply (touches_more (peer_tables h)); [set_solver|]. apply on_peers_touches.
    by eapply peer_handler_touches. }
  destruct (app_command _ _ _ _ _) eqn:Ea.
  { apply (touches_more (app_tables h)); [set_solver|]. apply on_applications_touches.
    by eapply app_handler_touches. }
  destruct (wireguard_command _ _ _); [apply on_popen_touches|apply touches_ret].
Qed.

Lemma handler_touches sock h command :
  touches (handler_tables h) (run_handler env dump dump2 parse what sock h command).
Proof using Type.
  pose proof (terminal_touches command) as Ht. pose proof (logging_touches sock command) as Hl.
  pose proof (settings_touches command) as Hs. pose proof (windows_touches sock command) as Hw.
  pose proof (keyboard_touches command) as Hk. pose proof (system_touches command) as Hy.
  pose proof (window_touches command) as Ho.
  pose proof (ports_touches (executeCommand env)) as Hp.
  destruct_and?. destruct h; cbn [run_handler];
    first [ assumption | apply on_terminal_touches; assumption | apply on_sim_touches
          | apply on_port_touches; intros link; apply Hp
          | apply on_shell_touches; first [apply proxy_touches|apply open_app_touches]
          | apply component_touches ].
Qed.

(** C8: Every command writes only the tables of its component: whatever its arguments
    and whatever the world answers, and whether it succeeds, fails or throws, a handler
    leaves every table but those listed for it as it was, and the connection to the
    database too; so most commands write no table, and only six write the history of
    directories. *)
Theorem commands_write_own_tables (sock : Z) (h : HandlerId) (command : json) (d : Daemon) :
  changes_only (handler_tables h) (tables d)
    (tables (run_handler env dump dump2 parse what sock h command d).1).
Proof using Type. apply handler_touches. Qed.
End Handlers.

(** ** Invariants of the tables through every command *)

(** [P] holds of the tables after every handler that is [allowed] to run. *)
Definition handlers_keep (allowed : HandlerId -> Prop) (P : DB -> Prop) : Prop :=
  forall env dump dump2 parse what sock h c d, allowed h -> P (tables d) ->
  P (tables (run_handler env dump dump2 parse what sock h c d).1).

(** [P] is about tables the handler does not write. *)
Lemma untouched_keeps (T : Table) (P : DB -> Prop) :
  (forall d d', same_table T d d' -> P d -> P d') ->
  forall env dump dump2 parse what sock h c d, T ∉ handler_tables h -> P (tables d) ->
  P (tables (run_handler env dump dump2 parse what sock h c d).1).
Proof.
  intros HP env dump dump2 parse what sock h c d HT. apply HP.
  by apply (proj2 (handler_touches env dump dump2 parse what sock h c d)).
Qed.

Abbreviation ok := (history_ok MAX_DIR_HISTORY_SIZE).

Lemma on_terminal_ok {A} (m : M TS A) d :
  (forall t, ok (db t) -> ok (db (m t).1)) -> ok (tables d) -> ok (tables (on_terminal m d).1).
Proof.
  intros Hm Hd. unfold on_terminal, zoom. specialize (Hm (mkTS (tables d) (terminals d)) Hd).
  by destruct (m _).
Qed.

(** Every command but the one that empties the table. *)
Lemma history_kept : handlers_keep (fun h => h <> H_handleEmptyDirHistoryTable) ok.
Proof.
  intros env dump dump2 parse what sock h c d Hh Hd.
  destruct (decide (Terminals ∈ handler_tables h)) as [HT|HT].
  - apply (bool_decide_eq_true_2 _) in HT. destruct h; try discriminate HT; try done; cbn [run_handler];
      apply on_terminal_ok; auto; intros t; apply term_step_ok; constructor.
  - refine (untouched_keeps Terminals ok _ _ _ _ _ _ _ _ _ _ HT Hd).
    intros d1 d2 [H1 H2]. by apply history_ok_same.
Qed.

(** Every command. *)
Lemma registry_kept : handlers_keep (fun _ => True) apps_ok.
Proof.
  intros env dump dump2 parse what sock h c d _ Hd.
  destruct (decide (ExtraApps ∈ handler_tables h)) as [HT|HT].
  - assert (h = H_handleAddExtraApp \/ h = H_handleRemoveExtraApp) as Hh.
    { apply (bool_decide_eq_true_2 _) in HT. destruct h; auto; discriminate HT. }
    assert (forall m : M Apps CmdResult, keeps_apps m -> apps_ok (tables (on_applications m d).1)) as H.
    { intros m Hm. specialize (Hm (applications d) Hd). unfold on_applications, zoom.
      by destruct (m (applications d)). }
    destruct Hh as [-> | ->]; cbn [run_handler]; apply H; [apply add_keeps|apply remove_keeps].
  - refine (untouched_keeps ExtraApps apps_ok _ _ _ _ _ _ _ _ _ _ HT Hd).
    intros d1 d2. apply apps_ok_same.
Qed.

Section Steps.
Context (dump dump2 : json -> string) (parse : string -> outcome json) (what : exn -> string).
Context (allowed : HandlerId -> Prop).

(** The commands whose handler is allowed. *)
Definition permits (command : json) : Prop :=
  forall name h, command_name command = Ok name -> find_handler name = Some h -> allowed h.

(** A client's command, whatever the world answers during it, and the end of the
    thread of a slow command. *)
Inductive daemon_step : DS (W := Daemon) -> DS (W := Daemon) -> Prop :=
  | step_command env command sock s :
      permits command -> daemon_step s (client_command env dump dump2 parse what command sock s)
  | step_thread env i s : daemon_step s (slow_thread env dump dump2 parse what i s).

Context (P : DB -> Prop) (HP : handlers_keep allowed P).

(** The tables are as [P] says, and the waiting threads have commands that may run. *)
Record daemon_ok (s : DS (W := Daemon)) : Prop := mkDaemonOk {
  daemon_tables : P (tables (world s));
  daemon_threads : Forall (fun p => permits p.1) (threads s)
}.

Lemma command_ok env c sock s :
  permits c -> daemon_ok s -> daemon_ok (client_command env dump dump2 parse what c sock s).
Proof using HP.
  intros Hc [Hh Ht]. unfold client_command.
  edestruct (mainCommand_keeps (run_handler env dump dump2 parse what) dump what
    (fun d => P (tables d)) c) as [H [E|E]];
    [intros name h Hn Hf sk w Hw; apply HP; [by eapply Hc|exact Hw]|exact Hh|split..];
    [exact H|by rewrite E|exact H|].
  rewrite E. apply Forall_app. split; [done|]. by constructor.
Qed.

Lemma thread_ok env i s :
  daemon_ok s -> daemon_ok (slow_thread env dump dump2 parse what i s).
Proof using HP.
  intros [Hh Ht]. unfold slow_thread, run_thread. destruct (threads s !! i) as [[c sock]|] eqn:Ei; [|done].
  pose proof (Forall_lookup_1 _ _ _ _ Ht Ei) as Hc. cbn [fst] in Hc.
  edestruct (thread_body_keeps (run_handler env dump dump2 parse what) what
    (fun d => P (tables d)) c) as [H E];
    [intros name h Hn Hf sk w Hw; apply HP; [by eapply Hc|exact Hw]| |split]; [|exact H|].
  - exact Hh.
  - rewrite E. by apply Forall_delete.
Qed.

Lemma steps_ok s s' : rtc daemon_step s s' -> daemon_ok s -> daemon_ok s'.
Proof using HP.
  intros Hr H. induction Hr as [|s1 s2 s3 H12 _ IH]; [done|]. apply IH.
  destruct H12; [by apply command_ok|by apply thread_ok].
Qed.
End Steps.

Lemma empty_dir_handler name :
  find_handler name = Some H_handleEmptyDirHistoryTable -> name = "emptyDirHistoryTable".
Proof.
  unfold find_handler. destruct (list_find _ _) as [[i [n h]]|] eqn:E; [|done]. simpl.
  apply list_find_Some in E as (Hi & <- & _). intros [= ->].
  assert (forallb (fun p : string * HandlerId =>
    bool_decide (p.2 = H_handleEmptyDirHistoryTable -> p.1 = "emptyDirHistoryTable"))
    COMMAND_HANDLERS = true) as Ht by (vm_compute; reflexivity).
  rewrite forallb_forall in Ht.
  specialize (Ht _ (proj1 (list_elem_of_In _ _) (list_elem_of_lookup_2 _ _ _ Hi))).
  apply bool_decide_eq_true in Ht. by apply Ht.
Qed.

(** Emptying the history is left out: see [emptying_leaves_gap]. *)
Abbreviation keeps_history := (fun h => h <> H_handleEmptyDirHistoryTable).

Lemma other_commands_permitted c :
  command_name c <> Ok "emptyDirHistoryTable" -> permits keeps_history c.
Proof. intros Hc name h Hn Hh ->. apply empty_dir_handler in Hh as ->. done. Qed.

(** C5: through the whole daemon, whatever commands the clients send and whatever
    the threads of slow commands do, as long as nobody empties the history table,
    the directory history stays numbered without gaps, holds at most 500 entries,
    and every terminal session points into it. *)
Theorem history_through_commands (dump dump2 : json -> string) (parse : string -> outcome json)
    (what : exn -> string) (s s' : DS (W := Daemon)) :
  daemon_ok keeps_history ok s ->
  rtc (daemon_step dump dump2 parse what keeps_history) s s' ->
  let d := tables (world s') in
  terminal_history d = numbered 0 (paths d) /\
  Z.of_nat (length (terminal_history d)) <= 500 /\
  Forall (fun p => 0 <= p.2 < Z.of_nat (length (terminal_history d))) (terminal_sessions d).
Proof.
  intros H Hr. cbv zeta.
  by destruct (steps_ok dump dump2 parse what _ _ history_kept s s' Hr H) as [[H1 H2 H3] _].
Qed.

(** ** The log mask across a restart *)

Lemma stoul32_to_string z : 0 <= z < 2 ^ 32 -> stoul32 (Num.to_string z) = Ok z.
Proof.
  intros Hz. unfold stoul32. rewrite Num.strtol_to_string.
  assert ((Z.abs z <? 2 ^ 64) = true) as -> by (apply Z.ltb_lt; lia).
  unfold to_uint32. by rewrite Z.mod_small by lia.
Qed.

Lemma setting_read_back k v d :
  connected d = true -> SettingsTable.getSetting k (SettingsTable.setSetting k v d) = v.
Proof. exact (@get_set_eq DB DB_settings d k v). Qed.

Lemma to_uint32_range z : 0 <= to_uint32 z < 2 ^ 32.
Proof. unfold to_uint32. pose proof (Z.mod_pos_bound z 4294967296). lia. Qed.

Lemma new_log_mask_range val mask : new_log_mask val = inl mask -> 0 <= mask < 2 ^ 32.
Proof.
  unfold new_log_mask, stoul32. intros H. repeat case_match; simplify_eq/=;
    try apply to_uint32_range; by vm_compute.
Qed.

(** The run of the handler. *)
Lemma shouldLog_run env command val d :
  Json.member "enable" command = Some val ->
  handleShouldLog env command d =
  match new_log_mask val with
  | inl mask =>
      ((sync_bridge env g_nativeHostSocketForSync
          (set_tables (SettingsTable.setSetting "shouldLogState" (Num.to_string mask) (tables d))
             (set_log mask d))).1,
       Ok (mkCmdResult 0 ("Logging mask set to: " +:+ Num.to_string mask +:+ eol)))
  | inr error => (d, Ok error)
  end.
Proof.
  intros Hv. unfold handleShouldLog, bindM, M_bind, lift, Json.at_key. rewrite Hv.
  by destruct (new_log_mask val).
Qed.

(** A shouldLog command either sets the log mask, a 32-bit number, and a daemon
    started later on the same tables restores that mask; or it is answered with an
    error and changes nothing. *)
Theorem log_mask_survives (env : HandlerEnv) (command val : json) (d : Daemon) :
  Json.member "enable" command = Some val -> connected (tables d) = true ->
  let d' := (handleShouldLog env command d).1 in
  match new_log_mask val with
  | inl mask => shouldLog d' = mask /\ 0 <= mask < 2 ^ 32 /\ restored_log_mask (tables d') = mask
  | inr error => handleShouldLog env command d = (d, Ok error) /\ status error = 1
  end.
Proof.
  intros Hv Hc. cbv zeta. rewrite (shouldLog_run env command val d Hv).
  destruct (new_log_mask val) as [mask|error] eqn:E.
  - pose proof (new_log_mask_range _ _ E) as Hr.
    assert (restored_log_mask (SettingsTable.setSetting "shouldLogState" (Num.to_string mask)
              (tables d)) = mask) as Hm.
    { unfold restored_log_mask. rewrite (setting_read_back _ _ _ Hc).
      by rewrite Num.to_string_nonempty, stoul32_to_string. }
    unfold sync_bridge. case_match; (split; [done|split; [lia|exact Hm]]).
  - split; [done|]. unfold new_log_mask in E. repeat case_match; by simplify_eq/=.
Qed.

(** ** A run of the daemon *)

Definition quiet : HandlerEnv :=
  mkHEnv quiet_env true None None (fun _ => "") (fun _ => true)
    (mkAppEnv (fun _ _ => 0) (fun _ _ => "") (fun _ => true) (fun _ => true) []) (fun _ => false)
    (demo_env 0 "") (fun _ => inl ("", 0)) (mkProxyEnv true true true 0 0 true) 0 None
    "/opt/automateLinux/".
Definition fresh_network : Peers := mkPeers emptyDB newPeerManager [0; 1; 2] [] 0.
Definition fresh : Daemon :=
  mkDaemon (mkSim initialIM 0 0) (mkApps fresh_network [] []) [] false LOG_CORE true
    (mkExt "" (-1) (-1) (-1) [] []) [].
Definition no_dump (j : json) : string := "".
Definition no_parse (s : string) : outcome json := Throw JsonParseError.

Lemma log_mask_survives_witness :
  restored_log_mask (tables (handleShouldLog quiet (JObject [("enable", JString "-1")]) fresh).1) =
  4294967295.
Proof.
  exact (proj2 (proj2 (log_mask_survives quiet (JObject [("enable", JString "-1")])
    (JString "-1") fresh eq_refl eq_refl))).
Defined.

Lemma history_through_commands_witness :
  let s := mkDS fresh [] [] [] (-1) in
  let c := JObject [("command", JString "updateDirHistory"); ("pwd", JString "/home");
                    ("tty", JString "3")] in
  let s' := client_command quiet no_dump no_dump no_parse no_text c 7 s in
  paths (tables (world s')) = ["/opt/automateLinux/"; "/home/"] /\
  terminal_history (tables (world s')) = numbered 0 (paths (tables (world s'))).
Proof.
  split; [vm_compute; reflexivity|].
  refine (proj1 (history_through_commands no_dump no_dump no_parse no_text
    (mkDS fresh [] [] [] (-1)) _ _ _)).
  - split; [exact emptyDB_ok|constructor].
  - apply rtc_once, step_command, other_commands_permitted. discriminate.
Defined.
