(* ===== verification/MapperLife.v ===== *)
(** Every way a command reaches the input mapper keeps the bookkeeping of its combos:
    typing and simulated input, the loop-back test, loading macros and filters, and what a
    restart restores; and the states the mapper reaches by all of them. *)

From S2P Require Import Prelude Types Json Keys Database InputMapper InputMapperFacts ComboFacts ComboRuns.
From S2P Require Import Terminal MacroJson KeySim Daemon.

(** ** Operations that only write *)

(** The state differs in what was written to the virtual device, and in nothing a combo
    looks at. *)
Definition wrote (s s' : IM) : Prop := frame s s' /\ same_combos s s'.

Lemma wrote_refl s : wrote s s.
Proof. by split. Qed.
Lemma wrote_events l s t : wrote s t -> wrote s (write_events l t).
Proof.
  intros [Hf Hc]. split; [etrans; [exact Hf|apply write_events_frame]|].
  etrans; [exact Hc|apply same_combos_eq, write_events_combos].
Qed.
Lemma wrote_emit ty c v s t : wrote s t -> wrote s (emit ty c v t).
Proof. apply wrote_events. Qed.
Lemma wrote_nosync ty c v s t : wrote s t -> wrote s (emitNoSync ty c v t).
Proof. apply wrote_events. Qed.
Lemma wrote_sync s t : wrote s t -> wrote s (sync t).
Proof. apply wrote_events. Qed.
Lemma wrote_emit_sync c v s t : wrote s t -> wrote s (emit_sync c v t).
Proof. intros H. by apply wrote_sync, wrote_emit. Qed.

Create HintDb wrote discriminated.
#[export] Hint Resolve wrote_refl wrote_emit wrote_nosync wrote_sync wrote_emit_sync : wrote.

Lemma typeChar_wrote c s t : wrote s t -> wrote s (typeChar c t).
Proof.
  intros H. unfold typeChar. destruct (char_code c) as [[code []]|]; [| |done];
    (destruct (code =? 0); [done|auto with wrote]).
Qed.

Lemma type_string_wrote str s t : wrote s t -> wrote s (type_string str t).
Proof. revert t. induction str as [|c str IH]; intros t H; [done|]. by apply IH, typeChar_wrote. Qed.

Lemma numlock_wrote v s t : wrote s t -> wrote s (numlock_event v t).
Proof. intros H. unfold numlock_event, emit_scan. auto with wrote. Qed.

Lemma simulate_key_wrote name s : wrote s (simulate_key name s).1.
Proof.
  unfold simulate_key. destruct (split_suffix name) as [base v].
  repeat (case_decide; [cbn [fst]; auto using numlock_wrote with wrote|]).
  destruct (named_code name _).
  - cbn [fst foldl]. unfold announce_switch, emit_scan. auto 20 with wrote.
  - destruct (named_code base _); [|apply wrote_refl]. cbv zeta. cbn [fst].
    destruct (_ =? _); auto with wrote.
Qed.

Lemma write_raw_wrote ty c v s : wrote s (write_raw ty c v s).
Proof. unfold write_raw. repeat case_match; auto with wrote. Qed.

Lemma loopback_wrote s : wrote s (loopback_events s).
Proof. unfold loopback_events. auto with wrote. Qed.

(** ** Whatever a command does to the mapper *)

Section Kept.
Context {I : IM -> Prop} `{!Bookkeeping I}.

Lemma wrote_inv s s' : wrote s s' -> I s -> I s'.
Proof. intros []. by apply same_inv. Qed.

(** A computation on the simulated input keeps the mapper's bookkeeping. *)
Definition mapper_kept {A} (m : M Sim A) : Prop := forall s, I (mapper s) -> I (mapper (m s).1).

Lemma mapper_bind {A B} (m : M Sim A) (k : A -> M Sim B) :
  mapper_kept m -> (forall a, mapper_kept (k a)) -> mapper_kept (bindM m k).
Proof.
  intros Hm Hk s H. unfold bindM, M_bind. specialize (Hm s H).
  destruct (m s) as [s' []]; [by apply Hk|done].
Qed.
Lemma mapper_lift {A} (o : outcome A) : mapper_kept (lift o).
Proof. by intros s. Qed.
Lemma mapper_ret {A} (a : A) : mapper_kept (mret a).
Proof. by intros s. Qed.
Lemma mapper_modify f : (forall s, wrote (mapper s) (mapper (f s))) -> mapper_kept (modify f).
Proof. intros Hf s. apply wrote_inv, Hf. Qed.

Lemma raw_event_wrote now ty c v s : wrote (mapper s) (mapper (raw_event now ty c v s)).
Proof.
  unfold raw_event, rate_limit. destruct (_ <? 10); [destruct (negb _)|]; cbn [mapper on_mapper];
    apply write_raw_wrote || apply wrote_refl.
Qed.

Lemma simulate_input_kept now c : mapper_kept (handleSimulateInput now c).
Proof.
  unfold handleSimulateInput. destruct (Json.contains "string" c).
  { apply mapper_bind; [apply mapper_lift|]. intros str. apply mapper_bind; [|intros; apply mapper_ret].
    apply mapper_modify. intros s. apply type_string_wrote, wrote_refl. }
  destruct (Json.contains "key" c).
  { apply mapper_bind; [apply mapper_lift|]. intros name s.
    pose proof (simulate_key_wrote name (mapper s)) as Hw. destruct (simulate_key name (mapper s)). by apply wrote_inv. }
  destruct (_ || _); [apply mapper_ret|].
  do 3 (apply mapper_bind; [apply mapper_lift|intros ?]). apply mapper_bind; [|intros; apply mapper_ret].
  apply mapper_modify. intros s. apply raw_event_wrote.
Qed.
End Kept.

(** Loading macros restarts every combo: whatever the new triggers are, the index is in
    their bounds. *)
Lemma load_macros_ok j s : combos_ok s -> combos_ok (setMacrosFromJsonInternal j s).1.
Proof.
  intros (_ & Hw & Hs). destruct (load_resets_progress j s) as (Hi & Hr & _). split_and!.
  - intros app actions i action _ _ He. unfold index. rewrite Hi. by apply length_pos.
  - intros c wk. unfold withheld_in. rewrite Hr. apply Hw.
  - unfold registry_sorted. by rewrite Hr.
Qed.

Lemma filters_ok l s : combos_ok s -> combos_ok (set_filters l s).
Proof. by apply ok_tracking. Qed.

Lemma load_persistence_ok parse s d : combos_ok s -> combos_ok (loadPersistence parse (s, d)).1.
Proof.
  intros H. unfold loadPersistence. cbn [fst snd].
  set (s1 := if Str.empty _ then s else _).
  assert (combos_ok s1) as H1.
  { unfold s1. repeat case_match; try done. by apply load_macros_ok. }
  clearbody s1. repeat case_match; try done; by apply filters_ok.
Qed.

Lemma set_macros_ok dump j w : combos_ok w.1 -> combos_ok (setMacrosFromJson dump j w).1.1.
Proof.
  intros H%(load_macros_ok j). unfold setMacrosFromJson.
  by destruct (setMacrosFromJsonInternal j w.1) as [s []].
Qed.

(** ** The states the mapper reaches *)

Definition all_withheld (s : IM) : list WithheldKey :=
  mjoin ((suppressionRegistry (combos s)).*2).

Lemma withheld_listed s c wk : wk ∈ withheld_in s c -> wk ∈ all_withheld s.
Proof.
  unfold withheld_in, SuppressionRegistry.withheld, all_withheld. intros H.
  destruct (StdMap.find c _) as [vec|] eqn:E; [|by apply elem_of_nil in H].
  apply list_elem_of_join. exists vec. split; [done|].
  apply list_elem_of_fmap. exists (c, vec). split; [done|by apply StdMap.find_Some_elem].
Qed.

Lemma ok_all_withheld s : combos_ok s -> combo_inv (all_withheld s) s.
Proof.
  intros (Hb & Hw & Hs). split; [done|]. split; [|done]. intros c wk Hwk.
  split; [by apply Hw|right; by apply withheld_listed in Hwk].
Qed.

Lemma load_persistence_registry parse s d :
  suppressionRegistry (combos (loadPersistence parse (s, d)).1) = suppressionRegistry (combos s).
Proof.
  unfold loadPersistence. cbn [fst snd]. set (s1 := if Str.empty _ then s else _).
  assert (suppressionRegistry (combos s1) = suppressionRegistry (combos s)) as <-.
  { unfold s1. repeat case_match; try done. by destruct (load_resets_progress a s) as (_ & Hr & _). }
  by repeat case_match.
Qed.

(** Every state of the mapper of a running daemon: what its threads do (reading the
    devices, changing the context, starting, stopping, grabbing, setting NumLock), and the
    commands that type or simulate input, test the loop-back, replace the macros or
    restore what was saved.  [reaches left s] also says which events were withheld when
    the macros were last replaced: the progress of the combos is forgotten then, and these
    events are not. *)
Inductive reaches : list WithheldKey -> IM -> Prop :=
  | reaches_new : reaches [] initialIM
  | reaches_step left s s' : reaches left s -> step s s' -> reaches left s'
  | reaches_simulated left now c x :
      reaches left (mapper x) -> reaches left (mapper (handleSimulateInput now c x).1)
  | reaches_loopback left s : reaches left s -> reaches left (loopback_events s)
  | reaches_macros left dump j s d :
      reaches left s -> reaches (all_withheld s) (setMacrosFromJson dump j (s, d)).1.1
  | reaches_filters left dump j s d :
      reaches left s -> reaches left (setEventFilters dump j (s, d)).1
  | reaches_restored left parse s d :
      reaches left s -> reaches (all_withheld s) (loadPersistence parse (s, d)).1.

Lemma reaches_inv left s : reaches left s -> combo_inv left s.
Proof.
  induction 1 as [|left s s' _ IH Hst|left now c x _ IH|left s _ IH|left dump j s d _ IH|left dump j s d _ IH
    |left parse s d _ IH].
  - apply initialIM_inv.
  - by eapply step_inv.
  - by apply simulate_input_kept.
  - apply (wrote_inv s); [apply loopback_wrote|done].
  - assert (suppressionRegistry (combos (setMacrosFromJson dump j (s, d)).1.1) =
      suppressionRegistry (combos s)) as E.
    { destruct (load_resets_progress j s) as (_ & Hr & _). unfold setMacrosFromJson. cbn [fst].
      by destruct (setMacrosFromJsonInternal j s) as [s' []]. }
    unfold all_withheld. rewrite <- E. apply ok_all_withheld, set_macros_ok. by apply combo_inv_ok in IH.
  - by apply (same_but_tracking_inv s).
  - unfold all_withheld. rewrite <- (load_persistence_registry parse s d).
    apply ok_all_withheld, load_persistence_ok. by apply combo_inv_ok in IH.
Qed.

(** C6: in every state the mapper reaches, every combo waits for a step that its trigger
    has (the loop never indexes past the end of the trigger's events), also after the
    macros were replaced; and every withheld event is filed under its own key code and
    belongs to a combo in progress of the active application, unless it was withheld
    already when the macros were last replaced: such an event may belong to no combo. *)
Theorem combo_bookkeeping (left : list WithheldKey) (s : IM) :
  reaches left s ->
  (forall app actions i action,
     StdMap.find app (appMacros s) = Some actions -> actions !! i = Some action ->
     events (trigger action) <> [] ->
     (nextKeyIndex (combo_state app i s) < length (events (trigger action)))%nat) /\
  (forall c wk, wk ∈ SuppressionRegistry.withheld c (suppressionRegistry (combos s)) ->
     wk_code wk = c /\
     (nextKeyIndex (combo_state (activeApp (ctx s)) (owningComboIdx wk) s) <> O \/ wk ∈ left)).
Proof.
  by intros (Hb & Ht & _)%reaches_inv.
Qed.

(** A context switch, and macros replaced while a key is withheld, for the witnesses. *)
Definition focused_chrome : IM := setContext CHROME "https://example.org" "Example" initialIM.
Lemma focused_chrome_reached : reaches [] focused_chrome.
Proof. apply (reaches_step _ initialIM); constructor. Qed.

Lemma combo_bookkeeping_witness :
  (nextKeyIndex (combo_state CHROME 2 focused_chrome) < 2)%nat.
Proof.
  apply (proj1 (combo_bookkeeping [] focused_chrome focused_chrome_reached) CHROME
    (MacroConfig.applyOverrides MacroConfig.chromeSpecificMacros) 2%nat
    (nth 2%nat (MacroConfig.applyOverrides MacroConfig.chromeSpecificMacros)
       (mkAction (trigger_of []) [] "" None)));
    [reflexivity..|discriminate].
Defined.

(** C32: when the active window changes (another application, URL or title), no key stays
    pressed on the virtual device's account and no combo is in progress; no event is
    withheld any more and no key code blocked but for events that were withheld when the
    macros were last replaced, so none at all when none was.  When nothing changed, the
    call does nothing. *)
Theorem context_switch_clean (left : list WithheldKey) (s : IM) (app : AppType) (url title : string) :
  reaches left s ->
  let s' := setContext app url title s in
  if decide (activeApp (ctx s) = app /\ activeUrl (ctx s) = url /\ activeTitle (ctx s) = title)
  then s' = s
  else pressedKeys (trk s') = [] /\ ctx s' = mkContext app url title /\
       (forall a i, nextKeyIndex (combo_state a i s') = O) /\
       (forall c, (SuppressionRegistry.isBlocked c (suppressionRegistry (combos s'))).1 =
          negb (bool_decide (SuppressionRegistry.withheld c (suppressionRegistry (combos s')) = []))) /\
       (forall c wk, wk ∈ SuppressionRegistry.withheld c (suppressionRegistry (combos s')) ->
          wk_code wk = c /\ wk ∈ left).
Proof.
  intros Hinv%reaches_inv s'. subst s'. unfold setContext. case_decide; [done|].
  set (s1 := set_ctx _ s).
  destruct (releaseAll_trk s1) as (_ & -> & _ & ->).
  destruct (releaseAll_idle left s1) as (Hw & Hi & _); [by apply inv_covered in Hinv|].
  repeat (split; [done|]). split; [intros c; apply isBlocked_fst|exact Hw].
Qed.

Lemma context_switch_clean_witness :
  pressedKeys (trk (setContext CODE "" "main.cpp" focused_chrome)) = [] /\
  forall c, SuppressionRegistry.withheld c
    (suppressionRegistry (combos (setContext CODE "" "main.cpp" focused_chrome))) = [].
Proof.
  destruct (context_switch_clean [] focused_chrome CODE "" "main.cpp" focused_chrome_reached)
    as (H1 & _ & _ & _ & H2).
  split; [exact H1|]. intros c. destruct (SuppressionRegistry.withheld c _) as [|wk l] eqn:E; [reflexivity|].
  destruct (H2 c wk) as [_ []%elem_of_nil]. rewrite E. constructor.
Defined.
