(* ===== verification/Startup.v ===== *)
(** Starting the daemon (src/main.cpp, mode "daemon", and initialize_daemon of
    src/DaemonServer.cpp): what a new process restores from the tables, and the set-up of
    its two listening sockets, the peer one being retried in a thread. *)

From S2P Require Import Prelude Types Json Database Peers PeerFacts Apps AppFacts WireGuard PortLink.
From S2P Require Import Keys InputMapper ComboFacts ComboRuns.
From S2P Require Import Terminal TerminalFacts MacroJson Settings Ports Registry Dispatch KeySim.
From S2P Require Import Frames Daemon DaemonFacts.

(** What the set-up of the sockets meets: for the UNIX socket whether socket() works,
    another daemon answers, bind() and listen() work; for the peer socket, given the
    address of wg0, whether socket(), bind() and listen() work. *)
Record SocketEnv := mkSocketEnv {
  unix_socket : bool;
  other_daemon : bool;
  unix_bind : bool;
  unix_listen : bool;
  peer_socket_fd : string -> option Z;
  peer_bind : string -> bool;
  peer_listen : string -> bool
}.

(** setup_socket: 0 when the daemon may go on. *)
Definition setup_socket (e : SocketEnv) : Z :=
  if negb (unix_socket e) then 1
  else if other_daemon e then 1
  else if negb (unix_bind e) then 1
  else if negb (unix_listen e) then 1
  else 0.

(** setup_peer_socket: the result and the descriptor it leaves. *)
Definition setup_peer_socket (e : SocketEnv) (wg_ip : string) : Z * Z :=
  if Str.empty wg_ip then (0, -1)
  else match peer_socket_fd e wg_ip with
       | None => (1, -1)
       | Some fd =>
           if negb (peer_bind e wg_ip) then (1, -1)
           else if negb (peer_listen e wg_ip) then (1, -1)
           else (0, fd)
       end.

Definition MAX_RETRIES : nat := 12.

(** retry_peer_socket_setup, over what each turn finds: is the daemon still running,
    the address of wg0, and the set-up.  The descriptor, when one was opened, and the
    address the leader then registers itself under. *)
Fixpoint retry_turns (n : nat) (turns : list (bool * string * SocketEnv)) : option (Z * string) :=
  match n, turns with
  | S n', (running, wg_ip, e) :: rest =>
      if negb running then None
      else if Str.empty wg_ip then retry_turns n' rest
      else
        let '(rc, fd) := setup_peer_socket e wg_ip in
        if (rc =? 0) && (0 <=? fd) then Some (fd, wg_ip) else retry_turns n' rest
  | _, _ => None
  end.
Definition retry_peer_socket_setup (turns : list (bool * string * SocketEnv)) : option (Z * string) :=
  retry_turns MAX_RETRIES turns.

(** Constants.h *)
Definition KEYBOARD_DISCOVERY_CMD : string := "ls /dev/input/by-id/ | grep 'Corsair.*-event-kbd'".
Definition KEYBOARD_INPUT_PATH : string := "/dev/input/by-id/".
Definition MOUSE_DISCOVERY_CMD : string :=
  ("awk '/Logitech/ && /Mouse/ {found=1} found && /Handlers/ {if (match($0, " +:+
   "/event[0-9]+/, a)) {print a[0]; exit}}' /proc/bus/input/devices")%string.
Definition MOUSE_INPUT_PATH : string := "/dev/input/".
Definition DBUS_SIGNAL_COMMAND : string :=
  ("/usr/bin/gdbus emit --system --object-path /com/automatelinux/daemon --signal " +:+
   "com.automatelinux.daemon.Ready")%string.

Section Startup.
Context (env : HandlerEnv) (dump : json -> string) (parse : string -> outcome json).

Abbreviation connectToLeader := (Peers.connectToLeader (net env) dump (status_all env)).

(** The leader registers itself again when its peer socket comes up late; the version is
    left at its default. *)
Definition late_registration (wg_ip : string) : M Peers unit :=
  let! p := gets pm in
  if Peers.isLeader p && negb (Str.empty (m_peerId p)) then
    on_pdb (PeerTable.upsertPeer (unix_time (net env)) (m_peerId p) wg_ip (my_mac (net env))
              (default "" (gethostname (net env))) true 0)
  else mret tt.

(** main: the configuration of the peer is loaded; the leader registers itself, a worker
    connects. *)
Definition restore_peers : M Peers unit :=
  let! _ := loadConfig in
  let! p := gets pm in
  if Peers.isLeader p && negb (Str.empty (m_peerId p)) then register_self (net env)
  else if negb (Str.empty (m_leaderAddress p)) then
    let! _ := connectToLeader in startReconnectLoop
  else mret tt.

Definition discover (cmd : string) : M Daemon string :=
  let! _ := modify (fun d => set_shell (shell d ++ [cmd]) d) in mret (executeCommand env cmd).

Definition device_found (type prefix name : string) (d : DB) : DB :=
  if Str.empty name then d else DeviceTable.setDevicePath type (prefix +:+ name) d.

Definition initializeKeyboardPath : M Daemon unit :=
  let! deviceName := discover KEYBOARD_DISCOVERY_CMD in
  on_tables (modify (device_found "keyboard" KEYBOARD_INPUT_PATH deviceName)).
Definition initializeMousePath : M Daemon unit :=
  let! eventNum := discover MOUSE_DISCOVERY_CMD in
  on_tables (modify (device_found "mouse" MOUSE_INPUT_PATH eventNum)).

(** The commands run once the sockets are up. *)
Definition start_dashboard : string :=
  (base_dir env +:+ "daemon/scripts/start_dashboard.sh > /dev/null 2>&1 &")%string.

(** initialize_daemon; the result and whether the thread that retries the peer socket
    was started. *)
Definition initialize_daemon (e : SocketEnv) : M Daemon (Z * bool) :=
  let! _ := modify (fun d => set_log (restored_log_mask (tables d)) d) in
  let! _ := initializeKeyboardPath in
  let! _ := initializeMousePath in
  let! _ := on_macros (modify (loadPersistence parse)) in
  let rc := setup_socket e in
  if negb (rc =? 0) then mret (rc, false)
  else
    let '(peer_rc, peer_fd) := setup_peer_socket e (my_ip (net env)) in
    let retry := (peer_rc =? 0) && (peer_fd <? 0) in
    let! _ := modify (fun d => set_shell (shell d ++ [start_dashboard; DBUS_SIGNAL_COMMAND]) d) in
    mret (0, retry).

(** A process before main: its globals, the descriptors it inherits. *)
Definition new_process (d : DB) : Daemon :=
  mkDaemon (mkSim initialIM 0 0) (mkApps (mkPeers d newPeerManager [0; 1; 2] [] 0) [] []) [] false
    LOG_ALL true (mkExt "" (-1) (-1) (-1) [] []) [].

(** main, mode "daemon", up to the loop. *)
Definition start_daemon (e : SocketEnv) : M Daemon (Z * bool) :=
  let! _ := on_peers restore_peers in initialize_daemon e.

Definition started (e : SocketEnv) (d : DB) : Daemon := (start_daemon e (new_process d)).1.
End Startup.

(** ** What a restart restores *)

Lemma device_changes type prefix name d : changes_only [Devices] d (device_found type prefix name d).
Proof.
  unfold device_found. destruct (Str.empty name); [reflexivity|].
  unfold DeviceTable.setDevicePath. one_table Devices.
Qed.

(** The configuration of the manager. *)
Definition config_of (w : Peers) : string * string * string :=
  (m_role (pm w), m_peerId (pm w), m_leaderAddress (pm w)).

(** Computations that keep the configuration and write the registry of peers only. *)
Definition config_kept {A} (m : M Peers A) : Prop := forall w, config_of (m w).1 = config_of w.

Lemma config_bind {A B} (m : M Peers A) (k : A -> M Peers B) :
  config_kept m -> (forall a, config_kept (k a)) -> config_kept (bindM m k).
Proof.
  intros Hm Hk w. unfold bindM, M_bind. specialize (Hm w).
  destruct (m w) as [w' []]; [by rewrite (Hk a w')|done].
Qed.
Lemma config_if {A} (b : bool) (m n : M Peers A) :
  config_kept m -> config_kept n -> config_kept (if b then m else n).
Proof. by destruct b. Qed.

Ltac config :=
  repeat first
    [ assumption | apply config_if | apply config_bind; [|intros] | case_match
    | solve [intros ?; unfold config_of; simpl; repeat case_match; done] ].

Section Restore.
Context (env : HandlerEnv) (dump : json -> string).

Lemma socket_config : config_kept (sys_socket (net env)).
Proof using Type.
  intros w. unfold sys_socket, syscall, bindM, M_bind. by destruct (socket_ok _ _).
Qed.

Lemma disconnect_config : config_kept Peers.disconnectFromLeader.
Proof using Type. unfold Peers.disconnectFromLeader. config. Qed.

Lemma connect_config : config_kept (Peers.connectToLeader (net env) dump (status_all env)).
Proof using Type.
  pose proof socket_config. pose proof disconnect_config.
  unfold Peers.connectToLeader, Peers.sendToLeader. config.
Qed.

Lemma register_config : config_kept (register_self (net env)).
Proof using Type. unfold register_self. config. Qed.

Lemma load_run w : exists w', loadConfig w = (w', Ok tt) /\ pdb w' = pdb w /\
  m_connectedToLeader (pm w') = m_connectedToLeader (pm w) /\
  m_leaderSocket (pm w') = m_leaderSocket (pm w) /\
  config_of w' = (SettingsTable.getSetting "peer_role" (pdb w),
                  SettingsTable.getSetting "peer_id" (pdb w),
                  SettingsTable.getSetting "peer_leader_address" (pdb w)).
Proof using Type. by eexists. Qed.

Lemma restore_run w :
  let w' := (restore_peers env dump w).1 in
  changes_only [PeerRegistry] (pdb w) (pdb w') /\ link_from w w' /\
  config_of w' = (SettingsTable.getSetting "peer_role" (pdb w),
                  SettingsTable.getSetting "peer_id" (pdb w),
                  SettingsTable.getSetting "peer_leader_address" (pdb w)).
Proof using Type.
  destruct (load_run w) as (w1 & E & Hd & Hc & Hs & Hcfg). unfold restore_peers. cbv zeta.
  rewrite (bindM_ok _ _ w w1 tt E). rewrite <- Hcfg, <- Hd.
  assert (link_from w w1) as Hl.
  { intros l Hl. exists l. destruct l; simpl in *; by rewrite Hc, Hs. }
  rewrite bindM_gets. destruct (_ && _).
  - split; [|split; [|apply register_config]].
    + assert (touches [PeerRegistry] (register_self (net env))) as H
        by (unfold register_self; touch). apply H.
    + etrans; [exact Hl|]. apply (follows_link_from Quiet). unfold register_self. follow.
  - destruct (negb _); [|by split_and!].
    set (m := bindM _ _). split; [|split].
    + assert (touches [PeerRegistry] m) as H by (unfold m; touch). apply H.
    + etrans; [exact Hl|]. apply (follows_link_from Configures). unfold m.
      apply follows_then_quiet; [apply connectToLeader_configures|]. intros _. unfold startReconnectLoop.
      auto with link.
    + pose proof connect_config. assert (config_kept m) as H' by (unfold m; config). apply H'.
Qed.
End Restore.

Section Restart.
Context (env : HandlerEnv) (dump : json -> string) (parse : string -> outcome json).

Lemma socket_returns : returns (sys_socket (net env)).
Proof using Type. unfold sys_socket. returning. Qed.

Lemma connect_returns : returns (Peers.connectToLeader (net env) dump (status_all env)).
Proof using Type.
  pose proof socket_returns. pose proof (sendToLeader_returns (net env) dump).
  unfold Peers.connectToLeader. cbv zeta. repeat first
    [ solve [auto] | apply returns_if | apply returns_bind; [|intros]
    | solve [intros ?; eexists; reflexivity] ].
Qed.

Lemma restore_returns : returns (restore_peers env dump).
Proof using Type.
  pose proof connect_returns. unfold restore_peers, register_self.
  repeat first [ solve [auto] | apply returns_if | apply returns_bind; [|intros]
    | solve [intros ?; eexists; reflexivity] ].
Qed.

Lemma bindM_on_tables {A} f (k : unit -> M Daemon A) d :
  bindM (on_tables (modify f)) k d = k tt (set_tables (f (tables d)) d).
Proof using Type. done. Qed.
Lemma bindM_on_macros {A} f (k : unit -> M Daemon A) d :
  bindM (on_macros (modify f)) k d =
  let p := f (mapper (sim d), tables d) in
  k tt (set_tables p.2 (set_sim (mkSim p.1 (lastEventTime (sim d)) (eventCount (sim d))) d)).
Proof using Type. done. Qed.

(** The state after initialize_daemon, whatever the sockets do. *)
Lemma initialize_run e d :
  let d' := (initialize_daemon env parse e d).1 in
  changes_only [Devices] (tables d) (tables d') /\ pm (peers_of d') = pm (peers_of d) /\
  shouldLog d' = restored_log_mask (tables d) /\
  exists t, changes_only [Devices] (tables d) t /\
    mapper (sim d') = (loadPersistence parse (mapper (sim d), t)).1.
Proof using Type.
  cbv zeta. unfold initialize_daemon. rewrite bindM_modify.
  set (kb := device_found "keyboard" KEYBOARD_INPUT_PATH (executeCommand env KEYBOARD_DISCOVERY_CMD)).
  set (ms := device_found "mouse" MOUSE_INPUT_PATH (executeCommand env MOUSE_DISCOVERY_CMD)).
  assert (changes_only [Devices] (tables d) (ms (kb (tables d)))) as H
    by (etrans; apply device_changes).
  unfold initializeKeyboardPath, initializeMousePath, discover. cbv zeta.
  repeat rewrite ?bindM_assoc, ?bindM_modify, ?bindM_ret, ?bindM_on_tables, ?bindM_on_macros.
  cbv zeta. match goal with |- context [(if negb _ then mret _ else _) ?x] => set (d3 := x) end.
  assert (forall d4, d4 = d3 -> changes_only [Devices] (tables d) (tables d4) /\
    pm (peers_of d4) = pm (peers_of d) /\ shouldLog d4 = restored_log_mask (tables d) /\
    exists t, changes_only [Devices] (tables d) t /\
      mapper (sim d4) = (loadPersistence parse (mapper (sim d), t)).1) as H3.
  { intros d4 ->. split; [exact H|]. split; [done|]. split; [done|].
    exists (ms (kb (tables d))). by split. }
  destruct (negb _); [by apply H3|]. destruct (setup_peer_socket _ _) as [peer_rc peer_fd].
  rewrite bindM_modify. destruct (H3 d3 eq_refl) as (? & ? & ? & ?). by split_and!.
Qed.

(** What loadPersistence reads is the configurations table. *)
Lemma persistence_same s d t :
  changes_only [Devices; PeerRegistry] d t ->
  (loadPersistence parse (s, t)).1 = (loadPersistence parse (s, d)).1.
Proof using Type.
  intros [Hc Hs]. pose proof (Hs Configs) as H. cbn in H.
  assert (forall k, ConfigTable.getConfig k t = ConfigTable.getConfig k d) as Hk.
  { intros k. unfold ConfigTable.getConfig, Database.query. rewrite Hc, H; [done|].
    by apply (bool_decide_eq_false_1 _). }
  unfold loadPersistence. cbn [fst snd]. by rewrite !Hk.
Qed.

Lemma log_mask_same d t :
  changes_only [Devices; PeerRegistry] d t -> restored_log_mask t = restored_log_mask d.
Proof using Type.
  intros [Hc Hs]. pose proof (Hs SystemSettings) as H. cbn in H.
  unfold restored_log_mask, SettingsTable.getSetting, Database.query. rewrite Hc, H; [done|].
  by apply (bool_decide_eq_false_1 _).
Qed.

(** The start in two parts: the peer, then the rest on what it left. *)
Lemma started_split e d :
  exists w1, let d1 := set_network_of w1 (new_process d) in
  restore_peers env dump (mkPeers d newPeerManager [0; 1; 2] [] 0) = (w1, Ok tt) /\
  start_daemon env dump parse e (new_process d) = initialize_daemon env parse e d1 /\
  changes_only [Devices; PeerRegistry] d (tables (started env dump parse e d)) /\
  changes_only [Devices; PeerRegistry] d (tables d1) /\
  (exists l, link_is (peers_of (started env dump parse e d)) l).
Proof using Type.
  set (w := mkPeers d newPeerManager [0; 1; 2] [] 0). unfold started, start_daemon.
  destruct (restore_returns w) as [[] Hr]. pose proof (restore_run env dump w) as (Ht & Hl & _).
  destruct (restore_peers env dump w) as [w1 o] eqn:E. cbn [fst snd] in *. subst o. exists w1.
  set (d1 := set_network_of w1 (new_process d)).
  assert (on_peers (restore_peers env dump) (new_process d) = (d1, Ok tt)) as E1.
  { unfold on_peers, zoom. change (peers_of (new_process d)) with w. by rewrite E. }
  rewrite (bindM_ok _ _ _ _ _ E1). pose proof (initialize_run e d1) as (H1 & H2 & _).
  assert (forall S, S ⊆ [Devices; PeerRegistry] -> forall a b, changes_only S a b ->
    changes_only [Devices; PeerRegistry] a b) as Hmore by (intros; by eapply changes_more).
  assert (changes_only [Devices; PeerRegistry] d (tables d1)) as Hd by (apply (Hmore [PeerRegistry]); [set_solver|exact Ht]).
  split_and!; [done|done|etrans; [exact Hd|apply (Hmore [Devices]); [set_solver|exact H1]]|exact Hd|].
  destruct (Hl Down) as [l Hw]; [by split|]. exists l. destruct l; cbn in *; by rewrite H2.
Qed.

Lemma started_mapper e d :
  exists t, mapper (sim (started env dump parse e d)) = (loadPersistence parse (initialIM, t)).1.
Proof using Type.
  destruct (started_split e d) as (w1 & _ & E1 & _). unfold started. rewrite E1.
  destruct (initialize_run e (set_network_of w1 (new_process d))) as (_ & _ & _ & t & _ & H). by exists t.
Qed.

(** C14: A daemon that is stopped, by an exception or otherwise, and started again
    continues from its tables: the log mask, the macros and event filters and the
    configuration of the peer are those the tables say, only the device paths and the
    registry of peers are written, so the histories, settings and applications are as
    they were, and the connection to the leader is down or up, whether or not the
    sockets could be set up. *)
Theorem restart_restores (e : SocketEnv) (d : DB) :
  let d' := started env dump parse e d in
  changes_only [Devices; PeerRegistry] d (tables d') /\
  shouldLog d' = restored_log_mask d /\
  mapper (sim d') = (loadPersistence parse (initialIM, d)).1 /\
  m_role (pm (peers_of d')) = SettingsTable.getSetting "peer_role" d /\
  m_peerId (pm (peers_of d')) = SettingsTable.getSetting "peer_id" d /\
  m_leaderAddress (pm (peers_of d')) = SettingsTable.getSetting "peer_leader_address" d /\
  exists l, link_is (peers_of d') l.
Proof using Type.
  cbv zeta. destruct (started_split e d) as (w1 & E & E1 & Hall & Hd & Hl). cbv zeta in *.
  pose proof (restore_run env dump (mkPeers d newPeerManager [0; 1; 2] [] 0)) as (_ & _ & Hcfg).
  rewrite E in Hcfg. unfold config_of in Hcfg. injection Hcfg as Hrole Hid Haddr.
  split; [done|]. unfold started in *. rewrite E1 in *.
  pose proof (initialize_run e (set_network_of w1 (new_process d))) as (_ & H2 & H3 & t & H4 & H5).
  split; [rewrite H3; by apply log_mask_same|].
  split; [|by rewrite H2; split_and!].
  rewrite H5. apply persistence_same. etrans; [exact Hd|]. eapply changes_more; [|exact H4]. set_solver.
Qed.
End Restart.
