(* ===== verification/System.v ===== *)
(** The whole program over its lifetime: the select loop on the modelled daemon, the
    threads of slow commands, the heartbeat thread, the input thread, and restarts.  The
    server's interface [DaemonWorld] is discharged by the dispatcher of Daemon, with the
    tables, the peer manager and the application status it uses. *)

From S2P Require Import Prelude Stdio Types Json Database Server Peers PeerFacts Apps AppFacts WireGuard PortLink.
From S2P Require Import Keys InputMapper ComboFacts ComboRuns.
From S2P Require Import Terminal TerminalFacts MacroJson Settings Ports Registry Dispatch KeySim.
From S2P Require Import Frames Daemon DaemonFacts MapperLife Startup.

(** ** The daemon as the server sees it *)

Abbreviation State := (DS (W := Daemon)).

Definition on_world (f : Daemon -> Daemon) (s : State) : State :=
  mkDS (f (world s)) (sent s) (closed s) (threads s) (g_clientSocket s).

Definition on_world_tables (f : DB -> DB) : State -> State :=
  on_world (fun d => set_tables (f (tables d)) d).
Definition on_world_peers (m : M Peers unit) : State -> State :=
  on_world (fun d => (on_peers m d).1).

Definition unregisterLogSubscriber (fd : Z) (e : Extensions) : Extensions :=
  mkExt (g_activeTabUrl e) (g_nativeHostSocket e) (g_nativeHostSocketForSync e)
    (g_windowExtensionSocket e) (StdSet.erase fd (g_logSubscribers e)) (ext_writes e).

Definition opened_fd (fd : Z) : M Peers unit :=
  modify (fun w => mkPeers (pdb w) (pm w) (fd :: open_fds w) (wire w) (calls w)).

Section Node.
Context (env : HandlerEnv) (dump dump2 : json -> string) (parse : string -> outcome json).
Context (what : exn -> string).

(** touchLastSeen, with the version of the heartbeat when it has one *)
Definition touch_last_seen (id : string) (version : option Z) : DB -> DB :=
  match version with
  | Some v => PeerTable.touchLastSeenVersion (unix_time (net env)) id v
  | None => PeerTable.touchLastSeen (unix_time (net env)) id
  end.

Definition set_app_status (id : string) (status : option json) (w : Apps) : Apps :=
  match status with
  | Some j => updatePeerAppStatus id j w
  | None => clearPeerAppStatus id w
  end.

#[export] Instance system_world : DaemonWorld State := {|
  Server.main := fun j fd => mainCommand (run_handler env dump dump2 parse what) dump what j fd;
  Server.write_sock := fun fd msg => write_to fd msg;
  Server.opened := fun fd => on_world_peers (opened_fd fd);
  Server.close_sock := fun fd s =>
    on_world_peers (sys_close fd)
      (mkDS (world s) (sent s) (closed s ++ [fd]) (threads s) (g_clientSocket s));
  Server.unsubscribe := fun fd => on_world (fun d => set_exts (unregisterLogSubscriber fd (exts d)) d);
  Server.touch := fun id v => on_world_tables (touch_last_seen id v);
  Server.offline := fun id =>
    on_world_tables (PeerTable.updateOnlineStatus (unix_time (net env)) id false);
  Server.app_status := fun id st =>
    on_world (fun d => set_applications (set_app_status id st (applications d)) d);
  Server.getLeaderSocket := fun s => m_leaderSocket (pm (peers_of (world s)));
  Server.isConnectedToLeader := fun s => m_connectedToLeader (pm (peers_of (world s)));
  Server.disconnectFromLeader := on_world_peers Peers.disconnectFromLeader
|}.
End Node.

Section Lifetime.
Context (dump dump2 : json -> string) (parse : string -> outcome json) (what : exn -> string).

(** A process with its connections. *)
Definition daemon_of (s : SS (W := State)) : Daemon := world (world_ s).
Definition boot (env : HandlerEnv) (e : SocketEnv) (d : DB) : SS (W := State) :=
  mkSS (mkDS (started env dump parse e d) [] [] [] (-1)) [] [] "".

(** What happens to the program: a round of the select loop (one in which no exception
    gets out), the end of a slow command's thread, a turn of the heartbeat thread, an
    event of the input thread or another step of the mapper, and the end of the process,
    for whatever reason, with a new one started on the same tables.  What the world
    answers may differ in every step. *)
Inductive sys_step : SS (W := State) -> SS (W := State) -> Prop :=
  | sys_round env r s s' :
      @daemon_round _ (system_world env dump dump2 parse what) parse r s = Some (s', Ok tt) ->
      sys_step s s'
  | sys_thread env i s :
      sys_step s (upd_world (slow_thread env dump dump2 parse what i) s)
  | sys_heartbeat env counter s :
      sys_step s (upd_world (on_world_peers
        (ignore (reconnect_turn (net env) dump (status_all env) (mret tt) counter))) s)
  | sys_input im s :
      step (mapper (sim (daemon_of s))) im ->
      sys_step s (upd_world (on_world (fun d =>
        set_sim (mkSim im (lastEventTime (sim d)) (eventCount (sim d))) d)) s)
  | sys_restart env e s : sys_step s (boot env e (tables (daemon_of s))).
End Lifetime.

(** ** The connection to the leader and the mapper through every command *)

(** From one state to the next the connection to the leader stays one of its three states
    and the mapper keeps the bookkeeping of its combos. *)
Record daemon_from (d d' : Daemon) : Prop := mkFrom {
  from_link : link_from (peers_of d) (peers_of d');
  from_mapper : combos_ok (mapper (sim d)) -> combos_ok (mapper (sim d'))
}.

#[export] Instance daemon_from_preorder : PreOrder daemon_from.
Proof. split; [by split|]. intros a b c [] []. split; [by etrans|auto]. Qed.

Definition links {A} (m : M Daemon A) : Prop := forall d, daemon_from d (m d).1.

Lemma link_from_pm w w' : pm w' = pm w -> link_from w w'.
Proof. intros E l Hl. exists l. destruct l; simpl in *; by rewrite E. Qed.

Lemma from_same d d' : pm (peers_of d') = pm (peers_of d) -> mapper (sim d') = mapper (sim d) -> daemon_from d d'.
Proof. intros Hp Hm. split; [by apply link_from_pm|by rewrite Hm]. Qed.

Lemma links_bind {A B} (m : M Daemon A) (k : A -> M Daemon B) :
  links m -> (forall a, links (k a)) -> links (bindM m k).
Proof.
  intros Hm Hk d. unfold bindM, M_bind. specialize (Hm d).
  destruct (m d) as [d' []]; [by etrans; [|apply Hk]|done].
Qed.
Lemma links_try {A} (m : M Daemon A) h : links m -> (forall e, links (h e)) -> links (try_catch m h).
Proof.
  intros Hm Hh d. unfold try_catch. specialize (Hm d).
  destruct (m d) as [d' []]; [done|by etrans; [|apply Hh]].
Qed.
Lemma links_if {A} (b : bool) (m n : M Daemon A) : links m -> links n -> links (if b then m else n).
Proof. by destruct b. Qed.
Lemma links_same {A} (m : M Daemon A) : (forall d, daemon_from d (m d).1) -> links m.
Proof. done. Qed.

(** A part of the state without the peer manager and the mapper. *)
Lemma links_zoom {P A} (get : Daemon -> P) set (m : M P A) :
  (forall p d, daemon_from d (set p d)) -> links (zoom get set m).
Proof. intros H d. unfold zoom. destruct (m (get d)). apply H. Qed.

Lemma links_peers {A} k (m : M Peers A) : follows k m -> links (on_peers m).
Proof.
  intros Hm d. unfold on_peers, zoom. pose proof (follows_link_from k m Hm (peers_of d)) as H.
  destruct (m (peers_of d)). by split.
Qed.

Lemma links_ret {A} (a : A) : links (mret a).
Proof. by intros d. Qed.
Lemma links_lift {A} (o : outcome A) : links (lift o).
Proof. by intros d. Qed.
Lemma links_gets {A} (f : Daemon -> A) : links (gets f).
Proof. by intros d. Qed.
Lemma links_exts {A} (m : M Extensions A) : links (on_exts m).
Proof. apply links_zoom. intros. by apply from_same. Qed.
Lemma links_popen {A} (m : M (list string) A) : links (on_popen m).
Proof. apply links_zoom. intros. by apply from_same. Qed.
Lemma links_tables {A} (m : M DB A) : links (on_tables m).
Proof. apply links_zoom. intros. by apply from_same. Qed.
Lemma links_terminal {A} (m : M TS A) : links (on_terminal m).
Proof. apply links_zoom. intros. by apply from_same. Qed.
Lemma links_shell {A} (m : M (DB * list string) A) : links (on_shell m).
Proof. apply links_zoom. intros. by apply from_same. Qed.
Lemma links_modify f :
  (forall d, pm (peers_of (f d)) = pm (peers_of d) /\ mapper (sim (f d)) = mapper (sim d)) -> links (modify f).
Proof. intros H d. destruct (H d). by apply from_same. Qed.
Lemma links_sync env sock : links (sync_bridge env sock).
Proof. intros d. unfold sync_bridge. simpl. case_match; by apply from_same. Qed.

(** The computations that reach the mapper. *)
Lemma links_sim {A} (m : M Sim A) : mapper_kept (I := combos_ok) m -> links (on_sim m).
Proof.
  intros Hm d. unfold on_sim, zoom. specialize (Hm (sim d)). destruct (m (sim d)) as [s o].
  split; [by apply link_from_pm|exact Hm].
Qed.
Lemma links_im f : (forall s, combos_ok s -> combos_ok (f s)) -> links (on_im f).
Proof. intros Hf. apply links_sim. intros s. apply Hf. Qed.
Lemma links_macros {A} (m : M (IM * DB) A) :
  (forall w, combos_ok w.1 -> combos_ok (m w).1.1) -> links (on_macros m).
Proof.
  intros Hm d. unfold on_macros, zoom. specialize (Hm (mapper (sim d), tables d)).
  destruct (m _) as [w o]. split; [by apply link_from_pm|exact Hm].
Qed.

Lemma links_set_context app url title : links (on_im (setContext app url title)).
Proof. apply links_im. intros s. apply setContext_inv. Qed.
Lemma links_ack : links (on_im onFocusAck).
Proof. apply links_im. intros s. apply upd_fx_inv. Qed.
Lemma links_grab e : links (on_im (grabDevices e)).
Proof. apply links_im. intros s. apply grabDevices_inv. Qed.
Lemma links_stop : links (on_im stop).
Proof. apply links_im. intros s. apply stop_inv. Qed.
Lemma links_loopback : links (on_im loopback_events).
Proof. apply links_im. intros s. apply wrote_inv, loopback_wrote. Qed.
Lemma links_simulate now c : links (on_sim (handleSimulateInput now c)).
Proof. apply links_sim, simulate_input_kept. Qed.
Lemma links_set_macros dump j : links (on_macros (setMacrosFromJson dump j)).
Proof. apply links_macros. intros w. apply set_macros_ok. Qed.
Lemma links_set_filters dump j : links (on_macros (modify (setEventFilters dump j))).
Proof. apply links_macros. intros w. apply filters_ok. Qed.

Create HintDb links discriminated.
#[export] Hint Resolve links_ret links_lift links_gets links_exts links_popen links_tables links_terminal
  links_shell links_sync links_set_context links_ack links_grab links_stop links_loopback
  links_simulate links_set_macros links_set_filters : links.
#[export] Hint Extern 3 (links (modify _)) => apply links_modify; done : links.

Ltac linked :=
  intros; repeat first
    [ solve [auto with links] | apply links_if | apply links_bind; [|intros]
    | apply links_try; [|intros] | case_match ].

Section Links.
Context (env : HandlerEnv) (dump dump2 : json -> string) (parse : string -> outcome json).
Context (what : exn -> string).

Lemma loopback_links seen lines out : links (loopback_lines seen lines out).
Proof using Type.
  revert seen out. induction lines as [|l lines IH]; intros seen out; simpl; [auto with links|].
  apply links_bind; [linked|intros; apply IH].
Qed.
#[local] Hint Resolve loopback_links : links.

Lemma port_links name handler c : links (on_port env dump name handler c).
Proof using Type.
  unfold on_port. apply links_bind; [|intros; auto with links].
  by apply (links_peers Reconnects), port_link_reconnects.
Qed.
#[local] Hint Resolve port_links : links.

(** Adding and removing an application write the tables only. *)
Definition app_links {A} (m : M Apps A) : Prop :=
  forall w, link_from (network w) (network (m w).1).

Lemma app_links_bind {A B} (m : M Apps A) (k : A -> M Apps B) :
  app_links m -> (forall a, app_links (k a)) -> app_links (bindM m k).
Proof using Type.
  intros Hm Hk w. unfold bindM, M_bind. specialize (Hm w).
  destruct (m w) as [w' []]; [by etrans; [|apply Hk]|done].
Qed.
Lemma same_links {A} (m : M Apps A) : same_tables m -> app_links m.
Proof using Type. intros Hm w. apply (Hm w). Qed.
Lemma adb_links f : app_links (on_adb f).
Proof using Type. intros w. by apply link_from_pm. Qed.

Ltac app_linked :=
  intros; repeat first
    [ apply adb_links | solve [auto] | solve [apply same_links; auto with tables] | apply app_links_bind; [|intros]
    | case_match ].

Lemma install_extra_links id url c : app_links (install_extra (app_env env) id url c).
Proof using Type.
  unfold install_extra. cbv zeta. app_linked.
  all: try (apply same_links; first [apply same_clone|apply same_worktree|apply same_detect
    |apply same_override|apply same_optional|apply same_system]).
Qed.

Lemma add_links c : app_links (handleAddExtraApp (app_env env) c).
Proof using Type.
  unfold handleAddExtraApp, app_argument. pose proof install_extra_links. app_linked; auto.
Qed.

Lemma remove_links c : app_links (handleRemoveExtraApp c).
Proof using Type. unfold handleRemoveExtraApp, with_app, app_argument. app_linked. Qed.

Lemma app_handler_links h f c :
  app_handler (app_env env) (net env) dump dump2 parse h = Some f -> app_links (f c).
Proof using Type.
  intros H. destruct (decide (h = H_handleAddExtraApp)) as [->|].
  { injection H as <-. apply add_links. }
  destruct (decide (h = H_handleRemoveExtraApp)) as [->|].
  { injection H as <-. apply remove_links. }
  by eapply same_links, same_handler.
Qed.

(** The handlers of the peers follow their kinds. *)
Lemma peer_handler_links sock h f c :
  peer_handler (net env) dump dump2 parse (status_all env) sock h = Some f ->
  forall w, link_from w (f c w).1.
Proof using Type.
  intros H w. assert (exists op,
    run_op (net env) dump dump2 parse (status_all env) op = ignore (f c)) as [op Hop].
  { destruct h; try discriminate H; injection H as <-;
      [exists (OpSetPeerConfig c)|exists (OpGetPeerStatus c)|exists (OpRegisterPeer sock c)
      |exists (OpListPeers c)|exists (OpDeletePeer c)|exists (OpGetPeerInfo c)|exists (OpExecOnPeer c)
      |exists (OpExecRequest c)|exists (OpRemotePull c)|exists (OpRemoteBd c)
      |exists (OpRemoteDeployDaemon c)|exists (OpDbSanityCheck c)|exists (OpRegisterWorker c)
      |exists (OpUpdatePeerMac c)|exists (OpUpdatePeerMacInternal c)]; reflexivity. }
  pose proof (follows_link_from _ _ (op_follows (net env) dump dump2 parse (status_all env) op) w) as Hl.
  rewrite Hop in Hl. unfold ignore, bindM, M_bind in Hl. by destruct (f c w) as [w' []].
Qed.

Lemma component_links sock h c : links (component_handler env dump dump2 parse sock h c).
Proof using Type.
  intros d. unfold component_handler. destruct (peer_command _ _ _ _ _ _) eqn:Ep.
  { pose proof (peer_handler_links sock h _ c Ep (peers_of d)) as H. unfold on_peers, zoom.
    destruct (m c (peers_of d)). by split. }
  destruct (app_command _ _ _ _ _) eqn:Ea.
  { pose proof (app_handler_links h _ c Ea (applications d)) as H. unfold on_applications, zoom.
    destruct (m c (applications d)). by split. }
  by destruct (wireguard_command _ _ _); [apply links_popen|].
Qed.
#[local] Hint Resolve component_links : links.

(** Every command. *)
Lemma handler_links sock h c : links (run_handler env dump dump2 parse what sock h c).
Proof using Type.
  destruct h; cbn [run_handler]; auto with links;
    unfold handleHelp, handlePing, handleVersion, handleQuit, handleGetDir, handleGetFile,
      handleGetSocketPath, handleListCommands, handleTestLsof, handleTestEcho, handleTestLsofScript,
      shell_output, handleGetKeyboardPath, handleGetMousePath, device_path, handleGetKeyboard,
      keyboard_feature_disabled, handleGetMacros, handleUpdateMacros,
      handleToggleKeyboard, setKeyboard, handleTestIntegrity, handleRegisterWindowExtension,
      handleListWindows, handleActivateWindow, ask_extension, handleGetActiveContext,
      handleSetActiveTabUrl, handleRegisterNativeHost, handleFocusChatGPT, handleFocusAck,
      handleUpsertEntry, handleGetEntry, handleDeleteEntry, handleShowEntriesByPrefix,
      handleDeleteEntriesByPrefix, handleShowDb, handleShouldLog, handleGetShouldLog,
      handleRegisterLogListener, handleGetEventFilters, handleSetEventFilters, onActiveWindowChanged,
      parsed_value, string_arg; linked.
Qed.
End Links.

(** ** Invariants over the lifetime *)

Section Safety.
Context (dump dump2 : json -> string) (parse : string -> outcome json) (what : exn -> string).

(** A property of the tables that every command keeps, whatever the registry of peers
    and the device paths are. *)
Context (T : DB -> Prop) (HT : handlers_keep (fun _ => True) T).
Context (Hother : forall d d', changes_only [Devices; PeerRegistry] d d' -> T d -> T d').

(** The tables are as they should be, the connection to the leader is down, up or stale,
    and the combos of the mapper are in order. *)
Record safe (d : Daemon) : Prop := mkSafe {
  safe_tables : T (tables d);
  safe_link : exists l, link_is (peers_of d) l;
  safe_mapper : combos_ok (mapper (sim d))
}.

Abbreviation safe_state := (fun s : State => safe (world s)).

Lemma safe_handler env sock h c d :
  safe d -> safe (run_handler env dump dump2 parse what sock h c d).1.
Proof using HT.
  intros [Ht [l Hl] Hm]. destruct (handler_links env dump dump2 parse what sock h c d) as [Hlink Hmap].
  split; [by apply HT|exact (Hlink l Hl)|exact (Hmap Hm)].
Qed.

(** The calls of the server that write one table or the peer manager. *)
Lemma safe_table f d :
  (forall t, changes_only [PeerRegistry] t (f t)) -> safe d -> safe (set_tables (f (tables d)) d).
Proof using HT Hother.
  intros Hf [Ht [l Hl] Hm]. split; [|by exists l|done]. apply (Hother (tables d)); [|done].
  eapply changes_more; [|apply Hf]. set_solver.
Qed.

Lemma safe_peers {A} k (m : M Peers A) d :
  touches [PeerRegistry] m -> follows k m -> safe d -> safe (on_peers m d).1.
Proof using HT Hother.
  intros Hm Hk [Ht [l Hl] Hc]. unfold on_peers, zoom.
  pose proof (Hm (peers_of d)) as H1. destruct (Hk (peers_of d) l Hl) as (l' & H2 & _).
  destruct (m (peers_of d)) as [w o]. cbn in *. split; [|by exists l'|done].
  apply (Hother (tables d)); [|done]. eapply changes_more; [|exact H1]. set_solver.
Qed.

Lemma touch_changes env id v t : changes_only [PeerRegistry] t (touch_last_seen env id v t).
Proof using Type. destruct v; by apply update_peer_changes. Qed.

Lemma server_keeps env :
  @world_keeps State (system_world env dump dump2 parse what) safe_state.
Proof using HT Hother.
  split.
  - intros j fd s Hs. refine (proj1 (mainCommand_keeps (run_handler env dump dump2 parse what)
      dump what safe j _ fd s Hs)). intros name h _ _ sock d. apply safe_handler.
  - done.
  - intros fd s. apply (safe_peers Quiet); [apply opened_touches|]. unfold opened_fd. unseen.
  - intros fd s. apply (safe_peers Quiet); [apply close_touches|apply close_quiet].
  - intros fd s [Ht Hl Hm]. by split.
  - intros id v s. apply safe_table, touch_changes.
  - intros id s. apply safe_table. intros t. by apply update_peer_changes.
  - intros id st s [Ht Hl Hm]. split; destruct st; done.
  - intros s. apply (safe_peers Disconnects); [apply disconnect_touches|apply disconnect_link].
Qed.

Lemma safe_thread env i (s : State) :
  safe (world s) -> safe (world (slow_thread env dump dump2 parse what i s)).
Proof using HT Hother.
  intros Hs. unfold slow_thread, run_thread. destruct (threads s !! i) as [[c sock]|]; [|done].
  apply (safe_peers Quiet); [apply close_touches|apply close_quiet|].
  edestruct (thread_body_keeps (run_handler env dump dump2 parse what) what safe c) as [H _];
    [intros name h _ _ sk d; apply safe_handler| |exact H]. exact Hs.
Qed.

Lemma safe_heartbeat env n d :
  safe d -> safe (on_peers (ignore (reconnect_turn (net env) dump (status_all env) (mret tt) n)) d).1.
Proof using HT Hother dump2 parse.
  apply (safe_peers Reconnects).
  - apply touches_bind; [|auto with frames]. unfold reconnect_turn, PeerTable.touchLastSeenVersion. touch.
  - exact (op_follows (net env) dump dump2 parse (status_all env) (OpReconnectTurn n)).
Qed.

Lemma safe_boot env e d : T d -> safe (started env dump parse e d).
Proof using HT Hother.
  intros Hd. destruct (started_split env dump parse e d) as (w1 & _ & _ & H1 & _ & H2).
  destruct (started_mapper env dump parse e d) as [t Hm].
  split; [by apply (Hother d)|done|]. rewrite Hm. apply load_persistence_ok, (combo_inv_ok []), initialIM_inv.
Qed.

Lemma lifetime_safe s s' :
  safe (daemon_of s) -> rtc (sys_step dump dump2 parse what) s s' -> safe (daemon_of s').
Proof using HT Hother.
  intros Hs Hr. induction Hr as [|s1 s2 s3 H12 _ IH]; [done|]. apply IH. clear IH.
  destruct H12 as [env r s s2 E|env i s|env n s|im s Him|env e s].
  - pose proof (@round_keeps _ (system_world env dump dump2 parse what) parse safe_state
      (server_keeps env) r s Hs) as H. rewrite E in H. exact H.
  - by apply safe_thread.
  - by apply safe_heartbeat.
  - destruct Hs as [Ht Hl Hm]. split; [done|done|]. by apply (step_inv (mapper (sim (daemon_of s)))).
  - apply safe_boot, (safe_tables _ Hs).
Qed.
End Safety.

Lemma apps_elsewhere d d' : changes_only [Devices; PeerRegistry] d d' -> apps_ok d -> apps_ok d'.
Proof.
  intros [_ H]. apply apps_ok_same. apply (H ExtraApps). by apply (bool_decide_eq_false_1 _).
Qed.

(** C7: Over the whole lifetime of the program, its bookkeeping stays in order.  Started
    on tables whose registry of applications is well typed, in every state reached by
    rounds of the select loop, with any bytes from clients, peers and the leader, by the
    threads of slow commands, the heartbeat thread, the input thread and any number of
    restarts: each record of the registry is keyed by its own identity and has the
    templates, port keys and paths of that identity, and the applications listed have
    distinct identities; the leader's socket is open exactly as the flag says unless the
    link is stale; every combo waits for a step its trigger has, also after new macros
    were loaded, and every withheld event is filed under its own code. *)
Theorem invariants_through_lifetime (dump dump2 : json -> string) (parse : string -> outcome json)
    (what : exn -> string) (env : HandlerEnv) (e : SocketEnv) (stored : DB) (s : SS (W := State)) :
  apps_ok stored -> rtc (sys_step dump dump2 parse what) (boot dump parse env e stored) s ->
  let d := daemon_of s in let im := mapper (sim d) in
  apps_ok (tables d) /\ NoDup (appId <$> getAllApps (tables d)) /\
  (forall cfg, cfg ∈ getAllApps (tables d) ->
     getAppConfig (appId cfg) (tables d) = cfg /\ config_ok cfg) /\
  (let p := pm (peers_of d) in
   (m_connectedToLeader p = false -> m_leaderSocket p = -1) /\
   (m_connectedToLeader p = true -> m_leaderSocket p = -1 \/ 0 <= m_leaderSocket p)) /\
  (forall app actions i action,
     StdMap.find app (appMacros im) = Some actions -> actions !! i = Some action ->
     events (trigger action) <> [] ->
     (nextKeyIndex (combo_state app i im) < length (events (trigger action)))%nat) /\
  (forall c wk, wk ∈ SuppressionRegistry.withheld c (suppressionRegistry (combos im)) -> wk_code wk = c).
Proof.
  intros Ha Hr. cbv zeta.
  destruct (lifetime_safe dump dump2 parse what apps_ok registry_kept apps_elsewhere
    (boot dump parse env e stored) s
    (safe_boot dump parse apps_ok registry_kept apps_elsewhere env e stored Ha) Hr) as [Ht [l Hs] (Hb & Hw & _)].
  split; [done|]. destruct (registry_listed _ Ht) as [Hnd Hcfg]. do 2 (split; [done|]).
  split; [|by split]. destruct l; cbn in Hs; destruct_and?; split; intros; congruence || lia || auto.
Qed.

(** A fresh daemon that a client sends one line. *)
Definition ping_parse (line : string) : outcome json :=
  if decide (line = "ping") then Ok (JObject [("command", JString "ping")]) else Throw JsonParseError.
Definition no_sockets : SocketEnv :=
  mkSocketEnv true false true true (fun _ => Some 4) (fun _ => true) (fun _ => true).
Definition booted : SS (W := State) := boot no_dump ping_parse quiet no_sockets emptyDB.

Definition ping_round : Ready :=
  mkReady (Some 5) None (fun fd => if fd =? 5 then Some (Some ("ping" +:+ eol)%string) else None)
    (fun _ => None) None.
Definition round_of_booted : option (SS * outcome unit) :=
  @daemon_round _ (system_world quiet no_dump no_dump ping_parse no_text) ping_parse ping_round booted.
Definition after_ping : SS (W := State) :=
  match round_of_booted with Some (s, _) => s | None => booted end.

Lemma invariants_through_lifetime_witness :
  sent (world_ after_ping) = [(5, "pong" +:+ eol)%string] /\ clients after_ping = [] /\
  apps_ok (tables (daemon_of after_ping)).
Proof.
  split; [vm_compute; reflexivity|]. split; [vm_compute; reflexivity|].
  refine (proj1 (invariants_through_lifetime no_dump no_dump ping_parse no_text quiet no_sockets emptyDB _ _ _)).
  - split; [exact I|constructor].
  - apply rtc_once, (sys_round _ _ _ _ quiet ping_round). vm_compute. reflexivity.
Defined.
