(* ===== verification/Client.v ===== *)
(** The command line client (src/ClientSender.cpp, and mode "send" of src/main.cpp): the
    arguments it turns into a JSON command, what it refuses, and what the daemon does with
    what it sends.  [parse] and [dump] of the JSON library are parameters. *)

From S2P Require Import Prelude Stdio Types Json Database Server Peers PeerFacts Apps AppFacts WireGuard PortLink.
From S2P Require Import Keys InputMapper ComboFacts ComboRuns.
From S2P Require Import Terminal TerminalFacts MacroJson Settings Ports Registry Dispatch KeySim.
From S2P Require Import Frames Daemon DaemonFacts Startup System.

(** ** The help of one command *)

Definition generate_command_help (cmd : CommandSignature) : string :=
  ("Usage: d " +:+ sig_name cmd +:+
   String.concat "" ((fun arg => " --" +:+ arg +:+ " <value>")%string <$> requiredArgs cmd) +:+
   (if Str.empty (optionalArgs cmd) then "" else " [" +:+ optionalArgs cmd +:+ "]") +:+ eol +:+ eol +:+
   (if Str.empty (description cmd) then "" else description cmd +:+ eol +:+ eol) +:+
   (match requiredArgs cmd with
    | [] => ""
    | args => "Required arguments:" +:+ eol +:+
        String.concat "" ((fun arg => "  --" +:+ arg +:+ eol)%string <$> args) +:+ eol
    end) +:+
   (if Str.empty (optionalArgs cmd) then ""
    else "Optional arguments:" +:+ eol +:+ "  " +:+ optionalArgs cmd +:+ eol +:+ eol))%string.

(** ** The arguments *)

Definition is_int64 (z : Z) : bool := (- 2 ^ 63 <=? z) && (z <? 2 ^ 63).

(** The value of "--key val": a number when std::stoll reads the whole string, the string
    itself when it reads a part, reads nothing, or throws. *)
Definition arg_value (val : string) : json :=
  match Num.strtol val with
  | Some (num, "") => if is_int64 num then JInt num else JString val
  | _ => JString val
  end.

(** j, an ordered_json object *)
Abbreviation members := (list (string * json)).

Definition set_error (what : string) (j : members) : members :=
  Json.set_ordered "error" (JString what) j.

(** The loop over argv[start_index + 1 ...]: the members, or those it returns early with
    and the line it prints to cerr. *)
Fixpoint parse_args (commandName : string) (args : list string) (j : members) :
    members + members * string :=
  match args with
  | [] => inl j
  | arg_key_str :: rest =>
      if Str.starts_with "--" arg_key_str then
        match rest with
        | val :: rest' =>
            parse_args commandName rest' (Json.set_ordered (Str.drop 2 arg_key_str) (arg_value val) j)
        | [] => inr (set_error "Missing argument value." j,
                     "Error: Missing value for argument '" +:+ arg_key_str +:+ "'." +:+ eol)%string
        end
      else if decide (commandName = "simulateInput") then
        parse_args commandName rest (Json.set_ordered "key" (JString arg_key_str) j)
      else inr (set_error "Invalid argument format." j,
                "Error: Unexpected argument format '" +:+ arg_key_str +:+ "'." +:+ eol)%string
  end.

(** The object the client builds, with what it prints to cout and to cerr. *)
Record Parsed := mkParsed { p_json : members; p_out : string; p_err : string }.

(** "--help" or "-h" right after the command *)
Definition asks_help (args : list string) : bool :=
  match args with nextArg :: _ => bool_decide (nextArg = "--help" \/ nextArg = "-h") | [] => false end.

(** argv[start_index ...] *)
Definition parse_client_args (argv : list string) : Parsed :=
  match argv with
  | [] => mkParsed (set_error "No command provided." []) ""
            ("Error: No command provided for client." +:+ eol)
  | commandName :: args =>
      let j := Json.set_ordered "command" (JString commandName) [] in
      match find_command commandName with
      | None => mkParsed (set_error "Unknown command." j) ""
                  ("Error: Unknown command '" +:+ commandName +:+ "'." +:+ eol)
      | Some foundCommand =>
          if asks_help args then
            mkParsed (Json.set_ordered "_help_shown" (JBool true) j)
              (generate_command_help foundCommand) ""
          else
            match parse_args commandName args j with
            | inr (j, err) => mkParsed j "" err
            | inl j =>
                match first_missing (requiredArgs foundCommand) (JObject j) with
                | None => mkParsed j "" ""
                | Some required_arg =>
                    mkParsed (set_error "Missing required argument." j) ""
                      ("Error: Missing required argument '--" +:+ required_arg +:+
                       "' for command '" +:+ commandName +:+ "'." +:+ eol)
                end
            end
      end
  end.

(** ** Sending *)

(** What the client meets: whether socket() and connect() work, strerror's texts for them,
    and the data of each read() until it gives none. *)
Record Link := mkLink {
  has_socket : bool;
  connects : bool;
  socket_error : string;
  connect_error : string;
  replies : list string
}.

(** How a process ends: main returns, or the C++ runtime aborts it. *)
Inductive Ending := Exits (status : Z) | Aborts.

(** A run of the client: how it ends, what it wrote to the daemon ([None] when it wrote
    nothing), and what it printed itself. *)
Record Run := mkRun { exit_status : Ending; written : option string; out : string; err : string }.

(** cout << buffer, for each read of at least one byte *)
Fixpoint print_replies (reads : list string) : string :=
  match reads with
  | [] | "" :: _ => ""
  | chunk :: rest => (c_string chunk +:+ print_replies rest)%string
  end.

Section Send.
(** dump() throws for a text that is not UTF-8, and nothing here catches that. *)
Context (dump : json -> outcome string).

Definition send_command_to_daemon (link : Link) (jsonCmd : members) (p : Parsed) : Run :=
  if negb (has_socket link) then
    mkRun (Exits 1) None (p_out p) (p_err p +:+ "socket() failed: " +:+ socket_error link +:+ eol)
  else if negb (connects link) then
    mkRun (Exits 1) None (p_out p) (p_err p +:+ "connect() failed: " +:+ connect_error link +:+ eol)
  else
    match dump (JObject jsonCmd) with
    | Throw _ => mkRun Aborts None (p_out p) (p_err p)
    | Ok jsonCmdStr =>
        mkRun (Exits 0) (Some (jsonCmdStr +:+ eol)%string)
          (p_out p +:+ print_replies (replies link)) (p_err p)
    end.

(** main, mode "send" *)
Definition main_send (link : Link) (argv : list string) : Run :=
  let p := parse_client_args argv in
  let cmdJson := p_json p in
  if Json.contains "error" (JObject cmdJson) then mkRun (Exits 1) None (p_out p) (p_err p)
  else if Json.contains "_help_shown" (JObject cmdJson) then mkRun (Exits 0) None (p_out p) (p_err p)
  else send_command_to_daemon link cmdJson p.
End Send.

(** ** What the arguments become *)

Lemma arg_value_string_or_number (val : string) :
  arg_value val = JString val \/ exists z, is_int64 z = true /\ arg_value val = JInt z.
Proof.
  unfold arg_value. destruct (Num.strtol val) as [[z [|c rest]]|]; [|by left..].
  destruct (is_int64 z) eqn:E; [right; by exists z|by left].
Qed.

Lemma arg_value_number (z : Z) :
  arg_value (Num.to_string z) = if is_int64 z then JInt z else JString (Num.to_string z).
Proof. unfold arg_value. by rewrite Num.strtol_to_string. Qed.

(** Every member the loop sets is a string or a number. *)
Definition plain_value (v : json) : Prop :=
  match v with JString _ => True | JInt z => is_int64 z = true | _ => False end.

Lemma arg_value_plain (val : string) : plain_value (arg_value val).
Proof. destruct (arg_value_string_or_number val) as [-> | (z & Hz & ->)]; done. Qed.

(** What the loop leaves of a member: its value before, or a string or a number, when
    "--k" is an argument or "key" is set by simulateInput. *)
Lemma parse_args_member name args j j' k :
  parse_args name args j = inl j' ->
  Json.assoc k j' = Json.assoc k j \/
  ((("--" +:+ k)%string ∈ args \/ (k = "key" /\ name = "simulateInput")) /\
   exists v, Json.assoc k j' = Some v /\ plain_value v).
Proof.
  revert j. induction args as [args IH] using (induction_ltof1 _ length). intros j.
  destruct args as [|a rest]; [intros [= ->]; by left|]. cbn [parse_args].
  destruct (Str.starts_with "--" a) eqn:Ea; [destruct rest as [|val rest]; [done|]|].
  - intros E. destruct (IH rest ltac:(unfold ltof; simpl; lia) _ E) as [->|(Hin & Hv)].
    + rewrite Json.assoc_set_ordered. case_decide as Hk; [|by left]. right. split; [|eauto using arg_value_plain].
      left. subst k. apply Str.starts_with_drop in Ea. change (String.length "--") with 2%nat in Ea. rewrite <- Ea. by left.
    + right. split; [|done]. destruct Hin as [Hin|Hin]; [left|by right]. by do 2 right.
  - destruct (decide (name = "simulateInput")) as [Hn|]; [|done]. intros E.
    destruct (IH rest ltac:(unfold ltof; simpl; lia) _ E) as [->|(Hin & Hv)].
    + rewrite Json.assoc_set_ordered. case_decide as Hk; [|by left]. right. split; [by right|by eexists].
    + right. split; [|done]. destruct Hin as [Hin|Hin]; [left; by right|by right].
Qed.

(** ** The client checks what the server checks *)

(** No option uses a name the client keeps for itself. *)
Definition ordinary (args : list string) : Prop :=
  Forall (fun k => ("--" +:+ k)%string ∉ args) ["command"; "error"; "_help_shown"].

Lemma parsed_members name args j :
  ordinary args -> parse_args name args [("command", JString name)] = inl j ->
  Json.assoc "command" j = Some (JString name) /\
  Json.assoc "error" j = None /\ Json.assoc "_help_shown" j = None.
Proof.
  intros [H1 [H2 [H3 _]%Forall_cons]%Forall_cons]%Forall_cons E.
  assert (forall k, k <> "key" -> ("--" +:+ k)%string ∉ args ->
            Json.assoc k j = Json.assoc k [("command", JString name)]) as Hk.
  { intros k Hk Hin. destruct (parse_args_member _ _ _ _ k E) as [->|([?|[? _]] & _)]; done. }
  by rewrite !Hk.
Qed.

(** The server accepts the command. *)
Definition accepted (j : json) : bool :=
  match validateCommand j with Ok r => status r =? 0 | Throw _ => false end.

Lemma accepted_members name j :
  Json.assoc "command" j = Some (JString name) ->
  accepted (JObject j) =
  match find_command name with
  | Some c => match first_missing (requiredArgs c) (JObject j) with None => true | Some _ => false end
  | None => false
  end.
Proof.
  intros Hc. unfold accepted, validateCommand, Json.contains, Json.string_at, Json.at_key. simpl. rewrite Hc.
  simpl. destruct (find_command name) as [c|]; [|done]. by destruct (first_missing _ _).
Qed.

Lemma set_error_seen what j : Json.contains "error" (JObject (set_error what j)) = true.
Proof. unfold Json.contains, set_error. simpl. by rewrite Json.assoc_set_ordered. Qed.

Lemma parse_args_error name args j j' e :
  parse_args name args j = inr (j', e) -> Json.contains "error" (JObject j') = true.
Proof.
  revert j. induction args as [args IH] using (induction_ltof1 _ length). intros j.
  destruct args as [|a rest]; [done|]. cbn [parse_args]. destruct (Str.starts_with "--" a).
  - destruct rest as [|v rest]; [|apply IH; unfold ltof; simpl; lia].
    intros [= <- _]. apply set_error_seen.
  - case_decide; [apply IH; unfold ltof; simpl; lia|]. intros [= <- _]. apply set_error_seen.
Qed.

(** What the parser returns without a request for help: the members when the server
    accepts them, an error otherwise. *)
Lemma parse_client_args_result name args :
  ordinary args -> asks_help args = false ->
  let p := parse_client_args (name :: args) in
  (exists j, parse_args name args [("command", JString name)] = inl j /\
     accepted (JObject j) = true /\ p = mkParsed j "" "" /\
     Json.contains "error" (JObject j) = false /\ Json.contains "_help_shown" (JObject j) = false) \/
  (match parse_args name args [("command", JString name)] with
   | inl j => accepted (JObject j) = false | inr _ => True end /\
   Json.contains "error" (JObject (p_json p)) = true).
Proof.
  intros Ho Hh p. subst p. unfold parse_client_args. rewrite Hh.
  change (Json.set_ordered "command" (JString name) []) with [("command", JString name)].
  destruct (parse_args name args _) as [j|[j e]] eqn:E.
  - destruct (parsed_members _ _ _ Ho E) as (H1 & H2 & H3).
    generalize (accepted_members name j H1). destruct (find_command name) as [c|];
      [|right; split; [done|apply set_error_seen]].
    destruct (first_missing _ _) as [a|]; [right; split; [done|apply set_error_seen]|].
    left. exists j. unfold Json.contains. simpl. by rewrite H2, H3.
  - right. split; [done|]. apply parse_args_error in E. by destruct (find_command name).
Qed.

(** C28: the client checks what the server checks.  For any name and any arguments that ask
    for no help and use none of the names the client keeps for itself (the options
    --command, --error and --_help_shown, whose effects the example [reserved_options]
    shows), and when it can connect: it writes one line, the dump of the members it parsed,
    and exits with 0, when the arguments are well formed and the daemon's own validation
    accepts these members; it writes nothing and exits with 1 when they are not or it does
    not; and it writes nothing and is aborted when the members are accepted but contain a
    text that dump() refuses.  When it cannot connect it writes nothing and exits with 1. *)
Theorem client_checks_like_server (dump : json -> outcome string) (link : Link) (name : string)
    (args : list string) :
  ordinary args -> asks_help args = false ->
  let r := main_send dump link (name :: args) in
  let refused := written r = None /\ exit_status r = Exits 1 in
  if has_socket link && connects link then
    match parse_args name args [("command", JString name)] with
    | inl j =>
        if accepted (JObject j) then
          match dump (JObject j) with
          | Ok text => written r = Some (text +:+ eol)%string /\ exit_status r = Exits 0
          | Throw _ => written r = None /\ exit_status r = Aborts
          end
        else refused
    | inr _ => refused
    end
  else refused.
Proof.
  intros Ho Hh r refused. subst refused r. unfold main_send, send_command_to_daemon.
  destruct (parse_client_args_result name args Ho Hh) as [(j & -> & Ha & -> & He & Hs)|[Ha He]].
  - cbn [p_json]. rewrite Ha, He, Hs.
    destruct (has_socket link), (connects link); try done. cbn. by destruct (dump (JObject j)).
  - rewrite He. destruct (_ && _); [|done]. destruct (parse_args _ _ _); [|done]. by rewrite Ha.
Qed.

(** ** What the daemon does with it *)

(** A text the server reads as one line: no newline, no NUL, no carriage return at the
    end.  A JSON dump is one, its control characters being escaped. *)
Definition one_line (text : string) : bool :=
  match find_nl text with None => no_nul text && negb (Str.ends_with_char "013" text) | Some _ => false end.

Lemma find_nl_line text : find_nl text = None -> find_nl (text +:+ eol) = Some (text, "").
Proof.
  induction text as [|c text IH]; [done|]. simpl. destruct (decide (c = lf)); [done|].
  destruct (find_nl text) as [[a b]|]; [done|]. intros _. by rewrite IH.
Qed.

Section OneLine.
Context {W : Type} `{DaemonWorld W} (parse : string -> outcome json).

(** One line sent to the server by a client that has sent nothing before. *)
Lemma one_line_command fd text j (s : SS (W := W)) :
  client_buffer fd s = "" -> one_line text = true -> parse text = Ok j ->
  handle_client_data parse fd (Some (text +:+ eol)%string) s =
  let '(w, o) := main j fd (world_ s) in
  let s' := set_buffer fd "" (upd_world (fun _ => w) s) in
  Some match o with
       | Throw e => (s', Throw e)
       | Ok res => (if res =? 1 then close_client fd s' else if res =? 2 then drop_client fd s' else s', Ok tt)
       end.
Proof using Type.
  intros Hb Ht Hp. unfold one_line in Ht. destruct (find_nl text) eqn:Hn; [done|].
  apply andb_true_iff in Ht as [H0 Hcr]. unfold handle_client_data.
  rewrite Hb. cbn [String.append]. rewrite client_buffer_set, c_string_no_nul
    by (rewrite no_nul_append, H0; done).
  destruct (String.length (text +:+ eol)) eqn:Hl; [by destruct text|].
  cbn [client_loop]. rewrite client_buffer_set, (find_nl_line _ Hn), set_buffer_twice.
  unfold strip_cr. apply negb_true_iff in Hcr. rewrite Hcr, Hp.
  change (world_ (set_buffer fd "" s)) with (world_ s).
  destruct (main j fd (world_ s)) as [w [res|e]]; [|done]. rewrite set_buffer_world.
  destruct (res =? 1); [done|]. destruct (res =? 2); [done|].
  cbn [client_loop]. by rewrite client_buffer_world, client_buffer_set.
Qed.
End OneLine.

(** A command that validates and is neither kept open nor slow runs its handler once. *)
Lemma command_runs {W} (run : Z -> HandlerId -> json -> M W CmdResult) dump what j name h sock s :
  Json.member "command" j = Some (JString name) -> accepted j = true -> find_handler name = Some h ->
  name ∉ kept_open -> name ∉ slow_commands ->
  mainCommand run dump what j sock s =
  let '(w, o) := run sock h j (world s) in
  (mkDS w (sent s ++ [(sock, end_line (message (result_of what o)))]) (closed s) (threads s) sock, Ok 1).
Proof.
  intros Hc Ha Hh Hk Hs. apply Json.string_at_member in Hc.
  unfold mainCommand. rewrite (command_name_string _ _ Hc), run_guarded_eq.
  cbn [world g_clientSocket]. unfold accepted in Ha.
  assert (dispatch run dump sock j (world s) = run sock h j (world s)) as ->.
  { unfold dispatch, bindM, M_bind, lift. destruct (validateCommand j) as [r|]; [|done].
    by rewrite Ha, Hc, Hh. }
  destruct (run sock h j (world s)) as [w o]. case_decide; [done|].
  by rewrite !decide_False.
Qed.

(** The connection of a client that is answered: its descriptor closed, its log
    subscription removed. *)
Definition hang_up (fd : Z) (d : Daemon) : Daemon :=
  (on_peers (sys_close fd) (set_exts (unregisterLogSubscriber fd (exts d)) d)).1.

Lemma print_replies_all reads :
  Forall (fun r => r <> "") reads -> no_nul (foldr String.append "" reads) = true ->
  print_replies reads = foldr String.append "" reads.
Proof.
  induction reads as [|r reads IH]; [done|]. intros [Hr Hrs]%Forall_cons. cbn [foldr].
  rewrite no_nul_append. intros [H1 H2]%andb_true_iff. destruct r as [|c r]; [done|].
  cbn [print_replies]. by rewrite c_string_no_nul, IH.
Qed.

(** C13: what the user typed is what the handler runs, and its answer is what the user
    sees: for a command the client sends, whose handler is neither kept open nor slow,
    the line the client writes makes the daemon run that handler exactly once, on the
    members the arguments spell, with the client's socket; the daemon writes the
    message the handler answers with (or the text of its exception) to that socket, closes
    it and stops tracking it, and its state is the one the handler left; and a client
    that reads this answer, in whatever pieces, prints exactly it and exits with 0. *)
Theorem typed_command_answered (env : HandlerEnv) (dump dump2 : json -> string)
    (parse : string -> outcome json) (what : exn -> string) (client_dump : json -> outcome string)
    (link : Link) (name text : string) (args : list string) (j : list (string * json)) (h : HandlerId) (fd : Z) (s : SS (W := State)) :
  ordinary args -> asks_help args = false -> has_socket link && connects link = true ->
  parse_args name args [("command", JString name)] = inl j -> accepted (JObject j) = true ->
  find_handler name = Some h -> name ∉ kept_open -> name ∉ slow_commands ->
  client_dump (JObject j) = Ok text -> one_line text = true -> parse text = Ok (JObject j) ->
  client_buffer fd s = "" ->
  let r := main_send client_dump link (name :: args) in
  let '(d, o) := run_handler env dump dump2 parse what fd h (JObject j) (daemon_of s) in
  let answer := end_line (message (result_of what o)) in
  exists s',
    written r = Some (text +:+ eol)%string /\ exit_status r = Exits 0 /\
    @handle_client_data _ (system_world env dump dump2 parse what) parse fd (written r) s
      = Some (s', Ok tt) /\
    daemon_of s' = hang_up fd d /\ is_client fd s' = false /\
    sent (world_ s') = sent (world_ s) ++ [(fd, answer)] /\
    closed (world_ s') = closed (world_ s) ++ [fd] /\
    (foldr String.append "" (replies link) = answer -> Forall (fun m => m <> "") (replies link) ->
     no_nul answer = true -> out r = answer).
Proof.
  intros Ho Hh Hl Hj Ha Hf Hk Hs Hd Ht Hp Hb r. subst r.
  destruct (parse_client_args_result name args Ho Hh) as [(j' & Ej & _ & Hpc & He & Hs')|[Ha' _]].
  2: { rewrite Hj, Ha in Ha'. done. }
  assert (j' = j) as -> by congruence. clear Ej.
  destruct (parsed_members _ _ _ Ho Hj) as (Hc & _).
  destruct (run_handler _ _ _ _ _ _ _ _ _) as [d o] eqn:Er. cbv zeta.
  unfold main_send, send_command_to_daemon. rewrite Hpc. cbn [p_json p_out p_err]. rewrite He, Hs', Hd.
  apply andb_true_iff in Hl as [-> ->]. cbn [negb written exit_status out].
  eexists _. split; [done|]. split; [done|]. split.
  { rewrite (one_line_command _ _ _ (JObject j)) by done. simpl main.
    rewrite (command_runs _ _ _ _ name h) by done. unfold daemon_of in Er. rewrite Er. reflexivity. }
  split; [done|]. split; [by eapply is_client_erase|]. split; [done|]. split; [done|].
  intros Hr Hne Hn. rewrite <- Hr in Hn |- *. by apply print_replies_all.
Qed.

(** ** Entries from the command line *)

Definition is_text (val : string) : bool := Json.is_string (arg_value val).

Lemma is_text_value val : is_text val = true -> arg_value val = JString val.
Proof. unfold is_text. by destruct (arg_value_string_or_number val) as [-> | (z & _ & ->)]. Qed.

Lemma not_text_value k val c :
  is_text val = false -> Json.member k c = Some (arg_value val) -> Json.string_at k c = Throw JsonTypeError.
Proof.
  unfold is_text, Json.string_at, Json.at_key. intros Hv ->. cbn [mbind]. simpl.
  by destruct (arg_value val).
Qed.

(** C35: "d upsertEntry --key k --value v" stores an entry exactly when neither word reads
    as a 64-bit number: the client sends it in every case, but it sends a number for such
    a word and the handler, which wants strings, throws without touching the table; and
    the words that do read as numbers are those std::stoll consumes whole, so every
    decimal number of the 64-bit range is among them. *)
Theorem entries_are_not_numbers (env : HandlerEnv) (dump dump2 : json -> string)
    (parse : string -> outcome json) (what : exn -> string) (client_dump : json -> outcome string)
    (link : Link) (k v text : string)
    (fd : Z) (d : Daemon) :
  has_socket link && connects link = true ->
  let command := JObject [("command", JString "upsertEntry"); ("key", arg_value k); ("value", arg_value v)] in
  client_dump command = Ok text ->
  written (main_send client_dump link ["upsertEntry"; "--key"; k; "--value"; v])
    = Some (text +:+ eol)%string /\
  run_handler env dump dump2 parse what fd H_handleUpsertEntry command d =
    (if is_text k && is_text v then
       (set_tables (SettingsTable.setSetting k v (tables d)) d,
        Ok (mkCmdResult 0 ("Entry upserted to settings table" +:+ eol)))
     else (d, Throw JsonTypeError)) /\
  (forall z, is_text (Num.to_string z) = negb (is_int64 z)).
Proof.
  intros [Hl1 Hl2]%andb_true_iff command Hd. split; [|split].
  - unfold main_send, send_command_to_daemon.
    assert (parse_client_args ["upsertEntry"; "--key"; k; "--value"; v] =
      mkParsed [("command", JString "upsertEntry"); ("key", arg_value k); ("value", arg_value v)] "" "")
      as -> by reflexivity.
    cbn [p_json p_out p_err]. fold command.
    change (Json.contains "error" command) with false. change (Json.contains "_help_shown" command) with false.
    by rewrite Hl1, Hl2, Hd.
  - cbn [run_handler]. unfold handleUpsertEntry, string_arg, bindM, M_bind, lift.
    destruct (is_text k) eqn:Hk; [|by rewrite (not_text_value "key" k)].
    assert (Json.string_at "key" command = Ok k) as ->
      by (apply Json.string_at_member; by rewrite <- is_text_value).
    destruct (is_text v) eqn:Hv; [|by rewrite (not_text_value "value" v)].
    assert (Json.string_at "value" command = Ok v) as ->
      by (apply Json.string_at_member; by rewrite <- (is_text_value v)).
    reflexivity.
  - intros z. unfold is_text. rewrite arg_value_number. by destruct (is_int64 z).
Qed.

(** No option is a boolean. *)
Lemma typed_not_bool name args j k v :
  parse_args name args [("command", JString name)] = inl j -> Json.assoc k j = Some v ->
  Json.get_bool v = Throw JsonTypeError.
Proof.
  intros Hj Hv. destruct (parse_args_member _ _ _ _ k Hj) as [Hk|(_ & v' & Hk & Hp)];
    rewrite Hk in Hv; simplify_eq/=; [|by destruct v].
  case_decide; by simplify_eq.
Qed.

(** A string member that is missing or not a string throws the same exception. *)
Lemma string_or_throws k (j : members) :
  (exists s, Json.string_at k (JObject j) = Ok s) \/ Json.string_at k (JObject j) = Throw JsonTypeError.
Proof.
  unfold Json.string_at, Json.at_key. simpl. destruct (Json.assoc k j) as [v|]; [|by right].
  destruct v; simpl; eauto.
Qed.
Lemma text_or_throws k (s : string) (j : members) :
  (exists t, Json.value Json.get_string k s (JObject j) = Ok t) \/
  Json.value Json.get_string k s (JObject j) = Throw JsonTypeError.
Proof. simpl. destruct (Json.assoc k j) as [v|]; [|eauto]. destruct v; simpl; eauto. Qed.

(** A flag cannot be typed: the client sends a string or a number for every option,
    never a boolean, so "--dualBoot" with whatever value makes setupWireGuardPeer throw,
    before any command is run and with nothing changed. *)
Theorem flags_cannot_be_typed (env : HandlerEnv) (dump dump2 : json -> string)
    (parse : string -> outcome json) (what : exn -> string) (args : list string)
    (j : list (string * json)) (fd : Z) (d : Daemon) :
  parse_args "setupWireGuardPeer" args [("command", JString "setupWireGuardPeer")] = inl j ->
  Json.contains "dualBoot" (JObject j) = true ->
  run_handler env dump dump2 parse what fd H_handleSetupWireGuardPeer (JObject j) d
    = (d, Throw JsonTypeError).
Proof.
  intros Hj Hc. apply Json.contains_member in Hc as [v Hv]. simpl in Hv.
  pose proof (typed_not_bool _ _ _ _ _ Hj Hv) as Hb.
  change (on_popen (handleSetupWireGuardPeer (popen env) (base_dir env) (JObject j)) d
            = (d, Throw JsonTypeError)).
  unfold on_popen, zoom, handleSetupWireGuardPeer, bindM, M_bind, lift.
  destruct (string_or_throws "name" j) as [[? ->]| ->]; [|by destruct d].
  do 3 (match goal with |- context [Json.value Json.get_string ?k _ (JObject j)] =>
    destruct (text_or_throws k "" j) as [[? ->]| ->]; [|by destruct d] end).
  cbn [Json.value]. rewrite Hv, Hb. by destruct d.
Qed.

(** ** Concrete runs *)

(** A daemon that answers in two pieces. *)
Definition up : Link := mkLink true true "" "" ["Entry upserted to "; "settings table" +:+ eol]%string.
Definition entry (v : string) : list (string * json) :=
  [("command", JString "upsertEntry"); ("key", JString "color"); ("value", JString v)].
Definition typed_dump (j : json) : string :=
  match Json.string_at "value" j with Ok v => v | Throw _ => "?" end.
Definition sent_dump (j : json) : outcome string := Ok (typed_dump j).
Definition typed_parse (line : string) : outcome json := Ok (JObject (entry line)).
Definition with_client : SS (W := State) :=
  accept_new_client (H := system_world quiet typed_dump no_dump typed_parse no_text) 5 booted.

Lemma client_checks_like_server_witness :
  written (main_send sent_dump up ["upsertEntry"; "--key"; "color"; "--value"; "blue"])
    = Some ("blue" +:+ eol)%string /\
  written (main_send sent_dump up ["upsertEntry"; "--key"; "color"]) = None.
Proof.
  split.
  - refine (proj1 (client_checks_like_server sent_dump up "upsertEntry"
      ["--key"; "color"; "--value"; "blue"] _ eq_refl)).
    repeat constructor; by apply (bool_decide_eq_true_1 _).
  - refine (proj1 (client_checks_like_server sent_dump up "upsertEntry" ["--key"; "color"] _ eq_refl)).
    repeat constructor; by apply (bool_decide_eq_true_1 _).
Defined.

Lemma typed_command_answered_witness :
  exists s',
    written (main_send sent_dump up ["upsertEntry"; "--key"; "color"; "--value"; "blue"]) = Some ("blue" +:+ eol)%string /\
    @handle_client_data _ (system_world quiet typed_dump no_dump typed_parse no_text) typed_parse 5
      (Some ("blue" +:+ eol)%string) with_client = Some (s', Ok tt) /\
    SettingsTable.getSetting "color" (tables (daemon_of s')) = "blue" /\ is_client 5 s' = false /\
    out (main_send sent_dump up ["upsertEntry"; "--key"; "color"; "--value"; "blue"])
      = ("Entry upserted to settings table" +:+ eol)%string.
Proof.
  pose proof (typed_command_answered quiet typed_dump no_dump typed_parse no_text sent_dump up "upsertEntry"
    "blue" ["--key"; "color"; "--value"; "blue"] (entry "blue") H_handleUpsertEntry 5 with_client) as H.
  repeat specialize (H ltac:(first [by apply (bool_decide_eq_true_1 _)|vm_compute; reflexivity
    |repeat constructor; by apply (bool_decide_eq_true_1 _)])).
  revert H. destruct (run_handler _ _ _ _ _ _ _ _ _) as [d o] eqn:E. intros H.
  assert (o = Ok (mkCmdResult 0 ("Entry upserted to settings table" +:+ eol))) as Ho
    by (change o with (d, o).2; rewrite <- E; vm_compute; reflexivity).
  assert (SettingsTable.getSetting "color" (tables (hang_up 5 d)) = "blue") as Hd
    by (change d with (d, o).1; rewrite <- E; vm_compute; reflexivity).
  subst o. destruct H as (s' & H1 & _ & H2 & H3 & H4 & _ & _ & H5).
  exists s'. split; [exact H1|]. split; [exact H2|]. split; [by rewrite H3|].
  split; [exact H4|]. apply H5; [reflexivity|repeat constructor; discriminate|reflexivity].
Defined.

Lemma entries_are_not_numbers_witness :
  (run_handler quiet typed_dump no_dump typed_parse no_text 5 H_handleUpsertEntry
    (JObject [("command", JString "upsertEntry"); ("key", arg_value "color"); ("value", arg_value "+07")])
    (daemon_of booted)).2 = Throw JsonTypeError /\
  is_text (Num.to_string 12) = false.
Proof.
  destruct (entries_are_not_numbers quiet typed_dump no_dump typed_parse no_text sent_dump up "color" "+07"
    "?" 5 (daemon_of booted) eq_refl eq_refl) as (_ & H1 & H2).
  split; [exact (f_equal snd H1)|exact (H2 12)].
Defined.

Lemma flags_cannot_be_typed_witness :
  let j := [("command", JString "setupWireGuardPeer"); ("name", JString "laptop");
            ("dualBoot", JString "true")] in
  parse_args "setupWireGuardPeer" ["--name"; "laptop"; "--dualBoot"; "true"]
    [("command", JString "setupWireGuardPeer")] = inl j /\
  (run_handler quiet typed_dump no_dump typed_parse no_text 5 H_handleSetupWireGuardPeer (JObject j)
    (daemon_of booted)).2 = Throw JsonTypeError.
Proof.
  split; [reflexivity|].
  refine (f_equal snd (flags_cannot_be_typed quiet typed_dump no_dump typed_parse no_text
    ["--name"; "laptop"; "--dualBoot"; "true"] _ 5 (daemon_of booted) _ _)); reflexivity.
Defined.

(** Options that use the client's own names: the command is replaced after it was
    checked, or nothing is sent at all. *)
Example reserved_options :
  p_json (parse_client_args ["ping"; "--command"; "quit"]) = [("command", JString "quit")] /\
  main_send sent_dump up ["ping"; "--error"; "x"] = mkRun (Exits 1) None "" "" /\
  main_send sent_dump up ["ping"; "--_help_shown"; "x"] = mkRun (Exits 0) None "" "".
Proof. repeat split. Qed.
