(* ===== verification/Remote.v ===== *)
(** Two daemons: a command that one of them runs on the other (handleExecOnPeer of
    src/cmdPeer.cpp on the one side; daemon_loop, handle_peer_data, mainCommand with its
    thread and handleExecRequest on the other). *)

From S2P Require Import Prelude Stdio Types Json Database Server Peers PeerFacts Apps.
From S2P Require Import Keys InputMapper ComboRuns Ports Registry Dispatch Daemon DaemonFacts Startup System Client.

(** ** The loop on closed descriptors *)

Section Select.
Context (env : HandlerEnv) (dump dump2 : json -> string) (parse : string -> outcome json).
Context (what : exn -> string).
#[local] Existing Instance system_world.

Definition open_fds_of (s : SS (W := State)) : list Z := open_fds (peers_of (daemon_of s)).

(** select() fails with EBADF when one of the descriptors it is given is not open. *)
Definition select_may (s : SS (W := State)) (activity : option Ready) : Prop :=
  Forall (fun fd => fd ∈ open_fds_of s) (watched (H := system_world env dump dump2 parse what) s) \/
  activity = None.

(** What happens to the daemon: a turn of daemon_loop, as select() allows it, or whatever
    another of its threads (the heartbeat, a slow command, the input) does to the rest of
    the state; these do not touch the connections of the loop. *)
Inductive node_step (s s' : SS (W := State)) : Prop :=
  | node_turn activity :
      select_may s activity ->
      loop_turn (H := system_world env dump dump2 parse what) parse activity s = Some (s', Ok tt) ->
      node_step s s'
  | node_other f : s' = upd_world f s -> node_step s s'.

(** The steps after which [fd] is still not open: no thread opened a descriptor with that
    number. *)
Definition step_without (fd : Z) (s s' : SS (W := State)) : Prop :=
  node_step s s' /\ fd ∉ open_fds_of s'.

Definition connections (s : SS (W := State)) := (clients s, peer_clients s, leader_buffer s).

(** The loop watches a peer's descriptor that is closed. *)
Definition deaf (fd : Z) (s : SS (W := State)) : Prop :=
  is_peer fd s = true /\ fd ∉ open_fds_of s.

(** select() fails, and the turn does nothing. *)
Lemma deaf_turn fd s s' activity :
  deaf fd s -> select_may s activity ->
  loop_turn (H := system_world env dump dump2 parse what) parse activity s = Some (s', Ok tt) -> s' = s.
Proof using Type.
  intros [Hw%bool_decide_eq_true Ho] [Hall| ->]; [|by intros [= <-]].
  rewrite Forall_forall in Hall. destruct Ho. apply Hall.
  unfold watched. rewrite !elem_of_app. by right; left.
Qed.

Lemma deaf_stays fd s s' :
  deaf fd s -> rtc (step_without fd) s s' -> connections s' = connections s /\ deaf fd s'.
Proof using Type.
  intros Hd Hr. induction Hr as [|s1 s2 s3 [[activity Hs Ht|f ->] Ho] _ IH]; [done|..].
  - apply (deaf_turn fd) in Ht as ->; auto.
  - apply IH. by destruct Hd.
Qed.
End Select.

(** ** The machine that runs the command *)

Section OneMessage.
Context {W : Type} `{DaemonWorld W} (parse : string -> outcome json).

(** One line of a peer that has sent nothing before, with an ordinary command. *)
Lemma one_line_message fd text j (s : SS (W := W)) :
  pc_buffer (peer_state fd s) = "" -> one_line text = true -> parse text = Ok j ->
  peer_message "heartbeat" j = false -> peer_message "registerPeer" j = false ->
  handle_peer_data parse fd (Some (text +:+ eol)%string) s =
  let '(w, o) := main j fd (world_ s) in
  let p := peer_state fd s in
  Some (set_peer fd (mkPeerState "" (pc_ip p) (pc_id p)) (upd_world (fun _ => w) s),
        match o with Ok _ => Ok tt | Throw e => Throw e end).
Proof using Type.
  intros Hb Ht Hp Hh Hr. unfold one_line in Ht. destruct (find_nl text) eqn:Hn; [done|].
  apply andb_true_iff in Ht as [H0 Hcr%negb_true_iff]. unfold handle_peer_data.
  rewrite Hb. cbn [String.append]. rewrite c_string_no_nul by (rewrite no_nul_append, H0; done).
  destruct (String.length (text +:+ eol)) eqn:Hl; [by destruct text|].
  cbn [peer_loop]. rewrite peer_state_set. cbn [pc_buffer pc_ip pc_id]. rewrite (find_nl_line _ Hn).
  unfold peer_line, strip_cr. rewrite Hcr, Hp, Hh. unfold track_peer_id. rewrite Hr.
  unfold bindM, M_bind, run_main. cbn [mret M_ret]. unfold set_peer at 1 2 3. cbn [world_ set_peer_clients].
  destruct (main j fd (world_ s)) as [w [res|e]]; cbn [peer_loop];
    unfold set_peer, set_peer_clients, upd_world; cbn; rewrite insert_insert_same; [|done].
  unfold peer_state. cbn. by rewrite StdMap.find_insert.
Qed.
End OneMessage.

(** A slow command that validates runs its handler and goes to a thread. *)
Lemma slow_command_starts {W} (run : Z -> HandlerId -> json -> M W CmdResult) dump what j name h sock s :
  Json.member "command" j = Some (JString name) -> accepted j = true -> find_handler name = Some h ->
  name ∈ slow_commands ->
  mainCommand run dump what j sock s =
  let '(w, o) := run sock h j (world s) in
  (mkDS w (sent s ++ [(sock, end_line (message (result_of what o)))]) (closed s)
     (threads s ++ [(j, sock)]) sock, Ok 2).
Proof.
  intros Hc Ha Hh Hs. apply Json.string_at_member in Hc.
  unfold mainCommand. rewrite (command_name_string _ _ Hc), run_guarded_eq.
  cbn [world g_clientSocket]. unfold accepted in Ha.
  assert (dispatch run dump sock j (world s) = run sock h j (world s)) as ->.
  { unfold dispatch, bindM, M_bind, lift. destruct (validateCommand j) as [r|]; [|done].
    by rewrite Ha, Hc, Hh. }
  destruct (run sock h j (world s)) as [w o]. destruct (slow_not_kept _ Hs) as [H1 H2].
  by rewrite (decide_False _ _ H1), (decide_False _ _ H2), (decide_True _ _ Hs).
Qed.

Section Server.
Context (env : HandlerEnv) (dump dump2 : json -> string) (parse : string -> outcome json).
Context (what : exn -> string).
#[local] Existing Instance system_world.

(** What the peer answers when the command is its system call number [n]. *)
Definition exec_result (n : nat) (directory cmd : string) : CmdResult :=
  let '(output, exit_code) := child_result (net env) 60 (run_child (net env) n
    ("cd " +:+ directory +:+ " && " +:+ cmd +:+ " 2>&1")) in
  mkCmdResult exit_code output.
Definition exec_answer (n : nat) (directory cmd : string) : string :=
  end_line (message (exec_result n directory cmd)).

Definition one_call (d : Daemon) : Daemon :=
  let w := peers_of d in
  set_network_of (mkPeers (pdb w) (pm w) (open_fds w) (wire w) (S (calls w))) d.

Lemma exec_request_run sock directory cmd d : deadlock_prone cmd = false ->
  run_handler env dump dump2 parse what sock H_handleExecRequest (exec_request directory cmd) d
    = (one_call d, Ok (exec_result (calls (peers_of d)) directory cmd)).
Proof using Type.
  intros Hp. change (on_peers (handleExecRequest (net env) (exec_request directory cmd)) d
    = (one_call d, Ok (exec_result (calls (peers_of d)) directory cmd))).
  unfold on_peers, zoom, handleExecRequest, argument.
  rewrite !(bindM_ok _ _ (peers_of d) (peers_of d) _ eq_refl), Hp.
  unfold executeCommandWithTimeout. rewrite bindM_assoc, bindM_syscall, bindM_ret. unfold exec_result.
  by destruct (child_result _ _ _).
Qed.

Lemma slow_thread_ends j name h fd s :
  Json.member "command" j = Some (JString name) -> find_handler name = Some h -> threads s = [(j, fd)] ->
  slow_thread env dump dump2 parse what 0 s =
  let '(d, o) := run_handler env dump dump2 parse what (g_clientSocket s) h j (world s) in
  mkDS (on_peers (sys_close fd) d).1 (sent s ++ [(fd, end_line (message (result_of what o)))])
    (closed s ++ [fd]) [] (g_clientSocket s).
Proof using Type.
  intros Hc%Json.string_at_member Hh Ht. unfold slow_thread, run_thread. rewrite Ht. cbn.
  unfold thread_body. rewrite run_guarded_eq. cbn [world g_clientSocket sent closed threads].
  set (run := run_handler env dump dump2 parse what (g_clientSocket s)) in *.
  assert (async_handler (run_handler env dump dump2 parse what) (g_clientSocket s) j (world s)
    = run h j (world s)) as ->.
  { unfold async_handler, bindM, M_bind, lift. by rewrite Hc, Hh. }
  by destruct (run h j (world s)).
Qed.

(** The line of a peer, and the thread it starts. *)
Definition peer_request (fd : Z) (line : string) (b : SS (W := State)) : option (SS (W := State)) :=
  match handle_peer_data (H := system_world env dump dump2 parse what) parse fd (Some line) b with
  | Some (b, Ok _) => Some (upd_world (slow_thread env dump dump2 parse what 0) b)
  | _ => None
  end.

(** The request is run and answered in the loop and again in its thread, which closes
    the connection the loop keeps on watching. *)
Lemma request_served fd directory cmd text b :
  deadlock_prone cmd = false -> one_line text = true -> parse text = Ok (exec_request directory cmd) ->
  pc_buffer (peer_state fd b) = "" -> threads (world_ b) = [] ->
  let n := calls (peers_of (daemon_of b)) in
  exists b', peer_request fd (text +:+ eol) b = Some b' /\
    daemon_of b' = (on_peers (sys_close fd) (one_call (one_call (daemon_of b)))).1 /\
    sent (world_ b') = sent (world_ b) ++
      [(fd, exec_answer n directory cmd); (fd, exec_answer (S n) directory cmd)] /\
    closed (world_ b') = closed (world_ b) ++ [fd] /\ threads (world_ b') = [] /\ deaf fd b'.
Proof using Type.
  intros Hd Hl Hp Hb Hth n. unfold peer_request.
  rewrite (one_line_message parse fd text _ b Hb Hl Hp eq_refl eq_refl). cbn [main system_world].
  rewrite (slow_command_starts _ _ _ _ "execRequest" H_handleExecRequest)
    by first [reflexivity|by apply (bool_decide_eq_true_1 _)].
  rewrite exec_request_run, Hth by done. cbv zeta. eexists. split; [reflexivity|].
  unfold daemon_of, upd_world. cbn [world_ set_peer set_peer_clients].
  rewrite (slow_thread_ends (exec_request directory cmd) "execRequest" H_handleExecRequest fd)
    by reflexivity.
  cbn [g_clientSocket world]. rewrite exec_request_run by done. cbn [world sent closed threads result_of].
  rewrite <- app_assoc. do 4 (split; [reflexivity|]). split.
  - unfold is_peer. rewrite bool_decide_eq_true, list_elem_of_fmap. eexists (fd, _). split; [done|].
    apply StdMap.find_Some_elem, StdMap.find_insert.
  - unfold open_fds_of, daemon_of. cbn. rewrite list_elem_of_filter. by intros [].
Qed.
End Server.

(** ** The machine that asks for it *)

Definition connected_to (id : string) (fd : Z) (p : PeerManager) : Prop :=
  peer_socket id p = Some fd /\ Str.empty (pi_id (getPeerInfo id p)) = false.

Lemma exec_on_connected env dump parse id directory cmd fd m (a : Peers) :
  connected_to id fd (pm a) -> write_ok env (calls a) fd = true ->
  read_rc env (S (calls a)) fd = ReadData m ->
  handleExecOnPeer env dump parse (exec_on_peer id directory cmd) a =
  (mkPeers (pdb a) (pm a) (open_fds a)
     (wire a ++ [(fd, line_of dump (exec_request directory cmd))]) (S (S (calls a))),
   Ok (mkCmdResult 0 (c_string m))).
Proof.
  intros [Hs Hid] Hw Hr. unfold handleExecOnPeer, argument, exec_on_peer.
  rewrite !(bindM_ok _ _ a a _ eq_refl). cbn [exec_attempts EXEC_ATTEMPTS]. unfold exec_attempt.
  assert (exec_connection env dump parse (Nat.eqb 1 0) id a = (a, Ok (inl (Some fd)))) as Ec.
  { unfold exec_connection. rewrite bindM_gets, Hid. unfold peer_socket in Hs. unfold getPeerInfo.
    destruct (StdMap.find id (m_peers (pm a))) as [p|]; [|done]. cbn.
    destruct (0 <=? pi_fd p) eqn:E; [|done]. injection Hs as <-.
    apply Z.leb_le in E. by rewrite (proj2 (Z.ltb_ge _ _)) by done. }
  assert (sendToPeer env dump id (exec_request directory cmd) a =
    (mkPeers (pdb a) (pm a) (open_fds a)
       (wire a ++ [(fd, line_of dump (exec_request directory cmd))]) (S (calls a)), Ok true)) as Es.
  { unfold sendToPeer. rewrite bindM_gets, Hs. unfold sys_write.
    by rewrite bindM_assoc, bindM_syscall, Hw. }
  unfold bindM at 1, M_bind at 1. rewrite (bindM_ok _ _ _ _ _ Ec), (bindM_ok _ _ _ _ _ Es). cbn [negb].
  unfold sys_read. rewrite bindM_syscall. cbn [calls]. by rewrite Hr.
Qed.

(** ** Both of them *)

(** What was written to one descriptor, in order. *)
Definition sent_to (fd : Z) (written : list (Z * string)) : list string :=
  (base.filter (fun p => p.1 = fd) written).*2.


(** ** A build on another machine *)

(** A machine on which the first run of every command prints "built" and fails, and a later
    one prints "up to date". *)
Definition builder : HandlerEnv :=
  let n := demo_env 0 "" in
  let child n := Peers.mkRun true true
    [(0, PipeData (if Nat.eqb n 0 then "built" else "up to date")); (1, PipeClosed)] (Some 2) in
  mkHEnv quiet_env true None None (fun _ => "") (fun _ => true)
    (mkAppEnv (fun _ _ => 0) (fun _ _ => "") (fun _ => true) (fun _ => true) []) (fun _ => false)
    (mkNetEnv (socket_ok n) (inet_pton n) (connect_ok n) (write_ok n) (poll_rc n) (read_rc n) ""
       (fun n _ => child n) None None None 1000 (fun _ => "now") 7)
    (fun _ => inl ("", 0)) (mkProxyEnv true true true 0 0 true) 0 None "/opt/automateLinux/".
Definition make_dump (j : json) : string := "make".
Definition make_parse (line : string) : outcome json :=
  if decide (line = "make") then Ok (exec_request "/src" "make") else Throw JsonParseError.
Definition contacted : SS (W := State) :=
  accept_new_peer (H := system_world builder no_dump no_dump make_parse no_text) 7 "10.0.0.1" booted.

(** The other end of its connection: the answers, in the order of the reads. *)
Definition asking : NetEnv :=
  let n := demo_env 9 "" in
  mkNetEnv (socket_ok n) (inet_pton n) (connect_ok n) (write_ok n) (poll_rc n)
    (fun k _ => ReadData ((if Nat.leb k 2 then "built" else "up to date") +:+ eol)%string) ""
    (run_child n) None None None 1000 (fun _ => "now") 7.

