(* ===== verification/Gitignore.v ===== *)
(** The file listing tools fileSize and lastChanged (src/utilities/fileSize and
    src/utilities/lastChanged): reading .gitignore files, matching paths against the
    patterns, walking a directory tree and listing the largest or the newest files.

    fnmatch() and qsort() are interfaces, the file system is an argument.  The two tools
    share the text of gitignore.c except for the order of the files; they differ in
    scanDir.  The counters fileCount and ignoreCount are the lengths of the lists. *)

From S2P Require Import Prelude Stdio.

Definition MAX_FILES : Z := 10000.
Definition MAX_IGNORE : Z := 5000.
Definition MAX_PATH : Z := 4096.

(** A char[MAX_PATH] filled by strncpy or snprintf. *)
Definition in_path_buffer (s : string) : string := Str.take (Z.to_nat (MAX_PATH - 1)) s.

(** ** fnmatch and the file system *)

(** No character of the pattern has a meaning of its own. *)
Fixpoint literal (pattern : string) : bool :=
  match pattern with
  | EmptyString => true
  | String c p => bool_decide (c ∉ ["*"; "?"; "["; "\"]%char) && literal p
  end.

(** [fnmatch pathname pattern s], [pathname] being the flag FNM_PATHNAME; what POSIX says
    of it that is used here. *)
Class Fnmatch := {
  fnmatch : bool -> string -> string -> bool;
  fnmatch_literal : forall f p s, literal p = true -> fnmatch f p s = bool_decide (p = s);
  fnmatch_slash : forall p s, fnmatch true (String "/" p) s = true -> Str.starts_with "/" s = true
}.

Inductive Kind := Directory | Regular | Other.
Record Stat := mkStat { st_kind : Kind; st_size : Z; st_mtime : Z }.
Definition S_ISDIR (s : Stat) : bool := match st_kind s with Directory => true | _ => false end.
Definition S_ISREG (s : Stat) : bool := match st_kind s with Regular => true | _ => false end.

(** readdir() gives the names in the order of the directory; stat() follows symbolic
    links and lstat() does not. *)
Record FileSystem := mkFS {
  opendir : string -> option (list string);
  stat : string -> option Stat;
  lstat : string -> option Stat;
  fopen : string -> option string
}.

Definition join (dir name : string) : string := in_path_buffer (dir +:+ "/" +:+ name)%string.
Definition has_git (fs : FileSystem) (dir : string) : bool :=
  match stat fs (join dir ".git") with Some st => S_ISDIR st | None => false end.

(** ** gitignore.c *)

Record IgnorePattern := mkPattern {
  pattern : string;
  isNegation : bool;
  isDirectory : bool;
  baseDir : string
}.

(** The loop of findGitRoot, [fuel] above the length of the path. *)
Fixpoint git_root_loop (fs : FileSystem) (fuel : nat) (currentPath : string) : option string :=
  match fuel with
  | O => None
  | S fuel =>
      let pathLen := Z.of_nat (String.length currentPath) in
      if pathLen <=? 1 then None
      else if MAX_PATH <? pathLen + 6 then None
      else if has_git fs currentPath then Some currentPath
      else match strrchr "/" currentPath with
           | Some (parent, _) => if Str.empty parent then None else git_root_loop fs fuel parent
           | None => None
           end
  end.
Definition findGitRoot (fs : FileSystem) (startPath : string) : option string :=
  let currentPath := in_path_buffer startPath in
  git_root_loop fs (S (String.length currentPath)) currentPath.

Definition addPattern (line baseDir : string) (patterns : list IgnorePattern) : list IgnorePattern :=
  if MAX_IGNORE <=? Z.of_nat (length patterns) then patterns
  else
    let isNegation := Str.starts_with "!" line in
    let pattern := skip_blanks (if isNegation then Str.drop 1 line else line) in
    if Str.empty pattern then patterns
    else
      let isDirectory := Str.ends_with_char "/" pattern in
      patterns ++ [mkPattern (if isDirectory then Str.pop_back pattern else pattern) isNegation
                     isDirectory (in_path_buffer baseDir)].

(** The lines fgets reads into a buffer of 512 bytes. *)
Definition ignore_line (baseDir : string) (line : string) (patterns : list IgnorePattern) :
    list IgnorePattern :=
  let trimmed := skip_blanks (before_eol (c_string line)) in
  if Str.empty trimmed || Str.starts_with "#" trimmed then patterns
  else addPattern trimmed baseDir patterns.
Fixpoint ignore_lines (fuel : nat) (baseDir text : string) (patterns : list IgnorePattern) :
    list IgnorePattern :=
  match fuel, text with
  | S fuel, String _ _ =>
      let '(line, rest) := fgets 511 text in
      ignore_lines fuel baseDir rest (ignore_line baseDir line patterns)
  | _, _ => patterns
  end.
Definition readGitignore (fs : FileSystem) (gitignorePath baseDir : string)
    (patterns : list IgnorePattern) : list IgnorePattern :=
  match fopen fs gitignorePath with
  | Some text => ignore_lines (String.length text) baseDir text patterns
  | None => patterns
  end.

Section Matching.
Context `{Fnmatch}.

(** while ( *p): the path from each component on, [fuel] above its length *)
Fixpoint match_components (fuel : nat) (pattern p : string) : bool :=
  match fuel, p with
  | S fuel, String _ _ =>
      fnmatch true pattern p ||
      match strchr "/" p with Some (_, p) => match_components fuel pattern p | None => false end
  | _, _ => false
  end.

Definition without_dot (path : string) : string :=
  if Str.starts_with "./" path then Str.drop 2 path else path.

Definition pathMatches (pattern path : string) (isDirectory checkDir : bool) : bool :=
  if isDirectory && negb checkDir then false
  else match strchr "/" pattern with
       | Some _ => fnmatch true pattern (without_dot path)
       | None =>
           let basename := match strrchr "/" path with Some (_, b) => b | None => path end in
           fnmatch false pattern basename ||
           match_components (S (String.length path)) pattern (without_dot path)
       end.

Definition pathIsUnderDir (path dir : string) : bool :=
  if decide (dir = ".") then true
  else if Str.starts_with dir path then
    match Str.drop (String.length dir) path with
    | EmptyString => true
    | String next _ => bool_decide (next = "/"%char)
    end
  else false.

Definition relPath (path baseDir : string) : string :=
  if decide (baseDir = ".") then path
  else if Str.starts_with baseDir path then
    match Str.drop (String.length baseDir) path with
    | EmptyString => "."
    | String next rest => if decide (next = "/"%char) then rest else path
    end
  else path.

Definition applies (path : string) (isDir : bool) (p : IgnorePattern) : bool :=
  pathIsUnderDir path (baseDir p) &&
  pathMatches (pattern p) (relPath path (baseDir p)) (isDirectory p) isDir.

Definition shouldIgnore (path : string) (isDir : bool) (patterns : list IgnorePattern) : bool :=
  fold_left (fun ignored p => if applies path isDir p then negb (isNegation p) else ignored)
    patterns false.
End Matching.

(** What a directory adds to the patterns when it is entered, below the git root
    [gitRoot]: the root for its entries and the patterns. *)
Definition enter_repo (fs : FileSystem) (dir : string) (patterns : list IgnorePattern) :
    list IgnorePattern :=
  addPattern ".git/" dir (readGitignore fs (join dir ".gitignore") dir patterns).

Definition dots (name : string) : bool := bool_decide (name = "." \/ name = "..").

(** ** fileSize *)

Module FileSize.
Record FileEntry := mkEntry { path : string; size : Z; lines : Z }.

(** The globals: files and ignorePatterns, with their counters. *)
Record State := mkState { files : list FileEntry; patterns : list IgnorePattern }.

Fixpoint count_lf (s : string) : Z :=
  match s with
  | EmptyString => 0
  | String c s' => (if decide (c = lf) then 1 else 0) + count_lf s'
  end.
Definition countLines (fs : FileSystem) (path : string) : Z :=
  match fopen fs path with Some text => count_lf text | None => 0 end.

Section Scan.
Context `{Fnmatch} (fs : FileSystem).

Definition enter (dir : string) (gitRoot : option string) (s : State) : option string * State :=
  if has_git fs dir then (Some dir, mkState (files s) (enter_repo fs dir (patterns s)))
  else match gitRoot with
       | Some _ =>
           (gitRoot, mkState (files s) (readGitignore fs (join dir ".gitignore") dir (patterns s)))
       | None => (gitRoot, s)
       end.

Definition add_file (path : string) (st : Stat) (s : State) : State :=
  if Z.of_nat (length (files s)) <? MAX_FILES then
    mkState (files s ++ [mkEntry (in_path_buffer path) (st_size st) (countLines fs path)]) (patterns s)
  else s.

Section Entries.
(** scanDir, for the directories below *)
Context (scan : string -> option string -> State -> option (State * Z)).

(** One turn of the readdir loop: the state and what is added to totalSize. *)
Definition visit (dir : string) (currentGitRoot : option string) (name : string) (s : State) :
    option (State * Z) :=
  if dots name then Some (s, 0)
  else
    let path := join dir name in
    match lstat fs path with
    | None => Some (s, 0)
    | Some st =>
        let isDir := S_ISDIR st in
        if match currentGitRoot with Some _ => shouldIgnore path isDir (patterns s) | None => false end
        then Some (s, 0)
        else if isDir then scan path currentGitRoot s
        else if S_ISREG st then Some (add_file path st s, st_size st)
        else Some (s, 0)
    end.
Fixpoint each_entry (dir : string) (currentGitRoot : option string) (names : list string)
    (s : State) (totalSize : Z) : option (State * Z) :=
  match names with
  | [] => Some (s, totalSize)
  | name :: rest =>
      match visit dir currentGitRoot name s with
      | Some (s, added) => each_entry dir currentGitRoot rest s (totalSize + added)
      | None => None
      end
  end.
End Entries.

(** [None] when the fuel, a bound on the depth of the tree, runs out. *)
Fixpoint scanDir (fuel : nat) (dir : string) (gitRoot : option string) (s : State) :
    option (State * Z) :=
  match fuel with
  | O => None
  | S fuel =>
      match opendir fs dir with
      | None => Some (s, 0)
      | Some names =>
          let '(currentGitRoot, s) := enter dir gitRoot s in
          each_entry (scanDir fuel) dir currentGitRoot names s 0
      end
  end.
End Scan.

Definition cmpFiles (a b : FileEntry) : Z :=
  if size a <? size b then 1 else if size b <? size a then -1 else 0.

(** printf "%.2f" of num / den, a quotient a double holds exactly: rounded to the nearest
    hundredth, ties to even. *)
Definition hundredths (num den : Z) : Z :=
  let q := num * 100 / den in
  match Z.compare (2 * (num * 100 mod den)) den with
  | Lt => q
  | Gt => q + 1
  | Eq => if Z.even q then q else q + 1
  end.
Definition fixed2 (num den : Z) : string :=
  let units := hundredths num den / 100 in
  let cents := hundredths num den mod 100 in
  let zero := if cents <? 10 then "0" else "" in
  (Num.to_string units +:+ "." +:+ zero +:+ Num.to_string cents)%string.

Definition print_size (size : Z) : string :=
  if size <? 1024 then (Num.to_string size +:+ "B")%string
  else if size <? 1024 * 1024 then (fixed2 size 1024 +:+ "K")%string
  else if size <? 1024 * 1024 * 1024 then (fixed2 size (1024 * 1024) +:+ "M")%string
  else (fixed2 size (1024 * 1024 * 1024) +:+ "G")%string.

Definition tab : string := String "009"%char "".
Definition print_entry (e : FileEntry) : string :=
  (print_size (size e) +:+ tab +:+ Num.to_string (lines e) +:+ tab +:+ path e +:+ eol)%string.

Section Top.
Context `{Qsort}.

Definition topSizes (n : Z) (files : list FileEntry) : list FileEntry :=
  take (Z.to_nat n) (qsort cmpFiles files).
End Top.

(** main: the exit status and the output; [None] when the fuel runs out. *)
Definition main `{Fnmatch} `{Qsort} (fs : FileSystem) (fuel : nat) (argv : list string)
    (realpath : option string) : option (Z * string) :=
  let n := match argv with a :: _ => atoi a | [] => 10 end in
  match realpath with
  | None => Some (1, "")
  | Some realPath =>
      let gitRoot := findGitRoot fs realPath in
      let patterns := match gitRoot with
                      | Some root => readGitignore fs (join root ".gitignore") root (addPattern ".git/" root [])
                      | None => []
                      end in
      match scanDir fs fuel realPath gitRoot (mkState [] patterns) with
      | Some (s, _) => Some (0, String.concat "" (print_entry <$> topSizes n (files s)))
      | None => None
      end
  end.
End FileSize.

(** ** lastChanged *)

Module LastChanged.
Record FileEntry := mkEntry { path : string; mtime : Z }.
Record State := mkState { files : list FileEntry; patterns : list IgnorePattern }.

Section Scan.
Context `{Fnmatch} (fs : FileSystem).

(** Here a repository inside another clears the patterns. *)
Definition enter (dir : string) (gitRoot : option string) (s : State) : option string * State :=
  if has_git fs dir then (Some dir, mkState (files s) (enter_repo fs dir []))
  else match gitRoot with
       | Some _ =>
           (gitRoot, mkState (files s) (readGitignore fs (join dir ".gitignore") dir (patterns s)))
       | None => (gitRoot, s)
       end.

Definition add_file (path : string) (st : Stat) (s : State) : State :=
  if Z.of_nat (length (files s)) <? MAX_FILES then
    mkState (files s ++ [mkEntry (in_path_buffer path) (st_mtime st)]) (patterns s)
  else s.

Section Entries.
Context (scan : string -> option string -> State -> option State).

Definition visit (dir : string) (currentGitRoot : option string) (name : string) (s : State) :
    option State :=
  if dots name then Some s
  else
    let path := join dir name in
    match stat fs path with
    | None => Some s
    | Some st =>
        let isDir := S_ISDIR st in
        if match currentGitRoot with Some _ => shouldIgnore path isDir (patterns s) | None => false end
        then Some s
        else if isDir then scan path currentGitRoot s
        else if S_ISREG st then Some (add_file path st s)
        else Some s
    end.
Fixpoint each_entry (dir : string) (currentGitRoot : option string) (names : list string)
    (s : State) : option State :=
  match names with
  | [] => Some s
  | name :: rest =>
      match visit dir currentGitRoot name s with
      | Some s => each_entry dir currentGitRoot rest s
      | None => None
      end
  end.
End Entries.

Fixpoint scanDir (fuel : nat) (dir : string) (gitRoot : option string) (s : State) : option State :=
  match fuel with
  | O => None
  | S fuel =>
      match opendir fs dir with
      | None => Some s
      | Some names =>
          let '(currentGitRoot, s) := enter dir gitRoot s in
          each_entry (scanDir fuel) dir currentGitRoot names s
      end
  end.
End Scan.

Definition cmpFiles (a b : FileEntry) : Z :=
  if mtime a <? mtime b then 1 else if mtime b <? mtime a then -1 else 0.

Definition lastChanged `{Qsort} (n : Z) (files : list FileEntry) : list string :=
  path <$> take (Z.to_nat n) (qsort cmpFiles files).

Definition main `{Fnmatch} `{Qsort} (fs : FileSystem) (fuel : nat) (argv : list string)
    (realpath : option string) : option (Z * list string) :=
  let n := match argv with a :: _ => atoi a | [] => 10 end in
  match realpath with
  | None => Some (1, [])
  | Some realPath =>
      let gitRoot := findGitRoot fs realPath in
      let patterns := match gitRoot with
                      | Some root => readGitignore fs (join root ".gitignore") root (addPattern ".git/" root [])
                      | None => []
                      end in
      match scanDir fs fuel realPath gitRoot (mkState [] patterns) with
      | Some s => Some (0, lastChanged n (files s))
      | None => None
      end
  end.
End LastChanged.
