(* ===== verification/GitignoreFacts.v ===== *)
(** What the file listing tools show: fileSize, with its one global list of patterns,
    lists what scoped .gitignore files would let it list; walking a tree ends; the top of
    the list; and what the patterns do not do. *)

From S2P Require Import Prelude Stdio Gitignore.

(** ** Paths *)

Lemma append_inj (a b c : string) : (a +:+ b)%string = (a +:+ c)%string -> b = c.
Proof. induction a as [|x a IH]; simpl; [done|]. intros [= E]. by apply IH. Qed.

(** [q] is [d] or below it. *)
Definition at_or_below (q d : string) : Prop :=
  exists t, q = (d +:+ t)%string /\ (t = "" \/ exists r, t = String "/" r).

Lemma at_or_below_refl d : at_or_below d d.
Proof. exists "". by rewrite Str.append_nil_r; auto. Qed.

Lemma at_or_below_trans q b d : at_or_below q b -> at_or_below b d -> at_or_below q d.
Proof.
  intros (t & -> & Ht) (u & -> & Hu). exists (u +:+ t)%string. rewrite Str.append_assoc.
  split; [done|]. destruct Hu as [->|[r ->]]; [by destruct Ht as [->|[r ->]]; eauto|]. right. by eexists.
Qed.

Lemma under_spec q b : pathIsUnderDir q b = true <-> b = "." \/ at_or_below q b.
Proof.
  unfold pathIsUnderDir. destruct (decide (b = ".")) as [->|Hb]; [by split; auto|]. split.
  - intros H. right. destruct (Str.starts_with b q) eqn:E; [|done].
    apply Str.starts_with_drop in E. exists (Str.drop (String.length b) q). split; [done|].
    destruct (Str.drop (String.length b) q) as [|c r]; [by left|right].
    apply bool_decide_eq_true in H as ->. by eexists.
  - intros [?|(t & -> & Ht)]; [done|]. unfold Str.starts_with.
    rewrite Str.prefix_append, Str.drop_append. by destruct Ht as [->|[r ->]].
Qed.

(** A name in a directory. *)
Definition is_name (n : string) : Prop := strchr "/" n = None.

Lemma name_head n m t u :
  is_name n -> is_name m -> (t = "" \/ exists r, t = String "/" r) ->
  (u = "" \/ exists r, u = String "/" r) -> (n +:+ t)%string = (m +:+ u)%string -> n = m.
Proof.
  unfold is_name. intros Hn Hm Ht Hu. revert m Hm.
  induction n as [|c n IH]; intros [|d m] Hm; simpl in *.
  - done.
  - destruct (decide (d = "/"%char)); [done|]. destruct Ht as [->|[r ->]]; intros [=]; congruence.
  - destruct (decide (c = "/"%char)); [done|]. destruct Hu as [->|[r ->]]; intros [=]; congruence.
  - intros [= <- E]. destruct (decide (c = "/"%char)); [done|]. f_equal. apply (IH); [|  |done].
    + by destruct (strchr "/" n) as [[]|].
    + by destruct (strchr "/" m) as [[]|].
Qed.

(** Two entries of a directory have nothing in common. *)
Lemma siblings_apart dir n m q b :
  is_name n -> is_name m -> n <> m -> at_or_below b (dir +:+ "/" +:+ n) ->
  at_or_below q (dir +:+ "/" +:+ m) -> ~ at_or_below q b.
Proof.
  intros Hn Hm Hne Hb (u & -> & Hu) Hq.
  destruct (at_or_below_trans _ _ _ Hq Hb) as (t & E & Ht). apply Hne.
  rewrite !Str.append_assoc in E. apply append_inj in E. simpl in E. injection E as E.
  symmetry. exact (name_head m n u t Hm Hn Hu Ht E).
Qed.

(** ** The patterns a path sees *)

Section Patterns.
Context `{Fnmatch}.

Definition seen (q : string) (ps : list IgnorePattern) : list IgnorePattern :=
  filter (fun p => pathIsUnderDir q (baseDir p) = true) ps.

Lemma shouldIgnore_seen q d ps : shouldIgnore q d ps = shouldIgnore q d (seen q ps).
Proof.
  unfold shouldIgnore, seen. generalize false. induction ps as [|p ps IH]; intros i; [done|].
  rewrite filter_cons. cbn [fold_left]. unfold applies at 2.
  destruct (pathIsUnderDir q (baseDir p)) eqn:E; simpl.
  - cbn [fold_left]. unfold applies. rewrite E. apply IH.
  - apply IH.
Qed.

(** The last pattern that applies decides. *)
Lemma shouldIgnore_app q d ps p :
  shouldIgnore q d (ps ++ [p]) = if applies q d p then negb (isNegation p) else shouldIgnore q d ps.
Proof. unfold shouldIgnore. by rewrite fold_left_app. Qed.
End Patterns.

(** ** What reading a .gitignore adds *)

(** The free entries of ignorePatterns. *)
Definition room (ps : list IgnorePattern) : nat := Z.to_nat MAX_IGNORE - length ps.

(** [f] adds the patterns [xs], whose base is [b], as far as there is room. *)
Definition appends (b : string) (f : list IgnorePattern -> list IgnorePattern)
    (xs : list IgnorePattern) : Prop :=
  Forall (fun p => baseDir p = in_path_buffer b) xs /\ forall ps, f ps = ps ++ take (room ps) xs.

Lemma appends_nothing b : appends b (fun ps => ps) [].
Proof. split; [constructor|]. intros ps. by rewrite take_nil, app_nil_r. Qed.

Lemma appends_then b f g xs ys :
  appends b f xs -> appends b g ys -> appends b (fun ps => g (f ps)) (xs ++ ys).
Proof.
  intros [Hx Hf] [Hy Hg]. split; [by apply Forall_app|]. intros ps.
  rewrite Hg, Hf, <- app_assoc, take_app. do 2 f_equal.
  unfold room. rewrite length_app, length_take. f_equal. lia.
Qed.

Lemma addPattern_appends line b : exists xs, appends b (addPattern line b) xs.
Proof.
  unfold addPattern. set (neg := Str.starts_with _ _). set (pat := skip_blanks _).
  destruct (Str.empty pat) eqn:Ep.
  - exists []. split; [constructor|]. intros ps. rewrite take_nil, app_nil_r. by case_match.
  - exists [mkPattern (if Str.ends_with_char "/" pat then Str.pop_back pat else pat) neg
              (Str.ends_with_char "/" pat) (in_path_buffer b)].
    split; [by apply Forall_singleton|]. intros ps. unfold room.
    destruct (Z.leb_spec MAX_IGNORE (Z.of_nat (length ps))) as [Hl|Hl].
    + assert ((Z.to_nat MAX_IGNORE - length ps)%nat = 0%nat) as -> by lia. by rewrite app_nil_r.
    + destruct (Z.to_nat MAX_IGNORE - length ps)%nat eqn:E; [lia|]. by destruct n.
Qed.

Lemma ignore_line_appends b line : exists xs, appends b (ignore_line b line) xs.
Proof.
  unfold ignore_line. destruct (_ || _); [exists []; apply appends_nothing|]. apply addPattern_appends.
Qed.

Lemma ignore_lines_appends fuel b text : exists xs, appends b (ignore_lines fuel b text) xs.
Proof.
  revert text. induction fuel as [|fuel IH]; intros text; [exists []; apply appends_nothing|].
  destruct text as [|c text]; [exists []; apply appends_nothing|]. cbn [ignore_lines].
  destruct (fgets 511 (String c text)) as [line rest]. destruct (IH rest) as [ys Hy].
  destruct (ignore_line_appends b line) as [xs Hx]. eexists. by apply (appends_then b _ _ xs ys).
Qed.

Lemma readGitignore_appends fs path b : exists xs, appends b (readGitignore fs path b) xs.
Proof.
  unfold readGitignore. destruct (fopen fs path); [apply ignore_lines_appends|].
  exists []. apply appends_nothing.
Qed.

Lemma enter_repo_appends fs dir : exists xs, appends dir (enter_repo fs dir) xs.
Proof.
  unfold enter_repo. destruct (readGitignore_appends fs (join dir ".gitignore") dir) as [xs Hx].
  destruct (addPattern_appends ".git/" dir) as [ys Hy]. eexists. by apply (appends_then dir _ _ xs ys).
Qed.

(** Once nothing was cut off, what is added to a list is what is added to none. *)
Lemma appends_whole b f xs ps :
  appends b f xs -> Z.of_nat (length (f ps)) < MAX_IGNORE -> f ps = ps ++ xs /\ f [] = xs.
Proof.
  intros [_ Hf] Hl. rewrite !Hf in *. rewrite length_app, length_take in Hl.
  unfold room in *. simpl length in *. rewrite !take_ge by lia. done.
Qed.

(** ** The scoped walk *)

Module Walk.
Import FileSize.

Section Walk.
Context `{Fnmatch} (fs : FileSystem).

(** The git root for the entries of a directory, and the patterns of its own. *)
Definition root_in (dir : string) (gitRoot : option string) : option string :=
  if has_git fs dir then Some dir else gitRoot.
Definition own_patterns (dir : string) (gitRoot : option string) : list IgnorePattern :=
  patterns (enter fs dir gitRoot (mkState [] [])).2.

(** One entry of a directory whose patterns, those of the directories above included,
    are [ps]. *)
Definition scoped_entry (walk : string -> option string -> list IgnorePattern -> list FileEntry)
    (dir : string) (root : option string) (ps : list IgnorePattern) (name : string) : list FileEntry :=
  if dots name then []
  else
    let path := join dir name in
    match lstat fs path with
    | None => []
    | Some st =>
        if match root with Some _ => shouldIgnore path (S_ISDIR st) ps | None => false end then []
        else if S_ISDIR st then walk path root ps
        else if S_ISREG st then [mkEntry path (st_size st) (countLines fs path)]
        else []
    end.

(** The files a walk lists when each directory's patterns hold for what is below it and
    nowhere else. *)
Fixpoint scoped (fuel : nat) (dir : string) (gitRoot : option string) (ps : list IgnorePattern) :
    list FileEntry :=
  match fuel with
  | O => []
  | S fuel =>
      match opendir fs dir with
      | None => []
      | Some names =>
          names ≫= scoped_entry (scoped fuel) dir (root_in dir gitRoot) (ps ++ own_patterns dir gitRoot)
      end
  end.

(** The entries of a directory have different names without a slash, and no path is
    longer than a path buffer. *)
Definition readable : Prop :=
  forall dir names, opendir fs dir = Some names ->
    NoDup names /\ Forall is_name names /\
    Forall (fun n => Z.of_nat (String.length (dir +:+ "/" +:+ n)%string) < MAX_PATH) names.

Definition total_size (l : list FileEntry) : Z := foldr (fun e t => size e + t) 0 l.

(** ** The walk only adds *)

Definition extends (s s' : State) : Prop :=
  (length (files s) <= length (files s'))%nat /\ (length (patterns s) <= length (patterns s'))%nat.

#[local] Instance extends_preorder : PreOrder extends.
Proof using Type. split; [done|]. intros s1 s2 s3 [] []. split; lia. Qed.

Lemma appends_grows b f xs ps : appends b f xs -> (length ps <= length (f ps))%nat.
Proof using Type. intros [_ ->]. rewrite length_app. lia. Qed.

(** Entering a directory. *)
Lemma enter_spec dir gitRoot s :
  exists f xs, appends dir f xs /\ own_patterns dir gitRoot = f [] /\
    enter fs dir gitRoot s = (root_in dir gitRoot, mkState (files s) (f (patterns s))).
Proof using Type.
  unfold own_patterns, enter, root_in. destruct (has_git fs dir).
  { destruct (enter_repo_appends fs dir) as [xs Hx]. by eexists _, xs. }
  destruct gitRoot.
  - destruct (readGitignore_appends fs (join dir ".gitignore") dir) as [xs Hx]. by eexists _, xs.
  - eexists (fun ps => ps), []. split; [apply appends_nothing|]. by destruct s.
Qed.

Lemma add_file_extends path st s : extends s (add_file fs path st s).
Proof using Type. unfold add_file. case_match; [|done]. split; simpl; rewrite ?length_app; lia. Qed.

Lemma each_entry_extends scan dir root names s total s' total' :
  (forall path r s s' t, scan path r s = Some (s', t) -> extends s s') ->
  each_entry fs scan dir root names s total = Some (s', total') -> extends s s'.
Proof using Type.
  intros Hscan. revert s total. induction names as [|name names IH]; intros s total; simpl; [by intros [= ->]|].
  destruct (visit fs scan dir root name s) as [[s1 t]|] eqn:E; [|done]. intros E'.
  transitivity s1; [|by eapply IH]. revert E. unfold visit.
  destruct (dots name); [by intros [= ->]|]. destruct (lstat fs (join dir name)) as [st|]; [|by intros [= ->]].
  case_match; [by intros [= ->]|]. destruct (S_ISDIR st); [by apply Hscan|].
  destruct (S_ISREG st); intros [= <- _]; [apply add_file_extends|done].
Qed.

Lemma scanDir_extends fuel dir root s s' t : scanDir fs fuel dir root s = Some (s', t) -> extends s s'.
Proof using Type.
  revert dir root s s' t. induction fuel as [|fuel IH]; intros dir root s s' t; simpl; [done|].
  destruct (opendir fs dir) as [names|]; [|by intros [= ->]].
  destruct (enter_spec dir root s) as (f & xs & Hf & _ & ->). intros E.
  apply each_entry_extends in E; [|exact IH]. etransitivity; [|exact E].
  split; simpl; [done|]. by eapply appends_grows.
Qed.

(** ** The walk lists what the scoped walk does *)

Definition agree (path : string) (ps qs : list IgnorePattern) : Prop :=
  forall q, at_or_below q path -> seen q ps = seen q qs.

(** [s'] is [s] with the files [l] of [dir], of total size [t], and with patterns of
    directories at or below it. *)
Definition adds (dir : string) (l : list FileEntry) (s s' : State) (t : Z) : Prop :=
  exists xs, patterns s' = patterns s ++ xs /\ Forall (fun p => at_or_below (baseDir p) dir) xs /\
    files s' = files s ++ l /\ t = total_size l.

(** Nothing was cut off. *)
Definition roomy (s : State) : Prop :=
  Z.of_nat (length (patterns s)) < MAX_IGNORE /\ Z.of_nat (length (files s)) < MAX_FILES.

Lemma roomy_before s s' : extends s s' -> roomy s' -> roomy s.
Proof using Type. intros [] []. split; lia. Qed.

Lemma adds_nothing dir s : adds dir [] s s 0.
Proof using Type. exists []. by rewrite !app_nil_r. Qed.

Lemma total_size_app l k : total_size (l ++ k) = total_size l + total_size k.
Proof using Type. induction l as [|e l IH]; simpl; [done|]. rewrite IH. lia. Qed.

Lemma in_path_buffer_id s : Z.of_nat (String.length s) < MAX_PATH -> in_path_buffer s = s.
Proof using Type.
  unfold in_path_buffer. intros Hs. assert (String.length s <= Z.to_nat (MAX_PATH - 1))%nat as H0
    by (unfold MAX_PATH in *; lia). clear Hs. revert H0. generalize (Z.to_nat (MAX_PATH - 1)).
  induction s as [|c s IH]; intros [|n] Hn; simpl in *; try done; [lia|]. f_equal. apply IH. lia.
Qed.

Lemma entry_not_dot b dir n : at_or_below b (dir +:+ "/" +:+ n) -> b <> ".".
Proof using Type. intros (t & -> & _). destruct dir as [|c [|d dir]]; done. Qed.

(** What another entry of the directory added is not seen. *)
Lemma sibling_unseen dir n m q xs :
  is_name n -> is_name m -> n <> m -> Forall (fun p => at_or_below (baseDir p) (dir +:+ "/" +:+ n)) xs ->
  at_or_below q (dir +:+ "/" +:+ m) -> seen q xs = [].
Proof using Type.
  intros Hn Hm Hne Hxs Hq. unfold seen. induction Hxs as [|p xs Hp _ IH]; [done|].
  rewrite filter_cons_False; [exact IH|]. intros [Hdot|Hb]%under_spec; [exact (entry_not_dot _ _ _ Hp Hdot)|].
  exact (siblings_apart dir n m q (baseDir p) Hn Hm Hne Hp Hq Hb).
Qed.

Lemma below_entry q dir n : at_or_below q (dir +:+ "/" +:+ n) -> at_or_below q dir.
Proof using Type.
  intros Hq. eapply at_or_below_trans; [exact Hq|]. exists (String "/" n). eauto.
Qed.

Section Entries.
Context (scan : string -> option string -> State -> option (State * Z)).
Context (walk : string -> option string -> list IgnorePattern -> list FileEntry).
Context (Hext : forall path r s s' t, scan path r s = Some (s', t) -> extends s s').
Context (Hscan : forall path r s s' t ps,
  Z.of_nat (String.length path) < MAX_PATH -> agree path (patterns s) ps ->
  scan path r s = Some (s', t) -> roomy s' -> adds path (walk path r ps) s s' t).

Lemma visit_scoped dir root name s s' t ps :
  Z.of_nat (String.length (dir +:+ "/" +:+ name)) < MAX_PATH ->
  agree (dir +:+ "/" +:+ name) (patterns s) ps ->
  visit fs scan dir root name s = Some (s', t) -> roomy s' ->
  adds (dir +:+ "/" +:+ name) (scoped_entry walk dir root ps name) s s' t.
Proof using Hscan.
  intros Hl Hag. unfold visit, scoped_entry. destruct (dots name); [intros [= <- <-] _; apply adds_nothing|].
  unfold join. rewrite in_path_buffer_id by done. set (path := (dir +:+ "/" +:+ name)%string) in *.
  destruct (lstat fs path) as [st|]; [|intros [= <- <-] _; apply adds_nothing].
  rewrite (shouldIgnore_seen _ _ (patterns s)), (Hag path), <- shouldIgnore_seen by apply at_or_below_refl.
  case_match; [intros [= <- <-] _; apply adds_nothing|].
  destruct (S_ISDIR st); [by apply Hscan|]. destruct (S_ISREG st); [|intros [= <- <-] _; apply adds_nothing].
  intros [= <- <-] [_ Hf]. unfold add_file in *. rewrite in_path_buffer_id by done.
  destruct (Z.ltb_spec (Z.of_nat (length (files s))) MAX_FILES) as [|Hge]; [|lia].
  exists []. rewrite app_nil_r. repeat split; [constructor|]. simpl. lia.
Qed.

Lemma each_entry_scoped dir root names s total s' total' ps :
  NoDup names -> Forall is_name names ->
  Forall (fun n => Z.of_nat (String.length (dir +:+ "/" +:+ n)) < MAX_PATH) names ->
  (forall n, n ∈ names -> agree (dir +:+ "/" +:+ n) (patterns s) ps) ->
  each_entry fs scan dir root names s total = Some (s', total') -> roomy s' ->
  exists t, total' = total + t /\ adds dir (names ≫= scoped_entry walk dir root ps) s s' t.
Proof using Hscan Hext.
  revert s total. induction names as [|name names IH]; intros s total Hd Hn Hl Hag; cbn [each_entry].
  { intros [= <- <-] _. exists 0. split; [lia|apply adds_nothing]. }
  destruct (visit fs scan dir root name s) as [[s1 t1]|] eqn:Ev; [|done]. intros E Hr.
  apply NoDup_cons in Hd as [Hnin Hd]. apply Forall_cons in Hn as [Hn0 Hn], Hl as [Hl0 Hl].
  pose proof (each_entry_extends _ _ _ _ _ _ _ _ Hext E) as Hx.
  destruct (visit_scoped dir root name s s1 t1 ps Hl0 (Hag name ltac:(left)) Ev (roomy_before _ _ Hx Hr))
    as (xs & Hp & Hxs & Hf & Ht).
  destruct (IH s1 (total + t1) Hd Hn Hl) as (t2 & Htot & ys & Hp2 & Hys & Hf2 & Ht2); [|done|done|].
  { intros m Hm q Hq. rewrite Hp. unfold seen. rewrite filter_app. fold (seen q (patterns s)) (seen q xs) (seen q ps).
    rewrite (sibling_unseen dir name m q xs), app_nil_r; try done.
    - apply (Hag m); [by right|done].
    - rewrite Forall_forall in Hn. by apply Hn.
    - by intros ->. }
  exists (t1 + t2). split; [lia|]. exists (xs ++ ys). cbn [mbind list_bind].
  rewrite Hp2, Hp, Hf2, Hf, Ht, Ht2, total_size_app, !app_assoc. repeat split.
  apply Forall_app. split; [|done]. eapply Forall_impl; [exact Hxs|]. intros p. apply below_entry.
Qed.
End Entries.

Lemma scan_scoped fuel dir root s s' t ps :
  readable -> Z.of_nat (String.length dir) < MAX_PATH -> agree dir (patterns s) ps ->
  scanDir fs fuel dir root s = Some (s', t) -> roomy s' -> adds dir (scoped fuel dir root ps) s s' t.
Proof using Type.
  intros Hfs. revert dir root s s' t ps. induction fuel as [|fuel IH]; intros dir root s s' t ps Hl Hag;
    cbn [scanDir scoped]; [done|].
  destruct (opendir fs dir) as [names|] eqn:Eo; [|intros [= <- <-] _; apply adds_nothing].
  destruct (enter_spec dir root s) as (f & xs & Hf & Hown & ->). intros E Hr.
  pose proof (each_entry_extends _ _ _ _ _ _ _ _ (scanDir_extends fuel) E) as Hx.
  destruct (roomy_before _ _ Hx Hr) as [Hroom _]. cbn [patterns] in Hroom.
  destruct (appends_whole _ _ _ _ Hf Hroom) as [Hps Hnil]. destruct Hf as [Hbase _].
  destruct (Hfs dir names Eo) as (Hd & Hn & Hshort).
  destruct (each_entry_scoped (scanDir fs fuel) (scoped fuel) (scanDir_extends fuel)
    (fun path r s s' t ps => IH path r s s' t ps) dir (root_in dir root) names
    (mkState (files s) (f (patterns s))) 0 s' t (ps ++ own_patterns dir root) Hd Hn Hshort)
    as (t' & -> & ys & Hp & Hys & Hfiles & Ht'); [|done|done|].
  { intros n _ q Hq. cbn [patterns]. rewrite Hps, Hown, Hnil. unfold seen. rewrite !filter_app.
    fold (seen q (patterns s)) (seen q ps). rewrite Hag; [done|]. by eapply below_entry. }
  exists (xs ++ ys). cbn [patterns files] in *. rewrite Hp, Hps, app_assoc.
  repeat split; [|done|lia]. apply Forall_app. split; [|done]. eapply Forall_impl; [exact Hbase|].
  intros p ->. rewrite in_path_buffer_id by done. apply at_or_below_refl.
Qed.
End Walk.
End Walk.

(** ** The tools *)

(** The directories below one are of a smaller rank: the tree is finite. *)
Definition ranked (fs : FileSystem) (rank : string -> nat) : Prop :=
  forall dir names n st, opendir fs dir = Some names -> n ∈ names -> dots n = false ->
    lstat fs (join dir n) = Some st -> S_ISDIR st = true -> (rank (join dir n) < rank dir)%nat.

Section Walked.
Context `{Fnmatch} (fs : FileSystem) (rank : string -> nat) (Hrank : ranked fs rank).

Lemma each_entry_total scan dir root names s total :
  (forall n s, n ∈ names -> exists r, FileSize.visit fs scan dir root n s = Some r) ->
  exists r, FileSize.each_entry fs scan dir root names s total = Some r.
Proof using Type.
  revert s total. induction names as [|n names IH]; intros s total Hv; simpl; [by eexists|].
  destruct (Hv n s ltac:(left)) as [[s1 t] ->]. apply IH. intros m s2 Hm. apply Hv. by right.
Qed.

Lemma scan_total fuel dir root s :
  (rank dir < fuel)%nat -> exists r, FileSize.scanDir fs fuel dir root s = Some r.
Proof using Hrank.
  revert dir root s. induction fuel as [|fuel IH]; intros dir root s Hf; [lia|]. cbn [FileSize.scanDir].
  destruct (opendir fs dir) as [names|] eqn:Eo; [|by eexists].
  destruct (FileSize.enter fs dir root s) as [root' s0]. apply each_entry_total. intros n s1 Hn.
  unfold FileSize.visit. destruct (dots n) eqn:Ed; [by eexists|].
  destruct (lstat fs (join dir n)) as [st|] eqn:El; [|by eexists].
  case_match; [by eexists|]. destruct (S_ISDIR st) eqn:Es; [|destruct (S_ISREG st); by eexists].
  apply IH. specialize (Hrank dir names n st Eo Hn Ed El Es). lia.
Qed.

(** The array of files never overflows. *)
Lemma scan_bound fuel dir root s s' t :
  Z.of_nat (length (FileSize.files s)) <= MAX_FILES ->
  FileSize.scanDir fs fuel dir root s = Some (s', t) -> Z.of_nat (length (FileSize.files s')) <= MAX_FILES.
Proof using Type.
  revert dir root s s' t. induction fuel as [|fuel IH]; intros dir root s s' t Hs; cbn [FileSize.scanDir]; [done|].
  destruct (opendir fs dir) as [names|]; [|by intros [= <- _]].
  destruct (Walk.enter_spec fs dir root s) as (f & xs & _ & _ & ->).
  match goal with |- context [FileSize.each_entry _ _ _ _ _ ?s0 0] =>
    assert (Z.of_nat (length (FileSize.files s0)) <= MAX_FILES) as Hs0 by done; revert Hs0;
    generalize s0; clear s Hs end.
  generalize 0. induction names as [|n names IHn]; intros z s Hs; simpl; [by intros [= <- _]|].
  destruct (FileSize.visit _ _ _ _ n s) as [[s1 t1]|] eqn:Ev; [|done]. apply IHn. revert Ev.
  unfold FileSize.visit. destruct (dots n); [by intros [= <- _]|].
  destruct (lstat fs (join dir n)) as [st|]; [|by intros [= <- _]]. case_match; [by intros [= <- _]|].
  destruct (S_ISDIR st); [by apply IH|]. destruct (S_ISREG st); [|by intros [= <- _]].
  intros [= <- _]. unfold FileSize.add_file. destruct (Z.ltb_spec (Z.of_nat (length (FileSize.files s))) MAX_FILES);
    [|done]. simpl. rewrite length_app. simpl. lia.
Qed.

(** C31: FileSize lists what scoped .gitignore files would let it list: in a tree of
    finite depth whose paths fit their buffers, the walk from any directory ends with a
    fuel of the depth, never holds more than MAX_FILES files, and, when neither array was
    full, it found exactly the files the scoped walk finds, in its order, the one in which
    a directory's patterns hold for what is below it and nowhere else, although the tool
    keeps one global list that it never cuts back; and the total it returns is the sum of
    their sizes. *)
Theorem file_size_is_scoped (dir : string) (root : option string) (ps : list IgnorePattern) :
  Walk.readable fs -> Z.of_nat (String.length dir) < MAX_PATH ->
  exists s t,
    FileSize.scanDir fs (S (rank dir)) dir root (FileSize.mkState [] ps) = Some (s, t) /\
    Z.of_nat (length (FileSize.files s)) <= MAX_FILES /\
    (Walk.roomy s ->
     FileSize.files s = Walk.scoped fs (S (rank dir)) dir root ps /\
     t = Walk.total_size (FileSize.files s)).
Proof using Hrank.
  intros Hfs Hd. destruct (scan_total (S (rank dir)) dir root (FileSize.mkState [] ps)) as [[s t] E]; [lia|].
  exists s, t. split; [done|]. split; [eapply scan_bound; [|exact E]; done|]. intros Hr.
  destruct (Walk.scan_scoped fs _ dir root (FileSize.mkState [] ps) s t ps Hfs Hd (fun q _ => eq_refl) E Hr)
    as (xs & _ & _ & -> & ->). done.
Qed.
End Walked.

(** The list fileSize prints is the top of all files: as many as asked for or as there
    are, the largest first, and no file left out is larger than one listed. *)
Theorem top_sizes_largest `{Qsort} (n : Z) (files : list FileSize.FileEntry) :
  let shown := FileSize.topSizes n files in
  length shown = Nat.min (Z.to_nat n) (length files) /\
  StronglySorted (fun a b => FileSize.size b <= FileSize.size a) shown /\
  exists rest, shown ++ rest ≡ₚ files /\
    forall a b, a ∈ shown -> b ∈ rest -> FileSize.size b <= FileSize.size a.
Proof.
  unfold FileSize.topSizes. set (l := qsort FileSize.cmpFiles files). cbv zeta.
  assert (l ≡ₚ files) as Hp by apply qsort_permutation.
  assert (forall a b, FileSize.cmpFiles a b <= 0 <-> FileSize.size b <= FileSize.size a) as Hcmp.
  { intros a b. unfold FileSize.cmpFiles. destruct (Z.ltb_spec (FileSize.size a) (FileSize.size b)); [lia|].
    destruct (Z.ltb_spec (FileSize.size b) (FileSize.size a)); lia. }
  assert (StronglySorted (fun a b => FileSize.size b <= FileSize.size a) l) as Hs.
  { assert (StronglySorted (fun a b => FileSize.cmpFiles a b <= 0) l) as Hl.
    { apply qsort_sorted; [intros a b|intros a b c]; rewrite !Hcmp; lia. }
    clear Hp. induction Hl as [|a l' Hl IH Ha]; [constructor|]. constructor; [done|]. eapply Forall_impl; [exact Ha|]. intros b. by rewrite Hcmp. }
  split; [by rewrite length_take, Hp|]. rewrite <- (take_drop (Z.to_nat n) l) in Hs.
  apply StronglySorted_app in Hs as (Hx & Hs1 & Hs2). split; [done|]. exists (drop (Z.to_nat n) l).
  split; [by rewrite take_drop|]. intros a b Ha Hb. by apply Hx.
Qed.

(** ** What patterns do not do *)

Section Anchored.
Context `{Fnmatch}.

Lemma strchr_append c a b : strchr c (a +:+ String c b) <> None.
Proof using Type.
  induction a as [|d a IH]; simpl; [by rewrite decide_True|].
  destruct (decide (d = c)); [done|]. by destruct (strchr c (a +:+ String c b)) as [[]|].
Qed.

(** The root's .gitignore is read twice when the walk starts there; that changes nothing. *)
Lemma patterns_twice q d ps : shouldIgnore q d (ps ++ ps) = shouldIgnore q d ps.
Proof using Type.
  unfold shouldIgnore. rewrite fold_left_app.
  assert (forall l i j, fold_left (fun ignored p => if applies q d p then negb (isNegation p) else ignored) l i
            = fold_left (fun ignored p => if applies q d p then negb (isNegation p) else ignored) l j \/
          (forall k, fold_left (fun ignored p => if applies q d p then negb (isNegation p) else ignored) l k = k)) as Hl.
  { induction l as [|p l IH]; intros i j; [by right|]. simpl. destruct (applies q d p); [by left|apply IH]. }
  by destruct (Hl ps (fold_left (fun ignored p => if applies q d p then negb (isNegation p) else ignored) ps false)
    false) as [->|Hk].
Qed.

Lemma relPath_below b q : b <> "." -> relPath (b +:+ "/" +:+ q) b = q.
Proof using Type.
  intros Hb. unfold relPath. rewrite decide_False by done.
  unfold Str.starts_with. rewrite Str.prefix_append, Str.drop_append. cbn [String.append].
  by rewrite decide_True.
Qed.

(** A pattern anchored with a leading slash has no effect: the line is added with its
    slash, and the slash can only match a slash while the path below the directory of the
    .gitignore does not start with one; so no path is ignored, or included again, because
    of it. *)
Theorem anchored_pattern_ignored (ps : list IgnorePattern) (b r q : string) (isDir : bool) :
  r <> "" -> b <> "." -> Z.of_nat (String.length b) < MAX_PATH ->
  Str.starts_with "/" q = false -> Str.starts_with "./" q = false ->
  let path := (b +:+ "/" +:+ q)%string in
  shouldIgnore path isDir (addPattern (String "/" r) b ps) = shouldIgnore path isDir ps /\
  shouldIgnore path isDir (addPattern ("!/" +:+ r) b ps) = shouldIgnore path isDir ps.
Proof using Type.
  intros Hr Hb Hl Hq Hdot path.
  assert (forall p neg dir, shouldIgnore path isDir (ps ++ [mkPattern (String "/" p) neg dir (in_path_buffer b)])
            = shouldIgnore path isDir ps) as Hno.
  { intros p neg dir. rewrite shouldIgnore_app. unfold applies. cbn [baseDir pattern isDirectory isNegation].
    rewrite Walk.in_path_buffer_id by done. unfold path. rewrite relPath_below by done.
    unfold pathMatches. destruct (dir && negb isDir); [by rewrite andb_false_r|].
    destruct (strchr "/" (String "/" p)) as [[]|] eqn:E; [|by destruct (strchr_append "/" "" p)].
    unfold without_dot. rewrite Hdot. destruct (fnmatch true (String "/" p) q) eqn:Ef; [|by rewrite andb_false_r].
    apply fnmatch_slash in Ef. congruence. }
  assert (forall neg, skip_blanks (String "/" r) = String "/" r /\
    shouldIgnore path isDir (ps ++ [mkPattern (if Str.ends_with_char "/" (String "/" r) then
      Str.pop_back (String "/" r) else String "/" r) neg (Str.ends_with_char "/" (String "/" r)) (in_path_buffer b)])
      = shouldIgnore path isDir ps) as Hadd.
  { intros neg. split; [done|]. destruct r as [|c r]; [done|].
    destruct (Str.ends_with_char "/" _); apply Hno. }
  destruct (Hadd false) as [Hskip H1], (Hadd true) as [_ H2].
  split; unfold addPattern; (destruct (_ <=? _); [done|]).
  - change (Str.starts_with "!" (String "/" r)) with false. cbv beta iota zeta. rewrite Hskip. exact H1.
  - change (Str.starts_with "!" ("!/" +:+ r)) with true. cbv beta iota zeta.
    change (Str.drop 1 ("!/" +:+ r)) with (String "/" r). rewrite Hskip. exact H2.
Qed.
End Anchored.

(** ** Concrete runs *)

(** Patterns with stars and question marks. *)
Fixpoint glob (pathname : bool) (p s : string) : bool :=
  match p with
  | EmptyString => Str.empty s
  | String c p =>
      if decide (c = "*"%char) then
        (fix star (s : string) : bool :=
           glob pathname p s ||
           match s with
           | EmptyString => false
           | String d s => negb (pathname && bool_decide (d = "/"%char)) && star s
           end) s
      else
        match s with
        | EmptyString => false
        | String d s =>
            ((bool_decide (c = "?"%char) && negb (pathname && bool_decide (d = "/"%char))) ||
             bool_decide (c = d)) && glob pathname p s
        end
  end.

Lemma glob_literal f p s : literal p = true -> glob f p s = bool_decide (p = s).
Proof.
  revert s. induction p as [|c p IH]; intros s; [by destruct s|]. simpl.
  intros [Hc%bool_decide_eq_true Hp]%andb_true_iff. rewrite decide_False by (intros ->; apply Hc; left).
  destruct s as [|d s]; [done|]. rewrite IH by done.
  rewrite (bool_decide_eq_false_2 (c = "?"%char)) by (intros ->; apply Hc; right; left). simpl.
  destruct (decide (c = d)) as [->|Hd].
  - rewrite bool_decide_eq_true_2 by done. simpl. apply bool_decide_ext. split; [by intros ->|by intros [=]].
  - rewrite (bool_decide_eq_false_2 (c = d)) by done. symmetry. apply bool_decide_eq_false. by intros [=].
Qed.

Lemma glob_slash p s : glob true (String "/" p) s = true -> Str.starts_with "/" s = true.
Proof.
  simpl. destruct s as [|d s]; [done|]. intros [Hd%bool_decide_eq_true _]%andb_true_iff. subst d. apply (Str.prefix_append "/" s).
Qed.

#[export] Instance glob_fnmatch : Fnmatch :=
  {| fnmatch := glob; fnmatch_literal := glob_literal; fnmatch_slash := glob_slash |}.

(** A repository /r that ignores its logs, with a log, a note and, in front of them or
    behind, a repository of its own. *)
Definition file (n : Z) : Stat := mkStat Regular n n.
Definition folder : Stat := mkStat Directory 0 0.
Definition demo_stat (path : string) : option Stat :=
  if bool_decide (path ∈ ["/r"; "/r/.git"; "/r/sub"; "/r/sub/.git"]) then Some folder
  else if bool_decide (path ∈ ["/r/a.log"; "/r/notes"; "/r/sub/b.log"; "/r/.gitignore"]) then Some (file 7)
  else None.
Definition demo_fs (names : list string) : FileSystem :=
  mkFS (fun dir => if decide (dir = "/r") then Some names
                   else if decide (dir = "/r/sub") then Some ["."; ".."; ".git"; "b.log"] else None)
    demo_stat demo_stat
    (fun path => if decide (path = "/r/.gitignore") then Some ("*.log" +:+ eol)%string else None).
Definition sub_last : FileSystem := demo_fs ["."; ".."; ".git"; "a.log"; "notes"; "sub"].
Definition sub_first : FileSystem := demo_fs ["."; ".."; ".git"; "sub"; "a.log"; "notes"].

Definition sizes (fs : FileSystem) : option (list string) :=
  (fun r => FileSize.path <$> FileSize.files r.1) <$>
    FileSize.scanDir fs 3 "/r" (Some "/r") (FileSize.mkState [] []).
Definition times (fs : FileSystem) : option (list string) :=
  (fun s => LastChanged.path <$> LastChanged.files s) <$>
    LastChanged.scanDir fs 3 "/r" (Some "/r") (LastChanged.mkState [] []).

(** What lastChanged lists depends on the order of the directory: entering the inner
    repository clears the patterns and they do not come back, so the logs of the outer
    one are listed when it is read first (and the inner one's always are). *)
Example nested_repository_unignores :
  sizes sub_last = Some ["/r/notes"] /\ sizes sub_first = Some ["/r/notes"] /\
  times sub_last = Some ["/r/notes"; "/r/sub/b.log"] /\
  times sub_first = Some ["/r/sub/b.log"; "/r/a.log"; "/r/notes"].
Proof. repeat split; vm_compute; reflexivity. Qed.

(** A stable sort. *)
Definition msort {A} (cmp : A -> A -> Z) (l : list A) : list A :=
  merge_sort (fun a b => cmp a b <= 0) (H := fun a b => Z_le_dec (cmp a b) 0) l.

Lemma msort_sorted {A} (cmp : A -> A -> Z) (l : list A) :
  (forall a b, cmp a b <= 0 \/ cmp b a <= 0) ->
  (forall a b c, cmp a b <= 0 -> cmp b c <= 0 -> cmp a c <= 0) ->
  StronglySorted (fun a b => cmp a b <= 0) (msort cmp l).
Proof.
  intros Ht Htr. assert (Transitive (fun a b => cmp a b <= 0)) by exact Htr.
  assert (Total (fun a b => cmp a b <= 0)) by exact Ht.
  by apply (StronglySorted_merge_sort (fun a b => cmp a b <= 0)
    (H := fun a b => Z_le_dec (cmp a b) 0)).
Qed.

#[export] Instance msort_qsort : Qsort :=
  {| qsort := @msort; qsort_permutation := fun A cmp l => merge_sort_Permutation _ l;
     qsort_sorted := @msort_sorted |}.

Definition demo_rank (dir : string) : nat :=
  if decide (dir = "/r") then 2 else if decide (dir = "/r/sub") then 1 else 0.

Definition lower_rank (dir n : string) : bool :=
  dots n || match lstat sub_first (join dir n) with
            | Some st => negb (S_ISDIR st) || Nat.ltb (demo_rank (join dir n)) (demo_rank dir)
            | None => true
            end.

Lemma demo_ranked : ranked sub_first demo_rank.
Proof.
  intros dir names n st Ho Hn Hd Hl Hs.
  assert (forallb (lower_rank dir) names = true) as Hall.
  { simpl in Ho. repeat case_decide; simplify_eq; vm_compute; reflexivity. }
  rewrite forallb_forall in Hall. apply list_elem_of_In, Hall in Hn. unfold lower_rank in Hn.
  rewrite Hd, Hl, Hs in Hn. by apply Nat.ltb_lt in Hn.
Qed.

Lemma demo_readable : Walk.readable sub_first.
Proof.
  intros dir names. simpl. destruct (decide (dir = "/r")) as [->|]; [|destruct (decide (dir = "/r/sub")) as [->|]];
    intros [= <-]; (split; [by apply (bool_decide_eq_true_1 _)|]); split; repeat constructor.
Qed.

Lemma file_size_is_scoped_witness :
  exists s t, FileSize.scanDir sub_first 3 "/r" (Some "/r") (FileSize.mkState [] []) = Some (s, t) /\
    Walk.scoped sub_first 3 "/r" (Some "/r") [] = FileSize.files s /\
    FileSize.path <$> FileSize.files s = ["/r/notes"] /\ t = 7.
Proof.
  destruct (file_size_is_scoped sub_first demo_rank demo_ranked "/r" (Some "/r") [] demo_readable eq_refl)
    as (s & t & E & _ & Hs).
  change (S (demo_rank "/r")) with 3%nat in E, Hs.
  assert (Walk.roomy s /\ FileSize.path <$> FileSize.files s = ["/r/notes"]) as [Hr Hp].
  { assert (exists s', FileSize.scanDir sub_first 3 "/r" (Some "/r") (FileSize.mkState [] []) = Some (s', 7) /\
      (length (FileSize.patterns s') <= 10)%nat /\ (length (FileSize.files s') <= 10)%nat /\
      FileSize.path <$> FileSize.files s' = ["/r/notes"]) as (s' & E' & H1 & H2 & H3)
      by (eexists; split; [vm_compute; reflexivity|]; repeat split; simpl; lia || reflexivity).
    rewrite E' in E. injection E as <- _. split; [|done]. split; unfold MAX_IGNORE, MAX_FILES; lia. }
  destruct (Hs Hr) as [Hf Ht]. exists s, t. repeat split; [done|by rewrite <- Hf|done|].
  rewrite Ht, Hf. vm_compute. reflexivity.
Defined.

Lemma anchored_pattern_ignored_witness :
  shouldIgnore "/r/build" true (addPattern "/build" "/r" []) = false /\
  shouldIgnore "/r/build" true (addPattern "build" "/r" []) = true.
Proof.
  split; [|vm_compute; reflexivity].
  exact (proj1 (anchored_pattern_ignored [] "/r" "build" "build" true ltac:(discriminate)
    ltac:(discriminate) eq_refl eq_refl eq_refl)).
Defined.
