(* ===== verification/CleanBetween.v ===== *)
(** The cleanBetween tool (src/utilities/cleanBetween/src/main.c): it removes the blank
    lines inside braces from a file, through a temporary file. *)

From S2P Require Import Prelude Stdio.

(** fgets reads up to MAX_LINE - 1 bytes. *)
Definition MAX_LINE : nat := 1024.

(** What a line adds to braceLevel. *)
Fixpoint braces (line : string) : Z :=
  match line with
  | EmptyString => 0
  | String c p =>
      (if decide (c = "{"%char) then 1 else if decide (c = "}"%char) then -1 else 0) + braces p
  end.

(** isEmpty: only white space *)
Fixpoint isEmpty (line : string) : bool :=
  match line with
  | EmptyString => true
  | String c p => Num.is_space c && isEmpty p
  end.

Definition written_line (braceLevel : Z) (line : string) : string :=
  if (0 <? braceLevel) && isEmpty line then "" else line.

(** The while loop over what is left of the file, [fuel] being at least its length: the
    text written. *)
Fixpoint clean_lines (fuel : nat) (braceLevel : Z) (text : string) : string :=
  match fuel, text with
  | S fuel, String _ _ =>
      let '(chunk, rest) := fgets (MAX_LINE - 1) text in
      let line := c_string chunk in
      let braceLevel := braceLevel + braces line in
      (written_line braceLevel line +:+ clean_lines fuel braceLevel rest)%string
  | _, _ => ""
  end.
Definition clean (text : string) : string := clean_lines (String.length text) 0 text.

(** The current directory: the contents of its files.  [writable] says whether the
    temporary file can be created. *)
Abbreviation Files := (gmap string string).
Definition tempFile : string := "tempfile.txt".

(** rename() *)
Definition rename (from to : string) (files : Files) : Files :=
  match files !! from with
  | Some text => <[to := text]> (delete from files)
  | None => files
  end.

(** main: the exit status and the files.  The file is opened before the temporary file is
    created, and read after that. *)
Definition main (writable : bool) (argv : list string) (files : Files) : Z * Files :=
  match argv with
  | [name] =>
      match files !! name with
      | None => (1, files)
      | Some _ =>
          if negb writable then (1, files)
          else
            let files := <[tempFile := ""]> files in
            let text := default "" (files !! name) in
            let files := <[tempFile := clean text]> files in
            (0, rename tempFile name (delete name files))
      end
  | _ => (1, files)
  end.

(** ** The pieces fgets reads *)

Fixpoint pieces (fuel : nat) (text : string) : list string :=
  match fuel, text with
  | S fuel, String _ _ => let '(chunk, rest) := fgets (MAX_LINE - 1) text in chunk :: pieces fuel rest
  | _, _ => []
  end.

Definition text_of (l : list string) : string := foldr String.append "" l.

(** A piece that ends because of a newline or because the buffer is full. *)
Definition ended (piece : string) : Prop :=
  piece <> "" /\ forall rest, fgets (MAX_LINE - 1) (piece +:+ rest) = (piece, rest).

(** Pieces fgets can give: all but the last have ended. *)
Fixpoint well_cut (l : list string) : Prop :=
  match l with
  | [] => True
  | [p] => p <> "" /\ fgets (MAX_LINE - 1) p = (p, "")
  | p :: l => ended p /\ well_cut l
  end.

(** Reading back what fgets gave. *)
Lemma fgets_again n s :
  let '(chunk, rest) := fgets n s in
  if Str.empty rest then fgets n chunk = (chunk, "") else forall r, fgets n (chunk +:+ r) = (chunk, r).
Proof.
  revert s. induction n as [|n IH]; intros [|c s]; [done..|]. cbn [fgets].
  destruct (decide (c = lf)) as [->|Hc].
  - destruct s; [done|]. intros r. done.
  - specialize (IH s). destruct (fgets n s) as [chunk rest]. destruct (Str.empty rest).
    + cbn [fgets]. by rewrite decide_False, IH.
    + intros r. cbn [String.append fgets]. by rewrite decide_False, IH.
Qed.

Lemma fgets_nonempty n c s : (fgets (S n) (String c s)).1 <> "".
Proof. cbn [fgets]. destruct (decide (c = lf)); [done|]. by destruct (fgets n s). Qed.

Lemma pieces_spec fuel text :
  (String.length text <= fuel)%nat -> text_of (pieces fuel text) = text /\ well_cut (pieces fuel text).
Proof.
  revert text. induction fuel as [|fuel IH]; intros [|c text] Hf; [done..|simpl in Hf; lia|done|].
  cbn [pieces]. pose proof (fgets_split (MAX_LINE - 1) (String c text)) as Hsplit.
  pose proof (fgets_again (MAX_LINE - 1) (String c text)) as Hagain.
  pose proof (fgets_nonempty 1022 c text) as Hne.
  pose proof (fgets_progress 1022 c text) as Hlen. change (S 1022) with (MAX_LINE - 1)%nat in Hne, Hlen.
  destruct (fgets (MAX_LINE - 1) (String c text)) as [chunk rest]. cbn [fst snd] in *. simpl in Hf.
  destruct (IH rest) as [IH1 IH2]; [lia|]. split; [cbn [text_of foldr]; fold (text_of (pieces fuel rest)); by rewrite IH1|].
  destruct rest as [|d rest]; [destruct fuel; by split|]. cbn [Str.empty] in Hagain.
  destruct (pieces fuel (String d rest)) as [|p l] eqn:Ep; [|by split].
  destruct fuel; simpl in *; [lia|]. by destruct (fgets 1023 (String d rest)).
Qed.

(** ** What is kept *)

Fixpoint kept (braceLevel : Z) (l : list string) : list string :=
  match l with
  | [] => []
  | p :: l =>
      let braceLevel := braceLevel + braces p in
      if (0 <? braceLevel) && isEmpty p then kept braceLevel l else p :: kept braceLevel l
  end.

Lemma blank_braces p : isEmpty p = true -> braces p = 0.
Proof.
  induction p as [|c p IH]; [done|]. simpl. intros [Hc Hp]%andb_true_iff. rewrite IH by done.
  by repeat case_decide; subst.
Qed.

Lemma kept_twice level l : kept level (kept level l) = kept level l.
Proof.
  revert level. induction l as [|p l IH]; intros level; [done|]. simpl.
  destruct ((0 <? level + braces p) && isEmpty p) eqn:E.
  - apply andb_true_iff in E as [_ Hp]. rewrite (blank_braces p Hp), Z.add_0_r. apply IH.
  - simpl. by rewrite E, IH.
Qed.

Lemma well_cut_cons p l : ended p -> well_cut l -> well_cut (p :: l).
Proof.
  intros [Hp He] Hl. destruct l as [|q l]; [|by split]. split; [done|].
  specialize (He ""). by rewrite Str.append_nil_r in He.
Qed.

Lemma well_cut_kept level l : well_cut l -> well_cut (kept level l).
Proof.
  revert level. induction l as [|p l IH]; intros level Hl; [done|]. cbn [kept]. destruct l as [|q l].
  - by destruct (_ && _).
  - destruct Hl as [Hp Hl]. destruct (_ && _); [by apply IH|]. apply well_cut_cons; [done|by apply IH].
Qed.

Lemma length_string_append a b : String.length (a +:+ b) = (String.length a + String.length b)%nat.
Proof. induction a as [|c a IH]; simpl; [done|]. by rewrite IH. Qed.

(** The loop on pieces. *)
Lemma clean_pieces fuel level l :
  (String.length (text_of l) <= fuel)%nat -> well_cut l -> no_nul (text_of l) = true ->
  clean_lines fuel level (text_of l) = text_of (kept level l).
Proof.
  revert fuel level. induction l as [|p l IH]; intros fuel level Hf Hl Hn; [by destruct fuel|].
  cbn [text_of foldr] in *. fold (text_of l) in *.
  rewrite no_nul_append in Hn. apply andb_true_iff in Hn as [Hp Hn].
  assert (p <> "" /\ fgets (MAX_LINE - 1) (p +:+ text_of l) = (p, text_of l) /\ well_cut l) as (Hne & Hg & Hl').
  { destruct l as [|q l]; [|by destruct Hl as [[]]]. destruct Hl. cbn [text_of foldr].
    by rewrite Str.append_nil_r. }
  destruct p as [|c p]; [done|]. destruct fuel as [|fuel]; [simpl in Hf; lia|].
  cbn [clean_lines String.append] in *. rewrite Hg. cbv zeta. rewrite c_string_no_nul by done.
  rewrite IH; [|simpl in Hf; rewrite length_string_append in Hf; lia|done|done].
  cbn [kept]. unfold written_line. by destruct (_ && _).
Qed.

(** The text without its white space. *)
Fixpoint unspaced (s : string) : string :=
  match s with
  | EmptyString => EmptyString
  | String c s' => if Num.is_space c then unspaced s' else String c (unspaced s')
  end.

Lemma unspaced_append a b : unspaced (a +:+ b) = (unspaced a +:+ unspaced b)%string.
Proof. induction a as [|c a IH]; simpl; [done|]. destruct (Num.is_space c); by rewrite IH. Qed.

Lemma unspaced_blank p : isEmpty p = true -> unspaced p = "".
Proof. induction p as [|c p IH]; [done|]. simpl. intros [-> Hp]%andb_true_iff. by apply IH. Qed.

Lemma unspaced_kept level l : unspaced (text_of (kept level l)) = unspaced (text_of l).
Proof.
  revert level. induction l as [|p l IH]; intros level; [done|]. cbn [kept text_of foldr]. fold (text_of l).
  rewrite unspaced_append. destruct (_ && _) eqn:E.
  - apply andb_true_iff in E as [_ Hp]. by rewrite IH, (unspaced_blank p Hp).
  - cbn [text_of foldr]. fold (text_of (kept (level + braces p) l)). by rewrite unspaced_append, IH.
Qed.

Lemma kept_no_nul level l : no_nul (text_of l) = true -> no_nul (text_of (kept level l)) = true.
Proof.
  revert level. induction l as [|p l IH]; intros level; [done|]. cbn [kept text_of foldr]. fold (text_of l).
  rewrite no_nul_append. intros [Hp Hl]%andb_true_iff. destruct (_ && _); [by apply IH|].
  cbn [text_of foldr]. fold (text_of (kept (level + braces p) l)). by rewrite no_nul_append, Hp, IH.
Qed.

Lemma clean_spec text :
  no_nul text = true ->
  clean (clean text) = clean text /\ unspaced (clean text) = unspaced text /\ no_nul (clean text) = true.
Proof.
  intros Hn. destruct (pieces_spec (String.length text) text ltac:(lia)) as [Ht Hw].
  set (l := pieces _ text) in *. rewrite <- Ht in Hn.
  assert (clean text = text_of (kept 0 l)) as E.
  { rewrite <- Ht. unfold clean. by apply clean_pieces. }
  rewrite E. split; [|split].
  - unfold clean. rewrite clean_pieces; [by rewrite kept_twice|lia|by apply well_cut_kept|by apply kept_no_nul].
  - rewrite unspaced_kept. by rewrite Ht.
  - by apply kept_no_nul.
Qed.

(** CleanBetween loses nothing but white space and settles at once: run on a file of
    text, it replaces that file by its cleaned text, leaves every other file as it was but
    for the temporary one, which is gone; the cleaned text has the same characters apart
    from white space; and running it again changes nothing. *)
Theorem clean_between_spec (name text : string) (files : Files) :
  files !! name = Some text -> name <> tempFile -> no_nul text = true ->
  let cleaned := <[name := clean text]> (delete tempFile files) in
  main true [name] files = (0, cleaned) /\
  unspaced (clean text) = unspaced text /\
  main true [name] cleaned = (0, cleaned).
Proof.
  intros Hf Hne Hn cleaned. destruct (clean_spec text Hn) as (Hc & Hs & _).
  assert (forall fs t, fs !! name = Some t ->
    main true [name] fs = (0, <[name := clean t]> (delete tempFile fs))) as Hmain.
  { intros fs t Ht. unfold main. rewrite Ht. cbn [negb]. rewrite lookup_insert_ne, Ht by done.
    unfold rename. rewrite lookup_delete_ne, lookup_insert_eq by done. f_equal. apply map_eq. intros k.
    destruct (decide (k = name)) as [->|Hk]; [by rewrite !lookup_insert_eq|].
    rewrite !lookup_insert_ne by done. destruct (decide (k = tempFile)) as [->|Hk'];
      [by rewrite !lookup_delete_eq|]. by rewrite !lookup_delete_ne, !lookup_insert_ne by done. }
  split; [by apply Hmain|]. split; [done|].
  rewrite (Hmain cleaned (clean text)) by apply lookup_insert_eq. f_equal. rewrite Hc. unfold cleaned.
  rewrite delete_insert_ne by done. rewrite delete_delete_eq. apply insert_insert_eq.
Qed.

Definition blank_in_braces : Files := {["a.c" := ("{" +:+ eol +:+ eol +:+ "x" +:+ eol)%string; "b" := ""]}.

Lemma clean_between_spec_witness :
  main true ["a.c"] blank_in_braces
  = (0, {["a.c" := ("{" +:+ eol +:+ "x" +:+ eol)%string; "b" := ""]}).
Proof.
  refine (eq_trans (proj1 (clean_between_spec "a.c" ("{" +:+ eol +:+ eol +:+ "x" +:+ eol)%string
    blank_in_braces eq_refl _ eq_refl)) _); [discriminate|vm_compute; reflexivity].
Defined.

(** A file that is itself called tempfile.txt is lost. *)
Lemma temporary_file_lost (text : string) (files : Files) :
  files !! tempFile = Some text -> main true [tempFile] files = (0, delete tempFile files).
Proof.
  intros Hf. unfold main. rewrite Hf. cbn [negb]. unfold rename. rewrite lookup_delete_eq.
  by rewrite !delete_insert_eq.
Qed.
