(* ===== verification/TermBuffer.v ===== *)
(** The character buffer of termcontrol (src/utilities/termcontrol/src/buffer.cpp): a grid
    of characters, read and written with bounds checks. *)

From S2P Require Import Prelude.

Record Buffer := mkBuffer { rows : Z; cols : Z; data : list (list ascii) }.

Definition blank : ascii := " "%char.

(** vector::resize on the rows or on the characters of a row *)
Definition vector_resize {A} (n : Z) (x : A) (l : list A) : list A := list.resize (Z.to_nat n) x l.

Definition newBuffer (rows cols : Z) : Buffer :=
  mkBuffer rows cols (vector_resize rows (vector_resize cols blank []) []).

(** data[row][col] = c, for a cell of the grid *)
Definition set_cell (row col : Z) (c : ascii) (b : Buffer) : Buffer :=
  mkBuffer (rows b) (cols b) (alter (<[Z.to_nat col := c]>) (Z.to_nat row) (data b)).

(** The loop of write, from column [col] on. *)
Fixpoint write_chars (str : string) (row col : Z) (b : Buffer) : Buffer :=
  match str with
  | String c str => if col <? cols b then write_chars str row (col + 1) (set_cell row col c b) else b
  | EmptyString => b
  end.
Definition write (str : string) (row col : Z) (b : Buffer) : Buffer :=
  if (row <? 0) || (rows b <=? row) || (col <? 0) then b else write_chars str row col b.

Definition clear (b : Buffer) : Buffer :=
  mkBuffer (rows b) (cols b) (map (map (fun _ => blank)) (data b)).

Definition resize_buffer (new_rows new_cols : Z) (b : Buffer) : Buffer :=
  mkBuffer new_rows new_cols (vector_resize new_cols blank <$> vector_resize new_rows [] (data b)).

Definition inside (row col : Z) (b : Buffer) : bool :=
  (0 <=? row) && (row <? rows b) && (0 <=? col) && (col <? cols b).

(** data[row][col]; the default is never used on a cell of a well shaped grid. *)
Definition cell (row col : Z) (b : Buffer) : ascii :=
  default blank (data b !! Z.to_nat row ≫= fun r => r !! Z.to_nat col).

Definition at_ (row col : Z) (b : Buffer) : ascii :=
  if negb (inside row col b) then blank else cell row col b.

Definition getLine (row : Z) (b : Buffer) : string :=
  if (row <? 0) || (rows b <=? row) then ""
  else string_of_list_ascii (default [] (data b !! Z.to_nat row)).

(** ** The shape of the grid *)

Definition shaped (b : Buffer) : Prop :=
  0 <= rows b /\ 0 <= cols b /\ length (data b) = Z.to_nat (rows b) /\
  Forall (fun r => length r = Z.to_nat (cols b)) (data b).

Lemma newBuffer_shaped r c : 0 <= r -> 0 <= c -> shaped (newBuffer r c).
Proof.
  intros Hr Hc. unfold shaped, newBuffer, vector_resize. cbn [rows cols data].
  split_and!; [done..|by rewrite length_resize|].
  rewrite resize_nil. apply Forall_replicate. by rewrite length_resize.
Qed.

Lemma set_cell_shaped row col c b : shaped b -> shaped (set_cell row col c b).
Proof.
  intros (Hr & Hc & Hl & Hf). repeat split; simpl; [done..|by rewrite length_alter|].
  apply Forall_alter; [done|]. intros r Hr' Hlen. by rewrite length_insert.
Qed.

Lemma write_chars_shaped str row col b : shaped b -> shaped (write_chars str row col b).
Proof.
  revert col b. induction str as [|c str IH]; intros col b Hb; simpl; [done|].
  destruct (col <? cols b); [|done]. by apply IH, set_cell_shaped.
Qed.

Lemma write_shaped str row col b : shaped b -> shaped (write str row col b).
Proof. intros Hb. unfold write. destruct (_ || _); [done|]. by apply write_chars_shaped. Qed.

Lemma resize_shaped r c b : 0 <= r -> 0 <= c -> shaped (resize_buffer r c b).
Proof.
  intros Hr Hc. unfold shaped, resize_buffer, vector_resize. cbn [rows cols data].
  split_and!; [done..|by rewrite length_fmap, length_resize|].
  apply Forall_fmap, Forall_true. intros row. apply length_resize.
Qed.

Lemma clear_shaped b : shaped b -> shaped (clear b).
Proof.
  intros (Hr & Hc & Hl & Hf). repeat split; simpl; [done..|by rewrite length_map|].
  apply Forall_map. eapply Forall_impl; [exact Hf|]. intros row Hrow. simpl. by rewrite length_map.
Qed.

(** ** What a cell holds *)

Lemma inside_spec row col b :
  inside row col b = true <-> 0 <= row < rows b /\ 0 <= col < cols b.
Proof. unfold inside. rewrite !andb_true_iff, !Z.leb_le, !Z.ltb_lt. lia. Qed.

Lemma at_set_cell row col c b r k :
  shaped b -> inside row col b = true ->
  at_ r k (set_cell row col c b) = if decide (r = row /\ k = col) then c else at_ r k b.
Proof.
  intros (Hr & Hc & Hl & Hf) Hin%inside_spec. unfold at_.
  change (inside r k (set_cell row col c b)) with (inside r k b).
  destruct (inside r k b) eqn:E; simpl; [|rewrite decide_False; [done|]].
  2: { intros [-> ->]. apply not_true_iff_false in E. apply E. by apply inside_spec. }
  apply inside_spec in E. unfold cell. cbn [data set_cell].
  destruct (decide (r = row)) as [->|Hrr].
  - destruct (lookup_lt_is_Some_2 (data b) (Z.to_nat row)) as [l Hrow]; [lia|].
    rewrite list_lookup_alter_eq, Hrow. cbn [fmap option_fmap option_map mbind option_bind]. rewrite Forall_lookup in Hf. specialize (Hf _ _ Hrow).
    destruct (decide (k = col)) as [->|Hk].
    + rewrite decide_True by done. rewrite list_lookup_insert_eq by lia. done.
    + rewrite decide_False by tauto. rewrite list_lookup_insert_ne by lia. done.
  - rewrite decide_False by tauto. by rewrite list_lookup_alter_ne by lia.
Qed.

Lemma string_get_cons c s k : String.get (S k) (String c s) = String.get k s.
Proof. done. Qed.

Lemma at_write_chars str row col b r k :
  shaped b -> 0 <= row < rows b -> 0 <= col ->
  at_ r k (write_chars str row col b) =
  if decide (r = row /\ col <= k < Z.min (cols b) (col + Z.of_nat (String.length str)))
  then default blank (String.get (Z.to_nat (k - col)) str) else at_ r k b.
Proof.
  revert col b. induction str as [|c str IH]; intros col b Hb Hrow Hcol; cbn [write_chars].
  { rewrite decide_False; [done|]. simpl. lia. }
  destruct (Z.ltb_spec col (cols b)) as [Hlt|Hge]; [|rewrite decide_False; [done|lia]].
  rewrite IH by (try apply set_cell_shaped; done || simpl; lia). cbn [cols set_cell].
  rewrite at_set_cell by (try apply inside_spec; done || lia). cbn [String.length].
  destruct (decide (r = row /\ k = col)) as [[-> ->]|Hne].
  - rewrite decide_False by lia. rewrite decide_True by lia. by rewrite Z.sub_diag.
  - destruct (decide (r = row /\ col + 1 <= k < Z.min (cols b) (col + 1 + Z.of_nat (String.length str)))) as [[-> Hk]|Hk].
    + rewrite decide_True by lia.
      assert (Z.to_nat (k - col) = S (Z.to_nat (k - (col + 1)))) as -> by lia. done.
    + rewrite decide_False; [done|]. intros [-> ?]. apply Hk. split; [done|].
      assert (k <> col) by (intros ->; by apply Hne). lia.
Qed.

(** The buffer is a bounded grid: writing a text at a position puts its characters in
    the cells of that row from that column on, cut at the right edge, and changes no other
    cell; a position outside the grid writes nothing; a cell outside the grid reads as a
    blank; and resizing keeps every cell both sizes have and leaves the others blank. *)
Theorem buffer_is_a_grid (b : Buffer) (str : string) (row col r k new_rows new_cols : Z) :
  shaped b -> 0 <= new_rows -> 0 <= new_cols ->
  at_ r k (write str row col b) =
    (if decide (0 <= row < rows b /\ 0 <= col /\ r = row /\
                col <= k < Z.min (cols b) (col + Z.of_nat (String.length str)))
     then default blank (String.get (Z.to_nat (k - col)) str) else at_ r k b) /\
  shaped (write str row col b) /\
  at_ r k (resize_buffer new_rows new_cols b) =
    (if decide (r < new_rows /\ k < new_cols) then at_ r k b else blank) /\
  shaped (resize_buffer new_rows new_cols b).
Proof.
  intros Hb Hnr Hnc. split; [|split; [by apply write_shaped|split; [|by apply resize_shaped]]].
  - unfold write. destruct (_ || _) eqn:E.
    + rewrite decide_False; [done|]. rewrite !orb_true_iff, !Z.ltb_lt, Z.leb_le in E. lia.
    + rewrite !orb_false_iff, !Z.ltb_ge, Z.leb_gt in E. rewrite at_write_chars by (done || lia).
      apply decide_ext. lia.
  - destruct Hb as (Hr & Hc & Hl & Hf). unfold at_.
    destruct (inside r k (resize_buffer new_rows new_cols b)) eqn:E; simpl.
    + apply inside_spec in E. cbn [rows cols resize_buffer] in E. rewrite decide_True by lia.
      unfold cell. cbn [data resize_buffer]. unfold vector_resize. rewrite list_lookup_fmap.
      destruct (inside r k b) eqn:E2; simpl.
      * apply inside_spec in E2. rewrite lookup_resize by lia.
        destruct (lookup_lt_is_Some_2 (data b) (Z.to_nat r)) as [l Hrow]; [lia|]. rewrite Hrow.
        cbn [fmap option_fmap option_map mbind option_bind]. rewrite Forall_lookup in Hf.
        specialize (Hf _ _ Hrow). by rewrite lookup_resize by lia.
      * assert (~ inside r k b = true) as Hout by congruence. rewrite inside_spec in Hout.
        destruct (decide (r < rows b)) as [Hrr|Hrr].
        -- rewrite lookup_resize by lia.
           destruct (lookup_lt_is_Some_2 (data b) (Z.to_nat r)) as [l Hrow]; [lia|]. rewrite Hrow.
           cbn [fmap option_fmap option_map mbind option_bind]. rewrite Forall_lookup in Hf.
           specialize (Hf _ _ Hrow). by rewrite lookup_resize_new by lia.
        -- rewrite lookup_resize_new by lia. cbn [fmap option_fmap option_map mbind option_bind].
           rewrite resize_nil, lookup_replicate_2 by lia. done.
    + assert (~ inside r k (resize_buffer new_rows new_cols b) = true) as Hout by congruence.
      rewrite inside_spec in Hout. cbn [rows cols resize_buffer] in Hout.
      destruct (decide (r < new_rows /\ k < new_cols)) as [Hd|]; [|done].
      assert (inside r k b = false) as ->; [|done].
      apply not_true_iff_false. rewrite inside_spec. lia.
Qed.

Lemma buffer_is_a_grid_witness :
  at_ 1 2 (write "abc" 1 1 (newBuffer 3 3)) = "b"%char /\
  at_ 1 4 (resize_buffer 4 5 (newBuffer 3 3)) = blank.
Proof.
  destruct (buffer_is_a_grid (newBuffer 3 3) "abc" 1 1 1 2 4 5) as (-> & _);
    [by apply newBuffer_shaped|done..|].
  split; [vm_compute; reflexivity|].
  refine (eq_trans (proj1 (proj2 (proj2 (buffer_is_a_grid (newBuffer 3 3) "abc" 1 1 1 4 4 5 _ _ _)))) _);
    [by apply newBuffer_shaped|done..|vm_compute; reflexivity].
Defined.
