(* ===== verification/TermControl.v ===== *)
(** The termcontrol tool (src/utilities/termcontrol/src/terminal.cpp and main.cpp): what it
    writes to the terminal, the modes it sets, its internal buffer, and its commands.

    The state is the terminal's: what was written to it, what it will send on standard
    input, whether its attributes are the raw ones, and the fields of class Terminal.
    What the system calls answer is an argument.  Positions are ints: a sum or a loop
    counter that leaves their range makes the run undefined, which the model says with
    [IntOverflow]; nothing catches that. *)

From S2P Require Import Prelude Stdio TermBuffer.

Definition ESC : string := String "027"%char "".
Definition BEL : string := String "007"%char "".
Definition csi (s : string) : string := (ESC +:+ "[" +:+ s)%string.

(** tcgetattr() and tcsetattr() work; the size ioctl() gives. *)
Record TtyEnv := mkTty { tcgetattr : bool; tcsetattr : bool; winsize : option (Z * Z) }.

Record Term := mkTerm {
  out : string;
  input : string;
  device_raw : bool;
  is_raw_mode : bool;
  buffer : option Buffer
}.

(** The members of CharacterInfo *)
Record CharacterInfo := mkChar {
  ch : ascii; fg_color : Z; bg_color : Z;
  bold : bool; underline : bool; reverse : bool; blink : bool
}.

Record TerminalBufferInfo := mkInfo {
  info_rows : Z; info_cols : Z; buffer_rows : Z; buffer_cols : Z;
  cursor_row : Z; cursor_col : Z; raw_mode : bool
}.

Definition scrollback_lines : Z := 1000.

(** printf *)
Definition printf (s : string) : M Term unit :=
  modify (fun t => mkTerm (out t +:+ s) (input t) (device_raw t) (is_raw_mode t) (buffer t)).
Definition set_device (raw : bool) : M Term unit :=
  modify (fun t => mkTerm (out t) (input t) raw (is_raw_mode t) (buffer t)).
Definition set_flag (raw : bool) : M Term unit :=
  modify (fun t => mkTerm (out t) (input t) (device_raw t) raw (buffer t)).
Definition set_buffer (b : option Buffer) : M Term unit :=
  modify (fun t => mkTerm (out t) (input t) (device_raw t) (is_raw_mode t) b).
Definition set_input (s : string) : M Term unit :=
  modify (fun t => mkTerm (out t) s (device_raw t) (is_raw_mode t) (buffer t)).

(** The loop that reads a reply into a buffer of [n + 1] bytes, up to an R or the end of
    the input: the reply, and what is left. *)
Fixpoint take_reply (n : nat) (s : string) : string * string :=
  match n, s with
  | S n, String c s =>
      if decide (c = "R"%char) then ("", s)
      else let '(reply, rest) := take_reply n s in (String c reply, rest)
  | _, _ => ("", s)
  end.
Definition read_reply : M Term string :=
  let! t := gets (fun t => t) in
  let '(reply, rest) := take_reply 31 (input t) in
  let! _ := set_input rest in mret (c_string reply).

(** %d reads a long, up to its ends, and cuts it to an int. *)
Definition int_of_long (z : Z) : Z := to_int32 (Z.max (- 2 ^ 63) (Z.min (2 ^ 63 - 1) z)).

(** sscanf(buf, "\033[%d;%dR", &a, &b) == 2 *)
Definition scan_position (buf : string) : option (Z * Z) :=
  if Str.starts_with (csi "") buf then
    match Num.strtol (Str.drop 2 buf) with
    | Some (a, String c rest) =>
        if decide (c = ";"%char) then
          match Num.strtol rest with
          | Some (b, _) => Some (int_of_long a, int_of_long b)
          | None => None
          end
        else None
    | _ => None
    end
  else None.

(** a + b on ints *)
Definition int_add (a b : Z) : outcome Z := if is_int32 (a + b) then Ok (a + b) else Throw IntOverflow.
Definition sum (a b : Z) : M Term Z := lift (int_add a b).

(** The values of i in for (int i = a; i <= b; i++): the last i++ overflows when b is
    INT_MAX. *)
Definition interval (a b : Z) : list Z := (fun i => a + Z.of_nat i) <$> seq 0 (Z.to_nat (b - a + 1)).
Definition range (a b : Z) : outcome (list Z) :=
  if b <? a then Ok [] else if INT_MAX <=? b then Throw IntOverflow else Ok (interval a b).

Section Terminal.
Context (env : TtyEnv).

Definition getTerminalSize : Z * Z := default (24, 80) (winsize env).

Definition init : M Term bool :=
  if negb (tcgetattr env) then mret false
  else
    let '(rows, cols) := getTerminalSize in
    let! _ := set_buffer (Some (newBuffer (rows + scrollback_lines) cols)) in mret true.

Definition setRawMode (enable : bool) : M Term bool :=
  let! t := gets (fun t => t) in
  if Bool.eqb enable (is_raw_mode t) then mret true
  else if negb (tcsetattr env) then mret false
  else
    let! _ := set_device enable in
    let! _ := set_flag enable in mret true.

Definition clear_screen : M Term unit := let! _ := printf (csi "2J") in printf (csi "H").
Definition clearLine : M Term unit := let! _ := printf (csi "2K") in printf (String "013" "").
Definition move_sequence (row col : Z) : string :=
  csi (Num.to_string (row + 1) +:+ ";" +:+ Num.to_string (col + 1) +:+ "H").
Definition moveCursor (row col : Z) : M Term unit :=
  let! _ := sum row 1 in
  let! _ := sum col 1 in
  printf (move_sequence row col).
Definition saveCursor : M Term unit := printf (csi "s").
Definition restoreCursor : M Term unit := printf (csi "u").

(** The attributes are read first and set again at the end, the flag is not. *)
Definition getCursorPosition : M Term (Z * Z) :=
  let! t := gets (fun t => t) in
  let! _ := setRawMode true in
  let! _ := printf (csi "6n") in
  let! buf := read_reply in
  let! position :=
    match scan_position buf with
    | Some (r, c) => let! r := sum r (-1) in let! c := sum c (-1) in mret (r, c)
    | None => mret (-1, -1)
    end in
  let! _ := if tcsetattr env then set_device (device_raw t) else mret tt in
  mret position.

Definition setForegroundColor (color : Z) : M Term unit :=
  let! c := sum 30 color in printf (csi (Num.to_string c +:+ "m")).
Definition setBackgroundColor (color : Z) : M Term unit :=
  let! c := sum 40 color in printf (csi (Num.to_string c +:+ "m")).
Definition setBold (enable : bool) : M Term unit :=
  printf (csi (Num.to_string (if enable then 1 else 22) +:+ "m")).
Definition setUnderline (enable : bool) : M Term unit :=
  printf (csi (Num.to_string (if enable then 4 else 24) +:+ "m")).
Definition resetAttributes : M Term unit := printf (csi "0m").

Definition getBufferInfo : M Term TerminalBufferInfo :=
  let! _ := saveCursor in
  let! _ := setRawMode true in
  let '(rows, cols) := getTerminalSize in
  let! pos := getCursorPosition in
  let! _ := printf (csi "H") in
  let! _ := printf (csi "9999A" +:+ csi "6n") in
  let! buf := read_reply in
  let! brows :=
    match scan_position buf with Some (top_row, _) => sum 0 (Z.abs top_row) | None => mret rows end in
  let! _ := restoreCursor in
  let! t := gets (fun t => t) in
  mret (mkInfo rows cols brows cols pos.1 pos.2 (is_raw_mode t)).

Definition getCharacterInfo (row col : Z) : M Term CharacterInfo :=
  let! _ := saveCursor in
  let! _ := moveCursor row col in
  let! _ := printf (csi "6n") in
  let! buf := read_reply in
  let! _ := printf (csi "0m" +:+ csi "?25l") in
  let! _ := printf (ESC +:+ "]10;?" +:+ BEL) in
  let! _ := printf (ESC +:+ "]11;?" +:+ BEL) in
  let! _ := printf (csi "0m") in
  let! _ := restoreCursor in
  mret (mkChar (match buf with String c _ => c | EmptyString => "000" end) 0 0 false false false false).

Definition color_sequence (which : string) (color : Z) : string :=
  if 0 <=? color then csi (which +:+ Num.to_string color +:+ "m") else "".

(** What setCharacterInfo writes between moving the cursor and resetting the attributes. *)
Definition character_sequence (info : CharacterInfo) : string :=
  ((if bold info then csi "1m" else "") +:+ (if underline info then csi "4m" else "") +:+
   (if reverse info then csi "7m" else "") +:+ (if blink info then csi "5m" else "") +:+
   color_sequence "38;5;" (fg_color info) +:+ color_sequence "48;5;" (bg_color info) +:+
   String (ch info) "")%string.

(** The buffer after a character was shown on the visible row [row]: the visible rows are
    its last ones. *)
Definition buffer_row (b : Buffer) (row : Z) : Z := rows b - getTerminalSize.1 + row.
Definition show_in_buffer (row col : Z) (c : ascii) (b : Buffer) : Buffer :=
  let buf_row := buffer_row b row in
  if (0 <=? buf_row) && (buf_row <? rows b) && (0 <=? col) && (col <? cols b)
  then write (String c "") buf_row col b else b.

Definition setCharacterInfo (row col : Z) (info : CharacterInfo) : M Term unit :=
  let! _ := saveCursor in
  let! _ := moveCursor row col in
  let! _ := printf (character_sequence info) in
  let! t := gets (fun t => t) in
  let! _ := match buffer t with
            | Some b => sum (rows b - getTerminalSize.1) row
            | None => mret 0
            end in
  let! _ := set_buffer (show_in_buffer row col (ch info) <$> buffer t) in
  let! _ := resetAttributes in
  restoreCursor.

(** The cells of a range of positions, in reading order, [last] being the last column of a
    full row. *)
Definition columns (start_row start_col end_row end_col last row : Z) : outcome (list Z) :=
  range (if row =? start_row then start_col else 0) (if row =? end_row then end_col else last).
Fixpoint cells_of (columns : Z -> outcome (list Z)) (rows : list Z) : outcome (list (Z * Z)) :=
  match rows with
  | [] => Ok []
  | row :: rows =>
      cols ← columns row;
      rest ← cells_of columns rows;
      Ok (((fun col => (row, col)) <$> cols) ++ rest)
  end.
Definition cells (start_row start_col end_row end_col last : Z) : outcome (list (Z * Z)) :=
  rows ← range start_row end_row;
  cells_of (columns start_row start_col end_row end_col last) rows.

Fixpoint query_cells (l : list (Z * Z)) : M Term (list CharacterInfo) :=
  match l with
  | [] => mret []
  | (row, col) :: l =>
      let! c := getCharacterInfo row col in
      let! cs := query_cells l in mret (c :: cs)
  end.

Definition getCharacterRange (start_row start_col end_row end_col : Z) : M Term (list CharacterInfo) :=
  let! t := gets (fun t => t) in
  match buffer t with
  | Some b =>
      let! l := lift (cells start_row start_col end_row end_col (cols b - 1)) in
      mret ((fun p => mkChar (at_ p.1 p.2 b) (-1) (-1) false false false false) <$> l)
  | None => let! l := lift (cells start_row start_col end_row end_col 80) in query_cells l
  end.

Fixpoint set_cells (l : list (Z * Z)) (chars : list CharacterInfo) : M Term unit :=
  match l, chars with
  | (row, col) :: l, c :: chars => let! _ := setCharacterInfo row col c in set_cells l chars
  | _, _ => mret tt
  end.
Definition setCharacterRange (start_row start_col end_row end_col : Z) (chars : list CharacterInfo) :
    M Term unit :=
  let! l := lift (cells start_row start_col end_row end_col 80) in set_cells l chars.
End Terminal.

(** ** The commands *)

(** TermControl::splitString *)
Fixpoint split_tokens (delim : ascii) (token str : string) : list string :=
  match str with
  | EmptyString => if Str.empty token then [] else [token]
  | String c str =>
      if decide (c = delim) then
        if Str.empty token then split_tokens delim "" str else token :: split_tokens delim "" str
      else split_tokens delim (token +:+ String c "") str
  end.
Definition splitString (str : string) (delim : ascii) : list string := split_tokens delim "" str.

(** The keys of the map of commands with their descriptions and usages, in its order. *)
Definition commands : list (string * (string * string)) := [
  ("--buffer", ("Show terminal buffer information", "termcontrol --buffer"));
  ("--char", ("Get character information at position", "termcontrol --char ROW COL"));
  ("--char-range", ("Get character information for range",
     "termcontrol --char-range START_ROW START_COL END_ROW END_COL"));
  ("--complete", ("Internal: print completions for the given prefix (used by shell completion)",
     "termcontrol --complete PREFIX"));
  ("--cursor", ("Control cursor position", "termcontrol --cursor ROW COL | save | restore"));
  ("--generate-completion", ("Print shell completion script for termcontrol",
     "termcontrol --generate-completion [bash|zsh]"));
  ("--raw", ("Control raw mode", "termcontrol --raw on|off"));
  ("--reset", ("Reset terminal", "termcontrol --reset"));
  ("--set", ("Set character at position",
     "termcontrol --set ROW COL CHAR [--color FG BG] [--attr ATTRIBUTES]"));
  ("--set-range", ("Set text in range",
     "termcontrol --set-range ROW COL TEXT [--color FG BG] [--attr ATTRIBUTES]"))
].

Definition line (s : string) : string := (s +:+ eol)%string.

Definition showHelp : M Term unit :=
  printf (line "Usage: termcontrol [COMMAND] [OPTIONS]" +:+ eol +:+ line "Commands:" +:+
    String.concat "" ((fun c : string * (string * string) =>
      line ("  " +:+ c.1) +:+ line ("    " +:+ c.2.1) +:+ line ("    Usage: " +:+ c.2.2) +:+ eol)%string
      <$> commands)).

Definition number (s : string) : M Term Z := lift (Num.stoi s).

(** args[i], for an i below the number of arguments *)
Definition arg (args : list string) (i : nat) : string := default "" (args !! i).

(** The options after the third argument of --set and --set-range. *)
Definition set_attribute (attr : string) (info : CharacterInfo) : CharacterInfo :=
  let 'mkChar c fg bg b u r k := info in
  if decide (attr = "bold") then mkChar c fg bg true u r k
  else if decide (attr = "underline") then mkChar c fg bg b true r k
  else if decide (attr = "reverse") then mkChar c fg bg b u true k
  else if decide (attr = "blink") then mkChar c fg bg b u r true
  else info.
Definition set_colors (fg bg : Z) (info : CharacterInfo) : CharacterInfo :=
  mkChar (ch info) fg bg (bold info) (underline info) (reverse info) (blink info).
Definition with_char (c : ascii) (info : CharacterInfo) : CharacterInfo :=
  mkChar c (fg_color info) (bg_color info) (bold info) (underline info) (reverse info) (blink info).

Fixpoint parse_options (args : list string) (info : CharacterInfo) : outcome CharacterInfo :=
  match args with
  | [] => Ok info
  | opt :: rest =>
      match rest with
      | fg :: ((bg :: rest') as rest1) =>
          if decide (opt = "--color") then
            f ← Num.stoi fg;
            b ← Num.stoi bg;
            parse_options rest' (set_colors f b info)
          else if decide (opt = "--attr") then
            parse_options rest1 (foldl (fun i a => set_attribute a i) info (splitString fg ","))
          else parse_options rest info
      | [attrs] =>
          if decide (opt = "--attr") then
            Ok (foldl (fun i a => set_attribute a i) info (splitString attrs ","))
          else parse_options rest info
      | [] => Ok info
      end
  end.
Definition noColor : CharacterInfo := mkChar "000" (-1) (-1) false false false false.

Section Commands.
Context (env : TtyEnv) (what : exn -> string).

Definition fail (message : string) : M Term Z := let! _ := printf (line message) in mret 1.
Definition done_ : M Term Z := mret 0.

Definition yes_no (b : bool) : string := if b then "Yes" else "No".
Definition handleBuffer (args : list string) : M Term Z :=
  let! info := getBufferInfo env in
  let! _ := printf (line "Terminal Buffer Information:" +:+
    line ("  Visible Rows: " +:+ Num.to_string (info_rows info)) +:+
    line ("  Visible Columns: " +:+ Num.to_string (info_cols info)) +:+
    line ("  Buffer Rows (including scrollback): " +:+ Num.to_string (buffer_rows info)) +:+
    line ("  Buffer Columns: " +:+ Num.to_string (buffer_cols info)) +:+
    line ("  Cursor Position (visible): " +:+ Num.to_string (cursor_row info) +:+ "," +:+
          Num.to_string (cursor_col info)) +:+
    line ("  Raw Mode: " +:+ yes_no (raw_mode info))) in
  done_.

Definition quote : string := String "034"%char "".
Definition bash_completion : string :=
  (line "_termcontrol() {" +:+ line "  local cur prev words cword" +:+
   line "  _get_comp_words_by_ref -n : cur prev words cword || return" +:+
   line ("  COMPREPLY=( $(termcontrol --complete " +:+ quote +:+ "$cur" +:+ quote +:+ ") )") +:+
   line "}" +:+ line "complete -F _termcontrol termcontrol")%string.
Definition handleGenerateCompletion (args : list string) : M Term Z :=
  let shell := match args with s :: _ => s | [] => "bash" end in
  if decide (shell = "bash") then let! _ := printf bash_completion in done_
  else if decide (shell = "zsh") then
    let! _ := printf (line "# zsh completion not yet implemented") in done_
  else fail ("Unsupported shell: " +:+ shell).

Definition completions (prefix : string) : list string :=
  filter (fun o => (Str.empty prefix || Str.starts_with prefix o) = true) commands.*1.
Definition handleComplete (args : list string) : M Term Z :=
  let prefix := match args with p :: _ => p | [] => "" end in
  let! _ := printf (String.concat "" (line <$> completions prefix)) in done_.

Definition handleChar (args : list string) : M Term Z :=
  if Nat.ltb (length args) 2 then fail "Error: --char requires ROW and COL arguments"
  else
    let! row := number (arg args 0) in
    let! col := number (arg args 1) in
    let! info := getCharacterInfo row col in
    let! _ := printf (
      line ("Character Information at " +:+ Num.to_string row +:+ "," +:+ Num.to_string col +:+ ":") +:+
      line ("  Character: '" +:+ String (ch info) "'") +:+
      line ("  FG Color: " +:+ Num.to_string (fg_color info)) +:+
      line ("  BG Color: " +:+ Num.to_string (bg_color info)) +:+
      line ("  Attributes: " +:+ (if bold info then "bold " else "") +:+
            (if underline info then "underline " else "") +:+
            (if reverse info then "reverse " else "") +:+ (if blink info then "blink" else ""))) in
    done_.

(** The rows handleCharRange prints: each takes the columns up to 80, or up to the end
    column on the last one, from the characters left. *)
Fixpoint print_rows (rows : list Z) (r1 c1 r2 c2 : Z) (chars : list CharacterInfo) : outcome string :=
  match rows with
  | [] => Ok ""
  | row :: rows =>
      cols ← columns r1 c1 r2 c2 80 row;
      let n := length cols in
      rest ← print_rows rows r1 c1 r2 c2 (drop n chars);
      Ok (line ("  Row " +:+ Num.to_string row +:+ ": " +:+ string_of_list_ascii (ch <$> take n chars)) +:+
          rest)%string
  end.
Definition handleCharRange (args : list string) : M Term Z :=
  if Nat.ltb (length args) 4 then
    fail "Error: --char-range requires START_ROW START_COL END_ROW END_COL arguments"
  else
    let! r1 := number (arg args 0) in
    let! c1 := number (arg args 1) in
    let! r2 := number (arg args 2) in
    let! c2 := number (arg args 3) in
    let! chars := getCharacterRange r1 c1 r2 c2 in
    let! rows := lift (range r1 r2) in
    let! text := lift (print_rows rows r1 c1 r2 c2 chars) in
    let! _ := printf (line ("Characters in range (" +:+ Num.to_string r1 +:+ "," +:+ Num.to_string c1 +:+
      ") to (" +:+ Num.to_string r2 +:+ "," +:+ Num.to_string c2 +:+ "):") +:+
      text) in
    done_.

(** args[2][0]: the NUL of an empty argument *)
Definition first_char (s : string) : ascii := match s with String c _ => c | EmptyString => "000"%char end.

Definition handleSet (args : list string) : M Term Z :=
  if Nat.ltb (length args) 3 then fail "Error: --set requires ROW COL CHAR arguments"
  else
    let! row := number (arg args 0) in
    let! col := number (arg args 1) in
    let! info := lift (parse_options (drop 3 args) (with_char (first_char (arg args 2)) noColor)) in
    let! _ := setCharacterInfo env row col info in
    done_.

Definition handleSetRange (args : list string) : M Term Z :=
  if Nat.ltb (length args) 3 then fail "Error: --set-range requires ROW COL TEXT arguments"
  else
    let! row := number (arg args 0) in
    let! col := number (arg args 1) in
    let text := arg args 2 in
    let! info := lift (parse_options (drop 3 args) noColor) in
    let chars := (fun c => with_char c info) <$> list_ascii_of_string text in
    let! _ := setCharacterRange env row col row
                (to_int32 (col + Z.of_nat (String.length text) - 1)) chars in
    done_.

Definition handleCursor (args : list string) : M Term Z :=
  match args with
  | [] => fail "Error: --cursor requires position or save/restore argument"
  | a :: rest =>
      if decide (a = "save") then let! _ := saveCursor in done_
      else if decide (a = "restore") then let! _ := restoreCursor in done_
      else match rest with
           | b :: _ =>
               let! row := number a in
               let! col := number b in
               let! _ := moveCursor row col in done_
           | [] => fail "Error: Invalid cursor command"
           end
  end.

Definition handleRaw (args : list string) : M Term Z :=
  match args with
  | [] => fail "Error: --raw requires on/off argument"
  | a :: _ =>
      let! ok := setRawMode env (bool_decide (a = "on")) in
      mret (if (ok : bool) then 0 else 1)
  end.

Definition handleReset (args : list string) : M Term Z := let! _ := resetAttributes in done_.

Definition handler (command : string) : option (list string -> M Term Z) :=
  if decide (command = "--buffer") then Some handleBuffer
  else if decide (command = "--generate-completion") then Some handleGenerateCompletion
  else if decide (command = "--complete") then Some handleComplete
  else if decide (command = "--char") then Some handleChar
  else if decide (command = "--char-range") then Some handleCharRange
  else if decide (command = "--set") then Some handleSet
  else if decide (command = "--set-range") then Some handleSetRange
  else if decide (command = "--cursor") then Some handleCursor
  else if decide (command = "--raw") then Some handleRaw
  else if decide (command = "--reset") then Some handleReset
  else None.

Definition run (argv : list string) : M Term Z :=
  match argv with
  | [] => let! _ := showHelp in mret 1
  | command :: args =>
      if decide (command = "-h" \/ command = "--help") then let! _ := showHelp in mret 0
      else match handler command with
           | None =>
               let! _ := printf (line ("Unknown command: " +:+ command)) in
               let! _ := showHelp in mret 1
           | Some h => h args
           end
  end.

(** Terminal::~Terminal *)
Definition cleanup : M Term unit :=
  let! t := gets (fun t => t) in
  if is_raw_mode t && tcsetattr env then set_device false else mret tt.

(** catch (const std::exception &) *)
Definition caught {A} (handle : exn -> M Term A) (e : exn) : M Term A :=
  if decide (e = IntOverflow) then lift (Throw e) else handle e.

(** main: the terminal is left by the destructor, also when an exception passes it. *)
Definition main (argv : list string) : M Term Z :=
  try_catch
    (let! ok := init env in
     if negb ok then
       let! _ := printf (line "Error: Failed to initialize terminal") in mret 1
     else
       let! r := try_catch (let! r := run argv in mret (inl r)) (caught (fun e => mret (inr e))) in
       let! _ := cleanup in
       match r with
       | inl code => mret code
       | inr e => let! _ := printf (line ("Error: " +:+ what e)) in mret 1
       end)
    (caught (fun _ => mret 1)).
End Commands.

(** A process on a terminal that will send [input]. *)
Definition newTerm (input : string) : Term := mkTerm "" input false false None.
