(* ===== verification/TermControlFacts.v ===== *)
(** What termcontrol does: the text of --set-range is shown cell by cell and recorded in
    the buffer, reading a range back looks at other rows, and the terminal is left in the
    mode it was found in. *)

From S2P Require Import Prelude Stdio TermBuffer TermControl.

Create HintDb steady.

(** ** One character *)

(** What setCharacterInfo writes. *)
Definition shown (row col : Z) (info : CharacterInfo) : string :=
  (csi "s" +:+ move_sequence row col +:+ character_sequence info +:+ csi "0m" +:+ csi "u")%string.

Section Facts.
Context (env : TtyEnv).

Lemma sum_fits a b (t : Term) : is_int32 (a + b) = true -> sum a b t = (t, Ok (a + b)).
Proof using Type. intros H. unfold sum, int_add. by rewrite H. Qed.

(** The int that stands for a row in the buffer can be computed. *)
Definition row_fits (row : Z) (b : option Buffer) : Prop :=
  match b with Some b => is_int32 (buffer_row env b row) = true | None => True end.

Lemma set_character_eq row col info t :
  is_int32 (row + 1) = true -> is_int32 (col + 1) = true -> row_fits row (buffer t) ->
  setCharacterInfo env row col info t =
  (mkTerm (out t +:+ shown row col info) (input t) (device_raw t) (is_raw_mode t)
     (show_in_buffer env row col (ch info) <$> buffer t), Ok tt).
Proof using Type.
  intros Hr Hc Hb. unfold setCharacterInfo, moveCursor, shown. rewrite <- !Str.append_assoc.
  unfold saveCursor, printf, resetAttributes, restoreCursor.
  rewrite bindM_modify, bindM_assoc, (bindM_ok _ _ _ _ _ (sum_fits row 1 _ Hr)).
  rewrite bindM_assoc, (bindM_ok _ _ _ _ _ (sum_fits col 1 _ Hc)).
  rewrite !bindM_modify, bindM_gets. cbn [buffer].
  destruct (buffer t) as [b|]; [|reflexivity].
  rewrite (bindM_ok _ _ _ _ _ (sum_fits _ row _ Hb)). reflexivity.
Qed.

Lemma at_show_in_buffer row col c b r k :
  shaped b ->
  shaped (show_in_buffer env row col c b) /\
  at_ r k (show_in_buffer env row col c b) =
  if decide (r = buffer_row env b row /\ k = col /\ inside r k b = true) then c else at_ r k b.
Proof using Type.
  intros Hb. unfold show_in_buffer. set (br := buffer_row env b row).
  destruct ((0 <=? br) && (br <? rows b) && (0 <=? col) && (col <? cols b)) eqn:E.
  - split; [by apply write_shaped|]. rewrite !andb_true_iff, !Z.leb_le, !Z.ltb_lt in E.
    unfold write. destruct (_ || _) eqn:E2; [rewrite !orb_true_iff, !Z.ltb_lt, Z.leb_le in E2; lia|].
    rewrite at_write_chars by (done || lia). change (Z.of_nat (String.length (String c ""))) with 1.
    destruct (decide (r = br /\ k = col /\ inside r k b = true)) as [(-> & -> & Hin)|Hn].
    + apply inside_spec in Hin. rewrite decide_True by lia. by rewrite Z.sub_diag.
    + rewrite decide_False; [done|]. rewrite inside_spec in Hn. lia.
  - split; [done|]. rewrite decide_False; [done|]. intros (-> & -> & Hin%inside_spec).
    rewrite <- not_true_iff_false, !andb_true_iff, !Z.leb_le, !Z.ltb_lt in E. apply E. lia.
Qed.

Lemma show_in_buffer_size row col c b :
  rows (show_in_buffer env row col c b) = rows b /\ cols (show_in_buffer env row col c b) = cols b.
Proof using Type.
  unfold show_in_buffer, write. destruct (_ && _); [|done]. destruct (_ || _); [done|].
  cbn [write_chars]. by destruct (col <? cols b).
Qed.

(** ** A text *)

(** The cells the characters of a text go to. *)
Fixpoint shown_text (row col : Z) (info : CharacterInfo) (text : string) : string :=
  match text with
  | EmptyString => ""
  | String c text => (shown row col (with_char c info) +:+ shown_text row (col + 1) info text)%string
  end.

Fixpoint text_cells (row col : Z) (text : string) : list (Z * Z) :=
  match text with
  | EmptyString => []
  | String _ text => (row, col) :: text_cells row (col + 1) text
  end.

Lemma interval_cons a b : a <= b -> interval a b = a :: interval (a + 1) b.
Proof using Type.
  intros Hab. unfold interval.
  assert (Z.to_nat (b - a + 1) = S (Z.to_nat (b - (a + 1) + 1))) as -> by lia.
  cbn [seq]. rewrite fmap_cons, Z.add_0_r. f_equal. rewrite <- fmap_S_seq, <- list_fmap_compose.
  apply list_fmap_ext. intros i x _. simpl. lia.
Qed.

Lemma interval_empty a b : b < a -> interval a b = [].
Proof using Type.
  intros Hab. unfold interval. by assert (Z.to_nat (b - a + 1) = 0%nat) as -> by lia.
Qed.

Lemma range_ok a b : b < INT_MAX -> range a b = Ok (interval a b).
Proof using Type.
  intros Hb. unfold range. destruct (Z.ltb_spec b a); [by rewrite interval_empty|].
  by rewrite (proj2 (Z.leb_gt _ _)).
Qed.

(** The cells of one row. *)
Lemma cells_row row a b last : row < INT_MAX -> b < INT_MAX ->
  cells row a row b last = Ok ((fun col => (row, col)) <$> interval a b).
Proof using Type.
  intros Hr Hb. unfold cells. rewrite range_ok by done.
  rewrite interval_cons, interval_empty by lia. unfold columns. cbn [mbind outcome_bind cells_of].
  rewrite !Z.eqb_refl, range_ok by done. simpl. by rewrite app_nil_r.
Qed.

Lemma interval_text row col text :
  (fun c => (row, c)) <$> interval col (col + Z.of_nat (String.length text) - 1) = text_cells row col text.
Proof using Type.
  revert col. induction text as [|c text IH]; intros col.
  - rewrite interval_empty; [done|]. simpl. lia.
  - cbn [String.length text_cells]. rewrite interval_cons by lia. rewrite fmap_cons. f_equal.
    rewrite <- IH. do 2 f_equal. lia.
Qed.

Lemma set_text_eq row col info text t :
  is_int32 (row + 1) = true -> INT_MIN <= col + 1 -> col + Z.of_nat (String.length text) <= INT_MAX ->
  row_fits row (buffer t) ->
  exists t', set_cells env (text_cells row col text)
      ((fun c => with_char c info) <$> list_ascii_of_string text) t = (t', Ok tt) /\
    out t' = (out t +:+ shown_text row col info text)%string /\
    (forall b, buffer t = Some b -> shaped b ->
      exists b', buffer t' = Some b' /\ shaped b' /\ rows b' = rows b /\ cols b' = cols b /\
        forall r k, at_ r k b' =
          if decide (r = buffer_row env b row /\ inside r k b = true /\
                     col <= k < col + Z.of_nat (String.length text))
          then default blank (String.get (Z.to_nat (k - col)) text) else at_ r k b).
Proof using Type.
  intros Hrow. revert col t. induction text as [|c text IH]; intros col t Hlo Hhi Hfit.
  { exists t. split; [done|]. split; [by rewrite Str.append_nil_r|]. intros b Hb Hs. exists b.
    split_and!; try done. intros r k. rewrite decide_False; [done|]. simpl. lia. }
  cbn [text_cells list_ascii_of_string fmap list_fmap set_cells].
  cbn [String.length] in Hhi. unfold bindM, M_bind.
  rewrite set_character_eq by (done || unfold is_int32; lia). cbn [with_char ch].
  match goal with |- context [set_cells _ _ _ ?t1] => destruct (IH (col + 1) t1) as (t' & E & Ho & Hb') end;
    [lia..| |].
  { cbn [buffer]. destruct (buffer t) as [b|]; [|done]. cbn. unfold buffer_row in *.
    by rewrite (proj1 (show_in_buffer_size row col c b)). }
  exists t'. split; [exact E|]. split; [rewrite Ho; cbn [out shown_text]; by rewrite Str.append_assoc|].
  intros b Hb Hs. cbn [buffer] in Hb'. rewrite Hb in Hb'. cbn [fmap option_fmap option_map] in Hb'.
  destruct (Hb' _ eq_refl (proj1 (at_show_in_buffer row col c b 0 0 Hs))) as (b' & E' & Hs' & Hr & Hc & Hat).
  destruct (show_in_buffer_size row col c b) as [Hr1 Hc1].
  exists b'. split_and!; [done..|by rewrite Hr|by rewrite Hc|]. intros r k. rewrite Hat.
  destruct (at_show_in_buffer row col c b r k Hs) as [_ Hk]. rewrite Hk.
  assert (buffer_row env (show_in_buffer env row col c b) row = buffer_row env b row) as ->
    by (unfold buffer_row; by rewrite Hr1).
  assert (inside r k (show_in_buffer env row col c b) = inside r k b) as -> by (unfold inside; by rewrite Hr1, Hc1).
  cbn [String.length].
  destruct (decide (r = buffer_row env b row /\ inside r k b = true /\
    col + 1 <= k < col + 1 + Z.of_nat (String.length text))) as [(H1 & H2 & H3)|Hn].
  - rewrite decide_True by (split_and!; done || lia).
    assert (Z.to_nat (k - col) = S (Z.to_nat (k - (col + 1)))) as -> by lia. done.
  - destruct (decide (r = buffer_row env b row /\ k = col /\ inside r k b = true)) as [(H1 & H2 & H3)|Hn2].
    + rewrite decide_True by (split_and!; done || lia). subst k. by rewrite Z.sub_diag.
    + rewrite decide_False; [done|]. intros (H1 & H2 & H3).
      destruct (decide (k = col)); [by apply Hn2|]. apply Hn. split_and!; done || lia.
Qed.

Lemma handle_range_eq row col text t :
  is_int32 row = true -> is_int32 col = true ->
  handleSetRange env [Num.to_string row; Num.to_string col; text] t =
  (let! _ := setCharacterRange env row col row (to_int32 (col + Z.of_nat (String.length text) - 1))
               ((fun c => with_char c noColor) <$> list_ascii_of_string text) in mret 0) t.
Proof using Type.
  intros Hr Hc.
  change (handleSetRange env [Num.to_string row; Num.to_string col; text] t) with
    ((let! row := number (Num.to_string row) in
      let! col := number (Num.to_string col) in
      let! _ := setCharacterRange env row col row (to_int32 (col + Z.of_nat (String.length text) - 1))
                  ((fun c => with_char c noColor) <$> list_ascii_of_string text) in mret 0) t).
  unfold number. rewrite !Num.stoi_to_string by done. by autorewrite with handler.
Qed.

Lemma to_int32_fits z : is_int32 z = true -> to_int32 z = z.
Proof using Type.
  unfold is_int32, to_int32, INT_MIN, INT_MAX. intros H. rewrite Z.mod_small; lia.
Qed.

(** C40: "--set-range ROW COL TEXT" shows the text: for a row and a column of type int whose
    successors, the column after the text and the row of the buffer are ints too, it
    succeeds, writes for each character in order the sequence that saves the cursor, moves
    it to the next column of that row, shows the character and puts everything back, and
    records the text in the row of the buffer that stands for the visible row, from that
    column on and cut at the edges, leaving every other cell alone. *)
Theorem set_range_shows (row col : Z) (text : string) (t : Term) (b : Buffer) :
  is_int32 row = true -> row < INT_MAX -> is_int32 col = true ->
  INT_MIN < col + Z.of_nat (String.length text) <= INT_MAX ->
  is_int32 (rows b - (getTerminalSize env).1 + row) = true -> buffer t = Some b -> shaped b ->
  exists t' b',
    handleSetRange env [Num.to_string row; Num.to_string col; text] t = (t', Ok 0) /\
    out t' = (out t +:+ shown_text row col noColor text)%string /\
    buffer t' = Some b' /\ shaped b' /\
    forall r k, at_ r k b' =
      if decide (r = rows b - (getTerminalSize env).1 + row /\ inside r k b = true /\
                 col <= k < col + Z.of_nat (String.length text))
      then default blank (String.get (Z.to_nat (k - col)) text) else at_ r k b.
Proof using Type.
  intros Hr Hr1 Hc Hlen Hrow Hb Hs.
  assert (INT_MIN <= row <= INT_MAX /\ INT_MIN <= col <= INT_MAX) as [Hri Hci]
    by (unfold is_int32 in Hr, Hc; lia).
  destruct (set_text_eq row col noColor text t) as (t' & E & Ho & Hb').
  { unfold is_int32. lia. } { lia. } { lia. } { by rewrite Hb. }
  destruct (Hb' b Hb Hs) as (b' & H1 & H2 & _ & _ & H3). exists t', b'. split; [|done].
  rewrite handle_range_eq, to_int32_fits by (done || unfold is_int32; lia).
  unfold setCharacterRange. rewrite cells_row, interval_text by lia.
  rewrite bindM_assoc. unfold lift, bindM, M_bind. by rewrite E.
Qed.

(** A text whose last column is past the end of int shows nothing, and the command still
    succeeds: the end of the range wraps to a negative column. *)
Theorem set_range_wraps (row col : Z) (text : string) (t : Term) :
  is_int32 row = true -> row < INT_MAX -> is_int32 col = true ->
  INT_MAX < col + Z.of_nat (String.length text) - 1 -> Z.of_nat (String.length text) <= INT_MAX ->
  handleSetRange env [Num.to_string row; Num.to_string col; text] t = (t, Ok 0).
Proof using Type.
  intros Hr Hr1 Hc Hlen Hshort. rewrite handle_range_eq by done.
  assert (INT_MIN <= col <= INT_MAX) as Hci by (unfold is_int32 in Hc; lia).
  set (e := col + _ - 1) in *.
  assert (to_int32 e = e - 4294967296) as ->.
  { unfold to_int32, INT_MAX in *.
    replace (e + 2147483648) with (e - 2147483648 + 1 * 4294967296) by lia.
    rewrite Z.mod_add, Z.mod_small by lia. lia. }
  unfold setCharacterRange. rewrite cells_row by (unfold INT_MIN, INT_MAX in *; lia).
  rewrite interval_empty by (unfold INT_MIN, INT_MAX in *; lia). reflexivity.
Qed.

(** ** Reading back *)

(** A terminal of the given size, initialised. *)
Definition started (rows cols : Z) (t : Term) : Term :=
  mkTerm (out t) (input t) (device_raw t) (is_raw_mode t) (Some (newBuffer (rows + scrollback_lines) cols)).

Lemma started_eq rows cols t :
  tcgetattr env = true -> winsize env = Some (rows, cols) -> init env t = (started rows cols t, Ok true).
Proof using Type. intros Hg Hw. unfold init, getTerminalSize. by rewrite Hg, Hw. Qed.

Lemma at_new r k n m : at_ r k (newBuffer n m) = blank.
Proof using Type.
  unfold at_. destruct (inside r k (newBuffer n m)) eqn:E; [|done]. apply inside_spec in E. cbn in E.
  unfold cell, newBuffer, vector_resize. cbn [data negb]. rewrite resize_nil, lookup_replicate_2 by lia.
  cbn [mbind option_bind]. by rewrite resize_nil, lookup_replicate_2 by lia.
Qed.

Lemma one_cell r k b t :
  r < INT_MAX -> k < INT_MAX -> buffer t = Some b ->
  getCharacterRange r k r k t = (t, Ok [mkChar (at_ r k b) (-1) (-1) false false false false]).
Proof using Type.
  intros Hr Hk Hb. unfold getCharacterRange. rewrite bindM_gets, Hb, cells_row by done.
  rewrite interval_cons, interval_empty by lia. reflexivity.
Qed.

(** What was set is not what is read back: on an initialised terminal a character set
    at a visible position goes to the row of the buffer [scrollback_lines] below, while a
    range is read at the row itself, so the position reads as a blank whatever was put
    there, and the character is found 1000 rows further down, at a row that is not on the
    screen. *)
Theorem read_back_misses (n m row col : Z) (info : CharacterInfo) (t : Term) :
  tcgetattr env = true -> winsize env = Some (n, m) -> n < 65536 -> m < 65536 ->
  0 <= row < n -> 0 <= col < m ->
  let t1 := (setCharacterInfo env row col info (init env t).1).1 in
  (exists c, (getCharacterRange row col row col t1).2 = Ok [c] /\ ch c = blank) /\
  (exists c, (getCharacterRange (row + scrollback_lines) col (row + scrollback_lines) col t1).2 = Ok [c] /\
     ch c = ch info).
Proof using Type.
  intros Hg Hw Hn Hm Hrow Hcol t1. subst t1. rewrite (started_eq n m t Hg Hw). cbn [fst].
  rewrite set_character_eq;
    [|unfold is_int32, INT_MIN, INT_MAX; lia..|cbn; unfold buffer_row, getTerminalSize, is_int32, INT_MIN, INT_MAX,
        scrollback_lines; rewrite Hw; cbn; lia].
  cbn [fst started buffer fmap option_fmap option_map].
  set (nb := newBuffer (n + scrollback_lines) m).
  assert (shaped nb) as Hnb by (apply newBuffer_shaped; unfold scrollback_lines; lia).
  assert (buffer_row env nb row = row + scrollback_lines) as Hbr
    by (unfold buffer_row, getTerminalSize; rewrite Hw; cbn; lia).
  split; (eexists; split; [by erewrite one_cell by (done || unfold INT_MAX, scrollback_lines; lia)|]); cbn [ch];
    match goal with |- at_ ?r ?k _ = _ => destruct (at_show_in_buffer row col (ch info) nb r k Hnb) as [_ ->] end;
    rewrite Hbr.
  - rewrite decide_False by (unfold scrollback_lines; lia). apply at_new.
  - rewrite decide_True; [done|]. split_and!; [done..|]. apply inside_spec. cbn. unfold scrollback_lines. lia.
Qed.

(** ** The mode of the terminal *)

(** Raw attributes are on record, and could be set. *)
Definition on_record (t : Term) : Prop :=
  device_raw t = true -> is_raw_mode t && tcsetattr env = true.

Definition steady {A} (m : M Term A) : Prop :=
  forall t, on_record t -> (m t).2 <> Throw IntOverflow -> on_record (m t).1.

Lemma steady_ret {A} (a : A) : steady (mret a).
Proof using Type. intros t Ht _. exact Ht. Qed.
Lemma steady_done : steady done_.
Proof using Type. intros t Ht _. exact Ht. Qed.
Lemma steady_lift {A} (o : outcome A) : steady (lift o).
Proof using Type. intros t Ht _. exact Ht. Qed.
Lemma steady_gets {A} (f : Term -> A) : steady (gets f).
Proof using Type. intros t Ht _. exact Ht. Qed.
Lemma steady_printf s : steady (printf s).
Proof using Type. intros t Ht _. exact Ht. Qed.
Lemma steady_input s : steady (set_input s).
Proof using Type. intros t Ht _. exact Ht. Qed.
Lemma steady_buffer b : steady (set_buffer b).
Proof using Type. intros t Ht _. exact Ht. Qed.
Lemma steady_bind {A B} (m : M Term A) (f : A -> M Term B) :
  steady m -> (forall a, steady (f a)) -> steady (bindM m f).
Proof using Type.
  intros Hm Hf t Ht. unfold bindM, M_bind. specialize (Hm t Ht).
  destruct (m t) as [t' [a|e]]; cbn [fst snd] in *; [intros Hno; apply Hf; auto|].
  intros Hno. apply Hm. by intros [= ->].
Qed.

#[local] Hint Resolve steady_ret steady_done steady_lift steady_gets steady_printf steady_input steady_buffer : steady.

(** Decompose a program into the operations above. *)
#[local] Ltac steady :=
  repeat match goal with
  | |- steady (bindM _ _) => apply steady_bind; [|intros ?]
  | |- steady (match ?x with _ => _ end) => destruct x
  | |- steady (let '(_, _) := ?x in _) => destruct x
  | |- forall _, _ => intros ?
  | _ => progress cbv zeta
  end; auto with steady.

Lemma steady_reply : steady read_reply.
Proof using Type. unfold read_reply. steady. Qed.
#[local] Hint Resolve steady_reply : steady.

Lemma setRawMode_eq enable t :
  (setRawMode env enable t).1 =
  if Bool.eqb enable (is_raw_mode t) || negb (tcsetattr env) then t
  else mkTerm (out t) (input t) enable enable (buffer t).
Proof using Type.
  unfold setRawMode. rewrite bindM_gets. destruct (Bool.eqb enable (is_raw_mode t)); [done|].
  by destruct (tcsetattr env).
Qed.

Lemma steady_raw enable : steady (setRawMode env enable).
Proof using Type.
  intros t Ht _. rewrite setRawMode_eq. destruct (_ || _) eqn:E; [done|]. intros Hd. cbn in *. subst enable.
  by apply orb_false_iff in E as [_ ->%negb_false_iff].
Qed.

Lemma read_reply_eq t :
  read_reply t =
  (mkTerm (out t) (take_reply 31 (input t)).2 (device_raw t) (is_raw_mode t) (buffer t),
   Ok (c_string (take_reply 31 (input t)).1)).
Proof using Type. unfold read_reply. rewrite bindM_gets. by destruct (take_reply 31 (input t)). Qed.

(** The attributes are put back, the flag stays. *)
Lemma position_modes t :
  let t' := (getCursorPosition env t).1 in
  (getCursorPosition env t).2 <> Throw IntOverflow ->
  is_raw_mode t' = is_raw_mode t || tcsetattr env /\ device_raw t' = device_raw t.
Proof using Type.
  unfold getCursorPosition. rewrite bindM_gets. unfold bindM, M_bind.
  pose proof (setRawMode_eq true t) as H1.
  assert (exists ok, (setRawMode env true t).2 = Ok ok) as [ok H2].
  { unfold setRawMode. rewrite bindM_gets. destruct (Bool.eqb _ _); [by eexists|]. destruct (tcsetattr env); by eexists. }
  destruct (setRawMode env true t) as [t1 o]. cbn [fst snd] in *. subst o.
  cbn [printf modify]. rewrite read_reply_eq. cbn [out input device_raw is_raw_mode buffer].
  set (position := match scan_position _ with Some _ => _ | None => _ end).
  assert (forall t, position t = (t, (position t).2) /\
    ((position t).2 = Throw IntOverflow \/ exists p, (position t).2 = Ok p)) as Hpos.
  { intros t2. unfold position. destruct (scan_position _) as [[r c]|]; [|by eauto].
    unfold bindM, M_bind, sum, lift, int_add. destruct (is_int32 (r + -1)); [|by eauto].
    destruct (is_int32 (c + -1)); by eauto. }
  match goal with |- context [position ?t2] =>
    destruct (Hpos t2) as [E1 E2]; destruct (position t2) as [t3 o] end.
  cbn [snd] in *. injection E1 as ->. destruct E2 as [->|[p ->]]; [done|]. intros _.
  subst t1. destruct (is_raw_mode t) eqn:Ef, (tcsetattr env) eqn:Et; cbn; rewrite ?Ef; done.
Qed.

Lemma steady_position : steady (getCursorPosition env).
Proof using Type.
  intros t Ht Hno Hd. destruct (position_modes t Hno) as [-> H]. rewrite H in Hd. specialize (Ht Hd).
  apply andb_true_iff in Ht as [-> ->]. done.
Qed.
#[local] Hint Resolve steady_raw steady_position : steady.

Lemma steady_info : steady (getBufferInfo env).
Proof using Type. unfold getBufferInfo, saveCursor, restoreCursor, sum. steady. Qed.

Lemma steady_character row col : steady (getCharacterInfo row col).
Proof using Type. unfold getCharacterInfo, saveCursor, moveCursor, restoreCursor, sum. steady. Qed.
#[local] Hint Resolve steady_info steady_character : steady.

Lemma steady_query l : steady (query_cells l).
Proof using Type. induction l as [|[row col] l IH]; cbn [query_cells]; steady. Qed.

Lemma steady_set row col info : steady (setCharacterInfo env row col info).
Proof using Type.
  unfold setCharacterInfo, saveCursor, moveCursor, resetAttributes, restoreCursor, sum. steady.
Qed.
#[local] Hint Resolve steady_query steady_set : steady.

Lemma steady_set_cells l chars : steady (set_cells env l chars).
Proof using Type.
  revert chars. induction l as [|[row col] l IH]; intros [|c chars]; cbn [set_cells]; steady.
Qed.
#[local] Hint Resolve steady_set_cells : steady.

Lemma steady_handler command h args : handler env command = Some h -> steady (h args).
Proof using Type.
  unfold handler. repeat case_decide; intros [= <-].
  - unfold handleBuffer. steady.
  - unfold handleGenerateCompletion, fail. steady.
  - unfold handleComplete. steady.
  - unfold handleChar, fail, number. steady.
  - unfold handleCharRange, fail, number, getCharacterRange. steady.
  - unfold handleSet, fail, number. steady.
  - unfold handleSetRange, fail, number, setCharacterRange. steady.
  - unfold handleCursor, saveCursor, restoreCursor, fail, number, moveCursor, sum. steady.
  - unfold handleRaw, fail. steady.
  - unfold handleReset, resetAttributes. steady.
Qed.

Lemma steady_run argv : steady (run env argv).
Proof using Type.
  unfold run, showHelp. destruct argv as [|command args]; [steady|]. case_decide; [steady|].
  destruct (handler env command) as [h|] eqn:E; [by eapply steady_handler|steady].
Qed.

Lemma init_modes t :
  exists ok, (init env t).2 = Ok ok /\ device_raw (init env t).1 = device_raw t /\
    is_raw_mode (init env t).1 = is_raw_mode t.
Proof using Type.
  unfold init. destruct (tcgetattr env); [|by exists false]. destruct (getTerminalSize env). by exists true.
Qed.

Lemma cleanup_device t :
  on_record t -> device_raw (cleanup env t).1 = false /\ (cleanup env t).2 = Ok tt.
Proof using Type.
  unfold on_record, cleanup. rewrite bindM_gets. destruct (is_raw_mode t && tcsetattr env); [done|].
  intros Ht. split; [|done]. simpl. destruct (device_raw t); [by specialize (Ht eq_refl)|done].
Qed.

(** Termcontrol leaves the terminal in the mode it found it in: whatever the command
    and its arguments, whatever the terminal sends, whichever system calls fail, and also
    when an argument is no number and an exception ends the command, the attributes are
    not the raw ones at the end when they were not at the start, unless an int overflowed
    on the way; so "--raw on" has no effect that lasts. *)
Theorem terminal_left_as_found (what : exn -> string) (argv : list string) (t : Term) :
  device_raw t = false -> is_raw_mode t = false ->
  (main env what argv t).2 <> Throw IntOverflow -> device_raw (main env what argv t).1 = false.
Proof using Type.
  intros Hd Hf. destruct (main env what argv t) as [tf o] eqn:E. cbn [fst snd]. revert E.
  unfold main, try_catch. unfold bindM at 1, M_bind at 1.
  destruct (init_modes t) as (ok & Hok & Hdev & Hflag). destruct (init env t) as [t0 o0]. cbn [fst snd] in *.
  subst o0. destruct ok; cbn [negb]; [|intros [= <- _] _; exact (eq_trans Hdev Hd)].
  assert (on_record t0) as H0 by (intros ?; congruence).
  pose proof (steady_run argv t0 H0) as H1. unfold bindM, M_bind, caught.
  destruct (run env argv t0) as [t1 [code|e]]; cbn [fst snd] in H1; unfold mret, M_ret, lift.
  2: destruct (decide (e = IntOverflow)) as [->|He];
    [rewrite decide_True by done; intros [= _ <-]; done|].
  all: destruct (cleanup_device t1 (H1 ltac:(congruence))) as [H2 H3];
    destruct (cleanup env t1) as [t2 o2]; cbn [fst snd] in *; subst o2; intros [= <- _] _; exact H2.
Qed.
End Facts.

(** ** Concrete runs *)

Definition tty : TtyEnv := mkTty true true (Some (2, 4)).
Definition ready : Term := (init tty (newTerm "")).1.
Definition small : Buffer := newBuffer 1002 4.

Lemma set_range_shows_witness :
  exists t' b', handleSetRange tty [Num.to_string 1; Num.to_string 2; "abc"] ready = (t', Ok 0) /\
    buffer t' = Some b' /\ at_ 1001 2 b' = "a"%char /\ at_ 1001 3 b' = "b"%char /\ at_ 1001 1 b' = blank.
Proof.
  destruct (set_range_shows tty 1 2 "abc" ready small eq_refl eq_refl eq_refl
    ltac:(vm_compute; split; congruence) eq_refl eq_refl (newBuffer_shaped 1002 4 ltac:(lia) ltac:(lia))) as (t' & b' & H1 & _ & H2 & _ & H3).
  exists t', b'. split; [exact H1|]. split; [exact H2|].
  split; [|split]; rewrite H3; vm_compute; reflexivity.
Defined.

Lemma read_back_misses_witness :
  exists c, (getCharacterRange 1 2 1 2 (setCharacterInfo tty 1 2 (with_char "x" noColor) ready).1).2 = Ok [c] /\
    ch c = blank.
Proof.
  exact (proj1 (read_back_misses tty 2 4 1 2 (with_char "x" noColor) (newTerm "") eq_refl eq_refl
    ltac:(lia) ltac:(lia) ltac:(lia) ltac:(lia))).
Defined.

Lemma terminal_left_as_found_witness :
  device_raw (main tty (fun _ => "") ["--raw"; "on"] (newTerm "")).1 = false /\
  device_raw (run tty ["--raw"; "on"] (newTerm "")).1 = true.
Proof.
  split; [|reflexivity].
  exact (terminal_left_as_found tty (fun _ => "") ["--raw"; "on"] (newTerm "") eq_refl eq_refl
    ltac:(vm_compute; discriminate)).
Defined.

(** The rows of a range are printed as if every row had 81 columns, while the characters
    were read from rows of the buffer's width: on four columns the second row's text is
    printed on the first. *)
Example rows_run_together :
  out (handleCharRange ["0"; "0"; "1"; "1"]
    (mkTerm "" "" false false (Some (write "cd" 1 0 (write "ab" 0 0 (newBuffer 2 4)))))).1
  = (line "Characters in range (0,0) to (1,1):" +:+ line "  Row 0: ab  cd" +:+ line "  Row 1: ")%string.
Proof. vm_compute. reflexivity. Qed.

(** A query of the cursor leaves the flag of raw mode set while the attributes are the
    ones found, so that entering raw mode afterwards does nothing. *)
Example raw_mode_not_entered :
  let t := (getCursorPosition tty (newTerm (csi "3;5R"))).1 in
  (getCursorPosition tty (newTerm (csi "3;5R"))).2 = Ok (2, 4) /\
  is_raw_mode t = true /\ device_raw t = false /\ device_raw (setRawMode tty true t).1 = false.
Proof. vm_compute. repeat split. Qed.
