(* ===== verification/SendKeys.v ===== *)
(** The sendKeys tool (src/utilities/sendKeys/sendKeys.c): the events each of its command
    words writes to the keyboard device, and its command line.  What the device and the
    daemon answer is an argument; the time stamps are not modelled. *)

From S2P Require Import Prelude Stdio Keys.

Definition codeForAppCodes : Z := 100.
Definition codeForDefault : Z := 101.
Definition codeForCode : Z := 102.
Definition codeForGnomeTerminal : Z := 103.
Definition codeForGoogleChrome : Z := 104.
Definition DEFAULT_KEYBOARD : string := "/dev/input/by-id/corsairKeyBoardLogiMouse".

(** sendEvent: the event it writes; type and code are 16 bits wide. *)
Definition sendEvent (type code value : Z) : input_event := mkEv (to_uint16 type) (to_uint16 code) value.

Definition isApp (input : string) : Z :=
  if decide (input = "code") then codeForCode
  else if decide (input = "gnome-terminal-server") then codeForGnomeTerminal
  else if decide (input = "google-chrome") then codeForGoogleChrome
  else if decide (input = "DefaultKeyboard") then codeForDefault
  else 0.

Definition KEY_MAP : list (string * Z) := [
  ("keyA", KEY_A); ("keyB", KEY_B); ("keyC", KEY_C); ("keyD", KEY_D); ("keyE", KEY_E);
  ("keyF", KEY_F); ("keyG", KEY_G); ("keyH", KEY_H); ("keyI", KEY_I); ("keyJ", KEY_J);
  ("keyK", KEY_K); ("keyL", KEY_L); ("keyM", KEY_M); ("keyN", KEY_N); ("keyO", KEY_O);
  ("keyP", KEY_P); ("keyQ", KEY_Q); ("keyR", KEY_R); ("keyS", KEY_S); ("keyT", KEY_T);
  ("keyU", KEY_U); ("keyV", KEY_V); ("keyW", KEY_W); ("keyX", KEY_X); ("keyY", KEY_Y);
  ("keyZ", KEY_Z);
  ("period", KEY_DOT); ("slash", KEY_SLASH); ("minus", KEY_MINUS); ("space", KEY_SPACE);
  ("comma", KEY_COMMA); ("equals", KEY_EQUAL); ("backspace", KEY_BACKSPACE);
  ("semicolon", KEY_SEMICOLON); ("apostrophe", KEY_APOSTROPHE); ("backslash", KEY_BACKSLASH);
  ("bracket_left", KEY_LEFTBRACE); ("bracket_right", KEY_RIGHTBRACE); ("backtick", KEY_GRAVE);
  ("enter", KEY_ENTER); ("keyShift", KEY_LEFTSHIFT)
].

(** The first name the command starts with: its key and the rest of the command. *)
Fixpoint lookup_in (map : list (string * Z)) (cmd : string) : option (Z * string) :=
  match map with
  | [] => None
  | (name, code) :: map =>
      if Str.starts_with name cmd then Some (code, Str.drop (String.length name) cmd)
      else lookup_in map cmd
  end.
Definition lookup_key : string -> option (Z * string) := lookup_in KEY_MAP.

Definition syn : input_event := sendEvent EV_SYN SYN_REPORT 0.
Definition press (code : Z) : input_event := sendEvent EV_KEY code 1.
Definition release (code : Z) : input_event := sendEvent EV_KEY code 0.
Definition scan (code : Z) : input_event := sendEvent EV_MSC MSC_SCAN code.

Definition numlock (value : Z) : list input_event := [scan 69; sendEvent EV_KEY KEY_NUMLOCK value; syn].

(** The three announcements before the code of an application. *)
Definition announce (i : Z) : list input_event := [scan codeForAppCodes; scan (codeForAppCodes + 100 + i); syn].

(** handle_command, for an open device: the events it writes. *)
Definition handle_command (cmd : string) : list input_event :=
  match lookup_key cmd with
  | Some (key_code, suffix) =>
      if Str.empty suffix then [press key_code; release key_code; syn]
      else if decide (suffix = "Down") then [press key_code; syn]
      else if decide (suffix = "Up") then [release key_code; syn]
      else []
  | None =>
      if Str.starts_with "keycode:" cmd then
        let keycode := atoi (Str.drop 8 cmd) in
        if 0 <? keycode then [press keycode; release keycode; syn] else []
      else if decide (cmd = "numlock") then numlock 1 ++ numlock 0
      else if decide (cmd = "numlockDown") then numlock 1
      else if decide (cmd = "numlockUp") then numlock 0
      else if decide (cmd = "syn") then [syn]
      else
        let appCode := isApp cmd in
        if appCode =? 0 then []
        else announce 0 ++ announce 1 ++ announce 2 ++ [scan appCode; syn]
  end.

(** sendKeys_with_fd *)
Definition sendKeys_with_fd (commands : list string) : list input_event := commands ≫= handle_command.

(** The exit status, the device opened and the events written to it. *)
Definition sendKeys_execute_commands (openable : string -> bool) (keyboard_path : string)
    (commands : list string) : Z * list (string * input_event) :=
  if negb (openable keyboard_path) then (1, [])
  else (0, (fun e => (keyboard_path, e)) <$> sendKeys_with_fd commands).

(** getKeyboardPath: the answer of the daemon, if one was read, without its newline. *)
Definition getKeyboardPath (answer : option string) : string :=
  match answer with
  | None | Some "" => DEFAULT_KEYBOARD
  | Some buffer => c_string (if Str.ends_with_char lf buffer then Str.pop_back buffer else buffer)
  end.

(** The options of main: the keyboard and the commands, or the exit status when it ends
    at once. *)
Fixpoint options (args : list string) (keyboard_path : string) : Z + string * list string :=
  match args with
  | [] => inr (keyboard_path, [])
  | a :: rest =>
      if decide (a = "-h" \/ a = "--help") then inl 0
      else if decide (a = "-k" \/ a = "--keyboard") then
        match rest with
        | path :: rest => options rest path
        | [] => inl 1
        end
      else inr (keyboard_path, args)
  end.

Definition main (openable : string -> bool) (answer : option string) (argv : list string) :
    Z * list (string * input_event) :=
  match argv with
  | [] => (1, [])
  | _ =>
      match options argv (getKeyboardPath answer) with
      | inl status => (status, [])
      | inr (keyboard_path, commands) => sendKeys_execute_commands openable keyboard_path commands
      end
  end.

(** ** What the words do *)

(** The events of a name, alone, with Down and with Up. *)
Definition word_events (name : string) : list (list input_event) :=
  [handle_command name; handle_command (name +:+ "Down"); handle_command (name +:+ "Up")].
Definition expected_events (name : string) (code : Z) : list (list input_event) :=
  if decide (name = "keyShift") then [[]; []; []]
  else [[press code; release code; syn]; [press code; syn]; [release code; syn]].

(** The words of the table: each name, alone or followed by Down or Up, presses and
    releases its key, presses it or releases it, and ends its report; all but keyShift,
    which starts with the name keyS and is therefore taken for it with a suffix it does
    not know, so that neither it nor keyShiftDown nor keyShiftUp does anything. *)
Theorem key_words (name : string) (code : Z) :
  (name, code) ∈ KEY_MAP ->
  word_events name = expected_events name code.
Proof.
  intros Hin.
  assert (forallb (fun p => bool_decide (word_events p.1 = expected_events p.1 p.2)) KEY_MAP = true) as H
    by (vm_compute; reflexivity).
  rewrite forallb_forall in H. apply list_elem_of_In, H, bool_decide_eq_true in Hin. exact Hin.
Qed.

Lemma key_words_witness : handle_command ("enter" +:+ "Down") = [press 28; syn].
Proof.
  pose proof (key_words "enter" 28 ltac:(apply (bool_decide_eq_true_1 _); vm_compute; reflexivity)) as H.
  exact (f_equal (fun l => default [] (l !! 1%nat)) H).
Defined.

(** The keys held after an event. *)
Definition track (held : gset Z) (e : input_event) : gset Z :=
  if ev_type e =? EV_KEY then
    if ev_value e =? 0 then held ∖ {[ev_code e]} else held ∪ {[ev_code e]}
  else held.

Definition held_after (held : gset Z) (evs : list input_event) : gset Z := foldl track held evs.

(** A report is empty or ends with a SYN. *)
Definition reported (evs : list input_event) : Prop := evs = [] \/ last evs = Some syn.

Lemma lookup_in_name map cmd code suffix :
  lookup_in map cmd = Some (code, suffix) ->
  exists name, (name, code) ∈ map /\ cmd = (name +:+ suffix)%string.
Proof.
  induction map as [|[name c] map IH]; [done|]. simpl. destruct (Str.starts_with name cmd) eqn:E.
  - intros [= <- <-]. exists name. split; [by left|]. by apply Str.starts_with_drop.
  - intros (n & Hin & ->)%IH. exists n. split; [by right|done].
Qed.

Lemma has_suffix_append (a b : string) : a <> "" -> Str.has_suffix b (a +:+ b) = true.
Proof.
  intros Ha. unfold Str.has_suffix.
  assert (String.length (a +:+ b) = (String.length a + String.length b)%nat) as ->
    by (clear Ha; induction a as [|c a IH]; simpl; [done|by rewrite IH]).
  rewrite Nat.add_sub, Str.drop_append, bool_decide_eq_true_2, andb_true_r by done.
  apply Nat.ltb_lt. destruct a; [done|]. simpl. lia.
Qed.

Lemma track_press held code : track held (press code) = held ∪ {[to_uint16 code]}.
Proof. done. Qed.
Lemma track_release held code : track held (release code) = held ∖ {[to_uint16 code]}.
Proof. done. Qed.
Lemma track_syn held : track held syn = held.
Proof. done. Qed.
Lemma track_scan held code : track held (scan code) = held.
Proof. done. Qed.

#[local] Ltac held :=
  unfold held_after; cbn [foldl]; rewrite ?track_press, ?track_release, ?track_syn, ?track_scan; set_solver.

Lemma tap_held held code : held_after held [press code; release code; syn] ⊆ held.
Proof. held. Qed.

(** One command. *)
Lemma command_reported cmd : reported (handle_command cmd).
Proof.
  unfold handle_command, reported. destruct (lookup_key cmd) as [[k suffix]|].
  - repeat case_match; auto.
  - destruct (Str.starts_with "keycode:" cmd); [case_match; auto|].
    repeat (case_decide; [auto|]). destruct (isApp cmd =? 0); auto.
Qed.

Lemma command_releases cmd held :
  Str.has_suffix "Down" cmd = false -> held_after held (handle_command cmd) ⊆ held.
Proof.
  intros Hd. unfold handle_command. destruct (lookup_key cmd) as [[k suffix]|] eqn:E.
  - destruct (Str.empty suffix); [apply tap_held|].
    destruct (decide (suffix = "Down")) as [->|].
    { apply lookup_in_name in E as (name & Hin & ->). exfalso.
      rewrite has_suffix_append in Hd; [done|]. intros ->.
      assert (forallb (fun p : string * Z => negb (Str.empty p.1)) KEY_MAP = true) as H by done.
      rewrite forallb_forall in H. by apply list_elem_of_In, H in Hin. }
    destruct (decide (suffix = "Up")); [|done]. held.
  - destruct (Str.starts_with "keycode:" cmd); [case_match; [apply tap_held|done]|].
    destruct (decide (cmd = "numlock")); [|].
    { change (numlock 1 ++ numlock 0) with
        [scan 69; press KEY_NUMLOCK; syn; scan 69; release KEY_NUMLOCK; syn]. held. }
    destruct (decide (cmd = "numlockDown")) as [->|]; [done|].
    destruct (decide (cmd = "numlockUp")); [|].
    { change (numlock 0) with [scan 69; release KEY_NUMLOCK; syn]. held. }
    destruct (decide (cmd = "syn")); [done|]. by destruct (isApp cmd =? 0).
Qed.

(** No key is left held: whatever words are sent, as long as none ends with Down, every
    key they press is released by the time the next word is sent, and what each word
    writes is nothing or ends with the event that makes the kernel deliver it. *)
Theorem no_key_left_held (commands : list string) (held : gset Z) :
  Forall (fun c => Str.has_suffix "Down" c = false) commands ->
  held_after held (sendKeys_with_fd commands) ⊆ held /\
  forall c, c ∈ commands -> held_after ∅ (handle_command c) = ∅ /\ reported (handle_command c).
Proof.
  intros Hc. split.
  - revert held. induction Hc as [|c commands Hd _ IH]; intros held; [done|].
    unfold sendKeys_with_fd. cbn [mbind list_bind]. unfold held_after. rewrite foldl_app.
    etransitivity; [apply IH|]. by apply command_releases.
  - intros c Hin. rewrite Forall_forall in Hc. split; [|apply command_reported].
    pose proof (command_releases c ∅ (Hc c Hin)). set_solver.
Qed.

Lemma no_key_left_held_witness :
  held_after ∅ (sendKeys_with_fd ["keyA"; "code"; "enterUp"; "keycode:30"]) ⊆ ∅.
Proof.
  refine (proj1 (no_key_left_held ["keyA"; "code"; "enterUp"; "keycode:30"] ∅ _)).
  repeat constructor.
Defined.
