(* ===== verification/Utils.v ===== *)
(** The helpers of src/daemon/src/Utils.cpp and system.cpp: the log and its subscribers,
    the URL of the active tab, text helpers and reading the output of a command.  The
    output of popen(), the tabs Chrome lists and the open files are arguments. *)

From S2P Require Import Prelude Stdio Types.

(** ** Logging *)

(** The log: the mask, whether the file is open, its lines, the subscribers and what was
    sent to them. *)
Record Log := mkLog {
  shouldLog : Z;
  log_open : bool;
  log_lines : list string;
  g_logSubscribers : list Z;
  log_sent : list (Z * string)
}.

Definition logToFile (message : string) (category : Z) (l : Log) : Log :=
  let lines := if negb (Z.land (shouldLog l) category =? 0) && log_open l
               then log_lines l ++ [(message +:+ eol)%string] else log_lines l in
  let sent := if category =? LOG_INPUT
              then log_sent l ++ ((fun fd => (fd, (message +:+ eol)%string)) <$> g_logSubscribers l)
              else log_sent l in
  mkLog (shouldLog l) (log_open l) lines (g_logSubscribers l) sent.

(** forceLog: the lines of combined.log, when it can be opened. *)
Definition forceLog (message : string) (combined : option (list string)) : option (list string) :=
  (fun lines => lines ++ [(message +:+ eol)%string]) <$> combined.

(** ** The active tab *)

Record Tab := mkTab { tab_type : string; tab_url : string; tab_title : string }.

(** A tab that is a page, and not one of an extension or of the developer tools. *)
Definition is_page (t : Tab) : bool :=
  bool_decide (tab_type t = "page") && negb (Str.contains "chrome-extension://" (tab_url t)) &&
  negb (Str.contains "devtools://" (tab_url t)).

Definition title_matches (preferredTitle : string) (t : Tab) : bool :=
  negb (Str.empty preferredTitle) &&
  (Str.contains (tab_title t) preferredTitle || Str.contains preferredTitle (tab_title t)).

(** The loop over the tabs, with fallbackUrl and lastRealUrl. *)
Fixpoint choose_tab (preferredTitle : string) (tabs : list Tab) (fallbackUrl lastRealUrl : string) : string :=
  match tabs with
  | [] => if Str.empty lastRealUrl then fallbackUrl else lastRealUrl
  | t :: tabs =>
      if is_page t then
        let fallbackUrl := if Str.empty fallbackUrl then tab_url t else fallbackUrl in
        let lastRealUrl := if Str.contains "chrome://" (tab_url t) then lastRealUrl else tab_url t in
        if title_matches preferredTitle t then tab_url t
        else choose_tab preferredTitle tabs fallbackUrl lastRealUrl
      else choose_tab preferredTitle tabs fallbackUrl lastRealUrl
  end.

(** getChromeTabUrl, given the URL the extension reported, whether its host is connected,
    and the tabs in the answer of the debugging port, [None] when it does not parse. *)
Definition getChromeTabUrl (extensionUrl : string) (isNativeHostConnected : bool)
    (tabs : option (list Tab)) (preferredTitle : string) : string :=
  if isNativeHostConnected && negb (Str.empty extensionUrl) then extensionUrl
  else match tabs with
       | None => ""
       | Some tabs => choose_tab preferredTitle tabs "" ""
       end.

(** ** Text *)

(** s.find('\n') < end *)
Definition isMultiline (s : string) : bool :=
  if Str.empty s then false
  else
    let end_ := if Str.ends_with_char lf s then Nat.pred (String.length s) else String.length s in
    match String.index 0 eol s with Some i => Nat.ltb i end_ | None => false end.

Definition backslash : ascii := "092"%char.
Definition double_quote : ascii := "034"%char.

Fixpoint toJsonSingleLine (s : string) : string :=
  match s with
  | EmptyString => EmptyString
  | String c s =>
      if decide (c = lf) then String backslash (String "n" (toJsonSingleLine s))
      else if decide (c = double_quote) then String backslash (String double_quote (toJsonSingleLine s))
      else if decide (c = backslash) then String backslash (String backslash (toJsonSingleLine s))
      else String c (toJsonSingleLine s)
  end.

(** readScriptFile: the content of the file, if it opens. *)
Definition readScriptFile (file : option string) : string := default "" file.

(** The loop of substituteVariable, on what is at or after pos. *)
Fixpoint substitute_loop (fuel : nat) (searchStr value rest : string) : string :=
  match fuel with
  | O => rest
  | S fuel =>
      match String.index 0 searchStr rest with
      | None => rest
      | Some i =>
          (Str.take i rest +:+ value +:+
           substitute_loop fuel searchStr value (Str.drop (i + String.length searchStr) rest))%string
      end
  end.
Definition substituteVariable (content variable value : string) : string :=
  substitute_loop (String.length content) (String "$" variable) value content.

(** ** Commands *)

(** The output of a command, [None] when popen() fails. *)
Definition executeCommand (popen : string -> option string) (cmd : string) : string :=
  match popen cmd with
  | None => ""
  | Some output =>
      let result := read_pipe 255 output in
      if Str.ends_with_char lf result then Str.pop_back result else result
  end.

(** System::getTty *)
Definition getTty (popen : string -> option string) : string :=
  match popen "tty" with
  | None => ""
  | Some output =>
      let buffer := c_string (fgets 255 output).1 in
      if Str.ends_with_char lf buffer then Str.pop_back buffer else buffer
  end.

(** System::executeBashCommand *)
Definition executeBashCommand (popen : string -> option string) (cmd : string) : string :=
  let quote := String double_quote "" in
  match popen ("/bin/bash -c " +:+ quote +:+ cmd +:+ quote)%string with
  | None => ""
  | Some output => read_pipe 255 output
  end.

(** ** One line of JSON *)

(** What a JSON string stands for, for the escapes used here. *)
Fixpoint unescape (s : string) : string :=
  match s with
  | EmptyString => EmptyString
  | String c s1 =>
      if decide (c = backslash) then
        match s1 with
        | EmptyString => s
        | String d s2 => String (if decide (d = "n"%char) then lf else d) (unescape s2)
        end
      else String c (unescape s1)
  end.

(** No newline and no bare double quote: the text fits between quotes on one line. *)
Fixpoint quotable (s : string) : bool :=
  match s with
  | EmptyString => true
  | String c s' =>
      if decide (c = backslash) then
        match s' with
        | EmptyString => false
        | String d s' => bool_decide (d <> lf) && quotable s'
        end
      else bool_decide (c <> lf /\ c <> double_quote) && quotable s'
  end.

(** ToJsonSingleLine loses nothing: its result has no newline and no quote that is not
    escaped, and reading the escapes back gives the text. *)
Theorem single_line_roundtrip (s : string) :
  quotable (toJsonSingleLine s) = true /\ unescape (toJsonSingleLine s) = s.
Proof.
  induction s as [|c s [IH1 IH2]]; [done|]. cbn [toJsonSingleLine].
  destruct (decide (c = lf)) as [->|H1]; [simpl; by rewrite IH1, IH2|].
  destruct (decide (c = double_quote)) as [->|H2]; [simpl; by rewrite IH1, IH2|].
  destruct (decide (c = backslash)) as [->|H3]; [simpl; by rewrite IH1, IH2|].
  split.
  - cbn [quotable]. rewrite decide_False by done. by rewrite bool_decide_eq_true_2.
  - cbn [unescape]. rewrite decide_False by done. by rewrite IH2.
Qed.

(** ** Substitution *)

Lemma take_drop_string k s : (Str.take k s +:+ Str.drop k s)%string = s.
Proof. revert s. induction k as [|k IH]; intros [|c s]; simpl; [done..|]. by rewrite IH. Qed.

Lemma substring_take_drop i n s : String.substring i n s = Str.take n (Str.drop i s).
Proof.
  revert n s. induction i as [|i IH]; intros n s.
  - simpl Str.drop. revert n. induction s as [|c s IHs]; intros [|n]; simpl; [done..|]. by rewrite IHs.
  - destruct s as [|c s]; simpl; [by destruct n|]. apply IH.
Qed.

Lemma take_length_take n s : Str.take n s = s \/ String.length (Str.take n s) = n.
Proof.
  revert s. induction n as [|n IH]; intros [|c s]; simpl; [by right|by right|by left|].
  destruct (IH s) as [->|H]; [by left|right; by f_equal].
Qed.

(** Where the text was found, it is. *)
Lemma index_split p s i :
  String.index 0 p s = Some i ->
  s = (Str.take i s +:+ p +:+ Str.drop (i + String.length p) s)%string.
Proof.
  intros H%index_correct1. rewrite substring_take_drop in H.
  assert (forall a b t, Str.drop (a + b) t = Str.drop b (Str.drop a t)) as Hdd.
  { clear. induction a as [|a IH]; intros b t; [done|]. destruct t as [|c t]; simpl; [by destruct b|]. apply IH. }
  rewrite Hdd. transitivity (Str.take i s +:+ Str.drop i s)%string; [by rewrite take_drop_string|].
  f_equal. rewrite <- (take_drop_string (String.length p) (Str.drop i s)) at 1. by rewrite H.
Qed.

Lemma take_take i n s : (n <= i)%nat -> Str.take n (Str.take i s) = Str.take n s.
Proof.
  revert n s. induction i as [|i IH]; intros n s Hn; [destruct n; [by destruct s|lia]|].
  destruct n as [|n]; [by destruct s|]. destruct s as [|c s]; [done|]. simpl. f_equal. apply IH. lia.
Qed.
Lemma drop_take m i s : Str.drop m (Str.take i s) = Str.take (i - m) (Str.drop m s).
Proof.
  revert i s. induction m as [|m IH]; intros [|i] [|c s]; simpl; try done; try apply IH.
  by destruct (i - m)%nat.
Qed.
Lemma length_take_string n s : (String.length (Str.take n s) <= n)%nat.
Proof. revert s. induction n as [|n IH]; intros [|c s]; simpl; try lia. specialize (IH s). lia. Qed.

(** Nothing is found before the first place. *)
Lemma index_first p s i :
  p <> "" -> String.index 0 p s = Some i -> String.index 0 p (Str.take i s) = None.
Proof.
  intros Hp H. destruct (String.index 0 p (Str.take i s)) as [m|] eqn:E; [|done]. exfalso.
  apply index_correct1 in E. rewrite substring_take_drop, drop_take in E.
  assert (0 < String.length p <= i - m)%nat as Hlen.
  { split; [destruct p; simpl; [done|lia]|]. rewrite <- E at 1.
    pose proof (length_take_string (i - m) (Str.drop m s)) as H1.
    assert (forall n t, (String.length (Str.take n t) <= String.length t)%nat) as H2
      by (clear; induction n as [|n IH]; intros [|c t]; simpl; try lia; specialize (IH t); lia).
    specialize (H2 (String.length p) (Str.take (i - m) (Str.drop m s))). lia. }
  rewrite take_take in E by lia.
  apply (index_correct2 0 i p s H m); [lia|lia|]. rewrite substring_take_drop. exact E.
Qed.

Lemma substitute_loop_spec fuel p value rest :
  p <> "" -> (String.length rest <= fuel)%nat ->
  exists first parts, rest = String.concat p (first :: parts) /\
    substitute_loop fuel p value rest = String.concat value (first :: parts) /\
    Forall (fun q => String.index 0 p q = None) (first :: parts).
Proof.
  intros Hp. revert rest. induction fuel as [|fuel IH]; intros rest Hf.
  { destruct rest; [|simpl in Hf; lia]. exists "", []. split_and!; [done..|].
    apply Forall_singleton. by destruct p. }
  cbn [substitute_loop]. destruct (String.index 0 p rest) as [i|] eqn:E.
  - pose proof (index_split p rest i E) as Hs. pose proof (index_first p rest i Hp E) as Hfirst.
    set (tail := Str.drop (i + String.length p) rest) in *.
    assert (String.length tail <= fuel)%nat as Ht.
    { assert (forall a b, String.length (a +:+ b) = (String.length a + String.length b)%nat) as Happ
        by (clear; induction a as [|c a IH]; intros b; simpl; [done|by rewrite IH]).
      apply (f_equal String.length) in Hs. rewrite !Happ in Hs. destruct p; [done|]. simpl in Hs. lia. }
    destruct (IH tail Ht) as (first & parts & H1 & H2 & H3).
    exists (Str.take i rest), (first :: parts). split_and!.
    + rewrite Hs at 1. change (String.concat p (Str.take i rest :: first :: parts)) with
        (Str.take i rest +:+ p +:+ String.concat p (first :: parts))%string. by rewrite <- H1.
    + rewrite H2. done.
    + by constructor.
  - exists rest, []. split_and!; [done..|]. by apply Forall_singleton.
Qed.

(** SubstituteVariable replaces every occurrence of the variable and nothing else: the
    text is cut at the occurrences of $variable, found from left to right without
    overlap, into parts that hold no further one, and the result is the same parts with
    the value between them; the value itself is not searched again, so the loop ends. *)
Theorem substitute_replaces_all (content variable value : string) :
  exists parts, content = String.concat (String "$" variable) parts /\
    substituteVariable content variable value = String.concat value parts /\
    Forall (fun p => String.index 0 (String "$" variable) p = None) parts.
Proof.
  destruct (substitute_loop_spec (String.length content) (String "$" variable) value content)
    as (first & parts & H); [done|lia|]. by exists (first :: parts).
Qed.

(** ** The tab *)

(** The pages among the tabs, those that are not Chrome's own and those with a URL. *)
Definition pages (tabs : list Tab) : list Tab := filter (fun t => is_page t = true) tabs.
Definition real_pages (tabs : list Tab) : list Tab :=
  filter (fun t => Str.contains "chrome://" (tab_url t) = false) (pages tabs).
Definition with_url (tabs : list Tab) : list Tab :=
  filter (fun t => Str.empty (tab_url t) = false) (pages tabs).

Lemma pages_cons t tabs : pages (t :: tabs) = if is_page t then t :: pages tabs else pages tabs.
Proof. unfold pages. rewrite filter_cons. by destruct (is_page t). Qed.

Lemma real_pages_cons t tabs :
  real_pages (t :: tabs) =
  if is_page t && negb (Str.contains "chrome://" (tab_url t)) then t :: real_pages tabs else real_pages tabs.
Proof.
  unfold real_pages. rewrite pages_cons. destruct (is_page t); [|done]. rewrite filter_cons.
  by destruct (Str.contains "chrome://" (tab_url t)).
Qed.

Lemma with_url_cons t tabs :
  with_url (t :: tabs) =
  if is_page t && negb (Str.empty (tab_url t)) then t :: with_url tabs else with_url tabs.
Proof.
  unfold with_url. rewrite pages_cons. destruct (is_page t); [|done]. rewrite filter_cons.
  by destruct (Str.empty (tab_url t)).
Qed.

Lemma default_last {A} (f : A -> string) (d : string) (x : A) (l : list A) :
  default d (f <$> last (x :: l)) = default (f x) (f <$> last l).
Proof. rewrite last_cons. by destruct (last l). Qed.

Lemma choose_tab_spec preferredTitle tabs fallback real :
  choose_tab preferredTitle tabs fallback real =
  match list_find (fun t => title_matches preferredTitle t = true) (pages tabs) with
  | Some (_, t) => tab_url t
  | None =>
      let real_url := default real (tab_url <$> last (real_pages tabs)) in
      if Str.empty real_url then
        if Str.empty fallback then default "" (tab_url <$> head (with_url tabs)) else fallback
      else real_url
  end.
Proof.
  revert fallback real. induction tabs as [|t tabs IH]; intros fallback real.
  { simpl. destruct (Str.empty real); [|done]. by destruct fallback. }
  cbn [choose_tab]. rewrite pages_cons, real_pages_cons, with_url_cons.
  destruct (is_page t); [|apply IH]. cbn [list_find andb].
  destruct (decide (title_matches preferredTitle t = true)) as [->|Hm%not_true_iff_false]; [done|].
  cbv zeta. rewrite Hm, IH. destruct (list_find _ (pages tabs)) as [[i t']|]; [done|].
  cbn [fmap option_fmap option_map prod_map].
  assert (default (if Str.contains "chrome://" (tab_url t) then real else tab_url t)
            (tab_url <$> last (real_pages tabs))
          = default real (tab_url <$> last
              (if negb (Str.contains "chrome://" (tab_url t)) then t :: real_pages tabs else real_pages tabs))) as ->.
  { destruct (Str.contains "chrome://" (tab_url t)); [done|]. symmetry. apply default_last. }
  destruct (Str.empty _); [|done]. destruct (Str.empty fallback) eqn:Ef; [|by rewrite Ef].
  destruct (Str.empty (tab_url t)) eqn:Eu; cbn; by rewrite ?Eu.
Qed.

(** The tab of a window title: without the extension, the URL is that of the first
    page whose title contains the preferred one or is contained in it; without such a
    page it is that of the last page that is not one of Chrome's own, and, when there is
    none or it has no URL, of the first page with a URL. *)
Theorem tab_of_title (preferredTitle : string) (tabs : list Tab) :
  getChromeTabUrl "" false (Some tabs) preferredTitle =
  match list_find (fun t => title_matches preferredTitle t = true) (pages tabs) with
  | Some (_, t) => tab_url t
  | None =>
      let real_url := default "" (tab_url <$> last (real_pages tabs)) in
      if Str.empty real_url then default "" (tab_url <$> head (with_url tabs)) else real_url
  end.
Proof. exact (choose_tab_spec preferredTitle tabs "" ""). Qed.

(** A page without a title matches every title, a page that really has it notwithstanding. *)
Example untitled_tab_wins :
  getChromeTabUrl "" false
    (Some [mkTab "page" "https://blank.example/" ""; mkTab "page" "https://mail.example/" "Mail"]) "Mail - Chrome"
  = "https://blank.example/".
Proof. reflexivity. Qed.

(** A variable whose name starts with the name of another is taken for it. *)
Example variable_prefix : substituteVariable "$HOMEDIR" "HOME" "/root" = "/rootDIR".
Proof. reflexivity. Qed.
