(* ===== verification/MySQL.v ===== *)
(** The MySQL server the daemon runs for itself (src/daemon/src/MySQLManager.cpp): its
    configuration, how it is started, waited for and stopped, and the SQL that sets up the
    database.

    The state holds the class's static members, the files it looks at and the trace of
    what it does; what the system and the server answer is an argument. *)

From S2P Require Import Prelude Stdio.

Inductive Action :=
  | CreateDirectories (path : string)
  | CopyServer (from to : string)
  | WriteFile (path content : string)
  | RunCommand (cmd : string)
  | Exec (path config user : string)
  | Sigterm (pid : Z)
  | WaitPid (pid : Z)
  | RemoveFile (path : string)
  | SleepMs (ms : Z)
  | Connect (host user password : string)
  | SetSchema (database : string)
  | Sql (statement : string).

#[export] Instance Action_eq_dec : EqDecision Action.
Proof. solve_decision. Defined.

Record MySQL := mkMySQL {
  mysqlPid : Z;
  mysqlPort : Z;
  mysqlSocket : string;
  files : gmap string string;
  trace : list Action
}.

Definition mysqlUser : string := "automate_user".
Definition mysqlPassword : string := "automate_password".
Definition mysqlDatabase : string := "automate_db".

(** What the system answers: the port it assigns ([None] when a call of findFreePort
    fails), USER and geteuid(), the result of fork(), the processes that exist, whether the
    socket appears by the n-th look, whether the server binary can be copied (copy_file
    throws where it cannot), and which calls of the database connector succeed. *)
Record MySQLEnv := mkMySQLEnv {
  base : string;
  assigned_port : option Z;
  env_user : option string;
  euid : Z;
  fork : option Z;
  alive : Z -> bool;
  socket_appears : nat -> bool;
  copies : bool;
  succeeds : Action -> bool
}.

Definition act (a : Action) (s : MySQL) : MySQL :=
  mkMySQL (mysqlPid s) (mysqlPort s) (mysqlSocket s) (files s) (trace s ++ [a]).
Definition exists_ (path : string) (s : MySQL) : bool :=
  match files s !! path with Some _ => true | None => false end.
Definition write_file (path content : string) (s : MySQL) : MySQL :=
  act (WriteFile path content)
    (mkMySQL (mysqlPid s) (mysqlPort s) (mysqlSocket s) (<[path := content]> (files s)) (trace s)).
Definition remove_file (path : string) (s : MySQL) : MySQL :=
  act (RemoveFile path)
    (mkMySQL (mysqlPid s) (mysqlPort s) (mysqlSocket s) (delete path (files s)) (trace s)).
Definition set_pid (pid : Z) (s : MySQL) : MySQL :=
  mkMySQL pid (mysqlPort s) (mysqlSocket s) (files s) (trace s).
Definition set_endpoint (port : Z) (socket : string) (s : MySQL) : MySQL :=
  mkMySQL (mysqlPid s) port socket (files s) (trace s).

(** ** The configuration *)

Definition config_text (port : Z) (dataDir socketPath : string) : string :=
  String.concat "" ((fun l => (l +:+ eol)%string) <$>
    ["[mysqld]";
     "datadir=" +:+ dataDir +:+ "/data";
     "socket=" +:+ socketPath;
     "port=" +:+ Num.to_string port;
     "log-error=" +:+ dataDir +:+ "/logs/error.log";
     "pid-file=" +:+ dataDir +:+ "/mysqld.pid";
     "lc-messages-dir=/usr/share/mysql";
     "skip-networking=0";
     "bind-address=127.0.0.1"])%string.

(** ** SQL *)

Definition create_table (name columns : string) : string :=
  ("CREATE TABLE IF NOT EXISTS " +:+ name +:+ " (" +:+ columns +:+ ")")%string.

(** What is run on the server, then in the database up to the migration, then after it. *)
Definition server_statements : list Action :=
  Sql <$> ["CREATE DATABASE IF NOT EXISTS " +:+ mysqlDatabase;
   "CREATE USER IF NOT EXISTS '" +:+ mysqlUser +:+ "'@'localhost' IDENTIFIED BY '" +:+ mysqlPassword +:+ "'";
   "GRANT ALL PRIVILEGES ON " +:+ mysqlDatabase +:+ ".* TO '" +:+ mysqlUser +:+ "'@'localhost'";
   "FLUSH PRIVILEGES"]%string.
Definition table_statements : list Action :=
  Sql <$> [create_table "terminal_history" "entry_index INT PRIMARY KEY, path TEXT NOT NULL";
   create_table "terminal_sessions" "tty INT PRIMARY KEY, history_index INT NOT NULL";
   create_table "automation_configs" "config_key VARCHAR(255) PRIMARY KEY, config_value JSON NOT NULL";
   create_table "device_registry" "device_type VARCHAR(50) PRIMARY KEY, path TEXT NOT NULL";
   create_table "system_settings" "setting_key VARCHAR(255) PRIMARY KEY, setting_value TEXT NOT NULL";
   create_table "peer_registry"
     ("peer_id VARCHAR(64) PRIMARY KEY, ip_address VARCHAR(15) NOT NULL, mac_address VARCHAR(17), " +:+
      "hostname VARCHAR(255), last_seen TIMESTAMP DEFAULT CURRENT_TIMESTAMP, " +:+
      "is_online BOOLEAN DEFAULT FALSE, daemon_version INT DEFAULT 0")]%string.
Definition migration : string := "ALTER TABLE peer_registry ADD COLUMN daemon_version INT DEFAULT 0".
Definition later_statements : list Action :=
  Sql <$> [create_table "app_assignments"
     ("app_name VARCHAR(64) PRIMARY KEY, assigned_peer VARCHAR(64), " +:+
      "assigned_at TIMESTAMP DEFAULT CURRENT_TIMESTAMP, last_activity TIMESTAMP DEFAULT CURRENT_TIMESTAMP");
   create_table "extra_apps"
     ("app_id VARCHAR(64) PRIMARY KEY, display_name VARCHAR(128) NOT NULL, repo_url TEXT NOT NULL, " +:+
      "has_server_component BOOLEAN DEFAULT FALSE, server_service_template VARCHAR(128), " +:+
      "client_service_template VARCHAR(128), port_key_client VARCHAR(64), port_key_server VARCHAR(64), " +:+
      "dev_path TEXT NOT NULL, prod_path TEXT NOT NULL, server_build_subdir VARCHAR(128), " +:+
      "client_subdir VARCHAR(128), installed_at TIMESTAMP DEFAULT CURRENT_TIMESTAMP")]%string.

Section MySQL.
Context (env : MySQLEnv).

Definition findFreePort : Z := default 3307 (assigned_port env).

Definition server_user : string :=
  if euid env =? 0 then "root" else default "root" (env_user env).

Definition initializeMySQLDataDir (mysqldPath dataDir configFile : string) (s : MySQL) : MySQL :=
  let initCmd := (mysqldPath +:+ " --defaults-file=" +:+ configFile +:+ " --initialize-insecure --user=" +:+
                  server_user)%string in
  act (RunCommand (initCmd +:+ " 2>&1"))
    (act (CreateDirectories (dataDir +:+ "/logs")) (act (CreateDirectories (dataDir +:+ "/data")) s)).

Definition startMySQLServer (mysqldPath configFile : string) (s : MySQL) : MySQL :=
  match fork env with
  | Some pid => set_pid pid (act (Exec mysqldPath ("--defaults-file=" +:+ configFile) server_user) s)
  | None => s
  end.

(** A try block: the calls run until one throws; was the end reached? *)
Fixpoint run_calls (l : list Action) (s : MySQL) : MySQL * bool :=
  match l with
  | [] => (s, true)
  | a :: l => if succeeds env a then run_calls l (act a s) else (act a s, false)
  end.

(** The inner try block holds the migration alone. *)
Definition createDatabaseAndUser (port : Z) (s : MySQL) : MySQL :=
  let host := ("tcp://127.0.0.1:" +:+ Num.to_string port)%string in
  let '(s, ok) := run_calls (Connect host "root" "" :: server_statements ++
                             SetSchema mysqlDatabase :: table_statements) s in
  if negb ok then s else (run_calls later_statements (run_calls [Sql migration] s).1).1.

Definition getConnection (s : MySQL) : MySQL * bool :=
  let host := ("tcp://127.0.0.1:" +:+ Num.to_string (mysqlPort s))%string in
  run_calls [Connect host mysqlUser mysqlPassword; SetSchema mysqlDatabase] s.
Definition on_connection (statement : string) (s : MySQL) : MySQL :=
  let '(s, ok) := getConnection s in if ok then (run_calls [Sql statement] s).1 else s.
Definition dropTable (tableName : string) : MySQL -> MySQL :=
  on_connection ("DROP TABLE IF EXISTS " +:+ tableName).
Definition emptyTable (tableName : string) : MySQL -> MySQL := on_connection ("DELETE FROM " +:+ tableName).

(** ** Starting and stopping *)

(** ifs >> oldPid *)
Definition read_pid (content : string) : option Z :=
  match Num.strtol content with Some (z, _) => if is_int32 z then Some z else None | None => None end.

(** The process of a PID file that still runs is asked to end; the file is removed. *)
Definition end_orphan (pidFile : string) (s : MySQL) : MySQL :=
  match files s !! pidFile with
  | None => s
  | Some content =>
      remove_file pidFile
        match read_pid content with
        | Some oldPid => if alive env oldPid then act (WaitPid oldPid) (act (Sigterm oldPid) s) else s
        | None => s
        end
  end.

(** isServerRunning, at the n-th look: the socket file is there, from before or by now. *)
Definition isServerRunning (n : nat) (s : MySQL) : bool := exists_ (mysqlSocket s) s || socket_appears env n.

(** while (!isServerRunning(mysqlSocket) && attempts < 50), from the n-th look on *)
Fixpoint wait_loop (turns : nat) (n : nat) (s : MySQL) : MySQL * nat :=
  if isServerRunning n s then (s, n)
  else match turns with
       | O => (s, n)
       | S turns => wait_loop turns (S n) (act (SleepMs 100) s)
       end.

Definition baseDir : string := (base env +:+ "data/mysql")%string.
Definition pidFile : string := (baseDir +:+ "/mysqld.pid")%string.

Definition binDir : string := (baseDir +:+ "/bin")%string.
Definition confDir : string := (baseDir +:+ "/conf")%string.
Definition targetMysqld : string := (binDir +:+ "/mysqld")%string.
Definition configFile : string := (confDir +:+ "/my.cnf")%string.
Definition socketFile : string := (baseDir +:+ "/mysql.sock")%string.

(** Directories and the copy of the server; [false] where copy_file throws. *)
Definition place_server (s : MySQL) : MySQL * bool :=
  let s := act (CreateDirectories confDir) (act (CreateDirectories binDir) s) in
  if exists_ targetMysqld s then (s, true)
  else (act (CopyServer "/usr/sbin/mysqld" targetMysqld) s, copies env).

(** Port, configuration and data directory. *)
Definition configure (s : MySQL) : MySQL :=
  let s := set_endpoint findFreePort socketFile s in
  let s := write_file configFile (config_text (mysqlPort s) baseDir (mysqlSocket s)) s in
  if exists_ (baseDir +:+ "/data/mysql") s then s
  else initializeMySQLDataDir targetMysqld baseDir configFile s.

(** The wait, then the last look that decides. *)
Definition await_server (s : MySQL) : MySQL :=
  let '(s, n) := wait_loop 50 0 s in
  if isServerRunning (S n) s then createDatabaseAndUser (mysqlPort s) s else s.

(** [false]: an exception left the function. *)
Definition initializeAndStartMySQL (s : MySQL) : MySQL * bool :=
  let '(s, ok) := place_server s in
  if negb ok then (s, false)
  else (await_server (startMySQLServer targetMysqld configFile (end_orphan pidFile (configure s))), true).

Definition stopMySQL (s : MySQL) : MySQL :=
  let s := if 0 <? mysqlPid s
           then set_pid (-1) (act (WaitPid (mysqlPid s)) (act (Sigterm (mysqlPid s)) s)) else s in
  end_orphan pidFile s.

(** ** Facts *)

Lemma act_trace a s : trace (act a s) = trace s ++ [a].
Proof. done. Qed.

Lemma write_trace path content s : trace (write_file path content s) = trace s ++ [WriteFile path content].
Proof. done. Qed.

Lemma acts_trace l s : trace (foldl (flip act) s l) = trace s ++ l.
Proof.
  revert s; induction l as [|a l IH]; intros s; [by rewrite app_nil_r|].
  cbn [foldl flip]. by rewrite IH, act_trace, <- app_assoc.
Qed.

(** A try block runs a prefix of its calls: all of them, or up to the first that throws. *)
Lemma run_calls_prefix l s s' ok :
  run_calls l s = (s', ok) ->
  exists done rest, l = done ++ rest /\ s' = foldl (flip act) s done /\
    (ok = true -> rest = [] /\ forallb (succeeds env) l = true) /\
    (ok = false -> exists before a, done = before ++ [a] /\ forallb (succeeds env) before = true /\
                                    succeeds env a = false).
Proof.
  revert s; induction l as [|a l IH]; cbn; intros s H.
  - simplify_eq. exists [], []. by repeat split.
  - destruct (succeeds env a) eqn:Ea; cbn in *.
    + apply IH in H as (d & rest & -> & -> & Ht & Hf). exists (a :: d), rest.
      repeat split; [by apply Ht..|]. intros [before [x (-> & Hb & Hx)]]%Hf.
      exists (a :: before), x. cbn. by rewrite Ea, Hb.
    + simplify_eq. exists [a], l. repeat split; [done..|]. intros _. by exists [], a.
Qed.

Lemma run_calls_all l s :
  forallb (succeeds env) l = true -> run_calls l s = (foldl (flip act) s l, true).
Proof.
  revert s; induction l as [|a l IH]; cbn; intros s H; [done|].
  apply andb_prop in H as [-> H]. by rewrite IH.
Qed.

Lemma run_one a s : (run_calls [a] s).1 = act a s.
Proof. cbn. by destruct (succeeds env a). Qed.

(** The state's other parts are left alone by a list of actions. *)
Lemma acts_same l s :
  mysqlPid (foldl (flip act) s l) = mysqlPid s /\ mysqlPort (foldl (flip act) s l) = mysqlPort s /\
  mysqlSocket (foldl (flip act) s l) = mysqlSocket s /\ files (foldl (flip act) s l) = files s.
Proof.
  revert s; induction l as [|a l IH]; intros s; [done|].
  exact (IH (act a s)).
Qed.

(** ** Setting up the database *)

Definition setup_before (port : Z) : list Action :=
  Connect ("tcp://127.0.0.1:" +:+ Num.to_string port) "root" "" :: server_statements ++
  SetSchema mysqlDatabase :: table_statements.

(** The set-up, as a list of calls: the calls before the migration up to the first failure,
    and the rest only when none of them failed. *)
Lemma createDatabaseAndUser_spec port s :
  exists calls, createDatabaseAndUser port s = foldl (flip act) s calls /\
    (forallb (succeeds env) (setup_before port) = true ->
     exists tail, calls = setup_before port ++ Sql migration :: tail /\ tail `prefix_of` later_statements /\
       (forallb (succeeds env) later_statements = true -> tail = later_statements)) /\
    (forallb (succeeds env) (setup_before port) = false -> calls `prefix_of` setup_before port).
Proof.
  unfold createDatabaseAndUser. fold (setup_before port).
  destruct (run_calls (setup_before port) s) as [s1 ok] eqn:E1.
  apply run_calls_prefix in E1 as (d & rest & El & -> & Ht & Hf). destruct ok; cbn [negb].
  - destruct (Ht eq_refl) as [-> Hall]. rewrite app_nil_r in El. subst d.
    destruct (run_calls later_statements (run_calls [Sql migration] (foldl (flip act) s (setup_before port))).1)
      as [s2 ok2] eqn:E2. cbn [fst]. rewrite run_one in E2.
    apply run_calls_prefix in E2 as (d2 & rest2 & El2 & -> & Ht2 & Hf2).
    exists (setup_before port ++ Sql migration :: d2).
    split; [rewrite foldl_app; reflexivity|]. split; [|congruence].
    intros _. exists d2. split; [done|]. split; [by exists rest2|]. intros Hl.
    destruct ok2; [destruct (Ht2 eq_refl) as [-> _]; by rewrite app_nil_r in El2|].
    destruct (Hf2 eq_refl) as (b & a & -> & _ & Ha). rewrite El2, !forallb_app in Hl. cbn in Hl.
    rewrite Ha in Hl. by rewrite andb_false_r in Hl.
  - exists d. split; [done|]. split.
    + intros Hall. destruct (Hf eq_refl) as (b & a & -> & _ & Ha). rewrite El, !forallb_app in Hall. cbn in Hall.
      rewrite Ha in Hall. by rewrite andb_false_r in Hall.
    + intros _. by exists rest.
Qed.

(** ** The wait *)

Lemma wait_loop_spec turns n s :
  exists k, wait_loop turns n s = (foldl (flip act) s (replicate k (SleepMs 100)), n + k)%nat /\
    (k <= turns)%nat /\ (forall i, (n <= i < n + k)%nat -> isServerRunning i s = false) /\
    (isServerRunning (n + k) s = true \/ k = turns).
Proof.
  revert n s; induction turns as [|turns IH]; cbn [wait_loop]; intros n s;
    destruct (isServerRunning n s) eqn:E.
  1-3: exists 0%nat; rewrite ?Nat.add_0_r; (split; [done|]; split; [lia|]; split; [intros; lia|by auto]).
  destruct (IH (S n) (act (SleepMs 100) s)) as (k & -> & Hk & Hno & Hend). exists (S k).
  split; [cbn [replicate foldl flip]; f_equal; lia|]. split; [lia|]. split.
  - intros i Hi. destruct (decide (i = n)) as [->|]; [done|]. apply (Hno i); lia.
  - replace (n + S k)%nat with (S n + k)%nat by lia. destruct Hend; [by left|right; lia].
Qed.

(** ** The start *)

(** The PID file's process is ended, where it has one that runs. *)
Definition orphan_of (s : MySQL) : option Z :=
  match files s !! pidFile with
  | Some content =>
      match read_pid content with Some p => if alive env p then Some p else None | None => None end
  | None => None
  end.
Definition ending (p : option Z) : list Action :=
  match p with Some p => [Sigterm p; WaitPid p] | None => [] end.
Definition removal (s : MySQL) : list Action := if exists_ pidFile s then [RemoveFile pidFile] else [].

Lemma end_orphan_spec s :
  let s' := end_orphan pidFile s in
  trace s' = trace s ++ ending (orphan_of s) ++ removal s /\
  files s' = delete pidFile (files s) /\ mysqlPid s' = mysqlPid s /\ mysqlPort s' = mysqlPort s /\
  mysqlSocket s' = mysqlSocket s.
Proof.
  unfold end_orphan, orphan_of, removal, exists_. destruct (files s !! pidFile) as [c|] eqn:E; cbn.
  - destruct (read_pid c) as [p|]; [destruct (alive env p)|]; cbn; repeat split; by rewrite <- ?app_assoc.
  - rewrite app_nil_r. repeat split. by rewrite delete_id.
Qed.

(** What the start does before the server runs: one list, in this order. *)
Definition placing (s : MySQL) : list Action :=
  [CreateDirectories binDir; CreateDirectories confDir] ++
  if exists_ targetMysqld s then [] else [CopyServer "/usr/sbin/mysqld" targetMysqld].
Definition configuring (s : MySQL) : list Action :=
  WriteFile configFile (config_text findFreePort baseDir socketFile) ::
  if exists_ (baseDir +:+ "/data/mysql") s then []
  else [CreateDirectories (baseDir +:+ "/data"); CreateDirectories (baseDir +:+ "/logs");
        RunCommand ((targetMysqld +:+ " --defaults-file=" +:+ configFile +:+
                     " --initialize-insecure --user=" +:+ server_user) +:+ " 2>&1")].

Lemma place_server_spec s : place_server s = (foldl (flip act) s (placing s), exists_ targetMysqld s || copies env).
Proof.
  unfold place_server, placing. change (exists_ targetMysqld (act _ (act _ s))) with (exists_ targetMysqld s).
  by destruct (exists_ targetMysqld s).
Qed.

Lemma base_paths_differ a b : a <> b -> (baseDir +:+ a)%string <> (baseDir +:+ b)%string.
Proof. intros H. by intros ?%(inj (String.append baseDir)). Qed.

Lemma pid_not_config : pidFile <> configFile.
Proof. unfold pidFile, configFile, confDir. rewrite Str.append_assoc. by apply base_paths_differ. Qed.
Lemma socket_not_config : socketFile <> configFile.
Proof. unfold socketFile, configFile, confDir. rewrite Str.append_assoc. by apply base_paths_differ. Qed.
Lemma data_not_config : (baseDir +:+ "/data/mysql")%string <> configFile.
Proof. unfold configFile, confDir. rewrite Str.append_assoc. by apply base_paths_differ. Qed.
Lemma socket_not_pid : socketFile <> pidFile.
Proof. by apply base_paths_differ. Qed.

Lemma configure_spec s :
  let s' := configure s in
  trace s' = trace s ++ configuring s /\ mysqlPort s' = findFreePort /\ mysqlSocket s' = socketFile /\
  mysqlPid s' = mysqlPid s /\
  files s' = <[configFile := config_text findFreePort baseDir socketFile]> (files s).
Proof.
  unfold configure, configuring.
  assert (exists_ (baseDir +:+ "/data/mysql")
            (write_file configFile (config_text findFreePort baseDir socketFile)
               (set_endpoint findFreePort socketFile s)) = exists_ (baseDir +:+ "/data/mysql") s) as E.
  { unfold exists_. cbn. by rewrite lookup_insert_ne by (apply not_eq_sym, data_not_config). }
  cbn zeta. change (mysqlPort (set_endpoint _ _ _)) with findFreePort.
  change (mysqlSocket (set_endpoint _ _ _)) with socketFile. rewrite E.
  destruct (exists_ _ s); [done|]. unfold initializeMySQLDataDir. repeat split.
  rewrite !act_trace, write_trace, <- !app_assoc. reflexivity.
Qed.

Definition starting : list Action :=
  match fork env with
  | Some _ => [Exec targetMysqld ("--defaults-file=" +:+ configFile) server_user]
  | None => []
  end.

(** Does the n-th look of a start find the socket file? *)
Definition ready (s : MySQL) (n : nat) : bool := exists_ socketFile s || socket_appears env n.

Lemma startMySQLServer_spec s :
  let s' := startMySQLServer targetMysqld configFile s in
  trace s' = trace s ++ starting /\ mysqlPid s' = default (mysqlPid s) (fork env) /\
  mysqlPort s' = mysqlPort s /\ mysqlSocket s' = mysqlSocket s /\ files s' = files s.
Proof.
  unfold startMySQLServer, starting. destruct (fork env); cbn -[targetMysqld]; rewrite ?app_nil_r; done.
Qed.

Lemma orphan_after_configure s :
  orphan_of (configure s) = orphan_of s /\ removal (configure s) = removal s.
Proof.
  destruct (configure_spec s) as (_ & _ & _ & _ & Hf). unfold orphan_of, removal, exists_.
  rewrite Hf, lookup_insert_ne by (apply not_eq_sym, pid_not_config). done.
Qed.

Lemma start_spec s :
  exists_ targetMysqld s || copies env = true ->
  exists k s',
    trace s' = trace s ++ placing s ++ configuring s ++ ending (orphan_of s) ++ removal s ++
               starting ++ replicate k (SleepMs 100) /\
    mysqlPid s' = default (mysqlPid s) (fork env) /\ mysqlPort s' = findFreePort /\
    mysqlSocket s' = socketFile /\ files s' !! pidFile = None /\
    (k <= 50)%nat /\ (forall i, (i < k)%nat -> ready s i = false) /\ (ready s k = true \/ k = 50%nat) /\
    initializeAndStartMySQL s = (if ready s (S k) then createDatabaseAndUser findFreePort s' else s', true).
Proof.
  intros Hc. unfold initializeAndStartMySQL. rewrite place_server_spec, Hc. cbn [negb].
  set (s1 := foldl _ s (placing s)).
  destruct (acts_same (placing s) s) as (P1 & _ & _ & F1). fold s1 in P1, F1.
  destruct (configure_spec s1) as (T2 & N2 & K2 & P2 & F2).
  destruct (orphan_after_configure s1) as [O2 R2]. set (s2 := configure s1) in *.
  destruct (end_orphan_spec s2) as (T3 & F3 & P3 & N3 & K3). set (s3 := end_orphan pidFile s2) in *.
  destruct (startMySQLServer_spec s3) as (T4 & P4 & N4 & K4 & F4). set (s4 := startMySQLServer _ _ s3) in *.
  assert (forall n, isServerRunning n s4 = ready s n) as Hrun.
  { intros n. unfold isServerRunning, ready, exists_.
    by rewrite K4, K3, K2, F4, F3, F2, lookup_delete_ne, lookup_insert_ne, F1
      by (apply not_eq_sym, socket_not_config || apply not_eq_sym, socket_not_pid). }
  unfold await_server. destruct (wait_loop_spec 50 0 s4) as (k & -> & Hk & Hno & Hend).
  set (s5 := foldl _ s4 _). destruct (acts_same (replicate k (SleepMs 100)) s4) as (P5 & N5 & K5 & F5).
  fold s5 in P5, N5, K5, F5. exists k, s5.
  assert (isServerRunning (S (0 + k)) s5 = ready s (S k)) as ->.
  { rewrite <- (Hrun (S k)). unfold isServerRunning, exists_. by rewrite K5, F5. }
  assert (mysqlPort s5 = findFreePort) as Hport by congruence. rewrite Hport.
  split; [|repeat split; [congruence|congruence| |done| |by rewrite <- Hrun]].
  - unfold s5. rewrite acts_trace, T4, T3, T2, O2, R2. unfold s1. rewrite acts_trace, <- !app_assoc.
    unfold orphan_of, removal, configuring, exists_. fold s1. rewrite F1. done.
  - rewrite F5, F4, F3. apply lookup_delete_eq.
  - intros i Hi. rewrite <- Hrun. apply Hno. lia.
Qed.

(** ** The stop *)

Definition own_server (s : MySQL) : option Z := if 0 <? mysqlPid s then Some (mysqlPid s) else None.

Lemma stopMySQL_spec s :
  let s' := stopMySQL s in
  trace s' = trace s ++ ending (own_server s) ++ ending (orphan_of s) ++ removal s /\
  files s' = delete pidFile (files s) /\ mysqlPid s' = (if 0 <? mysqlPid s then -1 else mysqlPid s) /\
  mysqlPort s' = mysqlPort s /\ mysqlSocket s' = mysqlSocket s.
Proof.
  unfold stopMySQL, own_server.
  set (s1 := if 0 <? mysqlPid s then _ else s).
  assert (trace s1 = trace s ++ ending (if 0 <? mysqlPid s then Some (mysqlPid s) else None) /\ files s1 = files s /\
          mysqlPid s1 = (if 0 <? mysqlPid s then -1 else mysqlPid s) /\ mysqlPort s1 = mysqlPort s /\
          mysqlSocket s1 = mysqlSocket s) as (T1 & F1 & P1 & N1 & K1).
  { unfold s1. destruct (0 <? mysqlPid s); cbn; by rewrite <- ?app_assoc, ?app_nil_r. }
  destruct (end_orphan_spec s1) as (-> & -> & -> & -> & ->).
  unfold orphan_of, removal, exists_. rewrite T1, F1, P1, N1, K1, <- app_assoc. done.
Qed.

(** C36: Stopping MySQL asks the server the daemon started to end and waits for it, then does
    the same for the running process the PID file names, and leaves neither on record: no
    pid, no PID file. A second stop therefore signals nothing and changes nothing. *)
Theorem stop_is_final (s : MySQL) :
  let s' := stopMySQL s in
  trace s' = trace s ++ ending (own_server s) ++ ending (orphan_of s) ++ removal s /\
  mysqlPid s' <= 0 /\ files s' !! pidFile = None /\ stopMySQL s' = s'.
Proof.
  cbn zeta. destruct (stopMySQL_spec s) as (T & F & P & N & K). set (s' := stopMySQL s) in *.
  assert (mysqlPid s' <= 0) as Hp by (rewrite P; destruct (Z.ltb_spec 0 (mysqlPid s)); lia).
  assert (files s' !! pidFile = None) as Hf by (rewrite F; apply lookup_delete_eq).
  repeat split; [done..|].
  clearbody s'. unfold stopMySQL, end_orphan. by rewrite (proj2 (Z.ltb_ge _ _) Hp), Hf.
Qed.

(** What the rest of the program relies on: the recorded process is the new server's, no
    PID file is left, and what was done before the set-up stays done. *)
Lemma start_result s :
  exists_ targetMysqld s || copies env = true ->
  let s' := (initializeAndStartMySQL s).1 in
  (initializeAndStartMySQL s).2 = true /\ mysqlPid s' = default (mysqlPid s) (fork env) /\
  files s' !! pidFile = None /\ (forall a, a ∈ ending (orphan_of s) -> a ∈ trace s').
Proof.
  intros Hc. destruct (start_spec s Hc) as (k & s' & T & P & _ & _ & F & _ & _ & _ & ->).
  assert (exists l, (if ready s (S k) then createDatabaseAndUser findFreePort s' else s') =
                    foldl (flip act) s' l) as [l ->].
  { destruct (ready s (S k)); [|by exists []]. destruct (createDatabaseAndUser_spec findFreePort s') as (l & -> & _).
    by exists l. }
  cbn [fst snd]. destruct (acts_same l s') as (-> & _ & _ & ->). do 3 (split; [done|]).
  intros a Ha. rewrite acts_trace, T. set_solver.
Qed.

Lemma start_refused s :
  exists_ targetMysqld s || copies env = false -> (initializeAndStartMySQL s).2 = false.
Proof. intros Hc. unfold initializeAndStartMySQL. by rewrite place_server_spec, Hc. Qed.

(** C29: Starting MySQL does its work in one order, whatever else the machine answers, when
    the server is in its place or can be copied there: the directories and the copy, the
    configuration (and the data directory where it is new), the end of a server left over
    from before, its PID file, the new server, at most fifty waits of a tenth of a second
    that stop at the first look that sees the socket file, and then the set-up of the
    database on the chosen port exactly when the last look sees it.  When the copy fails,
    nothing after it is done: an exception leaves the function, and no process was ended or
    started. *)
Theorem start_order (s : MySQL) :
  if exists_ targetMysqld s || copies env then
    exists k s',
      trace s' = trace s ++ placing s ++ configuring s ++ ending (orphan_of s) ++ removal s ++
                 starting ++ replicate k (SleepMs 100) /\
      mysqlPid s' = default (mysqlPid s) (fork env) /\ mysqlPort s' = findFreePort /\
      (k <= 50)%nat /\ (forall i, (i < k)%nat -> ready s i = false) /\ (ready s k = true \/ k = 50%nat) /\
      initializeAndStartMySQL s = (if ready s (S k) then createDatabaseAndUser findFreePort s' else s', true)
  else
    let '(s', returned) := initializeAndStartMySQL s in
    returned = false /\ trace s' = trace s ++ placing s /\ mysqlPid s' = mysqlPid s /\ files s' = files s.
Proof.
  destruct (exists_ targetMysqld s || copies env) eqn:Hc.
  - destruct (start_spec s Hc) as (k & s' & T & P & N & _ & _ & Hk & Hno & Hend & E).
    by exists k, s'.
  - unfold initializeAndStartMySQL. rewrite place_server_spec, Hc. cbn [negb].
    destruct (acts_same (placing s) s) as (-> & _ & _ & ->). by rewrite acts_trace.
Qed.
End MySQL.

(** A first start on a clean machine: the socket appears at the third look, and every call
    of the connector succeeds. *)
Definition clean_machine : MySQLEnv :=
  mkMySQLEnv "/home/u/automateLinux/" (Some 43113) (Some "u") 0 (Some 912) (fun _ => false)
    (fun n => (2 <=? n)%nat) true (fun _ => true).
Definition first_start : MySQL := mkMySQL (-1) 0 "" ∅ [].

(** It waits twice and then runs every statement of the set-up, the migration included. *)
Example clean_start :
  trace (initializeAndStartMySQL clean_machine first_start).1 =
  placing clean_machine first_start ++ configuring clean_machine first_start ++
  starting clean_machine ++ [SleepMs 100; SleepMs 100] ++
  setup_before 43113 ++ Sql migration :: later_statements.
Proof. vm_compute. reflexivity. Qed.

(** The look is for the file alone: a socket left behind by a server that was killed counts
    as a server that is ready, even when the new one could not be started. *)
Example stale_socket_is_ready :
  let machine := mkMySQLEnv "/" (Some 43113) None 0 None (fun _ => false) (fun _ => false) true
                   (fun a => match a with Connect _ _ _ => false | _ => true end) in
  let s := mkMySQL (-1) 0 "" (<["/data/mysql/mysql.sock" := ""]> ∅) [] in
  last (trace (initializeAndStartMySQL machine s).1) = Some (Connect "tcp://127.0.0.1:43113" "root" "") /\
  SleepMs 100 ∉ trace (initializeAndStartMySQL machine s).1.
Proof. split; [vm_compute; reflexivity|]. by apply (bool_decide_eq_true _). Qed.
