(* ===== verification/Portal.v ===== *)
(** The portal-handler tool (src/utilities/portal-handler): the screen-cast session it asks
    the desktop portal for, the restore token it keeps between runs, and its command line.

    What the portal answers, what rand() gives and what the system allows are arguments;
    the state holds the globals of PortalManager.cpp, the members of the manager, the token
    file and the calls made. *)

From S2P Require Import Prelude Stdio.

Record Config := mkConfig { appId : string; tokenDir : string }.

(** The calls, with the arguments that vary. *)
Inductive Call :=
  | Subscribe (request_path : string)
  | CreateSession (token app_id restore_token : string)
  | SelectSources (handle token : string) (types persist_mode : Z)
  | Start (handle token : string)
  | OpenPipeWireRemote (handle : string)
  | Shell (cmd : string)
  | Unlink (path : string).

(** The results of a response that the tool looks up; a stream is its node. *)
Record Results := mkResults {
  session_handle : option string;
  restore_token : option string;
  streams : option (list Z)
}.

(** The method call fails, or a response arrives, or none ever does. *)
Inductive Answer := CallFails | Responds (response : Z) (results : Results) | NoResponse.

Record Portal := mkPortal {
  g_session_handle : string;
  g_node_id : Z;
  g_portal_step : Z;
  newToken : string;
  m_session_handle : string;
  m_node_id : Z;
  m_pipewire_fd : Z;
  m_active : bool;
  token_file : option string;
  calls : list Call
}.

(** A manager just made, in a process just started. *)
Definition new_manager (file : option string) : Portal := mkPortal "" 0 0 "" "" 0 (-1) false file [].

Record Machine := mkMachine {
  unique_name : option string;         (* None: no connection to the bus *)
  rand : nat -> nat -> Z;              (* the k-th number after the n-th seeding *)
  portal : list Call -> Call -> Answer;   (* given the calls before *)
  remote : option Z;                   (* the descriptor of OpenPipeWireRemote *)
  token_writable : bool;
  token_removable : bool;
  glib_checks : bool                   (* GLib refuses a call that is given an error already set *)
}.

Definition called (c : Call) (s : Portal) : Portal :=
  mkPortal (g_session_handle s) (g_node_id s) (g_portal_step s) (newToken s) (m_session_handle s) (m_node_id s)
    (m_pipewire_fd s) (m_active s) (token_file s) (calls s ++ [c]).
Definition with_globals (handle : string) (node : Z) (step : Z) (token : string) (s : Portal) : Portal :=
  mkPortal handle node step token (m_session_handle s) (m_node_id s)
    (m_pipewire_fd s) (m_active s) (token_file s) (calls s).
Definition with_members (handle : string) (node fd : Z) (active : bool) (s : Portal) : Portal :=
  mkPortal (g_session_handle s) (g_node_id s) (g_portal_step s) (newToken s) handle node fd active
    (token_file s) (calls s).
Definition with_file (file : option string) (s : Portal) : Portal :=
  mkPortal (g_session_handle s) (g_node_id s) (g_portal_step s) (newToken s) (m_session_handle s) (m_node_id s)
    (m_pipewire_fd s) (m_active s) file (calls s).

Definition set_handle (handle : string) (s : Portal) : Portal :=
  with_globals handle (g_node_id s) (g_portal_step s) (newToken s) s.
Definition set_step (step : Z) (s : Portal) : Portal :=
  with_globals (g_session_handle s) (g_node_id s) step (newToken s) s.

(** ** The restore token *)

(** The path of the token's file. *)
Definition token_path (config : Config) : string := (tokenDir config +:+ "/restore_token")%string.

(** std::getline: the first line, or nothing. *)
Definition getline (s : string) : string := default "" (head (Str.split_lines s)).

Definition loadRestoreToken (config : Config) (s : Portal) : string :=
  if Str.empty (tokenDir config) then ""
  else match token_file s with None => "" | Some content => getline content end.

Definition saveRestoreToken (machine : Machine) (config : Config) (token : string) (s : Portal) : Portal :=
  if Str.empty (tokenDir config) || Str.empty token then s
  else
    let s := called (Shell ("mkdir -p " +:+ tokenDir config)) s in
    if token_writable machine then with_file (Some token) s else s.

Definition clearRestoreToken (machine : Machine) (config : Config) (s : Portal) : Portal :=
  if Str.empty (tokenDir config) then s
  else
    let s := called (Unlink (token_path config)) s in
    if token_removable machine then with_file None s else s.

(** ** A step of the portal's protocol *)

(** The unique name without its colon, with underscores for dots. *)
Fixpoint dots_to_underscores (s : string) : string :=
  match s with
  | EmptyString => EmptyString
  | String c s => String (if decide (c = "."%char) then "_"%char else c) (dots_to_underscores s)
  end.
Definition sender_clean (name : string) : string :=
  dots_to_underscores
    match name with String c rest => if decide (c = ":"%char) then rest else name | EmptyString => "" end.

(** snprintf into a buffer of 256 bytes *)
Definition request_path (name token : string) : string :=
  Str.take 255 ("/org/freedesktop/portal/desktop/request/" +:+ sender_clean name +:+ "/" +:+ token).

(** on_portal_response_v2 *)
Definition on_response (response : Z) (r : Results) (s : Portal) : Portal :=
  if negb (response =? 0) then s
  else if g_portal_step s =? 1 then
    match session_handle r with Some h => set_handle h s | None => s end
  else if g_portal_step s =? 3 then
    let token := default (newToken s) (restore_token r) in
    let node := match streams r with Some (n :: _) => n | _ => g_node_id s end in
    with_globals (g_session_handle s) node (g_portal_step s) token s
  else s.

(** The outcome of a call that may wait for ever. *)
Inductive Outcome := Returns (ok : bool) | Waits | OutOfFuel.

(** call_portal_step: subscribe, call, and run the loop until the response. *)
Definition call_portal_step (machine : Machine) (name token : string) (c : Call) (s : Portal) : Portal * Outcome :=
  let s := called (Subscribe (request_path name token)) s in
  let before := calls s in
  let s := called c s in
  match portal machine before c with
  | CallFails => (s, Returns false)
  | NoResponse => (s, Waits)
  | Responds response r => (on_response response r s, Returns true)
  end.

(** ** The session *)

Section Setup.
Context (machine : Machine) (config : Config).

(** "ph_c%d" and the like *)
Definition request_token (letter : string) (n k : nat) : string :=
  ("ph_" +:+ letter +:+ Num.to_string (rand machine n k mod 1000))%string.

(** The second call of a step after a failed one: [error] still holds the error of the
    first, which a GLib built with its checks answers by refusing the call. *)
Definition call_again (name token : string) (c : Call) (s : Portal) : Portal * Outcome :=
  if glib_checks machine then (called (Subscribe (request_path name token)) s, Returns false)
  else call_portal_step machine name token c s.

(** CreateSession, and again without the token when the call with it fails; is the session
    a restored one? *)
Definition create_session (name token1 : string) (s : Portal) : Portal * Outcome * bool :=
  let restore := loadRestoreToken config s in
  let used_restore := negb (Str.empty restore) in
  match call_portal_step machine name token1 (CreateSession token1 (appId config) restore) (set_step 1 s) with
  | (s, Returns false) =>
      if used_restore then
        let s := clearRestoreToken machine config s in
        (call_again name token1 (CreateSession token1 (appId config) "") s, false)
      else (s, Returns false, false)
  | r => (r, used_restore)
  end.

(** What follows Start: the node, the new token and the descriptor.  The builder of the
    call's options is ended without having been initialised; [remote] is what the call
    gives all the same. *)
Definition open_stream (s : Portal) : Portal * Outcome :=
  if g_node_id s =? 0 then (s, Returns false)
  else
    let s := with_members (m_session_handle s) (g_node_id s) (m_pipewire_fd s) (m_active s) s in
    let s := saveRestoreToken machine config (newToken s) s in
    let s := called (OpenPipeWireRemote (g_session_handle s)) s in
    match remote machine with
    | Some fd => (with_members (m_session_handle s) (m_node_id s) fd true s, Returns true)
    | None => (s, Returns false)
    end.

(** setupPortal, at its n-th entry: it starts over when Start fails for a restored session. *)
Fixpoint setupPortal (fuel : nat) (n : nat) (s : Portal) : Portal * Outcome :=
  match fuel with
  | O => (s, OutOfFuel)
  | S fuel =>
      match unique_name machine with
      | None => (s, Returns false)
      | Some name =>
          match create_session name (request_token "c" n 0) s with
          | (s, Returns true, used_restore) =>
              if Str.empty (g_session_handle s) then (s, Returns false)
              else
                let s := with_members (g_session_handle s) (m_node_id s) (m_pipewire_fd s) (m_active s) s in
                let token2 := request_token "s" n 1 in
                match call_portal_step machine name token2
                        (SelectSources (g_session_handle s) token2 1 2) (set_step 2 s) with
                | (s, Returns true) =>
                    let s := with_globals (g_session_handle s) (g_node_id s) 3 "" s in
                    let token3 := request_token "t" n 2 in
                    match call_portal_step machine name token3 (Start (g_session_handle s) token3) s with
                    | (s, Returns true) => open_stream s
                    | (s, Returns false) =>
                        if used_restore
                        then setupPortal fuel (S n) (set_handle "" (clearRestoreToken machine config s))
                        else (s, Returns false)
                    | r => r
                    end
                | r => r
                end
          | (s, o, _) => (s, o)
          end
      end
  end.

Definition init (fuel : nat) : Portal -> Portal * Outcome := setupPortal fuel 0.
End Setup.

(** ** The command line *)

Definition expand_user (home : option string) (path : string) : string :=
  match path with
  | String c rest => if decide (c = "~"%char) then match home with Some h => (h +:+ rest)%string | None => path end
                     else path
  | EmptyString => path
  end.

Fixpoint parse_options (home : option string) (args : list string) (config : Config) : option Config :=
  match args with
  | [] => Some config
  | arg :: rest =>
      match rest with
      | value :: rest =>
          if decide (arg = "--app-id") then parse_options home rest (mkConfig value (tokenDir config))
          else if decide (arg = "--token-dir") then
            parse_options home rest (mkConfig (appId config) (expand_user home value))
          else None
      | [] => None
      end
  end.

Definition default_config (home : option string) : Config :=
  mkConfig "com.automatelinux.portal-handler" (expand_user home "~/.config/portal-handler").

Definition help : list string :=
  ["Usage: portal-handler <command> [options]"; "Commands:";
   "  request-session    Request a screen sharing session"; "Options:";
   "  --app-id <id>      Application ID (default: com.automatelinux.portal-handler)";
   "  --token-dir <path> Directory to store restore token (default: ~/.config/portal-handler)"]%string.

(** main: the exit status and what it printed, once Enter is pressed. *)
Inductive MainResult := Exits (status : Z) (printed : list string) | Hangs.

Definition main (fuel : nat) (machine : Machine) (home : option string) (file : option string) (argv : list string) :
    Portal * MainResult :=
  let s := new_manager file in
  match argv with
  | [] => (s, Exits 1 help)
  | command :: args =>
      match parse_options home args (default_config home) with
      | None => (s, Exits 1 [])
      | Some config =>
          if decide (command = "request-session") then
            match init machine config fuel s with
            | (s, Returns true) =>
                (s, Exits 0 ["NodeID: " +:+ Num.to_string (m_node_id s); "FD: " +:+ Num.to_string (m_pipewire_fd s);
                              "Session active. Press Enter to exit..."]%string)
            | (s, Returns false) => (s, Exits 1 [])
            | (s, _) => (s, Hangs)
            end
          else (s, Exits 1 help)
      end
  end.

(** ** Facts *)

(** What a step leaves alone. *)
Record same_members (s s' : Portal) : Prop := {
  same_m_handle : m_session_handle s' = m_session_handle s;
  same_m_node : m_node_id s' = m_node_id s;
  same_fd : m_pipewire_fd s' = m_pipewire_fd s;
  same_active : m_active s' = m_active s
}.

#[export] Instance same_members_preorder : PreOrder same_members.
Proof. split; [done|]. intros a b c [] []. constructor; congruence. Qed.

Lemma on_response_frame response r s :
  same_members s (on_response response r s) /\ token_file (on_response response r s) = token_file s /\
  calls (on_response response r s) = calls s /\
  (g_portal_step s <> 1 -> g_session_handle (on_response response r s) = g_session_handle s).
Proof.
  unfold on_response. destruct (Z.eqb_spec (g_portal_step s) 1); repeat case_match; done.
Qed.

Lemma step_frame machine name token c s s' o :
  call_portal_step machine name token c s = (s', o) ->
  same_members s s' /\ token_file s' = token_file s /\
  calls s' = calls s ++ [Subscribe (request_path name token); c] /\ o <> OutOfFuel /\
  (g_portal_step s <> 1 -> g_session_handle s' = g_session_handle s).
Proof.
  unfold call_portal_step. set (s1 := called c _).
  assert (same_members s s1) as Hm by done. assert (token_file s1 = token_file s) as Hf by done.
  assert (calls s1 = calls s ++ [Subscribe (request_path name token); c]) as Hc by (cbn; by rewrite <- app_assoc).
  assert (g_portal_step s1 = g_portal_step s) as Hs by done.
  assert (g_session_handle s1 = g_session_handle s) as Hh by done.
  clearbody s1. intros H. case_match; simplify_eq; [done| |done].
  destruct (on_response_frame response results s1) as (Hr & -> & -> & Hkeep).
  split; [by etrans|]. repeat split; [done..|]. intros. rewrite Hkeep by congruence. done.
Qed.

Section Facts.
Context (machine : Machine) (config : Config).

Lemma clear_spec s :
  same_members s (clearRestoreToken machine config s) /\
  (token_removable machine = true -> loadRestoreToken config (clearRestoreToken machine config s) = "").
Proof.
  unfold clearRestoreToken, loadRestoreToken. destruct (Str.empty (tokenDir config)); [done|].
  by destruct (token_removable machine).
Qed.

Lemma again_frame name token c s s' o :
  call_again machine name token c s = (s', o) -> same_members s s' /\ o <> OutOfFuel.
Proof.
  unfold call_again. destruct (glib_checks machine); [by intros [= <- <-]|].
  by intros (Hm & _ & _ & Ho & _)%step_frame.
Qed.

Lemma create_session_spec name token1 s s' o used :
  create_session machine config name token1 s = (s', o, used) ->
  same_members s s' /\ o <> OutOfFuel /\
  (used = true -> loadRestoreToken config s <> "") /\ (used = true -> token_file s' = token_file s).
Proof.
  unfold create_session. destruct (call_portal_step _ _ _ _ _) as [s1 o1] eqn:E.
  apply step_frame in E as (Hm & Hf & _ & Ho & _).
  assert (same_members s s1) as Hm1 by (etrans; [|exact Hm]; done). clear Hm.
  assert (forall b, negb (Str.empty b) = true -> b <> "") as Hne by (by intros []).
  destruct o1 as [[]| |]; intros; simplify_eq; [by auto| |by auto].
  destruct (negb _) eqn:Eu; simplify_eq; [|done].
  destruct (call_again machine name token1 _ _) as [s2 o2] eqn:E2.
  simplify_eq. apply again_frame in E2 as [Hm2 Ho2]. split; [|done].
  etrans; [exact Hm1|]. etrans; [apply clear_spec|exact Hm2].
Qed.

(** A granted session. *)
Record granted (s : Portal) : Prop := {
  granted_active : m_active s = true;
  granted_node : m_node_id s <> 0;
  granted_handle : m_session_handle s <> "";
  granted_same_handle : m_session_handle s = g_session_handle s;
  granted_fd : remote machine = Some (m_pipewire_fd s);
  granted_last : last (calls s) = Some (OpenPipeWireRemote (m_session_handle s));
  granted_token : newToken s <> "" -> tokenDir config <> "" -> token_writable machine = true ->
                  token_file s = Some (newToken s)
}.

Lemma save_spec token s :
  same_members s (saveRestoreToken machine config token s) /\
  g_session_handle (saveRestoreToken machine config token s) = g_session_handle s /\
  newToken (saveRestoreToken machine config token s) = newToken s /\
  (token <> "" -> tokenDir config <> "" -> token_writable machine = true ->
   token_file (saveRestoreToken machine config token s) = Some token).
Proof.
  unfold saveRestoreToken. destruct (tokenDir config), token; cbn; try done; by destruct (token_writable machine).
Qed.

Lemma open_stream_spec s s' o :
  open_stream machine config s = (s', o) ->
  m_session_handle s = g_session_handle s -> m_session_handle s <> "" ->
  o = Returns true /\ granted s' \/ o = Returns false /\ m_active s' = m_active s.
Proof.
  unfold open_stream. destruct (Z.eqb_spec (g_node_id s) 0); [intros; simplify_eq; by right|].
  set (s1 := with_members _ _ _ _ s). destruct (save_spec (newToken s1) s1) as ([Hh Hn Hf Ha] & Hg & Hnew & Htok).
  assert (g_session_handle s1 = g_session_handle s) as Hg1 by done.
  assert (m_session_handle s1 = m_session_handle s) as Hh1 by done.
  assert (m_node_id s1 = g_node_id s) as Hn1 by done. assert (m_active s1 = m_active s) as Ha1 by done.
  change (newToken s1) with (newToken s) in *. set (s2 := saveRestoreToken machine config (newToken s) s1) in *.
  clearbody s2. clearbody s1. intros H Hsame Hne.
  destruct (remote machine) as [fd|] eqn:Er; simplify_eq; [left|right; split; [done|]; cbn; congruence].
  split; [done|]. constructor; cbn; try congruence; [rewrite last_snoc; congruence|].
  rewrite Hnew. exact Htok.
Qed.

#[local] Ltac ends s :=
  left; eexists s, _; split; [done|]; split; [done|]; split; [done|congruence].

(** One entry of setupPortal: it ends, or starts over without the token it had. *)
Lemma attempt n s :
  (exists s1 o, (forall fuel, setupPortal machine config (S fuel) n s = (s1, o)) /\ o <> OutOfFuel /\
     (o = Returns true -> granted s1) /\ (o = Returns false -> m_active s1 = m_active s)) \/
  (exists s1, (forall fuel, setupPortal machine config (S fuel) n s =
                 setupPortal machine config fuel (S n) (set_handle "" (clearRestoreToken machine config s1))) /\
     loadRestoreToken config s <> "" /\ m_active s1 = m_active s).
Proof.
  cbn [setupPortal]. destruct (unique_name machine) as [name|]; [|left; by exists s, (Returns false)].
  destruct (create_session _ _ name _ s) as [[s1 o1] used] eqn:E1.
  apply create_session_spec in E1 as (Hm1 & Ho1 & Hused & _).
  pose proof (same_active _ _ Hm1) as Ha1.
  destruct o1 as [[]| |]; [|ends s1..].
  destruct (Str.empty (g_session_handle s1)) eqn:Ehandle; [ends s1|].
  assert (g_session_handle s1 <> "") as Hhandle by (intros Hno; by rewrite Hno in Ehandle).
  set (s2 := with_members _ _ _ _ s1).
  assert (m_active s2 = m_active s) as Ha2 by (cbn; apply Hm1).
  assert (m_session_handle s2 = g_session_handle s1) as Hh2 by done.
  assert (g_session_handle s2 = g_session_handle s1) as Hg2 by done. clearbody s2.
  destruct (call_portal_step _ name _ (SelectSources _ _ _ _) _) as [s3 o3] eqn:E3.
  apply step_frame in E3 as ([Hh3 _ _ Ha3] & _ & _ & Ho3 & Hg3). specialize (Hg3 ltac:(done)). cbn in Hh3, Ha3, Hg3.
  destruct o3 as [[]| |]; [|ends s3..].
  destruct (call_portal_step _ name _ (Start _ _) _) as [s4 o4] eqn:E4.
  apply step_frame in E4 as ([Hh4 _ _ Ha4] & _ & _ & Ho4 & Hg4). specialize (Hg4 ltac:(done)). cbn in Hh4, Ha4, Hg4.
  destruct o4 as [[]| |]; [| |ends s4..].
  - destruct (open_stream machine config s4) as [s5 o5] eqn:E5. left. exists s5, o5. split; [done|].
    apply open_stream_spec in E5 as [[-> ?]|[-> ?]]; [| |congruence..];
      (split; [done|]; split; [done|congruence]).
  - destruct used; [right|ends s4].
    exists s4. split; [done|]. split; [by apply Hused|congruence].
Qed.

(** C30: The set-up of a session ends: it starts over at most once, since starting over
    removes the token that made the session a restored one. More turns than two change
    nothing. *)
Theorem setup_starts_over_once (fuel n : nat) (s : Portal) :
  token_removable machine = true ->
  setupPortal machine config (2 + fuel) n s = setupPortal machine config 2 n s /\
  (setupPortal machine config 2 n s).2 <> OutOfFuel.
Proof.
  intros Hr. change (2 + fuel)%nat with (S (S fuel)). destruct (attempt n s) as [(s1 & o & E & Ho & _)|(s1 & E & _)].
  { rewrite (E (S fuel)), (E 1%nat). done. }
  rewrite (E (S fuel)), (E 1%nat).
  set (s2 := set_handle "" (clearRestoreToken machine config s1)).
  assert (loadRestoreToken config s2 = "") as Hno by (by apply clear_spec).
  destruct (attempt (S n) s2) as [(s3 & o & E2 & Ho & _)|(s3 & _ & Hload & _)]; [|done].
  rewrite (E2 fuel), (E2 0%nat). done.
Qed.

Lemma setup_granted fuel n s s' :
  setupPortal machine config fuel n s = (s', Returns true) -> granted s'.
Proof.
  revert n s. induction fuel as [|fuel IH]; intros n s; [done|].
  destruct (attempt n s) as [(s1 & o & -> & _ & H & _)|(s1 & -> & _)]; [|apply IH].
  intros [= <- ->]. by apply H.
Qed.

(** C37: A session is reported as granted only when it is: the manager is active, holds the
    handle the portal gave and a node, and the descriptor is the one the portal opened for
    that handle, last of all. When the set-up fails, the manager is as inactive as before. *)
Theorem granted_when_reported (fuel n : nat) (s : Portal) :
  let '(s', o) := setupPortal machine config fuel n s in
  (o = Returns true -> granted s') /\ (o = Returns false -> m_active s' = m_active s).
Proof.
  destruct (setupPortal machine config fuel n s) as [s' o] eqn:E. split; [intros ->; by eapply setup_granted|].
  revert n s E. induction fuel as [|fuel IH]; intros n s; [by intros [= _ <-]|].
  destruct (attempt n s) as [(s1 & o1 & -> & _ & _ & H)|(s1 & -> & _ & Ha)].
  - intros [= <- <-]. exact H.
  - intros E Ho. rewrite (IH _ _ E Ho), <- Ha. apply (same_active _ _ (proj1 (clear_spec s1))).
Qed.

(** ** The token of a granted session is offered to the next one *)

Definition grows (s s' : Portal) : Prop := calls s `prefix_of` calls s'.

#[export] Instance grows_preorder : PreOrder grows.
Proof.
  split; [intros s; unfold grows; done|].
  intros a b c [k Hk] [l Hl]. exists (k ++ l). by rewrite Hl, Hk, app_assoc.
Qed.

Lemma called_grows c s : grows s (called c s).
Proof. by eexists. Qed.
Lemma step_grows name token c s : grows s (call_portal_step machine name token c s).1.
Proof.
  destruct (call_portal_step _ _ _ _ _) as [s' o] eqn:E. apply step_frame in E as (_ & _ & Hc & _).
  unfold grows. cbn [fst]. rewrite Hc. by eexists.
Qed.
Lemma clear_grows s : grows s (clearRestoreToken machine config s).
Proof. unfold clearRestoreToken. repeat case_match; try done; apply called_grows. Qed.
Lemma save_grows token s : grows s (saveRestoreToken machine config token s).
Proof. unfold saveRestoreToken. repeat case_match; try done; apply called_grows. Qed.
Lemma open_stream_grows s : grows s (open_stream machine config s).1.
Proof.
  unfold open_stream. case_match; [done|]. set (s1 := with_members _ _ _ _ s).
  etrans; [|destruct (remote machine); apply (called_grows _ (saveRestoreToken _ _ _ s1))].
  exact (save_grows (newToken s1) s1).
Qed.

(** A set-up on a connected machine first asks for a session with the token on file. *)
Lemma create_session_first name token1 s :
  let restore := loadRestoreToken config s in
  grows (called (CreateSession token1 (appId config) restore) (called (Subscribe (request_path name token1)) s))
    (create_session machine config name token1 s).1.1.
Proof.
  cbn zeta. unfold create_session. destruct (call_portal_step _ _ _ _ _) as [s1 o1] eqn:E.
  apply step_frame in E as (_ & _ & Hc & _).
  assert (grows (called (CreateSession token1 (appId config) (loadRestoreToken config s))
            (called (Subscribe (request_path name token1)) s)) s1) as H.
  { unfold grows. rewrite Hc. cbn. rewrite <- app_assoc. done. }
  destruct o1 as [[]| |]; [done| |done..]. destruct (negb _); [|done]. cbn [fst].
  etrans; [exact H|]. etrans; [apply clear_grows|].
  unfold call_again. case_match; [apply called_grows|apply step_grows].
Qed.

(** Where the first two calls of a set-up lead, if it gets that far. *)
Definition asked (fuel n : nat) (s : Portal) : Portal :=
  match fuel, unique_name machine with
  | S _, Some name =>
      let token1 := request_token machine "c" n 0 in
      called (CreateSession token1 (appId config) (loadRestoreToken config s))
        (called (Subscribe (request_path name token1)) s)
  | _, _ => s
  end.

Lemma asked_grows fuel n s : grows s (asked fuel n s).
Proof.
  unfold asked. destruct fuel; [done|]. destruct (unique_name machine); [|done].
  cbn zeta. etrans; apply called_grows.
Qed.

Lemma setup_grows fuel n s : grows (asked fuel n s) (setupPortal machine config fuel n s).1.
Proof.
  revert n s. induction fuel as [|fuel IH]; intros n s; cbn [setupPortal]; [done|].
  unfold asked. destruct (unique_name machine) as [name|]; [|done].
  pose proof (create_session_first name (request_token machine "c" n 0) s) as H.
  destruct (create_session _ _ name _ s) as [[s1 o1] used]. cbn [fst] in H.
  set (s0 := called _ _) in *. clearbody s0.
  destruct o1 as [[]| |]; [|done..]. destruct (Str.empty _); [done|].
  set (s2 := with_members _ _ _ _ s1). change (grows s0 s2) in H. clearbody s2.
  match goal with |- context [call_portal_step _ name ?tok ?c ?x] =>
    pose proof (step_grows name tok c x) as H3; destruct (call_portal_step _ name tok c x) as [s3 o3] end.
  change (grows s2 s3) in H3. assert (grows s0 s3) as H03 by (by etrans). destruct o3 as [[]| |]; [|done..].
  match goal with |- context [call_portal_step _ name ?tok ?c ?x] =>
    pose proof (step_grows name tok c x) as H4; destruct (call_portal_step _ name tok c x) as [s4 o4] end.
  change (grows s3 s4) in H4. assert (grows s0 s4) as H04 by (by etrans). destruct o4 as [[]| |]; [| |done..].
  - etrans; [exact H04|]. apply open_stream_grows.
  - destruct used; [|done]. etrans; [exact H04|]. etrans; [apply clear_grows|].
    etrans; [apply (asked_grows fuel (S n) (set_handle "" _))|apply IH].
Qed.
End Facts.

(** C38: A session granted once is offered again: when a set-up succeeds and the portal gave
    a restore token of one line, the next run of the tool, with whatever portal it meets,
    first asks for a session with exactly that token. *)
Theorem token_is_offered_again (machine machine' : Machine) (config : Config) (name : string) (fuel fuel' n : nat) (s s' : Portal) :
  setupPortal machine config fuel n s = (s', Returns true) ->
  newToken s' <> "" -> free_of lf (newToken s') = true ->
  tokenDir config <> "" -> token_writable machine = true -> unique_name machine' = Some name ->
  let token1 := request_token machine' "c" 0 0 in
  [Subscribe (request_path name token1); CreateSession token1 (appId config) (newToken s')]
    `prefix_of` calls (init machine' config (S fuel') (new_manager (token_file s'))).1.
Proof.
  intros Hrun Hne Hlf Hdir Hw Hname.
  destruct (setup_granted machine config fuel n s s' Hrun) as [_ _ _ _ _ _ Htok].
  assert (loadRestoreToken config (new_manager (token_file s')) = newToken s') as Hload.
  { unfold loadRestoreToken, getline. cbn. rewrite Htok by done. destruct (tokenDir config); [done|].
    cbn. by rewrite split_lines_single. }
  pose proof (setup_grows machine' config (S fuel') 0 (new_manager (token_file s'))) as H.
  unfold asked in H. rewrite Hname, Hload in H. exact H.
Qed.

(** A desktop that grants what it is asked, with node 57 and descriptor 9. *)
Definition results (handle token : option string) (nodes : option (list Z)) : Answer :=
  Responds 0 (mkResults handle token nodes).
Definition willing (h : list Call) (c : Call) : Answer :=
  match c with
  | CreateSession _ _ _ => results (Some "/session/1") None None
  | Start _ _ => results None (Some "again") (Some [57])
  | _ => results None None None
  end.
Definition desktop (answers : list Call -> Call -> Answer) (removable : bool) : Machine :=
  mkMachine (Some ":1.42") (fun _ k => 1000 + Z.of_nat k) answers (Some 9) true removable true.
Definition home_config : Config := default_config (Some "/home/u").

Lemma token_is_offered_again_witness :
  let granting := desktop willing true in
  let s' := (setupPortal granting home_config 2 0 (new_manager None)).1 in
  let token1 := request_token granting "c" 0 0 in
  newToken s' = "again" /\
  [Subscribe (request_path ":1.42" token1); CreateSession token1 (appId home_config) (newToken s')]
    `prefix_of` calls (init granting home_config 2 (new_manager (token_file s'))).1.
Proof.
  split; [vm_compute; reflexivity|].
  apply (token_is_offered_again (desktop willing true) (desktop willing true) home_config ":1.42" 2 1 0 (new_manager None));
    vm_compute; congruence.
Defined.

(** The token of the last session asked for. *)
Definition last_token (h : list Call) : string :=
  foldl (fun token c => match c with CreateSession _ _ t => t | _ => token end) "" h.

(** A desktop on which Start fails for a session asked for with a token, and one that
    answers it with an error. *)
Definition fussy (h : list Call) (c : Call) : Answer :=
  match c with
  | Start _ _ => if Str.empty (last_token h) then willing h c else CallFails
  | _ => willing h c
  end.
Definition rejecting (h : list Call) (c : Call) : Answer :=
  match c with
  | Start _ _ => if Str.empty (last_token h) then willing h c else Responds 2 (mkResults None None None)
  | _ => willing h c
  end.

Lemma setup_starts_over_once_witness :
  setupPortal (desktop fussy true) home_config 5 0 (new_manager (Some "stale")) =
  setupPortal (desktop fussy true) home_config 2 0 (new_manager (Some "stale")) /\
  (setupPortal (desktop fussy true) home_config 2 0 (new_manager (Some "stale"))).2 = Returns true.
Proof.
  split; [|vm_compute; reflexivity].
  exact (proj1 (setup_starts_over_once (desktop fussy true) home_config 3 0 (new_manager (Some "stale")) eq_refl)).
Defined.

(** Only a call that fails gives the token up: a portal that answers with an error makes
    the tool fail, and the token stays for the next run to fail with. *)
Example rejected_token_stays :
  let '(s, r) := main 2 (desktop rejecting true) (Some "/home/u") (Some "stale") ["request-session"] in
  r = Exits 1 [] /\ token_file s = Some "stale".
Proof. by vm_compute. Qed.

(** Where the token cannot be removed, a desktop that refuses it keeps the tool starting
    over: no number of turns is enough. *)
Lemma token_not_removed (fuel n : nat) (s : Portal) :
  token_file s = Some "stale" ->
  (setupPortal (desktop fussy false) home_config fuel n s).2 = OutOfFuel.
Proof.
  revert n s. induction fuel as [|fuel IH]; intros n s Hf; [done|]. cbn [setupPortal].
  assert (loadRestoreToken home_config s = "stale") as Hload by (unfold loadRestoreToken; by rewrite Hf).
  unfold create_session. rewrite Hload. cbn [unique_name desktop]. cbn -[request_path request_token setupPortal].
  unfold call_portal_step. cbn -[request_path request_token setupPortal foldl].
  unfold last_token. rewrite !foldl_app. cbn -[request_path request_token setupPortal]. apply IH. exact Hf.
Qed.

(** The retry without the token does not reach the portal: the error of the first call is
    still set, and GLib refuses the second. *)
Definition forgetful (h : list Call) (c : Call) : Answer :=
  match c with
  | CreateSession _ _ t => if Str.empty t then willing h c else CallFails
  | _ => willing h c
  end.
Example retry_refused :
  let '(s, o) := setupPortal (desktop forgetful true) home_config 2 0 (new_manager (Some "stale")) in
  o = Returns false /\ token_file s = None /\ last_token (calls s) = "stale".
Proof. by vm_compute. Qed.

(** Every path that starts with a tilde is put under the user's own home. *)
Example other_home : expand_user (Some "/home/u") "~root/tokens" = "/home/uroot/tokens".
Proof. reflexivity. Qed.
