(* ===== verification/VirtualKeyboard.v ===== *)
(** The virtual keyboard of src/utilities/sendKeysUInput/sendKeysUInput.c: the calls that
    set the device up, what happens when one fails, and how it goes away.

    Which calls of the system succeed, and when a signal comes, are arguments; the state
    holds what those calls change: open descriptors, devices, the PID file. *)

From S2P Require Import Prelude.

Inductive Ioctl :=
  | UI_SET_EVBIT (ev : Z) | UI_SET_KEYBIT (key : Z) | UI_SET_LEDBIT (led : Z)
  | UI_DEV_CREATE | UI_DEV_DESTROY.

Definition EV_KEY : Z := 1.
Definition EV_LED : Z := 17.
Definition EV_REP : Z := 20.
Definition LED_NUML : Z := 0.

Record Machine := mkMachine {
  first_fork : option Z; second_fork : option Z;   (* None: fork fails; 0: the child *)
  setsid_ok : bool;
  pidfile_writable : bool;
  opens : bool;
  ioctl_ok : Ioctl -> bool;
  udev_written : bool;
  sleeps : option nat                      (* None: no signal ever comes *)
}.

Record World := mkWorld {
  fd_open : bool;
  created : bool;
  keybits : list Z;
  pid_file : bool;
  keep_running : bool;
  messages : list string
}.

Definition set_fd (b : bool) (w : World) : World :=
  mkWorld b (created w) (keybits w) (pid_file w) (keep_running w) (messages w).
Definition set_created (b : bool) (w : World) : World :=
  mkWorld (fd_open w) b (keybits w) (pid_file w) (keep_running w) (messages w).
Definition set_pid_file (b : bool) (w : World) : World :=
  mkWorld (fd_open w) (created w) (keybits w) b (keep_running w) (messages w).
Definition say (m : string) (w : World) : World :=
  mkWorld (fd_open w) (created w) (keybits w) (pid_file w) (keep_running w) (messages w ++ [m]).
Definition handle_signal (w : World) : World :=
  mkWorld (fd_open w) (created w) (keybits w) (pid_file w) false (messages w).

Section Main.
Context (machine : Machine).

Definition write_pidfile (w : World) : World := if pidfile_writable machine then set_pid_file true w else w.
Definition remove_pidfile : World -> World := set_pid_file false.

(** daemonize_and_redirect: the exit status of a process that ends there. *)
Definition daemonize_and_redirect : option Z :=
  match first_fork machine with
  | None => Some 1
  | Some pid =>
      if 0 <? pid then Some 0
      else if negb (setsid_ok machine) then Some 1
      else match second_fork machine with
           | None => Some 1
           | Some pid => if 0 <? pid then Some 0 else None
           end
  end.

(** An ioctl on the open device: what it changes, and whether it succeeds. *)
Definition ioctl (c : Ioctl) (w : World) : World * bool :=
  if ioctl_ok machine c then
    (match c with
     | UI_SET_KEYBIT k => mkWorld (fd_open w) (created w) (keybits w ++ [k]) (pid_file w) (keep_running w) (messages w)
     | UI_DEV_CREATE => set_created true w
     | UI_DEV_DESTROY => set_created false w
     | _ => w
     end, true)
  else (w, false).

(** Closing the last descriptor of a uinput device destroys the device. *)
Definition close (w : World) : World := set_fd false (set_created false w).

(** A failing step of the set-up: close, remove the PID file, status 1. *)
Definition fail (what : string) (w : World) : World * Z := (remove_pidfile (close (say what w)), 1).

Fixpoint set_keybits (n : nat) (w : World) : World :=
  match n with
  | O => w
  | S n => let w := set_keybits n w in (ioctl (UI_SET_KEYBIT (Z.of_nat n)) w).1
  end.

(** while (keep_running) sleep(1): the signal comes during the sleep after the given ones. *)
Fixpoint sleep_loop (n : nat) (w : World) : World :=
  if negb (keep_running w) then w
  else match n with O => handle_signal w | S n => sleep_loop n w end.

(** The device: the world and the exit status, or [None] while it runs for ever. *)
Definition serve (w : World) : World * option Z :=
  if negb (opens machine) then (remove_pidfile (say "open /dev/uinput" w), Some 1)
  else
    let w := set_fd true w in
    let '(w, ok) := ioctl (UI_SET_EVBIT EV_KEY) w in
    if negb ok then let '(w, r) := fail "ioctl UI_SET_EVBIT EV_KEY" w in (w, Some r)
    else
      let w := set_keybits 256 w in
      let w := (ioctl (UI_SET_LEDBIT LED_NUML) (ioctl (UI_SET_EVBIT EV_LED) (ioctl (UI_SET_EVBIT EV_REP) w).1).1).1 in
      if negb (udev_written machine) then let '(w, r) := fail "write udev" w in (w, Some r)
      else
        let '(w, ok) := ioctl UI_DEV_CREATE w in
        if negb ok then let '(w, r) := fail "ioctl UI_DEV_CREATE" w in (w, Some r)
        else
          let w := say "uinput device created" w in
          match sleeps machine with
          | None => (w, None)
          | Some n =>
              let w := sleep_loop n w in
              let '(w, ok) := ioctl UI_DEV_DESTROY w in
              let w := if ok then w else say "ioctl UI_DEV_DESTROY" w in
              (remove_pidfile (close w), Some 0)
          end.

Definition is_daemon_flag (a : string) : bool := bool_decide (a = "-d") || bool_decide (a = "--daemon").

Definition main (argv : list string) (w : World) : World * option Z :=
  if existsb is_daemon_flag argv then
    match daemonize_and_redirect with
    | Some status => (w, Some status)
    | None => serve (write_pidfile w)
    end
  else serve w.
End Main.

(** ** Facts *)

Section Facts.
Context (machine : Machine).

Definition accepted (n : nat) : list Z :=
  filter (fun k => ioctl_ok machine (UI_SET_KEYBIT k) = true) (Z.of_nat <$> seq 0 n).

Lemma set_keybits_spec n w :
  set_keybits machine n w =
  mkWorld (fd_open w) (created w) (keybits w ++ accepted n) (pid_file w) (keep_running w) (messages w).
Proof.
  induction n as [|n IH]; [by destruct w; rewrite app_nil_r|]. cbn [set_keybits]. rewrite IH. unfold accepted.
  rewrite seq_S, fmap_app, filter_app. unfold ioctl. cbn [fmap list_fmap Nat.add filter list_filter].
  destruct (decide _) as [E|E]; [by rewrite E; cbn; rewrite app_assoc|].
  apply not_true_is_false in E. rewrite E. cbn. by rewrite app_nil_r.
Qed.

Lemma sleep_loop_spec n w :
  keep_running w = true -> sleep_loop n w = handle_signal w.
Proof. induction n as [|n IH]; cbn; intros H; rewrite H; [done|]. by apply IH. Qed.

(** C39: The virtual keyboard is either up or gone: whichever call fails and whenever the
    signal comes, a process that ends has closed the device, destroyed it and removed the
    PID file, and ends with status 0 only when every step of the set-up succeeded; a
    process that goes on has a device with exactly the key codes below 256 that the system
    accepted. *)
Theorem up_or_gone (w : World) :
  fd_open w = false -> created w = false -> keep_running w = true ->
  let '(w', r) := serve machine w in
  match r with
  | Some status =>
      fd_open w' = false /\ created w' = false /\ pid_file w' = false /\
      (status = 0 <-> opens machine && ioctl_ok machine (UI_SET_EVBIT EV_KEY) && udev_written machine &&
                      ioctl_ok machine UI_DEV_CREATE = true)
  | None =>
      fd_open w' = true /\ created w' = true /\ keybits w' = keybits w ++ accepted 256 /\
      pid_file w' = pid_file w /\ sleeps machine = None
  end.
Proof.
  intros Hfd Hcr Hrun. unfold serve. destruct (opens machine); [|cbn; repeat split; done].
  unfold ioctl at 1. destruct (ioctl_ok machine (UI_SET_EVBIT EV_KEY)); [|cbn; repeat split; done].
  cbn [negb]. rewrite set_keybits_spec. set (w1 := mkWorld _ _ _ _ _ _).
  assert ((ioctl machine (UI_SET_LEDBIT LED_NUML) (ioctl machine (UI_SET_EVBIT EV_LED)
             (ioctl machine (UI_SET_EVBIT EV_REP) w1).1).1).1 = w1) as ->.
  { unfold ioctl. by repeat case_match. }
  destruct (udev_written machine); [|cbn; repeat split; done]. cbn [negb].
  unfold ioctl at 1. destruct (ioctl_ok machine UI_DEV_CREATE); [|cbn; repeat split; done]. cbn [negb].
  destruct (sleeps machine) as [n|]; [|done]. rewrite sleep_loop_spec by done.
  unfold ioctl. by destruct (ioctl_ok machine UI_DEV_DESTROY).
Qed.
End Facts.

Definition plain_machine (opens : bool) : Machine :=
  mkMachine (Some 0) (Some 0) true true opens (fun _ => true) true (Some 3%nat).
Definition nothing : World := mkWorld false false [] false true [].

Lemma up_or_gone_witness :
  fd_open nothing = false /\
  let '(w', r) := serve (plain_machine true) nothing in
  match r with
  | Some status =>
      fd_open w' = false /\ created w' = false /\ pid_file w' = false /\ (status = 0 <-> true = true)
  | None => False
  end.
Proof. split; [reflexivity|]. exact (up_or_gone (plain_machine true) nothing eq_refl eq_refl eq_refl). Defined.

(** The PID file goes with any run that ends, also one in the foreground that never wrote
    it and could not even open the device: the daemon's own file is lost. *)
Example foreground_removes_pid_file :
  let running := mkWorld false false [] true true [] in
  pid_file (main (plain_machine false) [] running).1 = false.
Proof. reflexivity. Qed.
