(* ===== verification/Main.v ===== *)
(** The whole program (src/main.cpp): its modes, and in mode "daemon" what is started, in
    which order, and what is stopped again.  The MySQL server of MySQL, the start-up of
    Startup and the client of Client are put together here; what the select loop does
    meanwhile is an argument. *)

From S2P Require Import Prelude Stdio MySQL Types Json Database Peers PeerFacts Apps AppFacts Client.
From S2P Require Import Keys InputMapper InputSafety Terminal MacroJson Settings Ports Registry.
From S2P Require Import TerminalFacts Dispatch KeySim Daemon DaemonFacts Startup.

Record Program := mkProgram { database : MySQL.MySQL; process : Daemon }.

Definition with_connection (b : bool) (d : DB) : DB :=
  mkDB b (terminal_history d) (terminal_sessions d) (automation_configs d) (device_registry d)
    (system_settings d) (peer_registry d) (extra_apps d).

Section Main.
Context (menv : MySQLEnv) (henv : HandlerEnv) (dump : json -> string) (parse : string -> outcome json).
Context (sockets : SocketEnv) (daemon_loop : Daemon -> Daemon).

(** return from main: the thread of the reconnect loop, unless it was joined, is destroyed
    with the static PeerManager, and a std::thread that can still be joined aborts. *)
Definition leave (status : Z) (p : Program) : Program * Ending :=
  (p, if m_reconnectRunning (pm (peers_of (process p))) then Aborts else Exits status).

Definition stop_database (p : Program) : Program := mkProgram (stopMySQL menv (database p)) (process p).
Definition stop_reconnecting (p : Program) : Program :=
  mkProgram (database p) (on_peers stopReconnectLoop (process p)).1.
Definition stop_mapper (p : Program) : Program :=
  mkProgram (database p) (on_im stop (process p)).1.

(** main, mode "daemon", on the tables that are stored. *)
Definition main_daemon (s : MySQL.MySQL) (stored : DB) : Program * Ending :=
  let '(s, ok) := initializeAndStartMySQL menv s in
  let before := new_process (with_connection (getConnection menv s).2 stored) in
  if negb ok then (mkProgram s before, Aborts)
  else
    match start_daemon henv dump parse sockets before with
    | (d, Throw _) => (mkProgram s d, Aborts)
    | (d, Ok (rc, _)) =>
        if negb (rc =? 0) then leave 1 (stop_database (mkProgram s d))
        else leave 0 (stop_database (stop_mapper (stop_reconnecting (mkProgram s (daemon_loop d)))))
    end.

(** signalHandler *)
Definition signalHandler (signum : Z) (p : Program) : Program * Ending :=
  leave signum (stop_database (stop_reconnecting p)).

(** main: what it did, in each mode. *)
Inductive Outcome :=
  | Sent (run : Run)
  | Served (p : Program) (e : Ending)
  | Refused (status : Z) (lines : list string).

Definition main (client_dump : json -> outcome string) (program : string) (link : Client.Link) (s : MySQL.MySQL) (stored : DB) (argv : list string) : Outcome :=
  match argv with
  | [] => Refused 1 ["Usage: " +:+ program +:+ " <mode> [args...]"; "Modes:"; "  daemon            Run the daemon in server mode.";
                     "  send <command>    Send a command to the daemon."]%string
  | mode :: args =>
      if decide (mode = "send") then Sent (main_send client_dump link args)
      else if decide (mode = "daemon") then let '(p, e) := main_daemon s stored in Served p e
      else Refused 1 ["Unknown mode: expecting 'daemon send' or 'daemon daemon'"; "Try: daemon send ping";
                      "Or: daemon send enableKeyboard / disableKeyboard"]%string
  end.
End Main.

(** ** Facts *)

Section Facts.
Context (menv : MySQLEnv) (henv : HandlerEnv) (dump : json -> string) (parse : string -> outcome json).
Context (sockets : SocketEnv) (daemon_loop : Daemon -> Daemon).

Abbreviation run := (main_daemon menv henv dump parse sockets daemon_loop).

Lemma stop_reconnecting_running d : m_reconnectRunning (pm (peers_of (on_peers stopReconnectLoop d).1)) = false.
Proof. done. Qed.

Lemma stop_mapper_peers d : peers_of (on_im stop d).1 = peers_of d.
Proof. done. Qed.

(** What a stop of the database leaves, whatever was recorded. *)
Lemma stopped_database s :
  mysqlPid (stopMySQL menv s) <= 0 /\ MySQL.files (stopMySQL menv s) !! pidFile menv = None /\
  (forall a, a ∈ MySQL.trace s \/ a ∈ ending (own_server s) -> a ∈ MySQL.trace (stopMySQL menv s)).
Proof.
  destruct (stopMySQL_spec menv s) as (T & F & P & _ & _). rewrite T, F, P. split_and!.
  - destruct (Z.ltb_spec 0 (mysqlPid s)); lia.
  - apply lookup_delete_eq.
  - set_solver.
Qed.

Lemma started_and_stopped s :
  let s' := stopMySQL menv (initializeAndStartMySQL menv s).1 in
  (initializeAndStartMySQL menv s).2 = true ->
  mysqlPid s' <= 0 /\ MySQL.files s' !! pidFile menv = None /\
  (forall pid, fork menv = Some pid -> 0 < pid -> Sigterm pid ∈ MySQL.trace s' /\ WaitPid pid ∈ MySQL.trace s') /\
  (forall pid, orphan_of menv s = Some pid -> Sigterm pid ∈ MySQL.trace s').
Proof.
  intros s' Hok. subst s'.
  assert (exists_ (targetMysqld menv) s || copies menv = true) as Hc.
  { destruct (exists_ _ s || _) eqn:E; [done|]. by rewrite (start_refused menv s E) in Hok. }
  destruct (start_result menv s Hc) as (_ & Hpid & _ & Hdone).
  destruct (stopped_database (initializeAndStartMySQL menv s).1) as (H1 & H2 & H3).
  split_and!; [done..| |].
  - intros pid Hf Hpos. rewrite Hf in Hpid. cbn in Hpid.
    assert (own_server (initializeAndStartMySQL menv s).1 = Some pid) as Ho.
    { unfold own_server. rewrite Hpid. by rewrite (proj2 (Z.ltb_lt _ _) Hpos). }
    split; apply H3; right; rewrite Ho; set_solver.
  - intros pid Ho. apply H3. left. apply Hdone. rewrite Ho. set_solver.
Qed.

(** The peer a machine is configured to be needs a heartbeat thread. *)
Definition keeps_heartbeat (d : DB) : bool :=
  let role := SettingsTable.getSetting "peer_role" d in
  let address := SettingsTable.getSetting "peer_leader_address" d in
  bool_decide (role = PEER_ROLE_LEADER) && negb (Str.empty (SettingsTable.getSetting "peer_id" d))
  || negb (Str.empty address).

Lemma start_reconnect_running w :
  Peers.isLeader (pm w) || negb (Str.empty (m_leaderAddress (pm w))) = true ->
  m_reconnectRunning (pm (startReconnectLoop w).1) = true.
Proof.
  cbn. destruct (m_reconnectRunning (pm w)) eqn:E; [done|].
  by destruct (Peers.isLeader (pm w)), (Str.empty (m_leaderAddress (pm w))).
Qed.

Lemma restore_heartbeat w :
  m_reconnectRunning (pm w) = false ->
  m_reconnectRunning (pm (restore_peers henv dump w).1) = keeps_heartbeat (pdb w).
Proof.
  intros Hr. unfold restore_peers, keeps_heartbeat.
  assert (exists w1, loadConfig w = (w1, Ok tt) /\ m_reconnectRunning (pm w1) = false /\
            config_of w1 = (SettingsTable.getSetting "peer_role" (pdb w), SettingsTable.getSetting "peer_id" (pdb w),
                            SettingsTable.getSetting "peer_leader_address" (pdb w))) as (w1 & E & H1 & Hcfg)
    by (by eexists).
  rewrite (bindM_ok _ _ w w1 tt E), bindM_gets. unfold config_of in Hcfg. injection Hcfg as <- <- <-.
  fold (Peers.isLeader (pm w1)). destruct (Peers.isLeader (pm w1) && negb (Str.empty (m_peerId (pm w1)))) eqn:El.
  - unfold register_self. rewrite bindM_gets, El. apply start_reconnect_running.
    apply andb_prop in El as [El _]. cbn. by rewrite El.
  - destruct (Str.empty (m_leaderAddress (pm w1))) eqn:Ea; [done|]. cbn [negb orb].
    destruct (connect_returns henv dump w1) as [ok Hok]. pose proof (connect_config henv dump w1) as Hc.
    destruct (Peers.connectToLeader _ _ _ w1) as [w2 o] eqn:E2. cbn [snd fst] in *. subst o.
    rewrite (bindM_ok _ _ w1 w2 ok E2). apply start_reconnect_running.
    unfold config_of in Hc. injection Hc as _ _ Hc. rewrite Hc, Ea. by rewrite orb_true_r.
Qed.

Lemma initialize_result d :
  exists b, (initialize_daemon henv parse sockets d).2 = Ok (setup_socket sockets, b).
Proof.
  unfold initialize_daemon, initializeKeyboardPath, initializeMousePath, discover. cbv zeta.
  repeat rewrite ?bindM_assoc, ?bindM_modify, ?bindM_ret, ?bindM_on_tables, ?bindM_on_macros.
  destruct (Z.eqb_spec (setup_socket sockets) 0) as [->|]; [|by eexists]. cbn [negb].
  destruct (setup_peer_socket _ _). by eexists.
Qed.

(** Starting always comes to a result, that of the UNIX socket. *)
Lemma start_daemon_run d :
  exists d' b, start_daemon henv dump parse sockets (new_process d) = (d', Ok (setup_socket sockets, b)) /\
    m_reconnectRunning (pm (peers_of d')) = keeps_heartbeat d.
Proof.
  destruct (started_split henv dump parse sockets d) as (w1 & E & -> & _). cbv zeta.
  pose proof (restore_heartbeat (mkPeers d newPeerManager [0; 1; 2] [] 0) eq_refl) as Hh. rewrite E in Hh.
  set (d1 := set_network_of w1 (new_process d)).
  pose proof (initialize_run henv parse sockets d1) as (_ & Hp & _).
  destruct (initialize_result d1) as [b Hb]. destruct (initialize_daemon _ _ _ d1) as [d2 o]. cbn [fst snd] in *. subst o.
  exists d2, b. split; [done|]. rewrite Hp. exact Hh.
Qed.

(** C10: A daemon that ends gives back what it took: whatever the machine answers, whatever
    is stored and whatever the loop does, when main returns, the MySQL server it forked was
    asked to end and waited for, none is on record and no PID file is left, the heartbeat
    thread is gone, and, after a normal run, the input devices are closed and the mapper
    stopped. *)
Theorem main_releases (s : MySQL.MySQL) (stored : DB) :
  let '(p, e) := run s stored in
  forall status, e = Exits status ->
  (status = 0 \/ status = 1) /\
  (forall pid, fork menv = Some pid -> 0 < pid ->
     Sigterm pid ∈ MySQL.trace (database p) /\ WaitPid pid ∈ MySQL.trace (database p)) /\
  mysqlPid (database p) <= 0 /\ MySQL.files (database p) !! pidFile menv = None /\
  m_reconnectRunning (pm (peers_of (process p))) = false /\
  (status = 0 -> all_closed (mapper (sim (process p))) /\ running (dev (mapper (sim (process p)))) = false).
Proof.
  unfold main_daemon. pose proof (started_and_stopped s) as H. cbn zeta in H.
  destruct (initializeAndStartMySQL menv s) as [s1 ok]. cbn [fst snd] in H. destruct ok; cbn [negb]; [|done].
  destruct (H eq_refl) as (H1 & H2 & H3 & _).
  destruct (start_daemon _ _ _ _ _) as [d [[rc b]|x]]; [|done]. unfold leave.
  destruct (negb (rc =? 0)); cbn [process stop_database].
  - destruct (m_reconnectRunning (pm (peers_of d))) eqn:Er; intros status [= <-].
    split; [by right|]. by do 4 (split; [done|]).
  - intros status [= <-]. destruct (stop_spec (mapper (sim (daemon_loop d)))) as (Hc & Hr & _).
    split; [by left|]. by do 4 (split; [done|]).
Qed.

(** How mode "daemon" ends, once the server is in place. *)
Lemma main_ends s stored :
  (initializeAndStartMySQL menv s).2 = true ->
  let connected := (getConnection menv (initializeAndStartMySQL menv s).1).2 in
  (run s stored).2 =
    (if setup_socket sockets =? 0 then Exits 0
     else if keeps_heartbeat (with_connection connected stored) then Aborts else Exits 1) /\
  database (run s stored).1 = stopMySQL menv (initializeAndStartMySQL menv s).1.
Proof.
  intros Hok. unfold main_daemon. destruct (initializeAndStartMySQL menv s) as [s1 ok]. cbn [fst snd] in *.
  rewrite Hok. cbn [negb]. destruct (start_daemon_run (with_connection (getConnection menv s1).2 stored)) as (d & b & -> & Hh).
  destruct (setup_socket sockets =? 0); cbn [negb]; [done|]. unfold leave. cbn [process stop_database fst snd]. by rewrite Hh.
Qed.

(** C11: A second daemon ends the database of the first: the server whose PID file it finds
    is stopped before the sockets show that another daemon runs.  It then fails, with
    status 1, or is aborted, when the machine is configured as a peer that keeps a
    heartbeat thread, which main does not stop on this path.  (mysqld is in place or can be
    copied, and the process of the PID file runs.) *)
Theorem second_daemon (s : MySQL.MySQL) (stored : DB) (pid : Z) :
  exists_ (targetMysqld menv) s || copies menv = true ->
  other_daemon sockets = true -> orphan_of menv s = Some pid ->
  let '(p, e) := run s stored in
  Sigterm pid ∈ MySQL.trace (database p) /\
  e = if keeps_heartbeat (with_connection (getConnection menv (initializeAndStartMySQL menv s).1).2 stored)
      then Aborts else Exits 1.
Proof.
  intros Hc Hother Horphan. destruct (start_result menv s Hc) as (Hok & _).
  destruct (main_ends s stored Hok) as [He Hd]. destruct (run s stored) as [p e]. cbn [fst snd] in *.
  rewrite Hd. split; [by apply started_and_stopped|].
  rewrite He. unfold setup_socket. rewrite Hother. by destruct (unix_socket sockets).
Qed.
End Facts.

(** A machine on which a daemon runs: its server, process 400, is in the PID file. *)
Definition occupied : MySQLEnv :=
  mkMySQLEnv "/" (Some 43113) None 0 (Some 900) (fun pid => pid =? 400) (fun _ => true) true (fun _ => true).
Definition taken : SocketEnv := mkSocketEnv true true true true (fun _ => None) (fun _ => true) (fun _ => true).
Definition with_server : MySQL.MySQL := mkMySQL (-1) 0 "" (<["/data/mysql/mysqld.pid" := ("400" +:+ eol)%string]> ∅) [].

Lemma second_daemon_witness :
  let '(p, e) := main_daemon occupied quiet no_dump no_parse taken id with_server emptyDB in
  Sigterm 400 ∈ MySQL.trace (database p) /\ e = Exits 1.
Proof.
  exact (second_daemon occupied quiet no_dump no_parse taken id with_server emptyDB 400 eq_refl eq_refl eq_refl).
Defined.

(** The same on a leader: no status at all. *)
Definition leader_tables : DB :=
  SettingsTable.setSetting "peer_id" "home" (SettingsTable.setSetting "peer_role" "leader" emptyDB).
Example second_leader_aborts :
  (main_daemon occupied quiet no_dump no_parse taken id with_server leader_tables).2 = Aborts.
Proof. vm_compute. reflexivity. Qed.
